(** * DistantSky: a shallow embedding of OpenTESArena's distant-sky generator

    The development follows [src/World/DistantSky.cpp].  C++ [double] is
    IEEE-754 binary64 and is modelled by Rocq's primitive [float]; C++
    integers are [Z] with their conversions written out; [std::string] is
    [string]; [std::vector] is [list].  The collaborators whose sources are
    not part of the translated files (the sequence source [ArenaRandom], the
    texture manager, [std::sort], the vector and matrix helpers) are
    interfaces the generator is parameterised over. *)

From Stdlib Require Import ZArith List String Ascii Bool Lia.
From Stdlib Require Import Floats QArith Lqa Qround DecimalString.
From Stdlib Require Import Permutation Sorted.
Import ListNotations.

Set Implicit Arguments.
Set Default Proof Using "Type".

Local Open Scope Z_scope.

(** ** C++ integer and string primitives *)

Module Cpp.

(** Conversion to [uint32_t]: reduction modulo 2^32. *)
Definition to_uint32 (z : Z) : Z := z mod 4294967296.

(** Conversion to [int16_t]: the low 16 bits read as two's complement. *)
Definition to_int16 (z : Z) : Z :=
  let m := z mod 65536 in if m <? 32768 then m else m - 65536.

(** Conversion to [int8_t]. *)
Definition to_int8 (z : Z) : Z :=
  let m := z mod 256 in if m <? 128 then m else m - 256.

(** Conversion to [uint8_t]. *)
Definition to_uint8 (z : Z) : Z := z mod 256.

(** [a % b] on [int]: the remainder of the truncated division. *)
Definition rem (a b : Z) : Z := Z.rem a b.

(** [static_cast<double>(n)] for an [int] [n]: exact below 2^53. *)
Definition to_double (n : Z) : float :=
  match n with
  | Z0 => 0%float
  | Zpos _ => PrimFloat.of_uint63 (Uint63.of_Z n)
  | Zneg p => PrimFloat.opp (PrimFloat.of_uint63 (Uint63.of_Z (Zpos p)))
  end.

(** [std::to_string(int)]. *)
Definition to_string (n : Z) : string := NilZero.string_of_int (Z.to_int n).

(** [name.at(i) = c]: [None] stands for [std::out_of_range]. *)
Fixpoint set_at (i : nat) (c : ascii) (s : string) : option string :=
  match s, i with
  | EmptyString, _ => None
  | String _ rest, O => Some (String c rest)
  | String a rest, S j =>
      match set_at j c rest with
      | Some rest' => Some (String a rest')
      | None => None
      end
  end.

(** [s.find(pattern)]: [None] stands for [std::string::npos]. *)
Definition find (pattern s : string) : option nat := String.index 0 pattern s.

(** [s.replace(pos, 1, t)]. *)
Definition replace1 (pos : nat) (t s : string) : string :=
  String.substring 0 pos s ++ t ++ String.substring (S pos) (String.length s - S pos) s.

Definition upper_ascii (c : ascii) : ascii :=
  let n := nat_of_ascii c in
  if ((97 <=? n) && (n <=? 122))%nat then ascii_of_nat (n - 32) else c.

(** Modelled from the spec: [String::toUppercase] lives in
    [components/utilities/String.h], which is not among the translated
    sources; section 6 of the specification calls it case normalisation to
    upper case, taken here on the ASCII letters. *)
Fixpoint toUppercase (s : string) : string :=
  match s with
  | EmptyString => EmptyString
  | String c rest => String (upper_ascii c) (toUppercase rest)
  end.

End Cpp.

(** ** Math constants *)

Module Constants.

(** Modelled from the spec: [Math/Constants.h] is not among the translated
    sources; the specification writes the conversion with the constants
    2π and π/2, taken here as the binary64 values nearest to them. *)
Definition Pi : float := 0x1.921fb54442d18p+1%float.
Definition TwoPi : float := (Pi * 2)%float.
Definition HalfPi : float := (Pi / 2)%float.
Definition DegToRad : float := (Pi / 180)%float.

End Constants.

(** ** The frame clock of an animated land object

    [AnimatedLandObject::update] only adds, subtracts and compares times.
    The three operations are gathered in a class so that the loop translated
    from the source can be run on binary64 (what the program executes) and on
    the rationals (arithmetic without rounding). *)

Class FrameClock (T : Type) : Type := {
  clock_add : T -> T -> T;
  clock_sub : T -> T -> T;
  (** [clock_geb a b] is the C++ test [a >= b]. *)
  clock_geb : T -> T -> bool;
  (** [clock_positive a] is the C++ test [a > 0.0]. *)
  clock_positive : T -> bool;
  clock_zero : T
}.

#[export] Instance binary64_clock : FrameClock float := {
  clock_add := PrimFloat.add;
  clock_sub := PrimFloat.sub;
  clock_geb := fun a b => PrimFloat.leb b a;
  clock_positive := fun a => PrimFloat.ltb 0%float a;
  clock_zero := 0%float
}.

#[export] Instance exact_clock : FrameClock Q := {
  clock_add := Qplus;
  clock_sub := Qminus;
  clock_geb := fun a b => Qle_bool b a;
  clock_positive := fun a => negb (Qle_bool a 0);
  clock_zero := 0%Q
}.

Section AnimatedLand.

Context {T : Type} {clock : FrameClock T}.

Record AnimatedLandObject : Type := {
  setEntryIndex : Z;
  anim_angleRadians : T;
  targetFrameTime : T;
  currentFrameTime : T;
  index : Z
}.

(** One pass through the body of the [while] loop of [update]. *)
Definition advance_frame (textureCount : Z) (obj : AnimatedLandObject) : AnimatedLandObject :=
  {| setEntryIndex := setEntryIndex obj;
     anim_angleRadians := anim_angleRadians obj;
     targetFrameTime := targetFrameTime obj;
     currentFrameTime := clock_sub (currentFrameTime obj) (targetFrameTime obj);
     index := if index obj <? textureCount - 1 then index obj + 1 else 0 |}.

(** The [while (currentFrameTime >= targetFrameTime)] loop.  [fuel] bounds
    the number of iterations; [None] means the bound was reached with the
    loop condition still true. *)
Fixpoint frame_loop (fuel : nat) (textureCount : Z) (obj : AnimatedLandObject)
  : option AnimatedLandObject :=
  if clock_geb (currentFrameTime obj) (targetFrameTime obj) then
    match fuel with
    | O => None
    | S fuel' => frame_loop fuel' textureCount (advance_frame textureCount obj)
    end
  else Some obj.

Definition accumulate (dt : T) (obj : AnimatedLandObject) : AnimatedLandObject :=
  {| setEntryIndex := setEntryIndex obj;
     anim_angleRadians := anim_angleRadians obj;
     targetFrameTime := targetFrameTime obj;
     currentFrameTime := clock_add (currentFrameTime obj) dt;
     index := index obj |}.

(** [AnimatedLandObject::update], with [textureCount] the value
    [distantSky.getTextureSetCount(setEntryIndex)] has returned. *)
Definition update (fuel : nat) (dt : T) (textureCount : Z) (obj : AnimatedLandObject)
  : option AnimatedLandObject :=
  if 0 <? textureCount then frame_loop fuel textureCount (accumulate dt obj)
  else Some obj.

(** The constructor [AnimatedLandObject(setEntryIndex, angleRadians,
    frameTime)]; [None] stands for the failed [DebugAssert]. *)
Definition makeAnimatedLandObject (entry : Z) (angleRadians frameTime : T)
  : option AnimatedLandObject :=
  if clock_positive frameTime then
    Some {| setEntryIndex := entry;
            anim_angleRadians := angleRadians;
            targetFrameTime := frameTime;
            currentFrameTime := clock_zero;
            index := 0 |}
  else None.

(** [setFrameTime]; [None] stands for the failed [DebugAssert]. *)
Definition setFrameTime (frameTime : T) (obj : AnimatedLandObject)
  : option AnimatedLandObject :=
  if clock_positive frameTime then
    Some {| setEntryIndex := setEntryIndex obj;
            anim_angleRadians := anim_angleRadians obj;
            targetFrameTime := frameTime;
            currentFrameTime := currentFrameTime obj;
            index := index obj |}
  else None.

End AnimatedLand.

Arguments AnimatedLandObject T : clear implicits.

(** ** Outcomes of a run *)

Inductive fault : Type :=
| AssertionFailed   (* DebugAssert, DebugAssertIndex, DebugAssertMsg *)
| Crash             (* DebugCrash, DebugUnhandledReturnMsg *)
| OutOfRange.       (* std::out_of_range thrown by at() *)

Inductive outcome (A : Type) : Type :=
| Done (a : A)
| Abort (f : fault)
| Starved.          (* the iteration bound ran out inside a loop *)

Arguments Done {A} a.
Arguments Abort {A} f.
Arguments Starved {A}.

(** ** The collaborators *)

(** Modelled from the spec: [ArenaRandom] ([Math/Random.h]) is not among the
    translated sources.  Section 6 of the specification gives its interface:
    [seed(u32)], [next() -> u16] and [currentSeed() -> u32]; its bit
    algorithm is out of scope there.  The generator state is abstract. *)
Record ArenaRandom : Type := {
  rng : Type;
  rng_make : Z -> rng;              (* ArenaRandom(seed) *)
  rng_next : rng -> Z * rng;        (* next() *)
  rng_getSeed : rng -> Z;           (* getSeed() *)
  rng_srand : Z -> rng -> rng;      (* srand(seed) *)
  rng_next_range : forall s, 0 <= fst (rng_next s) < 65536;
  rng_getSeed_range : forall s, 0 <= rng_getSeed s < 4294967296
}.

(** The state after [n] draws. *)
Fixpoint rng_skip (R : ArenaRandom) (n : nat) (s : rng R) : rng R :=
  match n with
  | O => s
  | S n' => rng_skip R n' (snd (rng_next R s))
  end.


(** A comparator as [std::sort] requires it: a strict weak ordering. *)
Record strict_weak (A : Type) (lt : A -> A -> bool) : Prop := {
  sw_irrefl : forall a, lt a a = false;
  sw_trans : forall a b c, lt a b = true -> lt b c = true -> lt a c = true;
  sw_incomp : forall a b c, lt a b = false -> lt b c = false -> lt a c = false
}.

(** [std::sort] as the C++ standard specifies it: the result is a
    rearrangement of the input in which no element is less than an earlier
    one.  The order of equivalent elements is left to the implementation. *)
Record StdSort : Type := {
  std_sort : forall A : Type, (A -> A -> bool) -> list A -> list A;
  std_sort_perm : forall (A : Type) (lt : A -> A -> bool) (l : list A),
      Permutation l (std_sort lt l);
  std_sort_sorted : forall (A : Type) (lt : A -> A -> bool), strict_weak lt ->
      forall l : list A, StronglySorted (fun a b => lt b a = false) (std_sort lt l)
}.

Record Int2 : Type := { int2_x : Z; int2_y : Z }.
Record Double3 : Type := { d3_x : float; d3_y : float; d3_z : float }.
Record Double4 : Type := { d4_x : float; d4_y : float; d4_z : float; d4_w : float }.

(** [Buffer2D<uint8_t>]: an image of palette indices. *)
Record Buffer2D : Type := { buf_width : Z; buf_height : Z; buf_data : list Z }.

(** The image loader ([Media/TextureManager.h]). *)
Record TextureManager : Type := {
  make8BitSurface : string -> Buffer2D;
  make8BitSurfaces : string -> list Buffer2D
}.

(** What one run reads from disk: the images, and the default palette as
    [COLFile::init] and [Color::toARGB] deliver it ([None]: the file could
    not be read). *)
Record Assets : Type := {
  textureManager : TextureManager;
  colFile : option (list Z)
}.

(** The numeric helpers of [Math/], [LocationUtils] and [CityDataFile], and
    the constant [AnimatedLandObject::DEFAULT_FRAME_TIME] of [DistantSky.h]. *)
Record Platform : Type := {
  atan2 : float -> float -> float;
  normalized : Double3 -> Double3;
  Matrix4d : Type;
  xRotation : float -> Matrix4d;
  yRotation : float -> Matrix4d;
  mat_mul : Matrix4d -> Double4 -> Double4;
  getLocalCityPoint : Z -> Int2;
  getDistance : Int2 -> Int2 -> Z;
  DEFAULT_FRAME_TIME : float
}.

(** ** Inputs of the generator *)

Inductive ClimateType : Type := Temperate | Desert | Mountain.

Inductive WeatherType : Type := Clear | Overcast | Rain | Snow.

Record CityDefinition : Type := {
  climateType : ClimateType;
  distantSkySeed : Z;     (* uint32_t *)
  citySeed : Z            (* uint32_t *)
}.

Inductive LocationDefinition : Type :=
| CityLocation (cityDef : CityDefinition)
| DungeonLocation
| MainQuestDungeonLocation.

Record ProvinceDefinition : Type := { hasAnimatedDistantLand : bool }.

(** [ExeData::locations], the fields the generator reads. *)
Record ExeData : Type := {
  distantMountainFilenames : list string;
  cloudFilename : string;
  animDistantMountainFilenames : list string;
  moonFilenames : list string;
  starFilename : string;
  sunFilename : string
}.

Record DistantMountainTraits : Type := {
  filenameIndex : Z;
  position : Z;
  variation : Z;
  maxDigits : Z
}.

Definition MountainTraits : list (ClimateType * DistantMountainTraits) :=
  [ (Temperate, {| filenameIndex := 2; position := 4; variation := 10; maxDigits := 2 |});
    (Desert, {| filenameIndex := 1; position := 6; variation := 4; maxDigits := 1 |});
    (Mountain, {| filenameIndex := 0; position := 6; variation := 11; maxDigits := 2 |}) ].

Definition ClimateType_eqb (a b : ClimateType) : bool :=
  match a, b with
  | Temperate, Temperate | Desert, Desert | Mountain, Mountain => true
  | _, _ => false
  end.

Definition WeatherType_eqb (a b : WeatherType) : bool :=
  match a, b with
  | Clear, Clear | Overcast, Overcast | Rain, Rain | Snow, Snow => true
  | _, _ => false
  end.

(** ** The objects of the sky *)

Record LandObject : Type := { land_entryIndex : Z; land_angleRadians : float }.

Record AirObject : Type := {
  air_entryIndex : Z;
  air_angleRadians : float;
  air_height : float
}.

Inductive MoonType : Type := First | Second.

Record MoonObject : Type := {
  moon_entryIndex : Z;
  phasePercent : float;
  moon_type : MoonType
}.

Inductive StarObject : Type :=
| SmallStar (color : Z) (direction : Double3)
| LargeStar (entryIndex : Z) (direction : Double3).

Record TextureEntry : Type := { filename : string; texture : Buffer2D }.

Record TextureSetEntry : Type := { set_filename : string; set_textures : list Buffer2D }.

Record DistantSky : Type := {
  landObjects : list LandObject;
  animLandObjects : list (AnimatedLandObject float);
  airObjects : list AirObject;
  moonObjects : list MoonObject;
  starObjects : list StarObject;
  sunEntryIndex : option Z;
  textures : list TextureEntry;
  textureSets : list TextureSetEntry
}.

(** A default-constructed [DistantSky]. *)
Definition empty_sky : DistantSky :=
  {| landObjects := []; animLandObjects := []; airObjects := []; moonObjects := [];
     starObjects := []; sunEntryIndex := None; textures := []; textureSets := [] |}.

Definition UNIQUE_ANGLES : Z := 512.
Definition IDENTITY_DIM : float := 320%float.
Definition IDENTITY_ANGLE_RADIANS : float := (90 * Constants.DegToRad)%float.

(** The intermediate stars of [init] (its local structs). *)
Record SubStar : Type := { sub_dx : Z; sub_dy : Z; sub_color : Z }.

Record Star : Type := {
  star_x : Z; star_y : Z; star_z : Z;
  subList : list SubStar;
  star_type : Z
}.

Definition NO_STAR_TYPE : Z := -1.

(** The comparator handed to [std::sort]. *)
Definition star_less (a b : Star) : bool := star_type a <? star_type b.

(** ** Pure pieces of [init] *)

(** The lambda [arenaAngleToRadians]:
    Arena angles run clockwise with 0 = south, 128 = west, 256 = north,
    384 = east. *)
Definition arenaAngleToRadians (angle : Z) : float :=
  let arenaRadians :=
    (Constants.TwoPi * (Cpp.to_double angle / Cpp.to_double UNIQUE_ANGLES))%float in
  let flippedArenaRadians := (Constants.TwoPi - arenaRadians)%float in
  (flippedArenaRadians - Constants.HalfPi)%float.

(** The [std::find_if] over [MountainTraits]. *)
Fixpoint findMountainTraits (climate : ClimateType)
    (table : list (ClimateType * DistantMountainTraits)) : option DistantMountainTraits :=
  match table with
  | [] => None
  | (c, traits) :: rest =>
      if ClimateType_eqb c climate then Some traits else findMountainTraits climate rest
  end.

(** The loop [name.at(pos + offset + index) = digits.at(index)]; [start] is
    [pos + offset + index], a [size_t], so a negative value is out of range. *)
Fixpoint writeDigits (start : Z) (digits name : string) : option string :=
  match digits with
  | EmptyString => Some name
  | String d rest =>
      if start <? 0 then None
      else match Cpp.set_at (Z.to_nat start) d name with
           | Some name' => writeDigits (start + 1) rest name'
           | None => None
           end
  end.

(** The lambda that builds the filename of a static object. *)
Definition staticFilename (baseFilename : string) (pos maxDigits : Z) (digits : string)
  : option string :=
  let digitCount := Z.of_nat (String.length digits) in
  let offset := maxDigits - digitCount in
  match writeDigits (pos + offset) digits baseFilename with
  | Some name => Some (Cpp.toUppercase name)
  | None => None
  end.

(** The lambda that picks the variant digits, given the number drawn. *)
Definition variantDigits (var drawn : Z) : string :=
  let randVal := Cpp.rem drawn var in
  Cpp.to_string (if randVal =? 0 then var else randVal).

(** The lambda [getRndCoord], given the number drawn. *)
Definition rndCoord (drawn : Z) : Z :=
  let d := Cpp.to_int16 (Z.land (2048 + drawn) 4095) in
  if Z.land d 2 =? 0 then d else - d.

(** The phase of a moon on a day.  The source computes it on [int]: the
    value is that of the program for an [int] day with [currentDay + 14] an
    [int] too, that is, for [-2^31 <= currentDay < 2^31 - 14]. *)
Definition moonPhaseIndex (currentDay : Z) (type : MoonType) : Z :=
  match type with
  | First => Cpp.rem currentDay 32
  | Second => Cpp.rem (currentDay + 14) 32
  end.

(** [static_cast<int>(type)] of a [MoonObject::Type]. *)
Definition moonIndex (type : MoonType) : Z :=
  match type with First => 0 | Second => 1 end.

(** The filename of a large star: the first ['1'] of the template replaced
    by [type + 1]. *)
Definition largeStarFilename (template : string) (type : Z) : option string :=
  match Cpp.find "1" template with
  | Some i => Some (Cpp.toUppercase (Cpp.replace1 i (Cpp.to_string (type + 1)) template))
  | None => None
  end.

(** The three planet slots, a [std::array<bool, 3>]. *)
Definition planets_at (planets : list bool) (i : Z) : option bool :=
  if i <? 0 then None else nth_error planets (Z.to_nat i).

Fixpoint list_set {A : Type} (l : list A) (i : nat) (v : A) : list A :=
  match l, i with
  | [], _ => []
  | _ :: rest, O => v :: rest
  | a :: rest, S j => a :: list_set rest j v
  end.

(** [std::find_if] on the filenames of a store, with [std::distance]. *)
Fixpoint find_index (name : string) (names : list string) : option Z :=
  match names with
  | [] => None
  | n :: rest =>
      if String.eqb n name then Some 0
      else match find_index name rest with
           | Some i => Some (i + 1)
           | None => None
           end
  end.

Definition getTextureEntryIndex (sky : DistantSky) (name : string) : option Z :=
  find_index name (map filename (textures sky)).

Definition getTextureSetEntryIndex (sky : DistantSky) (name : string) : option Z :=
  find_index name (map set_filename (textureSets sky)).

(** [DebugAssertIndex(list, i)] followed by [list[i]]. *)
Definition checked_nth {A : Type} (l : list A) (i : Z) : outcome A :=
  if i <? 0 then Abort AssertionFailed
  else match nth_error l (Z.to_nat i) with
       | Some a => Done a
       | None => Abort AssertionFailed
       end.

Definition getTextureSetCount (sky : DistantSky) (i : Z) : outcome Z :=
  match checked_nth (textureSets sky) i with
  | Done entry => Done (Z.of_nat (List.length (set_textures entry)))
  | Abort f => Abort f
  | Starved => Starved
  end.

(** ** The generator as a state-and-fault computation *)

Inductive Store : Type := TextureStore | TextureSetStore.

(** Ghost record of a run: it is written, never read, by the generator.
    [g_requests] lists the index handed out for each filename asked of a
    store, [g_loads] the loader invocations with the store they feed,
    [g_seeds] the arguments of [srand], and the two star lists are the local
    vector [stars] before and after [std::sort].  Newest entries first. *)
Record Ghost : Type := {
  g_requests : list (Store * string * Z);
  g_loads : list (Store * string);
  g_seeds : list Z;
  g_generated : list Star;
  g_sorted : list Star
}.

Definition empty_ghost : Ghost :=
  {| g_requests := []; g_loads := []; g_seeds := []; g_generated := []; g_sorted := [] |}.

Section Generator.

Variable R : ArenaRandom.
Variable Sorter : StdSort.
Variable P : Platform.

(** [this], the local [random], and the ghost record. *)
Record World : Type := { sky : DistantSky; random : rng R; ghost : Ghost }.

Definition Gen (A : Type) : Type := World -> outcome (A * World).

Definition ret {A : Type} (a : A) : Gen A := fun w => Done (a, w).

Definition bind {A B : Type} (m : Gen A) (k : A -> Gen B) : Gen B :=
  fun w =>
    match m w with
    | Done (a, w') => k a w'
    | Abort f => Abort f
    | Starved => Starved
    end.

Definition abort {A : Type} (f : fault) : Gen A := fun _ => Abort f.

Definition starve {A : Type} : Gen A := fun _ => Starved.

Notation "x <- m ;; k" := (bind m (fun x => k))
  (at level 61, m at next level, right associativity).
Notation "m ;;; k" := (bind m (fun _ => k))
  (at level 61, right associativity).

Definition debugAssert (b : bool) : Gen unit :=
  if b then ret tt else abort AssertionFailed.

Definition lift {A : Type} (o : outcome A) : Gen A :=
  fun w =>
    match o with
    | Done a => Done (a, w)
    | Abort f => Abort f
    | Starved => Starved
    end.

Definition lift_at {A : Type} (o : option A) : Gen A :=
  match o with Some a => ret a | None => abort OutOfRange end.

Definition modify_sky (f : DistantSky -> DistantSky) : Gen unit :=
  fun w => Done (tt, {| sky := f (sky w); random := random w; ghost := ghost w |}).

Definition modify_ghost (f : Ghost -> Ghost) : Gen unit :=
  fun w => Done (tt, {| sky := sky w; random := random w; ghost := f (ghost w) |}).

Definition this_sky : Gen DistantSky := fun w => Done (sky w, w).

(** [random.next()]. *)
Definition random_next : Gen Z :=
  fun w =>
    Done (fst (rng_next R (random w)),
          {| sky := sky w; random := snd (rng_next R (random w)); ghost := ghost w |}).

(** [random.getSeed()]. *)
Definition random_getSeed : Gen Z := fun w => Done (rng_getSeed R (random w), w).

(** [random.srand(seed)]. *)
Definition random_srand (seed : Z) : Gen unit :=
  fun w =>
    Done (tt, {| sky := sky w;
                 random := rng_srand R seed (random w);
                 ghost := {| g_requests := g_requests (ghost w);
                             g_loads := g_loads (ghost w);
                             g_seeds := seed :: g_seeds (ghost w);
                             g_generated := g_generated (ghost w);
                             g_sorted := g_sorted (ghost w) |} |}).

(** [ArenaRandom random(seed)]. *)
Definition random_construct (seed : Z) : Gen unit :=
  fun w => Done (tt, {| sky := sky w; random := rng_make R seed; ghost := ghost w |}).

Definition note_request (store : Store) (name : string) (i : Z) : Gen unit :=
  modify_ghost (fun g =>
    {| g_requests := (store, name, i) :: g_requests g;
       g_loads := g_loads g; g_seeds := g_seeds g;
       g_generated := g_generated g; g_sorted := g_sorted g |}).

Definition note_load (store : Store) (name : string) : Gen unit :=
  modify_ghost (fun g =>
    {| g_requests := g_requests g;
       g_loads := (store, name) :: g_loads g; g_seeds := g_seeds g;
       g_generated := g_generated g; g_sorted := g_sorted g |}).

Definition note_stars (generated sorted : list Star) : Gen unit :=
  modify_ghost (fun g =>
    {| g_requests := g_requests g; g_loads := g_loads g; g_seeds := g_seeds g;
       g_generated := generated; g_sorted := sorted |}).

(** [textureManager.make8BitSurface(name)], for an entry of [store]. *)
Definition load_surface (tm : TextureManager) (store : Store) (name : string)
  : Gen Buffer2D :=
  note_load store name ;;; ret (make8BitSurface tm name).

(** [textureManager.make8BitSurfaces(name)], for an entry of [store]. *)
Definition load_surfaces (tm : TextureManager) (store : Store) (name : string)
  : Gen (list Buffer2D) :=
  note_load store name ;;; ret (make8BitSurfaces tm name).

(** [this->textures.push_back(entry)], then [textures.size() - 1]. *)
Definition push_texture (entry : TextureEntry) : Gen Z :=
  modify_sky (fun s =>
    {| landObjects := landObjects s; animLandObjects := animLandObjects s;
       airObjects := airObjects s; moonObjects := moonObjects s;
       starObjects := starObjects s; sunEntryIndex := sunEntryIndex s;
       textures := textures s ++ [entry]; textureSets := textureSets s |}) ;;;
  s <- this_sky ;;
  ret (Z.of_nat (List.length (textures s)) - 1).

(** [this->textureSets.push_back(entry)], then [textureSets.size() - 1]. *)
Definition push_textureSet (entry : TextureSetEntry) : Gen Z :=
  modify_sky (fun s =>
    {| landObjects := landObjects s; animLandObjects := animLandObjects s;
       airObjects := airObjects s; moonObjects := moonObjects s;
       starObjects := starObjects s; sunEntryIndex := sunEntryIndex s;
       textures := textures s; textureSets := textureSets s ++ [entry] |}) ;;;
  s <- this_sky ;;
  ret (Z.of_nat (List.length (textureSets s)) - 1).

Definition push_land (obj : LandObject) : Gen unit :=
  modify_sky (fun s =>
    {| landObjects := landObjects s ++ [obj]; animLandObjects := animLandObjects s;
       airObjects := airObjects s; moonObjects := moonObjects s;
       starObjects := starObjects s; sunEntryIndex := sunEntryIndex s;
       textures := textures s; textureSets := textureSets s |}).

Definition push_air (obj : AirObject) : Gen unit :=
  modify_sky (fun s =>
    {| landObjects := landObjects s; animLandObjects := animLandObjects s;
       airObjects := airObjects s ++ [obj]; moonObjects := moonObjects s;
       starObjects := starObjects s; sunEntryIndex := sunEntryIndex s;
       textures := textures s; textureSets := textureSets s |}).

Definition push_animLand (obj : AnimatedLandObject float) : Gen unit :=
  modify_sky (fun s =>
    {| landObjects := landObjects s; animLandObjects := animLandObjects s ++ [obj];
       airObjects := airObjects s; moonObjects := moonObjects s;
       starObjects := starObjects s; sunEntryIndex := sunEntryIndex s;
       textures := textures s; textureSets := textureSets s |}).

Definition push_moon (obj : MoonObject) : Gen unit :=
  modify_sky (fun s =>
    {| landObjects := landObjects s; animLandObjects := animLandObjects s;
       airObjects := airObjects s; moonObjects := moonObjects s ++ [obj];
       starObjects := starObjects s; sunEntryIndex := sunEntryIndex s;
       textures := textures s; textureSets := textureSets s |}).

Definition push_star (obj : StarObject) : Gen unit :=
  modify_sky (fun s =>
    {| landObjects := landObjects s; animLandObjects := animLandObjects s;
       airObjects := airObjects s; moonObjects := moonObjects s;
       starObjects := starObjects s ++ [obj]; sunEntryIndex := sunEntryIndex s;
       textures := textures s; textureSets := textureSets s |}).

Definition set_sun (i : Z) : Gen unit :=
  modify_sky (fun s =>
    {| landObjects := landObjects s; animLandObjects := animLandObjects s;
       airObjects := airObjects s; moonObjects := moonObjects s;
       starObjects := starObjects s; sunEntryIndex := Some i;
       textures := textures s; textureSets := textureSets s |}).

(** A [for] loop whose body does not read its counter. *)
Fixpoint repeat_gen (n : nat) (body : Gen unit) : Gen unit :=
  match n with
  | O => ret tt
  | S n' => body ;;; repeat_gen n' body
  end.

(** A range-based [for] loop. *)
Fixpoint for_each {A : Type} (l : list A) (body : A -> Gen unit) : Gen unit :=
  match l with
  | [] => ret tt
  | a :: rest => body a ;;; for_each rest body
  end.

(** *** Static objects: mountains and clouds *)

(** [fixEntryIndexIfMissing] followed by the use of [*entryIndex]. *)
Definition fixEntryIndexIfMissing (tm : TextureManager) (name : string)
    (entryIndex : option Z) : Gen Z :=
  i <- match entryIndex with
       | Some i => ret i
       | None =>
           surface <- load_surface tm TextureStore name ;;
           push_texture {| filename := name; texture := surface |}
       end ;;
  note_request TextureStore name i ;;;
  ret i.

(** One iteration of the loop of [placeStaticObjects]. *)
Definition placeStaticObject (tm : TextureManager) (baseFilename : string)
    (pos var maxDigits : Z) (randomHeight : bool) : Gen unit :=
  drawn <- random_next ;;
  let digits := variantDigits var drawn in
  debugAssert (Z.of_nat (String.length digits) <=? maxDigits) ;;;
  name <- lift_at (staticFilename baseFilename pos maxDigits digits) ;;
  s <- this_sky ;;
  let entryIndex := getTextureEntryIndex s name in
  let yPosLimit := 64 in
  yPos <- (if randomHeight
           then (v <- random_next ;; ret (Cpp.rem v yPosLimit))
           else ret 0) ;;
  v <- random_next ;;
  let arenaAngle := Cpp.rem v UNIQUE_ANGLES in
  let angleRadians := arenaAngleToRadians arenaAngle in
  let isLand := negb randomHeight in
  if isLand then
    i <- fixEntryIndexIfMissing tm name entryIndex ;;
    push_land {| land_entryIndex := i; land_angleRadians := angleRadians |}
  else
    i <- fixEntryIndexIfMissing tm name entryIndex ;;
    let height := (Cpp.to_double yPos / Cpp.to_double yPosLimit)%float in
    push_air {| air_entryIndex := i; air_angleRadians := angleRadians;
                air_height := height |}.

Definition placeStaticObjects (tm : TextureManager) (count : Z) (baseFilename : string)
    (pos var maxDigits : Z) (randomHeight : bool) : Gen unit :=
  repeat_gen (Z.to_nat count)
    (placeStaticObject tm baseFilename pos var maxDigits randomHeight).

(** The block guarded by [hasClouds]. *)
Definition addClouds (tm : TextureManager) (weatherType : WeatherType)
    (currentDay : Z) (exeData : ExeData) : Gen unit :=
  let hasClouds := WeatherType_eqb weatherType Clear in
  if hasClouds then
    seed <- random_getSeed ;;
    let cloudSeed := Cpp.to_uint32 (seed + Cpp.rem currentDay 32) in
    random_srand cloudSeed ;;;
    let cloudCount := 7 in
    let cloudPos := 5 in
    let cloudVar := 17 in
    let cloudMaxDigits := 2 in
    placeStaticObjects tm cloudCount (cloudFilename exeData) cloudPos cloudVar
      cloudMaxDigits true
  else ret tt.

(** *** The animated land *)

Definition addAnimatedLand (tm : TextureManager) (cityDef : CityDefinition)
    (exeData : ExeData) : Gen unit :=
  let animLandGlobalPos := {| int2_x := 132; int2_y := 52 |} in
  let locationGlobalPos := getLocalCityPoint P (citySeed cityDef) in
  let dist := getDistance P locationGlobalPos animLandGlobalPos in
  let angle :=
    atan2 P (Cpp.to_double (int2_y locationGlobalPos - int2_y animLandGlobalPos))
            (Cpp.to_double (int2_x animLandGlobalPos - int2_x locationGlobalPos)) in
  let animIndex := if dist <? 80 then 0 else if dist <? 150 then 1 else 2 in
  rawName <- lift (checked_nth (animDistantMountainFilenames exeData) animIndex) ;;
  let animFilename := Cpp.toUppercase rawName in
  s <- this_sky ;;
  i <- match getTextureSetEntryIndex s animFilename with
       | Some i => ret i
       | None =>
           let hasMultipleFrames :=
             match Cpp.find ".DFA" animFilename with Some _ => true | None => false end in
           if hasMultipleFrames then
             surfaces <- load_surfaces tm TextureSetStore animFilename ;;
             push_textureSet {| set_filename := animFilename; set_textures := surfaces |}
           else
             surface <- load_surface tm TextureSetStore animFilename ;;
             push_textureSet {| set_filename := animFilename; set_textures := [surface] |}
       end ;;
  note_request TextureSetStore animFilename i ;;;
  match makeAnimatedLandObject i angle (DEFAULT_FRAME_TIME P) with
  | Some animLandObj => push_animLand animLandObj
  | None => abort AssertionFailed
  end.

(** *** Moons *)

(** The lambda [makeMoon].  [currentDay + 14] is computed on [int]; it does
    not overflow for a day count below 2^31 - 14. *)
Definition makeMoon (tm : TextureManager) (currentDay : Z) (exeData : ExeData)
    (type : MoonType) : Gen MoonObject :=
  let phaseCount := 32 in
  let phaseIndex := moonPhaseIndex currentDay type in
  rawName <- lift (checked_nth (moonFilenames exeData) (moonIndex type)) ;;
  let name := Cpp.toUppercase rawName in
  s <- this_sky ;;
  i <- match getTextureEntryIndex s name with
       | Some i => ret i
       | None =>
           surfaces <- load_surfaces tm TextureStore name ;;
           debugAssert (0 <=? phaseIndex) ;;;
           debugAssert (phaseIndex <? Z.of_nat (List.length surfaces)) ;;;
           surface <- lift_at (nth_error surfaces (Z.to_nat phaseIndex)) ;;
           push_texture {| filename := name; texture := surface |}
       end ;;
  note_request TextureStore name i ;;;
  let percent := (Cpp.to_double phaseIndex / Cpp.to_double phaseCount)%float in
  ret {| moon_entryIndex := i; phasePercent := percent; moon_type := type |}.

(** *** Stars *)

Definition getRndCoord : Gen Z := v <- random_next ;; ret (rndCoord v).

(** The inner loop of a constellation: [n] sub-stars appended to [acc]. *)
Fixpoint makeSubStars (n : nat) (acc : list SubStar) : Gen (list SubStar) :=
  match n with
  | O => ret acc
  | S n' =>
      v1 <- random_next ;;
      let dx := Cpp.to_int8 (Z.shiftr (Cpp.to_int16 v1) 9) in
      v2 <- random_next ;;
      let dy := Cpp.to_int8 (Z.shiftr (Cpp.to_int16 v2) 9) in
      v3 <- random_next ;;
      let color := Cpp.to_uint8 (Cpp.rem v3 10 + 64) in
      makeSubStars n' (acc ++ [{| sub_dx := dx; sub_dy := dy; sub_color := color |}])
  end.

(** The [do ... while] loop that draws the type of a large star; [fuel]
    bounds the number of redraws. *)
Fixpoint drawLargeStarType (fuel : nat) (planets : list bool) : Gen Z :=
  v <- random_next ;;
  let value := Cpp.to_int8 (Cpp.rem v 8) in
  taken <- (if 5 <=? value then lift_at (planets_at planets (value - 5)) else ret false) ;;
  if (5 <=? value) && taken then
    match fuel with
    | O => starve
    | S fuel' => drawLargeStarType fuel' planets
    end
  else ret value.

(** One iteration of the star loop; the result is the new star and the
    planet slots after it. *)
Definition generateStar (fuel : nat) (planets : list bool) : Gen (Star * list bool) :=
  x <- getRndCoord ;;
  y <- getRndCoord ;;
  z <- getRndCoord ;;
  v <- random_next ;;
  let selection := Cpp.to_uint8 (Cpp.rem v 4) in
  if negb (selection =? 0) then
    v' <- random_next ;;
    let n := 2 + Cpp.rem v' 4 in
    starList <- makeSubStars (Z.to_nat n) [] ;;
    ret ({| star_x := x; star_y := y; star_z := z;
            subList := starList; star_type := NO_STAR_TYPE |}, planets)
  else
    value <- drawLargeStarType fuel planets ;;
    planets' <- (if 5 <=? value
                 then (slot <- lift_at (planets_at planets (value - 5)) ;;
                       ret (list_set planets (Z.to_nat (value - 5)) true))
                 else ret planets) ;;
    ret ({| star_x := x; star_y := y; star_z := z;
            subList := []; star_type := value |}, planets').

Fixpoint generateStars (fuel : nat) (n : nat) (planets : list bool) (stars : list Star)
  : Gen (list Star) :=
  match n with
  | O => ret stars
  | S n' =>
      sp <- generateStar fuel planets ;;
      generateStars fuel n' (snd sp) (stars ++ [fst sp])
  end.

(** The direction of a sub-star of a constellation. *)
Definition subDirection (direction : Double3) (subStar : SubStar) : Double3 :=
  let dxPercent := (Cpp.to_double (sub_dx subStar) / IDENTITY_DIM)%float in
  let dyPercent := (Cpp.to_double (sub_dy subStar) / IDENTITY_DIM)%float in
  let dxRadians := (dxPercent * IDENTITY_ANGLE_RADIANS)%float in
  let dyRadians := (dyPercent * IDENTITY_ANGLE_RADIANS)%float in
  let xRot := xRotation P dxRadians in
  let yRot := yRotation P dyRadians in
  let newDir :=
    mat_mul P yRot
      (mat_mul P xRot
         {| d4_x := d3_x direction; d4_y := d3_y direction;
            d4_z := d3_z direction; d4_w := 0%float |}) in
  {| d3_x := d4_x newDir; d3_y := d4_y newDir; d3_z := d4_z newDir |}.

(** The body of the loop that converts a star to its modern form. *)
Definition convertStar (tm : TextureManager) (palette : list Z) (exeData : ExeData)
    (star : Star) : Gen unit :=
  let direction :=
    normalized P {| d3_x := Cpp.to_double (star_x star);
                    d3_y := Cpp.to_double (star_y star);
                    d3_z := Cpp.to_double (star_z star) |} in
  let isSmallStar := star_type star =? -1 in
  if isSmallStar then
    for_each (subList star) (fun subStar =>
      color <- lift_at (nth_error palette (Z.to_nat (sub_color subStar))) ;;
      push_star (SmallStar color (subDirection direction subStar)))
  else
    starName <- (match largeStarFilename (starFilename exeData) (star_type star) with
                 | Some name => ret name
                 | None => abort AssertionFailed
                 end) ;;
    s <- this_sky ;;
    i <- fixEntryIndexIfMissing tm starName (getTextureEntryIndex s starName) ;;
    push_star (LargeStar i direction).

(** The block guarded by [hasSpaceObjects]. *)
Definition addSpaceObjects (assets : Assets) (currentDay starCount : Z)
    (exeData : ExeData) (fuel : nat) : Gen unit :=
  let tm := textureManager assets in
  moon1 <- makeMoon tm currentDay exeData First ;;
  push_moon moon1 ;;;
  moon2 <- makeMoon tm currentDay exeData Second ;;
  push_moon moon2 ;;;
  random_srand 305419897 ;;;
  stars <- generateStars fuel (Z.to_nat starCount) [false; false; false] [] ;;
  let sorted := std_sort Sorter star_less stars in
  note_stars stars sorted ;;;
  palette <- (match colFile assets with
              | Some palette => ret palette
              | None => abort Crash
              end) ;;
  for_each sorted (convertStar tm palette exeData) ;;;
  let sunName := Cpp.toUppercase (sunFilename exeData) in
  s <- this_sky ;;
  sunTextureIndex <- fixEntryIndexIfMissing tm sunName (getTextureEntryIndex s sunName) ;;
  set_sun sunTextureIndex.

(** *** [DistantSky::init] *)

Definition init_body (assets : Assets) (locationDef : LocationDefinition)
    (provinceDef : ProvinceDefinition) (weatherType : WeatherType)
    (currentDay starCount : Z) (exeData : ExeData) (fuel : nat) : Gen unit :=
  match locationDef with
  | CityLocation cityDef =>
      let tm := textureManager assets in
      mtnTraits <- (match findMountainTraits (climateType cityDef) MountainTraits with
                    | Some traits => ret traits
                    | None => abort AssertionFailed
                    end) ;;
      baseFilename <-
        lift (checked_nth (distantMountainFilenames exeData) (filenameIndex mtnTraits)) ;;
      random_construct (distantSkySeed cityDef) ;;;
      v <- random_next ;;
      let count := Cpp.rem v 4 + 2 in
      placeStaticObjects tm count baseFilename (position mtnTraits)
        (variation mtnTraits) (maxDigits mtnTraits) false ;;;
      addClouds tm weatherType currentDay exeData ;;;
      (if hasAnimatedDistantLand provinceDef
       then addAnimatedLand tm cityDef exeData
       else ret tt) ;;;
      let hasSpaceObjects := WeatherType_eqb weatherType Clear in
      if hasSpaceObjects
      then addSpaceObjects assets currentDay starCount exeData fuel
      else ret tt
  | _ => abort AssertionFailed
  end.

(** [init] called on the aggregate [this].  The local generator is built
    inside the body, so the state it starts from is immaterial: the one
    seeded with the city's seed is used.  The result is the aggregate after
    the call, with the ghost record of the run. *)
Definition init (assets : Assets) (locationDef : LocationDefinition)
    (provinceDef : ProvinceDefinition) (weatherType : WeatherType)
    (currentDay starCount : Z) (exeData : ExeData) (fuel : nat) (this : DistantSky)
  : outcome (DistantSky * Ghost) :=
  let seed0 := match locationDef with
               | CityLocation cityDef => distantSkySeed cityDef
               | _ => 0
               end in
  match init_body assets locationDef provinceDef weatherType currentDay starCount
          exeData fuel
          {| sky := this; random := rng_make R seed0; ghost := empty_ghost |} with
  | Done (_, w) => Done (sky w, ghost w)
  | Abort f => Abort f
  | Starved => Starved
  end.

End Generator.

Arguments ret {R A} a.
Arguments abort {R A} f.
Arguments starve {R A}.

(** *** [DistantSky::tick] *)

(** [anim.update(dt, *this)] for one object of the aggregate. *)
Definition update_in (fuel : nat) (dt : float) (sky : DistantSky)
    (anim : AnimatedLandObject float) : outcome (AnimatedLandObject float) :=
  match getTextureSetCount sky (setEntryIndex anim) with
  | Done textureCount =>
      match update fuel dt textureCount anim with
      | Some anim' => Done anim'
      | None => Starved
      end
  | Abort f => Abort f
  | Starved => Starved
  end.

(** The loop of [tick] over [animLandObjects]. *)
Fixpoint update_all (fuel : nat) (dt : float) (sky : DistantSky)
    (anims : list (AnimatedLandObject float)) : outcome (list (AnimatedLandObject float)) :=
  match anims with
  | [] => Done []
  | anim :: rest =>
      match update_in fuel dt sky anim with
      | Done anim' =>
          match update_all fuel dt sky rest with
          | Done rest' => Done (anim' :: rest')
          | Abort f => Abort f
          | Starved => Starved
          end
      | Abort f => Abort f
      | Starved => Starved
      end
  end.

Definition tick (fuel : nat) (dt : float) (sky : DistantSky) : outcome DistantSky :=
  match update_all fuel dt sky (animLandObjects sky) with
  | Done anims =>
      Done {| landObjects := landObjects sky; animLandObjects := anims;
              airObjects := airObjects sky; moonObjects := moonObjects sky;
              starObjects := starObjects sky; sunEntryIndex := sunEntryIndex sky;
              textures := textures sky; textureSets := textureSets sky |}
  | Abort f => Abort f
  | Starved => Starved
  end.

(** [getStarCountFromDensity]. *)
Definition getStarCountFromDensity (starDensity : Z) : outcome Z :=
  if starDensity =? 0 then Done 40
  else if starDensity =? 1 then Done 1000
  else if starDensity =? 2 then Done 8000
  else Abort Crash.

(** ** Sample collaborators

    Concrete collaborators on which the generator can be run.  They stand in
    for the parts of the program outside the translated sources and are used
    to exhibit runs; no theorem about the generator depends on them. *)

Module Sample.

(** A linear congruential sequence source that remembers its seed and
    returns bits 8 to 23 of its state. *)
Record lcg : Type := { lcg_seed : Z; lcg_value : Z }.

Definition lcg_step (v : Z) : Z := (1103515245 * v + 12345) mod 4294967296.

Definition lcg_make (seed : Z) : lcg :=
  {| lcg_seed := Cpp.to_uint32 seed; lcg_value := Cpp.to_uint32 seed |}.

Definition lcg_next (s : lcg) : Z * lcg :=
  let v := lcg_step (lcg_value s) in
  ((v / 256) mod 65536, {| lcg_seed := lcg_seed s; lcg_value := v |}).

Definition lcg_getSeed (s : lcg) : Z := Cpp.to_uint32 (lcg_seed s).

Definition lcg_srand (seed : Z) (_ : lcg) : lcg := lcg_make seed.

Lemma lcg_next_range (s : lcg) : 0 <= fst (lcg_next s) < 65536.
Proof. unfold lcg_next; simpl. apply Z.mod_pos_bound. lia. Qed.

Lemma lcg_getSeed_range (s : lcg) : 0 <= lcg_getSeed s < 4294967296.
Proof. unfold lcg_getSeed, Cpp.to_uint32. apply Z.mod_pos_bound. lia. Qed.

Definition random : ArenaRandom :=
  {| rng := lcg; rng_make := lcg_make; rng_next := lcg_next;
     rng_getSeed := lcg_getSeed; rng_srand := lcg_srand;
     rng_next_range := lcg_next_range; rng_getSeed_range := lcg_getSeed_range |}.

(** Insertion sorts.  [insert_first] puts an element before its
    equivalents, [insert_last] after them. *)
Fixpoint insert_first {A : Type} (lt : A -> A -> bool) (x : A) (l : list A) : list A :=
  match l with
  | [] => [x]
  | y :: rest => if lt y x then y :: insert_first lt x rest else x :: y :: rest
  end.

Fixpoint insert_last {A : Type} (lt : A -> A -> bool) (x : A) (l : list A) : list A :=
  match l with
  | [] => [x]
  | y :: rest => if lt x y then x :: y :: rest else y :: insert_last lt x rest
  end.

(** Sorting by [insert_first] from the right keeps equivalent elements in
    their original order. *)
Definition stable_sort (A : Type) (lt : A -> A -> bool) (l : list A) : list A :=
  fold_right (insert_first lt) [] l.

(** Sorting by [insert_last] from the right reverses them. *)
Definition reversing_sort (A : Type) (lt : A -> A -> bool) (l : list A) : list A :=
  fold_right (insert_last lt) [] l.

Definition blank : Buffer2D := {| buf_width := 1; buf_height := 1; buf_data := [0] |}.
Definition dotted : Buffer2D := {| buf_width := 1; buf_height := 1; buf_data := [7] |}.

(** Two image loaders that return different pixels and frame counts. *)
Definition loader_a : TextureManager :=
  {| make8BitSurface := fun _ => blank; make8BitSurfaces := fun _ => repeat blank 32 |}.

Definition loader_b : TextureManager :=
  {| make8BitSurface := fun _ => dotted; make8BitSurfaces := fun _ => repeat dotted 40 |}.

Definition grey_palette : list Z := map (fun n => 4278190080 + Z.of_nat n * 65793) (seq 0 256).

Definition assets_a : Assets := {| textureManager := loader_a; colFile := Some grey_palette |}.
Definition assets_b : Assets := {| textureManager := loader_b; colFile := Some grey_palette |}.

Definition length3 (v : Double3) : float :=
  PrimFloat.sqrt (d3_x v * d3_x v + d3_y v * d3_y v + d3_z v * d3_z v)%float.

(** Stand-ins for the numeric helpers: the vector is normalised as usual,
    the rotations are the identity, the angle is a ratio and the map
    distance is the Manhattan one. *)
Definition platform : Platform :=
  {| atan2 := fun y x => (y / (PrimFloat.abs x + PrimFloat.abs y + 1))%float;
     normalized := fun v =>
       {| d3_x := (d3_x v / length3 v)%float; d3_y := (d3_y v / length3 v)%float;
          d3_z := (d3_z v / length3 v)%float |};
     Matrix4d := unit;
     xRotation := fun _ => tt;
     yRotation := fun _ => tt;
     mat_mul := fun _ v => v;
     getLocalCityPoint := fun seed => {| int2_x := seed / 65536; int2_y := seed mod 65536 |};
     getDistance := fun p q => Z.abs (int2_x p - int2_x q) + Z.abs (int2_y p - int2_y q);
     DEFAULT_FRAME_TIME := (1 / 18)%float |}.

Definition exeData : ExeData :=
  {| distantMountainFilenames := ["mount000.img"%string; "desert0.img"%string; "hill00.img"%string];
     cloudFilename := "cloud00.img"%string;
     animDistantMountainFilenames := ["volcano1.dfa"%string; "volcano2.dfa"%string; "volcano3.img"%string];
     moonFilenames := ["moon1.dfa"%string; "moon2.dfa"%string];
     starFilename := "star1.img"%string;
     sunFilename := "sun.img"%string |}.

Definition city : LocationDefinition :=
  CityLocation {| climateType := Temperate; distantSkySeed := 2020; citySeed := 6553700 |}.

Definition province : ProvinceDefinition := {| hasAnimatedDistantLand := true |}.








Section SortLaws.

Context {A : Type} (lt : A -> A -> bool).

Lemma insert_first_perm (x : A) (l : list A) :
  Permutation (x :: l) (insert_first lt x l).
Proof.
  induction l as [|y rest IH]; simpl; [reflexivity|].
  destruct (lt y x); [|reflexivity].
  rewrite perm_swap. now apply perm_skip.
Qed.

Lemma insert_last_perm (x : A) (l : list A) :
  Permutation (x :: l) (insert_last lt x l).
Proof.
  induction l as [|y rest IH]; simpl; [reflexivity|].
  destruct (lt x y); [reflexivity|].
  rewrite perm_swap. now apply perm_skip.
Qed.

Lemma stable_sort_perm (l : list A) : Permutation l (stable_sort lt l).
Proof.
  induction l as [|x l IH]; simpl; [constructor|].
  rewrite <- insert_first_perm. now apply perm_skip.
Qed.

Lemma reversing_sort_perm (l : list A) : Permutation l (reversing_sort lt l).
Proof.
  induction l as [|x l IH]; simpl; [constructor|].
  rewrite <- insert_last_perm. now apply perm_skip.
Qed.

Hypothesis ord : strict_weak lt.

Lemma sw_asym (a b : A) : lt a b = true -> lt b a = false.
Proof using ord.
  intros Hab. destruct (lt b a) eqn:Hba; [|reflexivity].
  pose proof (sw_trans ord _ _ _ Hab Hba) as Haa.
  rewrite (sw_irrefl ord) in Haa. discriminate.
Qed.

Lemma insert_first_sorted (x : A) (l : list A) :
  StronglySorted (fun a b => lt b a = false) l ->
  StronglySorted (fun a b => lt b a = false) (insert_first lt x l).
Proof using ord.
  induction 1 as [|y rest Hs IH Hall]; simpl.
  - repeat constructor.
  - destruct (lt y x) eqn:Hyx.
    + constructor; [exact IH|].
      apply (Permutation_Forall (insert_first_perm x rest)).
      constructor; [apply sw_asym; exact Hyx | exact Hall].
    + constructor; [constructor; assumption|].
      constructor; [exact Hyx|].
      revert Hall. apply Forall_impl. intros z Hz.
      exact (sw_incomp ord _ _ _ Hz Hyx).
Qed.

Lemma insert_last_sorted (x : A) (l : list A) :
  StronglySorted (fun a b => lt b a = false) l ->
  StronglySorted (fun a b => lt b a = false) (insert_last lt x l).
Proof using ord.
  induction 1 as [|y rest Hs IH Hall]; simpl.
  - repeat constructor.
  - destruct (lt x y) eqn:Hxy.
    + constructor; [constructor; assumption|].
      constructor; [apply sw_asym; exact Hxy|].
      revert Hall. apply Forall_impl. intros z Hz.
      exact (sw_incomp ord _ _ _ Hz (sw_asym Hxy)).
    + constructor; [exact IH|].
      apply (Permutation_Forall (insert_last_perm x rest)).
      constructor; [exact Hxy | exact Hall].
Qed.

Lemma stable_sort_sorted (l : list A) :
  StronglySorted (fun a b => lt b a = false) (stable_sort lt l).
Proof using ord.
  induction l; simpl; [constructor | now apply insert_first_sorted].
Qed.

Lemma reversing_sort_sorted (l : list A) :
  StronglySorted (fun a b => lt b a = false) (reversing_sort lt l).
Proof using ord.
  induction l; simpl; [constructor | now apply insert_last_sorted].
Qed.

End SortLaws.

(** Two sorts that meet the contract of [std::sort]. *)
Definition stable : StdSort :=
  {| std_sort := stable_sort;
     std_sort_perm := fun A lt l => @stable_sort_perm A lt l;
     std_sort_sorted := fun A lt ord l => @stable_sort_sorted A lt ord l |}.

Definition reversing : StdSort :=
  {| std_sort := reversing_sort;
     std_sort_perm := fun A lt l => @reversing_sort_perm A lt l;
     std_sort_sorted := fun A lt ord l => @reversing_sort_sorted A lt ord l |}.

End Sample.

(** ** A weakest-precondition calculus for the generator *)

Section Calculus.

Variable R : ArenaRandom.

(** Partial correctness: if the computation finishes, [Q] holds. *)
Definition wp {A : Type} (m : Gen R A) (Q : A -> World R -> Prop) (w : World R) : Prop :=
  match m w with
  | Done (a, w') => Q a w'
  | _ => True
  end.

(** Total correctness: the computation finishes, and [Q] holds. *)
Definition wpt {A : Type} (m : Gen R A) (Q : A -> World R -> Prop) (w : World R) : Prop :=
  match m w with
  | Done (a, w') => Q a w'
  | _ => False
  end.

Lemma wp_done {A : Type} (m : Gen R A) (Q : A -> World R -> Prop) w a w' :
  wp m Q w -> m w = Done (a, w') -> Q a w'.
Proof. unfold wp. intros H E. rewrite E in H. exact H. Qed.

Lemma wp_intro {A : Type} (m : Gen R A) (Q : A -> World R -> Prop) w :
  (forall a w', m w = Done (a, w') -> Q a w') -> wp m Q w.
Proof. unfold wp. intros H. destruct (m w) as [[a w']| |]; auto. Qed.

Lemma wp_bind {A B : Type} (m : Gen R A) (k : A -> Gen R B) Q w :
  wp m (fun a w' => wp (k a) Q w') w -> wp (bind m k) Q w.
Proof. unfold wp, bind. destruct (m w) as [[a w']| |]; auto. Qed.

Lemma wp_prim {A : Type} (m : Gen R A) (Q : A -> World R -> Prop) w a w' :
  m w = Done (a, w') -> Q a w' -> wp m Q w.
Proof. unfold wp. intros ->. auto. Qed.


Lemma wp_ret {A : Type} (a : A) (Q : A -> World R -> Prop) w : Q a w -> wp (ret a) Q w.
Proof. intros H. exact H. Qed.

Lemma wp_debugAssert (b : bool) (Q : unit -> World R -> Prop) w :
  (b = true -> Q tt w) -> wp (debugAssert b) Q w.
Proof. unfold wp, debugAssert. destruct b; cbn; auto. Qed.

Lemma wp_lift_at {A : Type} (o : option A) (Q : A -> World R -> Prop) w :
  (forall a, o = Some a -> Q a w) -> wp (lift_at o) Q w.
Proof. unfold wp, lift_at. destruct o; cbn; auto. Qed.

Lemma wp_lift {A : Type} (o : outcome A) (Q : A -> World R -> Prop) w :
  (forall a, o = Done a -> Q a w) -> wp (lift o) Q w.
Proof. unfold wp, lift. destruct o; cbn; auto. Qed.

Lemma wp_mono {A : Type} (m : Gen R A) (Q Q' : A -> World R -> Prop) w :
  wp m Q w -> (forall a w', Q a w' -> Q' a w') -> wp m Q' w.
Proof. unfold wp. destruct (m w) as [[a w']| |]; auto. Qed.

Lemma wp_conj {A : Type} (m : Gen R A) (Q Q' : A -> World R -> Prop) w :
  wp m Q w -> wp m Q' w -> wp m (fun a w' => Q a w' /\ Q' a w') w.
Proof. unfold wp. destruct (m w) as [[a w']| |]; auto. Qed.

Lemma wp_repeat (Inv : nat -> World R -> Prop) (body : Gen R unit) (n : nat) :
  (forall i w, (i < n)%nat -> Inv i w -> wp body (fun _ => Inv (S i)) w) ->
  forall w, Inv O w -> wp (repeat_gen n body) (fun _ => Inv n) w.
Proof.
  revert Inv. induction n as [|n IH]; intros Inv Hbody w H0.
  - exact H0.
  - cbn [repeat_gen]. apply wp_bind.
    eapply wp_mono; [apply (Hbody O); [lia | exact H0]|].
    intros [] w' H1. apply (IH (fun i => Inv (S i))); [|exact H1].
    intros i w'' Hi. apply Hbody. lia.
Qed.

Lemma wp_for_each {A : Type} (Inv : list A -> World R -> Prop) (body : A -> Gen R unit) :
  forall (todo done : list A),
    (forall pre a w, (exists post, done ++ todo = pre ++ a :: post) ->
                     Inv pre w -> wp (body a) (fun _ => Inv (pre ++ [a])) w) ->
    forall w, Inv done w -> wp (for_each todo body) (fun _ => Inv (done ++ todo)) w.
Proof.
  induction todo as [|a todo IH]; intros done Hbody w H0.
  - rewrite app_nil_r. exact H0.
  - cbn [for_each]. apply wp_bind.
    eapply wp_mono; [apply (Hbody done a); [exists todo; reflexivity | exact H0]|].
    intros [] w' H1.
    replace (done ++ a :: todo) with ((done ++ [a]) ++ todo)
      by (rewrite <- app_assoc; reflexivity).
    apply IH; [|exact H1].
    intros pre b w'' [post Hpost]. apply Hbody. exists post.
    rewrite <- Hpost, <- app_assoc. reflexivity.
Qed.

Lemma wpt_wp {A : Type} (m : Gen R A) (Q : A -> World R -> Prop) w :
  wpt m Q w -> wp m Q w.
Proof. unfold wp, wpt. destruct (m w) as [[a w']| |]; tauto. Qed.






(** Two runs side by side: if both finish, [Q] relates the results. *)
Definition wp2 {A : Type} (m1 m2 : Gen R A) (Q : A -> World R -> A -> World R -> Prop)
    (w1 w2 : World R) : Prop :=
  match m1 w1, m2 w2 with
  | Done (a1, w1'), Done (a2, w2') => Q a1 w1' a2 w2'
  | _, _ => True
  end.

Lemma wp2_bind {A B : Type} (m1 m2 : Gen R A) (k1 k2 : A -> Gen R B) Q w1 w2 :
  wp2 m1 m2 (fun a1 w1' a2 w2' => wp2 (k1 a1) (k2 a2) Q w1' w2') w1 w2 ->
  wp2 (bind m1 k1) (bind m2 k2) Q w1 w2.
Proof.
  unfold wp2, bind.
  destruct (m1 w1) as [[a1 w1']| |], (m2 w2) as [[a2 w2']| |]; auto;
    intros _; destruct (k1 a1 w1') as [[? ?]| |]; auto.
Qed.

Lemma wp2_mono {A : Type} (m1 m2 : Gen R A) (Q Q' : A -> World R -> A -> World R -> Prop)
    w1 w2 :
  wp2 m1 m2 Q w1 w2 -> (forall a1 w1' a2 w2', Q a1 w1' a2 w2' -> Q' a1 w1' a2 w2') ->
  wp2 m1 m2 Q' w1 w2.
Proof.
  unfold wp2. destruct (m1 w1) as [[a1 w1']| |], (m2 w2) as [[a2 w2']| |]; auto.
Qed.

Lemma wp2_done {A : Type} (m1 m2 : Gen R A) Q w1 w2 a1 w1' a2 w2' :
  wp2 m1 m2 Q w1 w2 -> m1 w1 = Done (a1, w1') -> m2 w2 = Done (a2, w2') ->
  Q a1 w1' a2 w2'.
Proof. unfold wp2. intros H E1 E2. rewrite E1, E2 in H. exact H. Qed.

End Calculus.

Ltac wp_run_prim :=
  lazymatch goal with
  | |- @wp ?R ?A ?m ?Q ?w => refine (@wp_prim R A m Q w _ _ eq_refl _)
  end.

(** One step of symbolic execution. *)
Ltac wp_step :=
  cbv beta;
  lazymatch goal with
  | |- wp (bind _ _) _ _ => apply wp_bind
  | |- wp (ret _) _ _ => apply wp_ret
  | |- wp (abort _) _ _ => exact I
  | |- wp starve _ _ => exact I
  | |- wp (@random_next _) _ _ => wp_run_prim
  | |- wp (@random_getSeed _) _ _ => wp_run_prim
  | |- wp (random_srand _) _ _ => wp_run_prim
  | |- wp (random_construct _) _ _ => wp_run_prim
  | |- wp (@this_sky _) _ _ => wp_run_prim
  | |- wp (modify_sky _) _ _ => wp_run_prim
  | |- wp (modify_ghost _) _ _ => wp_run_prim
  | |- wp (note_request _ _ _) _ _ => unfold note_request
  | |- wp (note_load _ _) _ _ => unfold note_load
  | |- wp (note_stars _ _) _ _ => unfold note_stars
  | |- wp (load_surface _ _ _) _ _ => unfold load_surface
  | |- wp (load_surfaces _ _ _) _ _ => unfold load_surfaces
  | |- wp (push_texture _) _ _ => unfold push_texture
  | |- wp (push_textureSet _) _ _ => unfold push_textureSet
  | |- wp (push_land _) _ _ => unfold push_land
  | |- wp (push_air _) _ _ => unfold push_air
  | |- wp (push_animLand _) _ _ => unfold push_animLand
  | |- wp (push_moon _) _ _ => unfold push_moon
  | |- wp (push_star _) _ _ => unfold push_star
  | |- wp (set_sun _) _ _ => unfold set_sun
  | |- wp (debugAssert _) _ _ => apply wp_debugAssert; intros ?
  | |- wp (lift_at _) _ _ => apply wp_lift_at; intros ? ?
  | |- wp (lift _) _ _ => apply wp_lift; intros ? ?
  end;
  cbv beta; cbn [sky random ghost].

Ltac wp_steps := repeat wp_step.

(** Projections of explicitly built worlds. *)
Ltac sky_simpl :=
  cbn [sky random ghost landObjects animLandObjects airObjects moonObjects starObjects
       sunEntryIndex textures textureSets g_requests g_loads g_seeds g_generated g_sorted
       fst snd] in *.

Section CalculusTotal.

Variable R : ArenaRandom.






End CalculusTotal.




(** ** Facts on the pure pieces *)

Lemma find_index_Some (name : string) (names : list string) (i : Z) :
  find_index name names = Some i ->
  0 <= i /\ nth_error names (Z.to_nat i) = Some name.
Proof.
  revert i. induction names as [|n rest IH]; intros i H; simpl in H; [discriminate|].
  destruct (String.eqb_spec n name) as [->|Hne].
  - injection H as <-. split; [lia | reflexivity].
  - destruct (find_index name rest) as [j|]; [|discriminate].
    injection H as <-. destruct (IH j eq_refl) as [Hj Hnth].
    split; [lia|]. replace (Z.to_nat (j + 1)) with (S (Z.to_nat j)) by lia. exact Hnth.
Qed.

Lemma find_index_bound (name : string) (names : list string) (i : Z) :
  find_index name names = Some i -> 0 <= i < Z.of_nat (List.length names).
Proof.
  intros H. destruct (find_index_Some _ _ H) as [Hi Hnth]. split; [exact Hi|].
  assert (Z.to_nat i < List.length names)%nat by (apply nth_error_Some; congruence).
  lia.
Qed.

Lemma find_index_None (name : string) (names : list string) :
  find_index name names = None -> ~ In name names.
Proof.
  induction names as [|n rest IH]; intros H Hin; simpl in *; [exact Hin|].
  destruct (String.eqb_spec n name) as [->|Hne]; [discriminate|].
  destruct (find_index name rest); [discriminate|].
  destruct Hin as [Heq|Hin]; [exact (Hne Heq) | exact (IH eq_refl Hin)].
Qed.

Lemma find_index_In (name : string) (names : list string) :
  In name names -> exists i, find_index name names = Some i.
Proof.
  induction names as [|n rest IH]; intros Hin; simpl in *; [contradiction|].
  destruct (String.eqb_spec n name) as [->|Hne]; [eauto|].
  destruct Hin as [Heq|Hin]; [contradiction|].
  destruct (IH Hin) as [i ->]. eauto.
Qed.

Lemma rem_draw_range (v m : Z) : 0 <= v -> 0 < m -> 0 <= Cpp.rem v m < m.
Proof.
  intros Hv Hm. unfold Cpp.rem. rewrite Z.rem_mod_nonneg by lia.
  apply Z.mod_pos_bound. exact Hm.
Qed.

(** A positive frame time is not reached by a clock at zero. *)
Lemma positive_not_reached (t : float) :
  PrimFloat.ltb 0 t = true -> PrimFloat.leb t 0 = false.
Proof.
  rewrite ltb_spec, leb_spec. change (Prim2SF 0) with (S754_zero false).
  destruct (Prim2SF t) as [[|]|[|]| |[|] m e]; unfold SFltb, SFleb; simpl; congruence.
Qed.

(** Adding [0.0] does not change how a time compares. *)
Lemma leb_add_zero (x t : float) : PrimFloat.leb t (x + 0) = PrimFloat.leb t x.
Proof.
  rewrite !leb_spec, add_spec. change (Prim2SF 0) with (S754_zero false).
  destruct (Prim2SF x) as [[|]|[|]| |[|] m e];
    destruct (Prim2SF t) as [[|]|[|]| |[|] m' e']; reflexivity.
Qed.

(** ** Invariants of the aggregate *)

Definition names (store : Store) (s : DistantSky) : list string :=
  match store with
  | TextureStore => map filename (textures s)
  | TextureSetStore => map set_filename (textureSets s)
  end.

(** The stores hold each identifier once; every loader invocation recorded
    has put its identifier in its store, and none was invoked twice; every
    index handed out is the position of the identifier asked for. *)
Record store_ok (s : DistantSky) (g : Ghost) : Prop := {
  ok_names : forall store, NoDup (names store s);
  ok_loads : NoDup (g_loads g);
  ok_loaded : forall store name, In (store, name) (g_loads g) -> In name (names store s);
  ok_requests : forall store name i, In (store, name, i) (g_requests g) ->
      0 <= i /\ nth_error (names store s) (Z.to_nat i) = Some name
}.

(** An angle that the conversion produces from a legacy angle unit. *)
Definition arena_angle (a : float) : Prop :=
  exists u : Z, 0 <= u < UNIQUE_ANGLES /\ a = arenaAngleToRadians u.

Definition angles_ok (s : DistantSky) : Prop :=
  Forall (fun o => arena_angle (land_angleRadians o)) (landObjects s) /\
  Forall (fun o => arena_angle (air_angleRadians o)) (airObjects s).

(** An animated object refers to an existing texture set, and its clock is
    below its frame time. *)
Definition anim_ready (s : DistantSky) (a : AnimatedLandObject float) : Prop :=
  0 <= setEntryIndex a < Z.of_nat (List.length (textureSets s)) /\
  clock_geb (currentFrameTime a) (targetFrameTime a) = false.

Definition anims_ok (s : DistantSky) : Prop := Forall (anim_ready s) (animLandObjects s).

Record sky_ok (s : DistantSky) (g : Ghost) : Prop := {
  sky_store : store_ok s g;
  sky_angles : angles_ok s;
  sky_anims : anims_ok s
}.

Lemma empty_sky_ok : sky_ok empty_sky empty_ghost.
Proof.
  split; [split| |].
  - intros []; constructor.
  - constructor.
  - intros store name [].
  - intros store name i [].
  - split; constructor.
  - constructor.
Qed.

Definition Store_eq_dec (a b : Store) : {a = b} + {a <> b}.
Proof. decide equality. Defined.

Lemma store_ok_same (s s' : DistantSky) (g g' : Ghost) :
  store_ok s g ->
  (forall store, names store s' = names store s) ->
  g_loads g' = g_loads g -> g_requests g' = g_requests g ->
  store_ok s' g'.
Proof.
  intros [Hn Hl Hld Hr] Hnames Hloads Hreq. split.
  - intros store. rewrite Hnames. apply Hn.
  - rewrite Hloads. exact Hl.
  - intros store name. rewrite Hloads, Hnames. apply Hld.
  - intros store name i. rewrite Hreq, Hnames. apply Hr.
Qed.

Lemma store_ok_found (store : Store) (s s' : DistantSky) (g g' : Ghost)
    (name : string) (i : Z) :
  store_ok s g ->
  find_index name (names store s) = Some i ->
  (forall st, names st s' = names st s) ->
  g_loads g' = g_loads g ->
  g_requests g' = (store, name, i) :: g_requests g ->
  store_ok s' g'.
Proof.
  intros [Hn Hl Hld Hr] Hfind Hnames Hloads Hreq. split.
  - intros st. rewrite Hnames. apply Hn.
  - rewrite Hloads. exact Hl.
  - intros st nm. rewrite Hloads, Hnames. apply Hld.
  - intros st nm j. rewrite Hreq, Hnames. intros [Heq|Hin].
    + injection Heq as <- <- <-. apply find_index_Some. exact Hfind.
    + apply Hr. exact Hin.
Qed.

Lemma store_ok_added (store : Store) (s s' : DistantSky) (g g' : Ghost) (name : string) :
  store_ok s g ->
  find_index name (names store s) = None ->
  names store s' = names store s ++ [name] ->
  (forall st, st <> store -> names st s' = names st s) ->
  g_loads g' = (store, name) :: g_loads g ->
  g_requests g' = (store, name, Z.of_nat (List.length (names store s))) :: g_requests g ->
  store_ok s' g'.
Proof.
  intros [Hn Hl Hld Hr] Hfind Hnew Hother Hloads Hreq.
  apply find_index_None in Hfind.
  assert (Hgrow : forall st nm, In nm (names st s) -> In nm (names st s')).
  { intros st nm Hin. destruct (Store_eq_dec st store) as [->|Hne].
    - rewrite Hnew. apply in_or_app. left. exact Hin.
    - rewrite Hother by exact Hne. exact Hin. }
  assert (Hnth : forall st k nm, nth_error (names st s) k = Some nm ->
                                 nth_error (names st s') k = Some nm).
  { intros st k nm Hk. destruct (Store_eq_dec st store) as [->|Hne].
    - rewrite Hnew, nth_error_app1; [exact Hk|].
      apply nth_error_Some. congruence.
    - rewrite Hother by exact Hne. exact Hk. }
  split.
  - intros st. destruct (Store_eq_dec st store) as [->|Hne].
    + rewrite Hnew. apply NoDup_app; [apply Hn | repeat constructor; intros [] |].
      intros nm Hin [<-|[]]. exact (Hfind Hin).
    + rewrite Hother by exact Hne. apply Hn.
  - rewrite Hloads. constructor; [|exact Hl].
    intros Hin. exact (Hfind (Hld _ _ Hin)).
  - intros st nm. rewrite Hloads. intros [Heq|Hin].
    + injection Heq as <- <-. rewrite Hnew. apply in_or_app. right. left. reflexivity.
    + apply Hgrow, Hld. exact Hin.
  - intros st nm j. rewrite Hreq. intros [Heq|Hin].
    + injection Heq as <- <- <-. split; [lia|].
      rewrite Hnew, Nat2Z.id, nth_error_app2 by lia.
      rewrite Nat.sub_diag. reflexivity.
    + destruct (Hr _ _ _ Hin) as [Hj Hk]. split; [exact Hj | apply Hnth; exact Hk].
Qed.

(** The objects other than the one a step appends to. *)
Record same_objects (s s' : DistantSky) : Prop := {
  so_land : landObjects s' = landObjects s;
  so_air : airObjects s' = airObjects s;
  so_anim : animLandObjects s' = animLandObjects s;
  so_moon : moonObjects s' = moonObjects s;
  so_star : starObjects s' = starObjects s;
  so_sun : sunEntryIndex s' = sunEntryIndex s
}.

(** The notes of the ghost record that the texture stores do not touch. *)
Record same_notes (g g' : Ghost) : Prop := {
  sn_seeds : g_seeds g' = g_seeds g;
  sn_generated : g_generated g' = g_generated g;
  sn_sorted : g_sorted g' = g_sorted g
}.

(** The stores only grow at their end. *)
Record stores_grow (s s' : DistantSky) : Prop := {
  sg_textures : exists added, textures s' = textures s ++ added;
  sg_textureSets : exists added, textureSets s' = textureSets s ++ added
}.

Lemma stores_grow_refl (s : DistantSky) : stores_grow s s.
Proof. split; exists []; symmetry; apply app_nil_r. Qed.

Lemma stores_grow_same (s s' : DistantSky) :
  textures s' = textures s -> textureSets s' = textureSets s -> stores_grow s s'.
Proof.
  intros Ht Hs. split; exists []; rewrite app_nil_r; assumption.
Qed.

Lemma stores_grow_like (a a' b b' : DistantSky) :
  textures a = textures a' -> textureSets a = textureSets a' ->
  textures b = textures b' -> textureSets b = textureSets b' ->
  stores_grow a b -> stores_grow a' b'.
Proof.
  intros Ht Hs Ht' Hs' [H1 H2]. rewrite Ht, Ht' in H1. rewrite Hs, Hs' in H2.
  split; assumption.
Qed.

Lemma stores_grow_trans (s1 s2 s3 : DistantSky) :
  stores_grow s1 s2 -> stores_grow s2 s3 -> stores_grow s1 s3.
Proof.
  intros [[a1 H1] [b1 H2]] [[a2 H3] [b2 H4]]. split.
  - exists (a1 ++ a2). rewrite H3, H1, app_assoc. reflexivity.
  - exists (b1 ++ b2). rewrite H4, H2, app_assoc. reflexivity.
Qed.

Lemma anims_ok_same (s s' : DistantSky) :
  anims_ok s -> animLandObjects s' = animLandObjects s ->
  textureSets s' = textureSets s -> anims_ok s'.
Proof.
  unfold anims_ok, anim_ready. intros H Heq Hsets. rewrite Heq, Hsets. exact H.
Qed.

Lemma anims_ok_grow (s s' : DistantSky) :
  anims_ok s -> animLandObjects s' = animLandObjects s -> stores_grow s s' -> anims_ok s'.
Proof.
  unfold anims_ok. intros H Heq [_ [added Hsets]]. rewrite Heq.
  revert H. apply Forall_impl. intros a [Hi Hc]. split; [|exact Hc].
  rewrite Hsets, length_app. lia.
Qed.

Lemma anims_ok_push (s s' : DistantSky) (obj : AnimatedLandObject float) :
  anims_ok s -> animLandObjects s' = animLandObjects s ++ [obj] ->
  stores_grow s s' -> anim_ready s' obj -> anims_ok s'.
Proof.
  unfold anims_ok. intros H Heq [_ [added Hsets]] Hobj. rewrite Heq.
  apply Forall_app. split; [|constructor; [exact Hobj | constructor]].
  revert H. apply Forall_impl. intros a [Hi Hc]. split; [|exact Hc].
  rewrite Hsets, length_app. lia.
Qed.

Lemma sky_ok_ghost (s : DistantSky) (g g' : Ghost) :
  sky_ok s g -> g_loads g' = g_loads g -> g_requests g' = g_requests g -> sky_ok s g'.
Proof.
  intros [Hstore Hangles Hanims] Hl Hr. split; [|assumption|assumption].
  eapply store_ok_same; [exact Hstore | reflexivity | assumption | assumption].
Qed.

Section Effects.

Variable R : ArenaRandom.

(** [fixEntryIndexIfMissing] after a lookup on the current stores. *)
Lemma fixEntryIndexIfMissing_effect (tm : TextureManager) (name : string) (w : World R) :
  sky_ok (sky w) (ghost w) ->
  wp (fixEntryIndexIfMissing tm name (getTextureEntryIndex (sky w) name))
     (fun _ w' =>
        sky_ok (sky w') (ghost w') /\ stores_grow (sky w) (sky w') /\
        same_objects (sky w) (sky w') /\ same_notes (ghost w) (ghost w') /\
        random w' = random w) w.
Proof.
  intros [Hstore Hangles Hanims]. unfold fixEntryIndexIfMissing, getTextureEntryIndex.
  destruct (find_index name (map filename (textures (sky w)))) as [i|] eqn:Hfind.
  - wp_steps.
    refine (conj _ (conj (stores_grow_refl _) (conj _ (conj _ eq_refl))));
      [split; [|assumption|assumption] | split; reflexivity | split; reflexivity].
    eapply (@store_ok_found TextureStore); [exact Hstore | exact Hfind | | |]; reflexivity.
  - wp_steps.
    refine (conj _ (conj _ (conj _ (conj _ eq_refl))));
      [split; [| assumption |] | split | split; reflexivity | split; reflexivity].
    + eapply (@store_ok_added TextureStore); [exact Hstore | exact Hfind | | | |].
      * cbn. rewrite map_app. reflexivity.
      * intros [] Hne; [contradiction | reflexivity].
      * reflexivity.
      * cbn. rewrite length_app, length_map. cbn. f_equal. f_equal. lia.
    + eapply anims_ok_grow; [exact Hanims | reflexivity |].
      split; [eexists; reflexivity | exists []; symmetry; apply app_nil_r].
    + eexists; reflexivity.
    + exists []; symmetry; apply app_nil_r.
Qed.

Lemma rng_skip_add (n m : nat) (r : rng R) :
  rng_skip R (n + m) r = rng_skip R m (rng_skip R n r).
Proof. revert r. induction n as [|n IH]; intros r; [reflexivity | apply IH]. Qed.

(** Numbers drawn for one static object. *)
Definition draws_per_object (airborne : bool) : nat := if airborne then 3%nat else 2%nat.

(** The effect of placing [n] static objects, land ([airborne = false]) or
    clouds. *)
Record static_step (airborne : bool) (n : nat) (w w' : World R) : Prop := {
  ss_ok : sky_ok (sky w') (ghost w');
  ss_grow : stores_grow (sky w) (sky w');
  ss_notes : same_notes (ghost w) (ghost w');
  ss_anim : animLandObjects (sky w') = animLandObjects (sky w);
  ss_moon : moonObjects (sky w') = moonObjects (sky w);
  ss_star : starObjects (sky w') = starObjects (sky w);
  ss_sun : sunEntryIndex (sky w') = sunEntryIndex (sky w);
  ss_land : exists l, landObjects (sky w') = landObjects (sky w) ++ l /\
                      List.length l = if airborne then O else n;
  ss_air : exists l, airObjects (sky w') = airObjects (sky w) ++ l /\
                     List.length l = if airborne then n else O;
  ss_random : random w' = rng_skip R (n * draws_per_object airborne) (random w)
}.

Lemma static_step_refl (airborne : bool) (w : World R) :
  sky_ok (sky w) (ghost w) -> static_step airborne O w w.
Proof.
  intros Hok. split; try reflexivity; try assumption.
  - apply stores_grow_refl.
  - split; reflexivity.
  - exists []. rewrite app_nil_r. split; [reflexivity | destruct airborne; reflexivity].
  - exists []. rewrite app_nil_r. split; [reflexivity | destruct airborne; reflexivity].
Qed.

Lemma static_step_trans (airborne : bool) (n m : nat) (w1 w2 w3 : World R) :
  static_step airborne n w1 w2 -> static_step airborne m w2 w3 ->
  static_step airborne (n + m) w1 w3.
Proof.
  intros [_ Hg1 [Hs1 Hgen1 Hsrt1] Han1 Hm1 Hst1 Hsun1 [l1 [Hl1 Hn1]] [a1 [Ha1 Hk1]] Hseed1]
         [Hok Hg2 [Hs2 Hgen2 Hsrt2] Han2 Hm2 Hst2 Hsun2 [l2 [Hl2 Hn2]] [a2 [Ha2 Hk2]] Hseed2].
  split; try congruence.
  - exact (stores_grow_trans Hg1 Hg2).
  - split; congruence.
  - exists (l1 ++ l2). rewrite Hl2, Hl1, app_assoc, length_app, Hn1, Hn2.
    split; [reflexivity | destruct airborne; reflexivity].
  - exists (a1 ++ a2). rewrite Ha2, Ha1, app_assoc, length_app, Hk1, Hk2.
    split; [reflexivity | destruct airborne; reflexivity].
  - rewrite Hseed2, Hseed1, Nat.mul_add_distr_r. symmetry. apply rng_skip_add.
Qed.

Lemma arena_angle_drawn (r : rng R) :
  arena_angle (arenaAngleToRadians (Cpp.rem (fst (rng_next R r)) UNIQUE_ANGLES)).
Proof.
  eexists. split; [|reflexivity].
  apply rem_draw_range; [apply rng_next_range | reflexivity].
Qed.

Lemma placeStaticObject_effect (tm : TextureManager) (baseFilename : string)
    (pos var maxDigits : Z) (airborne : bool) (w : World R) :
  sky_ok (sky w) (ghost w) ->
  wp (placeStaticObject tm baseFilename pos var maxDigits airborne)
     (fun _ w' => static_step airborne 1 w w') w.
Proof.
  intros Hok. unfold placeStaticObject. wp_steps.
  destruct airborne; cbn [negb]; wp_steps.
  - match goal with
    | |- wp (fixEntryIndexIfMissing _ ?nm _) _ ?w1 =>
        eapply wp_mono; [apply (@fixEntryIndexIfMissing_effect tm nm w1); exact Hok|]
    end.
    intros i w' [Hok' [Hgrow [[Hl Ha Han Hm Hst Hsun] [Hnotes Hrand]]]].
    wp_steps. sky_simpl. destruct Hok' as [Hstore [Hland Hair] Hanims].
    split; sky_simpl; try assumption.
    + split; [|split; [assumption|] |]; sky_simpl.
      * eapply store_ok_same; [exact Hstore | | |]; reflexivity.
      * apply Forall_app. split; [exact Hair|]. repeat constructor.
        apply arena_angle_drawn.
      * eapply anims_ok_same; [exact Hanims | |]; reflexivity.
    + destruct Hgrow as [Ht Hs]. split; assumption.
    + exists []. rewrite app_nil_r. split; [exact Hl | reflexivity].
    + eexists. rewrite Ha. split; reflexivity.
  - match goal with
    | |- wp (fixEntryIndexIfMissing _ ?nm _) _ ?w1 =>
        eapply wp_mono; [apply (@fixEntryIndexIfMissing_effect tm nm w1); exact Hok|]
    end.
    intros i w' [Hok' [Hgrow [[Hl Ha Han Hm Hst Hsun] [Hnotes Hrand]]]].
    wp_steps. sky_simpl. destruct Hok' as [Hstore [Hland Hair] Hanims].
    split; sky_simpl; try assumption.
    + split; [|split; [|assumption] |]; sky_simpl.
      * eapply store_ok_same; [exact Hstore | | |]; reflexivity.
      * apply Forall_app. split; [exact Hland|]. repeat constructor.
        apply arena_angle_drawn.
      * eapply anims_ok_same; [exact Hanims | |]; reflexivity.
    + destruct Hgrow as [Ht Hs]. split; assumption.
    + eexists. rewrite Hl. split; reflexivity.
    + exists []. rewrite app_nil_r. split; [exact Ha | reflexivity].
Qed.

Lemma placeStaticObjects_effect (tm : TextureManager) (count : Z) (baseFilename : string)
    (pos var maxDigits : Z) (airborne : bool) (w : World R) :
  sky_ok (sky w) (ghost w) ->
  wp (placeStaticObjects tm count baseFilename pos var maxDigits airborne)
     (fun _ w' => static_step airborne (Z.to_nat count) w w') w.
Proof.
  intros Hok. unfold placeStaticObjects.
  apply (wp_repeat (fun i w' => static_step airborne i w w')).
  - intros i w' _ Hstep.
    eapply wp_mono; [apply placeStaticObject_effect; exact (ss_ok Hstep)|].
    intros [] w'' Hone. replace (S i) with (i + 1)%nat by lia.
    exact (static_step_trans Hstep Hone).
  - apply static_step_refl. exact Hok.
Qed.

(** The effect of the cloud block. *)
Record clouds_step (clear : bool) (cloudSeed : Z) (w w' : World R) : Prop := {
  cs_ok : sky_ok (sky w') (ghost w');
  cs_grow : stores_grow (sky w) (sky w');
  cs_land : landObjects (sky w') = landObjects (sky w);
  cs_anim : animLandObjects (sky w') = animLandObjects (sky w);
  cs_moon : moonObjects (sky w') = moonObjects (sky w);
  cs_star : starObjects (sky w') = starObjects (sky w);
  cs_sun : sunEntryIndex (sky w') = sunEntryIndex (sky w);
  cs_air : exists l, airObjects (sky w') = airObjects (sky w) ++ l /\
                     List.length l = if clear then 7%nat else O;
  cs_seeds : g_seeds (ghost w') =
             (if clear then [cloudSeed] else []) ++ g_seeds (ghost w);
  cs_generated : g_generated (ghost w') = g_generated (ghost w);
  cs_sorted : g_sorted (ghost w') = g_sorted (ghost w)
}.

Lemma addClouds_effect (tm : TextureManager) (weatherType : WeatherType)
    (currentDay : Z) (exeData : ExeData) (w : World R) :
  sky_ok (sky w) (ghost w) ->
  wp (addClouds tm weatherType currentDay exeData)
     (fun _ w' =>
        clouds_step (WeatherType_eqb weatherType Clear)
          (Cpp.to_uint32 (rng_getSeed R (random w) + Cpp.rem currentDay 32)) w w') w.
Proof.
  intros Hok. unfold addClouds.
  destruct (WeatherType_eqb weatherType Clear).
  - wp_steps.
    match goal with
    | |- wp _ _ ?w1 =>
        eapply wp_mono;
          [apply (@placeStaticObjects_effect _ _ _ _ _ _ _ w1);
           apply (sky_ok_ghost (ghost w1) Hok); reflexivity|]
    end.
    intros [] w' [Hok' Hgrow [Hs Hgen Hsrt] Han Hm Hst Hsun [l [Hl Hn]] Hair _].
    sky_simpl. destruct l; [|discriminate]. rewrite app_nil_r in Hl.
    split; try assumption.
  - wp_steps. split; try reflexivity; try assumption.
    + apply stores_grow_refl.
    + exists []. rewrite app_nil_r. split; reflexivity.
Qed.

(** A block that leaves the static objects, the moons, the sun, the
    generator and the notes alone. *)
Record quiet_step (w w' : World R) : Prop := {
  qs_ok : sky_ok (sky w') (ghost w');
  qs_grow : stores_grow (sky w) (sky w');
  qs_land : landObjects (sky w') = landObjects (sky w);
  qs_air : airObjects (sky w') = airObjects (sky w);
  qs_moon : moonObjects (sky w') = moonObjects (sky w);
  qs_sun : sunEntryIndex (sky w') = sunEntryIndex (sky w);
  qs_notes : same_notes (ghost w) (ghost w');
  qs_random : random w' = random w
}.

Lemma quiet_step_refl (w : World R) : sky_ok (sky w) (ghost w) -> quiet_step w w.
Proof.
  intros Hok. split; try reflexivity; try assumption.
  - apply stores_grow_refl.
  - split; reflexivity.
Qed.

Lemma quiet_step_trans (w1 w2 w3 : World R) :
  quiet_step w1 w2 -> quiet_step w2 w3 -> quiet_step w1 w3.
Proof.
  intros [_ Hg1 Hl1 Ha1 Hm1 Hs1 [Hn1 Hn1' Hn1''] Hr1]
         [Hok Hg2 Hl2 Ha2 Hm2 Hs2 [Hn2 Hn2' Hn2''] Hr2].
  split; try congruence.
  - exact (stores_grow_trans Hg1 Hg2).
  - split; congruence.
Qed.

Lemma fixEntryIndexIfMissing_quiet (tm : TextureManager) (name : string) (w : World R) :
  sky_ok (sky w) (ghost w) ->
  wp (fixEntryIndexIfMissing tm name (getTextureEntryIndex (sky w) name))
     (fun _ w' => quiet_step w w' /\ animLandObjects (sky w') = animLandObjects (sky w) /\
                  starObjects (sky w') = starObjects (sky w)) w.
Proof.
  intros Hok. eapply wp_mono; [apply fixEntryIndexIfMissing_effect; exact Hok|].
  intros i w' [Hok' [Hgrow [[Hl Ha Han Hm Hst Hsun] [Hnotes Hrand]]]].
  split; [split; assumption | split; assumption].
Qed.

Variable P : Platform.

Lemma makeAnimatedLandObject_ready (i : Z) (angle frameTime : float)
    (obj : AnimatedLandObject float) (s : DistantSky) :
  makeAnimatedLandObject i angle frameTime = Some obj ->
  0 <= i < Z.of_nat (List.length (textureSets s)) ->
  anim_ready s obj.
Proof.
  unfold makeAnimatedLandObject. intros H Hi.
  destruct (clock_positive frameTime) eqn:Hpos; [|discriminate].
  injection H as <-. split; [exact Hi|]. cbn.
  apply positive_not_reached. exact Hpos.
Qed.

Lemma addAnimatedLand_effect (tm : TextureManager) (cityDef : CityDefinition)
    (exeData : ExeData) (w : World R) :
  sky_ok (sky w) (ghost w) ->
  wp (addAnimatedLand P tm cityDef exeData)
     (fun _ w' => quiet_step w w' /\ starObjects (sky w') = starObjects (sky w)) w.
Proof.
  intros [Hstore Hangles Hanims]. unfold addAnimatedLand. wp_steps.
  unfold getTextureSetEntryIndex.
  match goal with
  | |- context [find_index ?nm (map set_filename (textureSets (sky w)))] =>
      destruct (find_index nm (map set_filename (textureSets (sky w)))) as [i|] eqn:Hfind
  end.
  - wp_steps.
    match goal with
    | |- wp (match makeAnimatedLandObject ?i ?a ?t with _ => _ end) _ _ =>
        destruct (makeAnimatedLandObject i a t) as [obj|] eqn:Hobj; [|exact I]
    end.
    wp_steps.
    split; [split|]; sky_simpl; try reflexivity; try assumption.
    + split; sky_simpl; [| exact Hangles |].
      * eapply (@store_ok_found TextureSetStore); [exact Hstore | exact Hfind | | |];
          reflexivity.
      * eapply anims_ok_push;
          [exact Hanims | reflexivity | apply stores_grow_same; reflexivity |].
        eapply makeAnimatedLandObject_ready; [exact Hobj|]. sky_simpl.
        apply find_index_bound in Hfind. rewrite length_map in Hfind. exact Hfind.
    + apply stores_grow_same; reflexivity.
    + split; reflexivity.
  - match goal with
    | |- wp (if ?b then _ else _) _ _ => destruct b
    end; wp_steps.
    all: match goal with
         | |- wp (match makeAnimatedLandObject ?i ?a ?t with _ => _ end) _ _ =>
             destruct (makeAnimatedLandObject i a t) as [obj|] eqn:Hobj; [|exact I]
         end.
    all: wp_steps.
    all: split; [split|]; sky_simpl; try reflexivity; try assumption;
      [ split; sky_simpl; [| exact Hangles |]
      | split; [exists []; symmetry; apply app_nil_r | eexists; reflexivity]
      | split; reflexivity ].
    all: try (eapply (@store_ok_added TextureSetStore);
              [exact Hstore | exact Hfind | | | |];
              [ cbn; rewrite map_app; reflexivity
              | intros [] Hne; [reflexivity | contradiction]
              | reflexivity
              | cbn; rewrite length_app, length_map; cbn; f_equal; f_equal; lia ]).
    all: eapply anims_ok_push;
      [ exact Hanims | reflexivity
      | split; [exists []; symmetry; apply app_nil_r | eexists; reflexivity]
      | eapply makeAnimatedLandObject_ready; [exact Hobj|]; sky_simpl;
        rewrite length_app; cbn; lia ].
Qed.

End Effects.

(** ** Stars *)

(** The types of the stars that are planets. *)
Definition planet_types (l : list Star) : list Z :=
  filter (fun t => 5 <=? t) (map star_type l).

(** A constellation has the sentinel type, a large star a type from 0 to 7;
    the colours of the sub-stars are palette entries 64 to 73. *)
Definition star_shape (s : Star) : Prop :=
  (star_type s = NO_STAR_TYPE \/ 0 <= star_type s < 8) /\
  Forall (fun sub => 64 <= sub_color sub < 74) (subList s).

(** The planet slots record the planets generated so far. *)
Record stars_good (planets : list bool) (l : list Star) : Prop := {
  sg_slots : List.length planets = 3%nat;
  sg_taken : forall t, In t (planet_types l) -> planets_at planets (t - 5) = Some true;
  sg_nodup : NoDup (planet_types l);
  sg_shape : Forall star_shape l
}.

Lemma stars_good_start : stars_good [false; false; false] [].
Proof. split; [reflexivity | intros t [] | constructor | constructor]. Qed.

Lemma planet_types_app (l1 l2 : list Star) :
  planet_types (l1 ++ l2) = planet_types l1 ++ planet_types l2.
Proof. unfold planet_types. rewrite map_app, filter_app. reflexivity. Qed.

Lemma planet_types_snoc (l : list Star) (s : Star) :
  planet_types (l ++ [s]) =
  planet_types l ++ (if 5 <=? star_type s then [star_type s] else []).
Proof. rewrite planet_types_app. unfold planet_types at 2. cbn. reflexivity. Qed.

Lemma to_int8_small (z : Z) : 0 <= z < 128 -> Cpp.to_int8 z = z.
Proof.
  intros H. unfold Cpp.to_int8. rewrite Z.mod_small by lia.
  destruct (Z.ltb_spec z 128); [reflexivity | lia].
Qed.

Lemma list_set_length {A : Type} (l : list A) (i : nat) (v : A) :
  List.length (list_set l i v) = List.length l.
Proof.
  revert i. induction l as [|a l IH]; intros [|i]; simpl; try reflexivity.
  rewrite IH. reflexivity.
Qed.

Lemma list_set_same {A : Type} (l : list A) (i : nat) (v : A) :
  (i < List.length l)%nat -> nth_error (list_set l i v) i = Some v.
Proof.
  revert i. induction l as [|a l IH]; intros [|i] H; simpl in *; try lia; try reflexivity.
  apply IH. lia.
Qed.

Lemma list_set_other {A : Type} (l : list A) (i j : nat) (v : A) :
  i <> j -> nth_error (list_set l i v) j = nth_error l j.
Proof.
  revert i j. induction l as [|a l IH]; intros [|i] [|j] H; simpl; try reflexivity;
    try congruence.
  apply IH. congruence.
Qed.

Lemma stars_good_constellation (planets : list bool) (l : list Star) (x y z : Z)
    (subs : list SubStar) :
  stars_good planets l ->
  Forall (fun sub => 64 <= sub_color sub < 74) subs ->
  stars_good planets
    (l ++ [{| star_x := x; star_y := y; star_z := z; subList := subs;
              star_type := NO_STAR_TYPE |}]).
Proof.
  intros [Hlen Htaken Hnodup Hshape] Hsubs.
  split; [exact Hlen | | |].
  - rewrite planet_types_snoc. cbn. rewrite app_nil_r. exact Htaken.
  - rewrite planet_types_snoc. cbn. rewrite app_nil_r. exact Hnodup.
  - apply Forall_app. split; [exact Hshape|]. constructor; [|constructor].
    split; [left; reflexivity | exact Hsubs].
Qed.

Lemma stars_good_large (planets : list bool) (l : list Star) (x y z value : Z) :
  stars_good planets l ->
  0 <= value < 8 ->
  (5 <= value -> planets_at planets (value - 5) = Some false) ->
  stars_good
    (if 5 <=? value then list_set planets (Z.to_nat (value - 5)) true else planets)
    (l ++ [{| star_x := x; star_y := y; star_z := z; subList := [];
              star_type := value |}]).
Proof.
  intros [Hlen Htaken Hnodup Hshape] Hrange Hfree.
  assert (Hshape' : Forall star_shape
            (l ++ [{| star_x := x; star_y := y; star_z := z; subList := [];
                      star_type := value |}])).
  { apply Forall_app. split; [exact Hshape|]. constructor; [|constructor].
    split; [right; exact Hrange | constructor]. }
  destruct (Z.leb_spec 5 value) as [Hplanet|Hsmall].
  - specialize (Hfree Hplanet).
    split; [rewrite list_set_length; exact Hlen | | | exact Hshape'];
      rewrite planet_types_snoc; cbn [star_type];
      (destruct (Z.leb_spec 5 value); [|lia]).
    + intros t Hin. unfold planets_at.
      assert (Ht : 5 <= t).
      { apply in_app_or in Hin. destruct Hin as [Hin|[<-|[]]]; [|exact Hplanet].
        unfold planet_types in Hin. apply filter_In in Hin. lia. }
      destruct (Z.ltb_spec (t - 5) 0); [lia|].
      destruct (Z.eq_dec t value) as [->|Hne].
      * apply list_set_same. unfold planets_at in Hfree.
        destruct (Z.ltb_spec (value - 5) 0); [lia|].
        apply nth_error_Some. congruence.
      * rewrite list_set_other by lia.
        apply in_app_or in Hin. destruct Hin as [Hin|[Heq|[]]]; [|congruence].
        specialize (Htaken t Hin). unfold planets_at in Htaken.
        destruct (Z.ltb_spec (t - 5) 0); [lia | exact Htaken].
    + apply NoDup_app; [exact Hnodup | repeat constructor; intros [] |].
      intros t Hin [<-|[]]. specialize (Htaken _ Hin). congruence.
  - split; [exact Hlen | | | exact Hshape'];
      rewrite planet_types_snoc; cbn [star_type];
      (destruct (Z.leb_spec 5 value); [lia|]); rewrite app_nil_r; assumption.
Qed.

Section StarEffects.

Variable R : ArenaRandom.

(** A computation that only draws numbers. *)
Definition only_draws (w w' : World R) : Prop :=
  sky w' = sky w /\ ghost w' = ghost w.

Lemma makeSubStars_effect (n : nat) :
  forall (acc : list SubStar) (w : World R),
    Forall (fun sub => 64 <= sub_color sub < 74) acc ->
    wp (makeSubStars n acc)
       (fun subs w' => only_draws w w' /\ Forall (fun sub => 64 <= sub_color sub < 74) subs)
       w.
Proof.
  induction n as [|n IH]; intros acc w Hacc; cbn [makeSubStars]; wp_steps.
  - split; [split; reflexivity | exact Hacc].
  - eapply wp_mono.
    + apply IH. apply Forall_app. split; [exact Hacc|]. constructor; [|constructor].
      cbn [sub_color]. unfold Cpp.to_uint8.
      match goal with
      | |- context [Cpp.rem ?v 10] =>
          pose proof (@rem_draw_range v 10 (proj1 (rng_next_range R _)) eq_refl) as Hr
      end.
      rewrite Z.mod_small by lia. lia.
    + intros subs w' [[Hs Hg] Hsubs]. sky_simpl. split; [split; assumption | exact Hsubs].
Qed.

Lemma drawLargeStarType_effect (fuel : nat) :
  forall (planets : list bool) (w : World R),
    wp (drawLargeStarType fuel planets)
       (fun value w' =>
          only_draws w w' /\ 0 <= value < 8 /\
          (5 <= value -> planets_at planets (value - 5) = Some false)) w.
Proof.
  induction fuel as [|fuel IH]; intros planets w; cbn [drawLargeStarType]; wp_steps.
  all: match goal with
       | |- context [Cpp.rem ?v 8] =>
           pose proof (@rem_draw_range v 8 (proj1 (rng_next_range R _)) eq_refl) as Hr;
           rewrite (to_int8_small (z := Cpp.rem v 8)) by lia;
           set (value := Cpp.rem v 8) in *
       end.
  all: destruct (Z.leb_spec 5 value) as [Hplanet|Hsmall]; wp_steps;
    cbn [andb].
  all: try match goal with
           | |- wp (if ?b then _ else _) _ _ => destruct b eqn:Htaken
           end; wp_steps.
  all: try (split; [split; reflexivity | split; [lia|]]; intros; first [lia | congruence]).
  eapply wp_mono; [apply IH|].
  intros v w' [[Hs Hg] Hv]. sky_simpl. split; [split; assumption | exact Hv].
Qed.

Lemma generateStar_effect (fuel : nat) (planets : list bool) (l : list Star)
    (w : World R) :
  stars_good planets l ->
  wp (generateStar fuel planets)
     (fun sp w' => only_draws w w' /\ stars_good (snd sp) (l ++ [fst sp])) w.
Proof.
  intros Hgood. unfold generateStar, getRndCoord. wp_steps.
  match goal with
  | |- wp (if ?b then _ else _) _ _ => destruct b
  end; wp_steps.
  - eapply wp_mono; [apply makeSubStars_effect; constructor|].
    intros subs w' [[Hs Hg] Hsubs]. sky_simpl. wp_steps. cbn [fst snd].
    split; [split; assumption|]. apply stars_good_constellation; assumption.
  - eapply wp_mono; [apply drawLargeStarType_effect|].
    intros value w' [[Hs Hg] [Hv Hfree]]. sky_simpl. wp_steps.
    destruct (Z.leb_spec 5 value) as [Hplanet|Hsmall]; wp_steps; cbn [fst snd].
    + split; [split; assumption|].
      pose proof (fun x y z => @stars_good_large planets l x y z value Hgood Hv Hfree)
        as Hlarge.
      destruct (Z.leb_spec 5 value); [apply Hlarge | lia].
    + split; [split; assumption|].
      pose proof (fun x y z => @stars_good_large planets l x y z value Hgood Hv Hfree)
        as Hlarge.
      destruct (Z.leb_spec 5 value); [lia | apply Hlarge].
Qed.

Lemma generateStars_effect (fuel n : nat) :
  forall (planets : list bool) (l : list Star) (w : World R),
    stars_good planets l ->
    wp (generateStars fuel n planets l)
       (fun stars w' =>
          only_draws w w' /\
          (exists new, stars = l ++ new /\ List.length new = n) /\
          exists planets', stars_good planets' stars) w.
Proof.
  induction n as [|n IH]; intros planets l w Hgood; cbn [generateStars]; wp_steps.
  - split; [split; reflexivity|]. split; [|exists planets; exact Hgood].
    exists []. rewrite app_nil_r. split; reflexivity.
  - eapply wp_mono; [apply generateStar_effect; exact Hgood|].
    intros [star planets'] w' [[Hs Hg] Hgood']. cbn [fst snd] in *.
    eapply wp_mono; [apply IH; exact Hgood'|].
    intros stars w'' [[Hs' Hg'] [[new [Hnew Hlen]] Hex]].
    split; [split; congruence|]. split; [|exact Hex].
    exists (star :: new). rewrite Hnew, <- app_assoc. split; [reflexivity|].
    cbn. rewrite Hlen. reflexivity.
Qed.

End StarEffects.

Section SpaceEffects.

Variable R : ArenaRandom.
Variable Sorter : StdSort.
Variable P : Platform.

(** What a moon made on [currentDay] looks like. *)
Definition moon_of (currentDay : Z) (type : MoonType) (m : MoonObject) : Prop :=
  phasePercent m =
    (Cpp.to_double (moonPhaseIndex currentDay type) / Cpp.to_double 32)%float /\
  moon_type m = type.

Lemma makeMoon_effect (tm : TextureManager) (currentDay : Z) (exeData : ExeData)
    (type : MoonType) (w : World R) :
  sky_ok (sky w) (ghost w) ->
  wp (makeMoon tm currentDay exeData type)
     (fun m w' =>
        quiet_step w w' /\ animLandObjects (sky w') = animLandObjects (sky w) /\
        starObjects (sky w') = starObjects (sky w) /\ moon_of currentDay type m) w.
Proof.
  intros [Hstore Hangles Hanims]. unfold makeMoon. wp_steps.
  unfold getTextureEntryIndex.
  match goal with
  | |- context [find_index ?nm (map filename (textures (sky w)))] =>
      destruct (find_index nm (map filename (textures (sky w)))) as [i|] eqn:Hfind
  end; wp_steps.
  - refine (conj _ (conj eq_refl (conj eq_refl (conj eq_refl eq_refl)))).
    split; sky_simpl; try reflexivity.
    + split; sky_simpl; [| exact Hangles | exact Hanims].
      eapply (@store_ok_found TextureStore); [exact Hstore | exact Hfind | | |];
        reflexivity.
    + apply stores_grow_refl.
    + split; reflexivity.
  - refine (conj _ (conj eq_refl (conj eq_refl (conj eq_refl eq_refl)))).
    split; sky_simpl; try reflexivity.
    + split; sky_simpl; [| exact Hangles |].
      * eapply (@store_ok_added TextureStore); [exact Hstore | exact Hfind | | | |].
        -- cbn. rewrite map_app. reflexivity.
        -- intros [] Hne; [contradiction | reflexivity].
        -- reflexivity.
        -- cbn. rewrite length_app, length_map. cbn. f_equal. f_equal. lia.
      * eapply anims_ok_same; [exact Hanims | |]; reflexivity.
    + split; [eexists; reflexivity | exists []; symmetry; apply app_nil_r].
    + split; reflexivity.
Qed.

(** A block that may append stars and textures only. *)
Definition star_step (w w' : World R) : Prop :=
  quiet_step w w' /\ animLandObjects (sky w') = animLandObjects (sky w).

Lemma star_step_trans (w1 w2 w3 : World R) :
  star_step w1 w2 -> star_step w2 w3 -> star_step w1 w3.
Proof.
  intros [H1 Ha1] [H2 Ha2]. split; [exact (quiet_step_trans H1 H2) | congruence].
Qed.

Lemma push_star_effect (obj : StarObject) (w : World R) :
  sky_ok (sky w) (ghost w) -> wp (push_star obj) (fun _ w' => star_step w w') w.
Proof.
  intros [Hstore Hangles Hanims]. wp_steps.
  split; [split|]; sky_simpl; try reflexivity.
  - split; sky_simpl; [| exact Hangles |].
    + eapply store_ok_same; [exact Hstore | | |]; reflexivity.
    + eapply anims_ok_same; [exact Hanims | |]; reflexivity.
  - apply stores_grow_same; reflexivity.
  - split; reflexivity.
Qed.

Lemma convertStar_effect (tm : TextureManager) (palette : list Z) (exeData : ExeData)
    (star : Star) (w : World R) :
  sky_ok (sky w) (ghost w) ->
  wp (convertStar P tm palette exeData star) (fun _ w' => star_step w w') w.
Proof.
  intros Hok. unfold convertStar.
  destruct (star_type star =? -1).
  - pose proof (@wp_for_each R SubStar (fun _ w' => star_step w w')) as Hloop.
    eapply wp_mono; [apply (Hloop _ (subList star) [])|].
    + intros pre sub w' _ Hstep. do 2 wp_step.
      eapply wp_mono; [apply push_star_effect; exact (qs_ok (proj1 Hstep))|].
      intros [] w'' Hone. exact (star_step_trans Hstep Hone).
    + split; [apply quiet_step_refl; exact Hok | reflexivity].
    + intros [] w' H. exact H.
  - wp_steps.
    match goal with
    | |- wp (match ?o with _ => _ end) _ _ => destruct o as [name|]; [|exact I]
    end.
    wp_steps.
    eapply wp_mono; [apply fixEntryIndexIfMissing_quiet; exact Hok|].
    intros i w' [Hq [Han Hst]].
    eapply wp_mono; [apply push_star_effect; exact (qs_ok Hq)|].
    intros [] w'' Hone. exact (star_step_trans (conj Hq Han) Hone).
Qed.

(** The effect of the block of the space objects. *)
Record space_step (currentDay starCount : Z) (w w' : World R) : Prop := {
  sp_ok : sky_ok (sky w') (ghost w');
  sp_grow : stores_grow (sky w) (sky w');
  sp_land : landObjects (sky w') = landObjects (sky w);
  sp_air : airObjects (sky w') = airObjects (sky w);
  sp_anim : animLandObjects (sky w') = animLandObjects (sky w);
  sp_moon : exists m1 m2,
      moonObjects (sky w') = moonObjects (sky w) ++ [m1; m2] /\
      moon_of currentDay First m1 /\ moon_of currentDay Second m2;
  sp_sun : exists i, sunEntryIndex (sky w') = Some i;
  sp_seeds : g_seeds (ghost w') = 305419897 :: g_seeds (ghost w);
  sp_generated : List.length (g_generated (ghost w')) = Z.to_nat starCount /\
                 exists planets, stars_good planets (g_generated (ghost w'));
  sp_sorted : g_sorted (ghost w') = std_sort Sorter star_less (g_generated (ghost w'))
}.

Lemma addSpaceObjects_effect (assets : Assets) (currentDay starCount : Z)
    (exeData : ExeData) (fuel : nat) (w : World R) :
  sky_ok (sky w) (ghost w) ->
  wp (addSpaceObjects Sorter P assets currentDay starCount exeData fuel)
     (fun _ w' => space_step currentDay starCount w w') w.
Proof.
  intros Hok. unfold addSpaceObjects. wp_steps.
  eapply wp_mono; [apply makeMoon_effect; exact Hok|].
  intros m1 w1 [Hq1 [Han1 [Hst1 Hm1]]]. wp_steps.
  match goal with
  | |- wp (makeMoon _ _ _ _) _ ?w1' =>
      assert (Hok1 : sky_ok (sky w1') (ghost w1'))
  end.
  { destruct (qs_ok Hq1) as [Hstore Hangles Hanims]. split; sky_simpl.
    - eapply store_ok_same; [exact Hstore | | |]; reflexivity.
    - exact Hangles.
    - eapply anims_ok_same; [exact Hanims | |]; reflexivity. }
  eapply wp_mono; [apply makeMoon_effect; exact Hok1|].
  intros m2 w2 [Hq2 [Han2 [Hst2 Hm2]]]. sky_simpl. wp_steps.
  eapply wp_mono; [apply generateStars_effect; exact stars_good_start|].
  intros stars w3 [[Hs3 Hg3] [[new [Hnew Hlen]] Hgood]]. sky_simpl. wp_steps.
  destruct (colFile assets) as [palette|]; [|exact I]. wp_steps.
  match goal with
  | |- wp (for_each _ _) _ ?w4 =>
      assert (Hok4 : sky_ok (sky w4) (ghost w4))
  end.
  { sky_simpl. rewrite Hs3. sky_simpl.
    destruct (qs_ok Hq2) as [Hstore Hangles Hanims]. split; sky_simpl.
    - eapply store_ok_same; [exact Hstore | | |]; sky_simpl;
        try rewrite Hg3; reflexivity.
    - exact Hangles.
    - eapply anims_ok_same; [exact Hanims | |]; reflexivity. }
  match goal with
  | |- wp (for_each ?l ?body) _ ?w4 =>
      pose proof (@wp_for_each R Star (fun _ w' => star_step w4 w') body l [])
        as Hloop
  end.
  eapply wp_mono; [apply Hloop|].
  - intros pre star w' _ Hstep.
    eapply wp_mono; [apply convertStar_effect; exact (qs_ok (proj1 Hstep))|].
    intros [] w'' Hone. exact (star_step_trans Hstep Hone).
  - split; [apply quiet_step_refl; exact Hok4 | reflexivity].
  - intros [] w5 [Hq5 Han5]. wp_steps.
    eapply wp_mono; [apply fixEntryIndexIfMissing_quiet; exact (qs_ok Hq5)|].
    intros i w6 [Hq6 [Han6 Hst6]]. wp_steps.
    destruct Hq1 as [_ Hg1 Hl1 Ha1 Hmo1 Hsu1 [Hse1 Hge1 Hso1] Hr1].
    destruct Hq2 as [_ Hg2 Hl2 Ha2 Hmo2 Hsu2 [Hse2 Hge2 Hso2] Hr2].
    destruct Hq5 as [_ Hg5 Hl5 Ha5 Hmo5 Hsu5 [Hse5 Hge5 Hso5] Hr5].
    destruct Hq6 as [Hok6 Hg6 Hl6 Ha6 Hmo6 Hsu6 [Hse6 Hge6 Hso6] Hr6].
    sky_simpl. rewrite Hs3 in *. rewrite Hg3 in *. sky_simpl.
    split; sky_simpl.
    + destruct Hok6 as [Hstore Hangles Hanims]. split; sky_simpl.
      * eapply store_ok_same; [exact Hstore | | |]; reflexivity.
      * exact Hangles.
      * eapply anims_ok_same; [exact Hanims | |]; reflexivity.
    + apply (stores_grow_trans Hg1).
      eapply stores_grow_trans;
        [eapply stores_grow_like; [| | | | exact Hg2]; reflexivity|].
      eapply stores_grow_trans;
        [eapply stores_grow_like; [| | | | exact Hg5]; reflexivity|].
      eapply stores_grow_like; [| | | | exact Hg6]; reflexivity.
    + congruence.
    + congruence.
    + congruence.
    + exists m1, m2. split; [|split; assumption].
      rewrite Hmo6, Hmo5, Hmo2, Hmo1, <- app_assoc. reflexivity.
    + eexists. reflexivity.
    + rewrite Hse6, Hse5, Hse2, Hse1. reflexivity.
    + rewrite Hge6, Hge5. split; [|exact Hgood].
      rewrite Hnew. exact Hlen.
    + rewrite Hso6, Hso5, Hge6, Hge5. reflexivity.
Qed.

End SpaceEffects.

Section InitEffect.

Variable R : ArenaRandom.
Variable Sorter : StdSort.
Variable P : Platform.

(** The number of mountains: two plus the first number drawn modulo 4. *)
Definition mountainCount (seed : Z) : Z :=
  Cpp.rem (fst (rng_next R (rng_make R seed))) 4 + 2.

(** The state of the sequence source when the mountains are placed: one
    draw for their number and two for each. *)
Definition random_after_mountains (seed : Z) : rng R :=
  rng_skip R (S (Z.to_nat (mountainCount seed) * 2)) (rng_make R seed).

(** The seed the clouds are generated from. *)
Definition cloudSeed (seed currentDay : Z) : Z :=
  Cpp.to_uint32 (rng_getSeed R (random_after_mountains seed) + Cpp.rem currentDay 32).

(** What one run of [init] on a city does to the aggregate [s], giving [s']
    and the ghost record [g']; [g] is the record at the start. *)
Record run_effect (cityDef : CityDefinition) (weatherType : WeatherType)
    (currentDay starCount : Z) (s : DistantSky) (g : Ghost) (s' : DistantSky)
    (g' : Ghost) : Prop := {
  re_ok : sky_ok s' g';
  re_grow : stores_grow s s';
  re_land : exists l, landObjects s' = landObjects s ++ l /\
                      List.length l = Z.to_nat (mountainCount (distantSkySeed cityDef));
  re_air : exists l, airObjects s' = airObjects s ++ l /\
                     List.length l =
                     if WeatherType_eqb weatherType Clear then 7%nat else O;
  re_moon : if WeatherType_eqb weatherType Clear
            then exists m1 m2, moonObjects s' = moonObjects s ++ [m1; m2] /\
                               moon_of currentDay First m1 /\
                               moon_of currentDay Second m2
            else moonObjects s' = moonObjects s;
  re_sun : if WeatherType_eqb weatherType Clear
           then exists i, sunEntryIndex s' = Some i
           else sunEntryIndex s' = sunEntryIndex s;
  re_seeds : g_seeds g' =
             (if WeatherType_eqb weatherType Clear
              then [305419897; cloudSeed (distantSkySeed cityDef) currentDay]
              else []) ++ g_seeds g;
  re_stars : if WeatherType_eqb weatherType Clear
             then List.length (g_generated g') = Z.to_nat starCount /\
                  (exists planets, stars_good planets (g_generated g')) /\
                  g_sorted g' = std_sort Sorter star_less (g_generated g')
             else g_generated g' = g_generated g /\ g_sorted g' = g_sorted g
}.

Lemma init_body_effect (assets : Assets) (cityDef : CityDefinition)
    (provinceDef : ProvinceDefinition) (weatherType : WeatherType)
    (currentDay starCount : Z) (exeData : ExeData) (fuel : nat) (w : World R) :
  sky_ok (sky w) (ghost w) ->
  wp (init_body Sorter P assets (CityLocation cityDef) provinceDef weatherType
        currentDay starCount exeData fuel)
     (fun _ w' =>
        run_effect cityDef weatherType currentDay starCount
          (sky w) (ghost w) (sky w') (ghost w')) w.
Proof.
  intros Hok. unfold init_body.
  wp_step.
  match goal with
  | |- wp (match ?o with _ => _ end) _ _ => destruct o as [traits|]; [|exact I]
  end.
  wp_steps.
  match goal with
  | |- wp (placeStaticObjects _ _ _ _ _ _ _) _ ?w1 =>
      eapply wp_mono;
        [apply (@placeStaticObjects_effect R _ _ _ _ _ _ _ w1); exact Hok|]
  end.
  intros [] w1 [Hok1 Hg1 [Hse1 Hge1 Hso1] Han1 Hmo1 Hst1 Hsu1 [l1 [Hl1 Hn1]]
                  [a1 [Ha1 Hk1]] Hr1].
  sky_simpl. destruct a1; [|discriminate]. rewrite app_nil_r in Ha1.
  fold (mountainCount (distantSkySeed cityDef)) in *.
  wp_step.
  eapply wp_mono; [apply addClouds_effect; exact Hok1|].
  intros [] w2 [Hok2 Hg2 Hl2 Han2 Hmo2 Hst2 Hsu2 [a2 [Ha2 Hk2]] Hse2 Hge2 Hso2].
  assert (Hcloud : Cpp.to_uint32 (rng_getSeed R (random w1) + Cpp.rem currentDay 32) =
                   cloudSeed (distantSkySeed cityDef) currentDay).
  { unfold cloudSeed, random_after_mountains. cbn [rng_skip]. rewrite Hr1.
    cbn [draws_per_object]. reflexivity. }
  rewrite Hcloud in Hse2. clear Hcloud.
  wp_step.
  assert (Hanim : wp (if hasAnimatedDistantLand provinceDef
                      then addAnimatedLand P (textureManager assets) cityDef exeData
                      else ret tt)
                     (fun _ w3 => quiet_step w2 w3) w2).
  { destruct (hasAnimatedDistantLand provinceDef).
    - eapply wp_mono; [apply addAnimatedLand_effect; exact Hok2|].
      intros [] w3 [Hq _]. exact Hq.
    - wp_steps. apply quiet_step_refl. exact Hok2. }
  eapply wp_mono; [exact Hanim|]. clear Hanim.
  intros [] w3 [Hok3 Hg3 Hl3 Ha3 Hmo3 Hsu3 [Hse3 Hge3 Hso3] Hr3]. cbv beta.
  destruct (WeatherType_eqb weatherType Clear) eqn:Hclear.
  - eapply wp_mono; [apply addSpaceObjects_effect; exact Hok3|].
    intros [] w4 [Hok4 Hg4 Hl4 Ha4 Han4 [m1 [m2 [Hmo4 [Hm1 Hm2]]]] Hsu4 Hse4
                    [Hlen Hgood] Hso4].
    split; rewrite ?Hclear.
    + exact Hok4.
    + exact (stores_grow_trans Hg1 (stores_grow_trans Hg2 (stores_grow_trans Hg3 Hg4))).
    + exists l1. split; [congruence | exact Hn1].
    + exists a2. split; [congruence | exact Hk2].
    + exists m1, m2. split; [congruence | split; assumption].
    + exact Hsu4.
    + rewrite Hse4, Hse3, Hse2, Hse1. reflexivity.
    + split; [exact Hlen | split; [exact Hgood | exact Hso4]].
  - wp_steps. split; rewrite ?Hclear.
    + exact Hok3.
    + exact (stores_grow_trans Hg1 (stores_grow_trans Hg2 Hg3)).
    + exists l1. split; [congruence | exact Hn1].
    + exists a2. split; [congruence | exact Hk2].
    + congruence.
    + congruence.
    + rewrite Hse3, Hse2, Hse1. reflexivity.
    + split; congruence.
Qed.

(** The same for [init] itself, on a run that finished. *)
Lemma init_effect (assets : Assets) (locationDef : LocationDefinition)
    (provinceDef : ProvinceDefinition) (weatherType : WeatherType)
    (currentDay starCount : Z) (exeData : ExeData) (fuel : nat)
    (this sky' : DistantSky) (g' : Ghost) :
  sky_ok this empty_ghost ->
  init R Sorter P assets locationDef provinceDef weatherType currentDay starCount
    exeData fuel this = Done (sky', g') ->
  exists cityDef,
    locationDef = CityLocation cityDef /\
    run_effect cityDef weatherType currentDay starCount this empty_ghost sky' g'.
Proof.
  intros Hok Hrun. unfold init in Hrun.
  destruct locationDef as [cityDef| |]; [|discriminate|discriminate].
  exists cityDef. split; [reflexivity|].
  match type of Hrun with
  | match ?m ?w0 with _ => _ end = _ =>
      pose proof (@init_body_effect assets cityDef provinceDef weatherType currentDay
                    starCount exeData fuel w0 Hok) as Hwp;
      unfold wp in Hwp; destruct (m w0) as [[[] w']| |]; try discriminate
  end.
  injection Hrun as <- <-. exact Hwp.
Qed.

End InitEffect.

Section FrameClockFacts.

Context {T : Type} {clock : FrameClock T}.

Lemma frame_loop_more_fuel (fuel extra : nat) (n : Z) :
  forall obj obj' : AnimatedLandObject T,
    frame_loop fuel n obj = Some obj' -> frame_loop (fuel + extra) n obj = Some obj'.
Proof.
  induction fuel as [|fuel IH]; intros obj obj' H.
  - simpl in H. destruct (clock_geb _ _) eqn:E; [discriminate|].
    destruct extra; simpl; rewrite E; exact H.
  - simpl in *. destruct (clock_geb _ _); [apply IH; exact H | exact H].
Qed.

Lemma advance_frame_target (n : Z) (k : nat) (obj : AnimatedLandObject T) :
  targetFrameTime (Nat.iter k (advance_frame n) obj) = targetFrameTime obj.
Proof. induction k; simpl; [reflexivity | exact IHk]. Qed.

Lemma advance_frame_time (n : Z) (k : nat) (obj : AnimatedLandObject T) :
  currentFrameTime (Nat.iter k (advance_frame n) obj) =
  Nat.iter k (fun c => clock_sub c (targetFrameTime obj)) (currentFrameTime obj).
Proof.
  induction k; simpl; [reflexivity|].
  rewrite IHk, advance_frame_target. reflexivity.
Qed.

Lemma advance_frame_fixed (n : Z) (k : nat) (obj : AnimatedLandObject T) :
  setEntryIndex (Nat.iter k (advance_frame n) obj) = setEntryIndex obj /\
  anim_angleRadians (Nat.iter k (advance_frame n) obj) = anim_angleRadians obj.
Proof. induction k; simpl; [split; reflexivity | exact IHk]. Qed.

Lemma advance_frame_index (n : Z) (k : nat) (obj : AnimatedLandObject T) :
  0 <= index obj < n ->
  index (Nat.iter k (advance_frame n) obj) = (index obj + Z.of_nat k) mod n.
Proof.
  intros Hi. induction k as [|k IH].
  - simpl. rewrite Z.add_0_r, Z.mod_small by lia. reflexivity.
  - rewrite Nat.iter_succ. cbn [advance_frame index]. rewrite IH.
    pose proof (Z.mod_pos_bound (index obj + Z.of_nat k) n ltac:(lia)) as Hb.
    replace (index obj + Z.of_nat (S k)) with ((index obj + Z.of_nat k) + 1) by lia.
    rewrite <- (Z.add_mod_idemp_l (index obj + Z.of_nat k)) by lia.
    destruct (Z.ltb_spec ((index obj + Z.of_nat k) mod n) (n - 1)).
    + rewrite (Z.mod_small (_ + 1)) by lia. reflexivity.
    + replace ((index obj + Z.of_nat k) mod n + 1) with n by lia.
      rewrite Z.mod_same by lia. reflexivity.
Qed.

(** What a finished loop has done: [k] passes, each entered with the
    condition true, and the condition false at the end. *)
Lemma frame_loop_passes (fuel : nat) (n : Z) :
  forall obj obj' : AnimatedLandObject T,
    frame_loop fuel n obj = Some obj' ->
    exists k : nat,
      (k <= fuel)%nat /\
      obj' = Nat.iter k (advance_frame n) obj /\
      (forall j : nat, (j < k)%nat ->
         clock_geb (currentFrameTime (Nat.iter j (advance_frame n) obj))
                   (targetFrameTime obj) = true) /\
      clock_geb (currentFrameTime obj') (targetFrameTime obj) = false.
Proof.
  induction fuel as [|fuel IH]; intros obj obj' H; simpl in H;
    destruct (clock_geb (currentFrameTime obj) (targetFrameTime obj)) eqn:E;
    try discriminate.
  - injection H as <-. exists O. repeat split; [lia | intros j Hj; lia | exact E].
  - destruct (IH _ _ H) as [k [Hk [Heq [Hbefore Hafter]]]].
    exists (S k). split; [lia|]. split; [|split].
    + rewrite Heq. symmetry. apply Nat.iter_succ_r.
    + intros [|j] Hj; [exact E|].
      rewrite Nat.iter_succ_r. apply Hbefore. lia.
    + exact Hafter.
  - injection H as <-. exists O. repeat split; [lia | intros j Hj; lia | exact E].
Qed.

End FrameClockFacts.

(** [tick] called [n] times with the same [dt]. *)
Fixpoint tick_times (n fuel : nat) (dt : float) (s : DistantSky) : outcome DistantSky :=
  match n with
  | O => Done s
  | S n' =>
      match tick fuel dt s with
      | Done s' => tick_times n' fuel dt s'
      | Abort f => Abort f
      | Starved => Starved
      end
  end.

Section Reachable.

Variable R : ArenaRandom.
Variable Sorter : StdSort.
Variable P : Platform.

(** The aggregates a program can hold: a fresh one, and what [init] and
    [tick] make of one when they return. *)
Inductive reachable : DistantSky -> Prop :=
| reach_fresh : reachable empty_sky
| reach_init (assets : Assets) (locationDef : LocationDefinition)
    (provinceDef : ProvinceDefinition) (weatherType : WeatherType)
    (currentDay starCount : Z) (exeData : ExeData) (fuel : nat)
    (this sky' : DistantSky) (g : Ghost) :
    reachable this ->
    init R Sorter P assets locationDef provinceDef weatherType currentDay starCount
      exeData fuel this = Done (sky', g) ->
    reachable sky'
| reach_tick (fuel : nat) (dt : float) (s s' : DistantSky) :
    reachable s -> tick fuel dt s = Done s' -> reachable s'.

End Reachable.

Lemma sky_ok_forget (s : DistantSky) (g : Ghost) : sky_ok s g -> sky_ok s empty_ghost.
Proof.
  intros [[Hn _ _ _] Hangles Hanims]. split; [split| |]; try assumption.
  - constructor.
  - intros store name [].
  - intros store name i [].
Qed.

Lemma update_in_ready (fuel : nat) (dt : float) (s : DistantSky)
    (a a' : AnimatedLandObject float) :
  update_in fuel dt s a = Done a' -> anim_ready s a -> anim_ready s a'.
Proof.
  unfold update_in, update. intros H [Hi Hc].
  destruct (getTextureSetCount s (setEntryIndex a)) as [n| |]; try discriminate.
  destruct (0 <? n).
  - destruct (frame_loop fuel n (accumulate dt a)) as [r|] eqn:Hloop; [|discriminate].
    injection H as <-.
    destruct (frame_loop_passes _ _ _ Hloop) as [k [_ [Heq [_ Hafter]]]].
    split.
    + rewrite Heq. rewrite (proj1 (advance_frame_fixed n k (accumulate dt a))). exact Hi.
    + rewrite Heq at 2. rewrite advance_frame_target. exact Hafter.
  - injection H as <-. split; assumption.
Qed.

Lemma update_all_ready (fuel : nat) (dt : float) (s : DistantSky) :
  forall anims anims',
    update_all fuel dt s anims = Done anims' ->
    Forall (anim_ready s) anims -> Forall (anim_ready s) anims'.
Proof.
  induction anims as [|a rest IH]; intros anims' H Hall; simpl in H.
  - injection H as <-. constructor.
  - inversion Hall as [|? ? Ha Hrest]; subst.
    destruct (update_in fuel dt s a) as [a'| |] eqn:Ha'; try discriminate.
    destruct (update_all fuel dt s rest) as [rest'| |]; try discriminate.
    injection H as <-. constructor; [eapply update_in_ready; eassumption | auto].
Qed.

Lemma tick_ok (fuel : nat) (dt : float) (s s' : DistantSky) :
  tick fuel dt s = Done s' -> sky_ok s empty_ghost -> sky_ok s' empty_ghost.
Proof.
  unfold tick. intros H [Hstore Hangles Hanims].
  destruct (update_all fuel dt s (animLandObjects s)) as [anims| |] eqn:Hall;
    try discriminate.
  injection H as <-. split.
  - eapply store_ok_same; [exact Hstore | | |]; reflexivity.
  - exact Hangles.
  - unfold anims_ok. cbn [animLandObjects].
    assert (Hready : Forall (anim_ready s) anims)
      by (eapply update_all_ready; eassumption).
    revert Hready. apply Forall_impl. intros a Ha. exact Ha.
Qed.

Lemma reachable_ok (R : ArenaRandom) (Sorter : StdSort) (P : Platform) (s : DistantSky) :
  reachable R Sorter P s -> sky_ok s empty_ghost.
Proof.
  induction 1 as [| assets loc prov weather day count exe fuel this sky' g _ IH Hrun
                  | fuel dt s s' _ IH Hrun].
  - exact empty_sky_ok.
  - destruct (@init_effect _ _ _ _ _ _ _ _ _ _ _ _ _ _ IH Hrun) as [cityDef [_ Heff]].
    exact (sky_ok_forget (re_ok Heff)).
  - eapply tick_ok; eassumption.
Qed.

(** With [dt = 0.0] an object whose clock is below its frame time is left
    where it is, whatever the iteration bound. *)
Lemma update_in_zero (fuel : nat) (s : DistantSky) (a : AnimatedLandObject float) :
  anim_ready s a ->
  exists a', update_in fuel 0%float s a = Done a' /\ index a' = index a /\
             anim_ready s a'.
Proof.
  intros [Hi Hc]. unfold update_in, getTextureSetCount, checked_nth.
  destruct (Z.ltb_spec (setEntryIndex a) 0); [lia|].
  destruct (nth_error (textureSets s) (Z.to_nat (setEntryIndex a))) as [entry|] eqn:Hnth.
  - unfold update. destruct (0 <? _).
    + assert (Hstay : frame_loop fuel (Z.of_nat (List.length (set_textures entry)))
                        (accumulate 0%float a) = Some (accumulate 0%float a)).
      { destruct fuel; cbn [frame_loop accumulate currentFrameTime targetFrameTime
                            clock_geb clock_add binary64_clock];
          rewrite leb_add_zero; cbn [clock_geb binary64_clock] in Hc; rewrite Hc;
          reflexivity. }
      rewrite Hstay. eexists. split; [reflexivity|]. split; [reflexivity|].
      split; [exact Hi|]. cbn. rewrite leb_add_zero. exact Hc.
    + eexists. split; [reflexivity|]. split; [reflexivity | split; assumption].
  - apply nth_error_None in Hnth. lia.
Qed.

Lemma update_all_zero (fuel : nat) (s : DistantSky) :
  forall anims,
    Forall (anim_ready s) anims ->
    exists anims', update_all fuel 0%float s anims = Done anims' /\
                   map (@index float) anims' = map (@index float) anims /\
                   Forall (anim_ready s) anims'.
Proof.
  induction anims as [|a rest IH]; intros Hall.
  - exists []. repeat split; constructor.
  - inversion Hall as [|? ? Ha Hrest]; subst.
    destruct (@update_in_zero fuel s a Ha) as [a' [Hrun [Hidx Hready]]].
    destruct (IH Hrest) as [rest' [Hruns [Hidxs Hreadys]]].
    exists (a' :: rest'). cbn [update_all]. rewrite Hrun, Hruns.
    split; [reflexivity|]. split; [cbn; congruence | constructor; assumption].
Qed.

Lemma tick_zero (fuel : nat) (s : DistantSky) :
  anims_ok s ->
  exists s', tick fuel 0%float s = Done s' /\
             map (@index float) (animLandObjects s') = map (@index float) (animLandObjects s) /\
             anims_ok s'.
Proof.
  intros Hok. destruct (@update_all_zero fuel s _ Hok) as [anims' [Hrun [Hidx Hready]]].
  unfold tick. rewrite Hrun. eexists. split; [reflexivity|].
  split; [exact Hidx|]. unfold anims_ok. cbn [animLandObjects].
  revert Hready. apply Forall_impl. intros a Ha. exact Ha.
Qed.

Lemma tick_times_zero (n fuel : nat) :
  forall s, anims_ok s ->
    exists s', tick_times n fuel 0%float s = Done s' /\
               map (@index float) (animLandObjects s') =
               map (@index float) (animLandObjects s).
Proof.
  induction n as [|n IH]; intros s Hok.
  - exists s. split; reflexivity.
  - destruct (@tick_zero fuel s Hok) as [s1 [Hrun [Hidx Hok1]]].
    destruct (IH s1 Hok1) as [s' [Hruns Hidxs]].
    exists s'. cbn [tick_times]. rewrite Hrun. split; [exact Hruns | congruence].
Qed.

(** ** Runs that finish *)







Section Finishing.

Variable R : ArenaRandom.
Variable Sorter : StdSort.
Variable P : Platform.

















Lemma star_less_strict_weak : strict_weak star_less.
Proof.
  unfold star_less. split.
  - intros a. apply Z.ltb_irrefl.
  - intros a b c. rewrite !Z.ltb_lt. lia.
  - intros a b c. rewrite !Z.ltb_ge. lia.
Qed.





End Finishing.

(** ** Two runs side by side *)

(** What a renderer places: the kind of a star, its texture index when it
    has one, and its direction. *)
Definition star_layout (s : StarObject) : option Z * Double3 :=
  match s with
  | SmallStar _ direction => (None, direction)
  | LargeStar i direction => (Some i, direction)
  end.

(** Two aggregates with the same objects and the same identifiers in their
    stores; the pixels of the images may differ, and unless [strict] the
    colours of the small stars. *)
Record same_layout (strict : bool) (s1 s2 : DistantSky) : Prop := {
  sl_land : landObjects s1 = landObjects s2;
  sl_anim : animLandObjects s1 = animLandObjects s2;
  sl_air : airObjects s1 = airObjects s2;
  sl_moon : moonObjects s1 = moonObjects s2;
  sl_star : if strict
            then starObjects s1 = starObjects s2
            else map star_layout (starObjects s1) = map star_layout (starObjects s2);
  sl_sun : sunEntryIndex s1 = sunEntryIndex s2;
  sl_textures : map filename (textures s1) = map filename (textures s2);
  sl_textureSets : map set_filename (textureSets s1) = map set_filename (textureSets s2)
}.

Lemma same_layout_refl (strict : bool) (s : DistantSky) : same_layout strict s s.
Proof. split; try reflexivity. destruct strict; reflexivity. Qed.

Section Relational.

Variable R : ArenaRandom.
Variable strict : bool.

Record sim (w1 w2 : World R) : Prop := {
  sim_sky : same_layout strict (sky w1) (sky w2);
  sim_random : random w1 = random w2;
  sim_ghost : ghost w1 = ghost w2
}.

Lemma wp2_prim {A : Type} (m1 m2 : Gen R A) Q w1 w2 a1 w1' a2 w2' :
  m1 w1 = Done (a1, w1') -> m2 w2 = Done (a2, w2') -> Q a1 w1' a2 w2' ->
  wp2 m1 m2 Q w1 w2.
Proof. unfold wp2. intros -> ->. auto. Qed.

Lemma wp2_left {A : Type} (m1 m2 : Gen R A) Q w1 w2 :
  (forall a1 w1', m1 w1 = Done (a1, w1') -> False) -> wp2 m1 m2 Q w1 w2.
Proof.
  unfold wp2. intros H. destruct (m1 w1) as [[a1 w1']| |]; auto.
  destruct (H _ _ eq_refl).
Qed.

Lemma wp2_right {A : Type} (m1 m2 : Gen R A) Q w1 w2 :
  (forall a2 w2', m2 w2 = Done (a2, w2') -> False) -> wp2 m1 m2 Q w1 w2.
Proof.
  unfold wp2. intros H. destruct (m1 w1) as [[a1 w1']| |]; auto.
  destruct (m2 w2) as [[a2 w2']| |]; auto. destruct (H _ _ eq_refl).
Qed.

Lemma wp2_debugAssert (b1 b2 : bool) Q (w1 w2 : World R) :
  (b1 = true -> b2 = true -> Q tt w1 tt w2) ->
  wp2 (debugAssert b1) (debugAssert b2) Q w1 w2.
Proof. unfold wp2, debugAssert. destruct b1, b2; cbn; auto. Qed.

Lemma wp2_lift_at {A : Type} (o1 o2 : option A) Q (w1 w2 : World R) :
  (forall a1 a2, o1 = Some a1 -> o2 = Some a2 -> Q a1 w1 a2 w2) ->
  wp2 (lift_at o1) (lift_at o2) Q w1 w2.
Proof. unfold wp2, lift_at. destruct o1, o2; cbn; auto. Qed.

Lemma wp2_lift {A : Type} (o1 o2 : outcome A) Q (w1 w2 : World R) :
  (forall a1 a2, o1 = Done a1 -> o2 = Done a2 -> Q a1 w1 a2 w2) ->
  wp2 (lift o1) (lift o2) Q w1 w2.
Proof. unfold wp2, lift. destruct o1, o2; cbn; auto. Qed.

Lemma wp2_repeat (n : nat) (body1 body2 : Gen R unit) :
  (forall w1 w2, sim w1 w2 -> wp2 body1 body2 (fun _ w1' _ w2' => sim w1' w2') w1 w2) ->
  forall w1 w2, sim w1 w2 ->
    wp2 (repeat_gen n body1) (repeat_gen n body2) (fun _ w1' _ w2' => sim w1' w2') w1 w2.
Proof.
  intros Hbody. induction n as [|n IH]; intros w1 w2 Hsim.
  - exact Hsim.
  - cbn [repeat_gen]. apply wp2_bind.
    eapply wp2_mono; [apply Hbody; exact Hsim|].
    intros [] w1' [] w2' Hsim'. apply IH. exact Hsim'.
Qed.

Lemma wp2_for_each {A : Type} (body1 body2 : A -> Gen R unit) (l : list A) :
  (forall a w1 w2, sim w1 w2 ->
     wp2 (body1 a) (body2 a) (fun _ w1' _ w2' => sim w1' w2') w1 w2) ->
  forall w1 w2, sim w1 w2 ->
    wp2 (for_each l body1) (for_each l body2) (fun _ w1' _ w2' => sim w1' w2') w1 w2.
Proof.
  intros Hbody. induction l as [|a l IH]; intros w1 w2 Hsim.
  - exact Hsim.
  - cbn [for_each]. apply wp2_bind.
    eapply wp2_mono; [apply Hbody; exact Hsim|].
    intros [] w1' [] w2' Hsim'. apply IH. exact Hsim'.
Qed.

End Relational.

Ltac wp2_run_prim :=
  lazymatch goal with
  | |- @wp2 ?R ?A ?m1 ?m2 ?Q ?w1 ?w2 =>
      refine (@wp2_prim R A m1 m2 Q w1 w2 _ _ _ _ eq_refl eq_refl _)
  end.

(** One step of symbolic execution of two runs of the same code. *)
Ltac wp2_step :=
  cbv beta;
  lazymatch goal with
  | |- wp2 (bind _ _) (bind _ _) _ _ _ => apply wp2_bind
  | |- wp2 (ret _) (ret _) _ _ _ => wp2_run_prim
  | |- wp2 (@random_next _) _ _ _ _ => wp2_run_prim
  | |- wp2 (@random_getSeed _) _ _ _ _ => wp2_run_prim
  | |- wp2 (random_srand _) _ _ _ _ => wp2_run_prim
  | |- wp2 (random_construct _) _ _ _ _ => wp2_run_prim
  | |- wp2 (@this_sky _) _ _ _ _ => wp2_run_prim
  | |- wp2 (modify_sky _) _ _ _ _ => wp2_run_prim
  | |- wp2 (modify_ghost _) _ _ _ _ => wp2_run_prim
  | |- wp2 (note_request _ _ _) _ _ _ _ => unfold note_request
  | |- wp2 (note_load _ _) _ _ _ _ => unfold note_load
  | |- wp2 (note_stars _ _) _ _ _ _ => unfold note_stars
  | |- wp2 (load_surface _ _ _) _ _ _ _ => unfold load_surface
  | |- wp2 (load_surfaces _ _ _) _ _ _ _ => unfold load_surfaces
  | |- wp2 (push_texture _) _ _ _ _ => unfold push_texture
  | |- wp2 (push_textureSet _) _ _ _ _ => unfold push_textureSet
  | |- wp2 (push_land _) _ _ _ _ => unfold push_land
  | |- wp2 (push_air _) _ _ _ _ => unfold push_air
  | |- wp2 (push_animLand _) _ _ _ _ => unfold push_animLand
  | |- wp2 (push_moon _) _ _ _ _ => unfold push_moon
  | |- wp2 (push_star _) _ _ _ _ => unfold push_star
  | |- wp2 (set_sun _) _ _ _ _ => unfold set_sun
  | |- wp2 (debugAssert _) (debugAssert _) _ _ _ => apply wp2_debugAssert; intros ? ?
  | |- wp2 (lift_at _) (lift_at _) _ _ _ => apply wp2_lift_at; intros ? ? ? ?
  | |- wp2 (lift _) (lift _) _ _ _ => apply wp2_lift; intros ? ? ? ?
  | |- wp2 (abort _) _ _ _ _ => exact I
  | |- wp2 starve _ _ _ _ => exact I
  | |- wp2 _ (abort _) _ _ _ => apply wp2_right; intros ? ? ?; discriminate
  | |- wp2 _ starve _ _ _ => apply wp2_right; intros ? ? ?; discriminate
  end;
  cbv beta; cbn [sky random ghost].

Ltac wp2_steps := repeat wp2_step.

(** Closes a goal [sim w1' w2'] on explicitly built worlds. *)
Ltac sim_close Hsim :=
  let Hsky := fresh "Hsky" in
  let Hr := fresh "Hr" in
  let Hg := fresh "Hg" in
  destruct Hsim as [Hsky Hr Hg];
  let Hl := fresh "Hl" in
  let Han := fresh "Han" in
  let Ha := fresh "Ha" in
  let Hm := fresh "Hm" in
  let Hs := fresh "Hs" in
  let Hsun := fresh "Hsun" in
  let Ht := fresh "Ht" in
  let Hts := fresh "Hts" in
  destruct Hsky as [Hl Han Ha Hm Hs Hsun Ht Hts];
  let Hlen := fresh "Hlen" in
  let Hlens := fresh "Hlens" in
  pose proof (f_equal (@List.length string) Ht) as Hlen;
  pose proof (f_equal (@List.length string) Hts) as Hlens;
  rewrite !length_map in Hlen, Hlens;
  split; [split|..]; sky_simpl;
  try match goal with |- if ?b then _ else _ => destruct b end;
  rewrite ?map_app, ?length_app;
  cbn [map star_layout filename set_filename Datatypes.length];
  congruence.

(** Two results of the same lookup are the same. *)
Ltac same_results :=
  repeat match goal with
         | H1 : ?o = Some ?a1, H2 : ?o = Some ?a2 |- _ =>
             assert (a1 = a2) by congruence; subst a2; clear H2
         | H1 : ?o = Done ?a1, H2 : ?o = Done ?a2 |- _ =>
             assert (a1 = a2) by congruence; subst a2; clear H2
         end.

Section RelationalEffects.

Variable R : ArenaRandom.
Variable strict : bool.

Local Abbreviation sim := (sim strict).

Lemma lookup_agree (w1 w2 : World R) (name : string) :
  sim w1 w2 -> getTextureEntryIndex (sky w1) name = getTextureEntryIndex (sky w2) name.
Proof.
  intros [[_ _ _ _ _ _ Ht _] _ _]. unfold getTextureEntryIndex. rewrite Ht. reflexivity.
Qed.

Lemma set_lookup_agree (w1 w2 : World R) (name : string) :
  sim w1 w2 ->
  getTextureSetEntryIndex (sky w1) name = getTextureSetEntryIndex (sky w2) name.
Proof.
  intros [[_ _ _ _ _ _ _ Hts] _ _]. unfold getTextureSetEntryIndex. rewrite Hts.
  reflexivity.
Qed.

Lemma fixEntryIndexIfMissing_agree (tm1 tm2 : TextureManager) (name : string)
    (entryIndex : option Z) (w1 w2 : World R) :
  sim w1 w2 ->
  wp2 (fixEntryIndexIfMissing tm1 name entryIndex)
      (fixEntryIndexIfMissing tm2 name entryIndex)
      (fun i1 w1' i2 w2' => i1 = i2 /\ sim w1' w2') w1 w2.
Proof.
  intros Hsim. unfold fixEntryIndexIfMissing. destruct entryIndex as [i|]; wp2_steps.
  - split; [reflexivity|]. sim_close Hsim.
  - assert (Hlen : List.length (textures (sky w1)) = List.length (textures (sky w2))).
    { pose proof (f_equal (@List.length string) (sl_textures (sim_sky Hsim))) as H.
      rewrite !length_map in H. exact H. }
    sky_simpl. rewrite !length_app, Hlen. split; [reflexivity|]. sim_close Hsim.
Qed.

Lemma placeStaticObject_agree (tm1 tm2 : TextureManager) (baseFilename : string)
    (pos var maxDigits : Z) (airborne : bool) (w1 w2 : World R) :
  sim w1 w2 ->
  wp2 (placeStaticObject tm1 baseFilename pos var maxDigits airborne)
      (placeStaticObject tm2 baseFilename pos var maxDigits airborne)
      (fun _ w1' _ w2' => sim w1' w2') w1 w2.
Proof.
  intros Hsim. unfold placeStaticObject.
  pose proof (sim_random Hsim) as Hr.
  do 2 wp2_step. rewrite Hr. wp2_steps. same_results.
  rewrite (lookup_agree _ Hsim).
  destruct airborne; cbn [negb]; wp2_steps.
  all: match goal with
       | |- wp2 (fixEntryIndexIfMissing _ _ _) _ _ ?v1 ?v2 =>
           assert (Hsim' : sim v1 v2) by (clear Hr; sim_close Hsim);
           eapply wp2_mono; [apply fixEntryIndexIfMissing_agree; exact Hsim'|]
       end.
  all: intros i1 w1' i2 w2' [<- Hsim'']; wp2_steps; sim_close Hsim''.
Qed.

Lemma placeStaticObjects_agree (tm1 tm2 : TextureManager) (count : Z)
    (baseFilename : string) (pos var maxDigits : Z) (airborne : bool)
    (w1 w2 : World R) :
  sim w1 w2 ->
  wp2 (placeStaticObjects tm1 count baseFilename pos var maxDigits airborne)
      (placeStaticObjects tm2 count baseFilename pos var maxDigits airborne)
      (fun _ w1' _ w2' => sim w1' w2') w1 w2.
Proof.
  intros Hsim. unfold placeStaticObjects. apply wp2_repeat; [|exact Hsim].
  intros v1 v2 Hv. apply placeStaticObject_agree. exact Hv.
Qed.

Lemma addClouds_agree (tm1 tm2 : TextureManager) (weatherType : WeatherType)
    (currentDay : Z) (exeData : ExeData) (w1 w2 : World R) :
  sim w1 w2 ->
  wp2 (addClouds tm1 weatherType currentDay exeData)
      (addClouds tm2 weatherType currentDay exeData)
      (fun _ w1' _ w2' => sim w1' w2') w1 w2.
Proof.
  intros Hsim. unfold addClouds.
  destruct (WeatherType_eqb weatherType Clear); wp2_steps; [|exact Hsim].
  apply placeStaticObjects_agree. sim_close Hsim.
Qed.

Variable P : Platform.

Lemma addAnimatedLand_agree (tm1 tm2 : TextureManager) (cityDef : CityDefinition)
    (exeData : ExeData) (w1 w2 : World R) :
  sim w1 w2 ->
  wp2 (addAnimatedLand P tm1 cityDef exeData) (addAnimatedLand P tm2 cityDef exeData)
      (fun _ w1' _ w2' => sim w1' w2') w1 w2.
Proof.
  intros Hsim. unfold addAnimatedLand. wp2_steps. same_results.
  rewrite (set_lookup_agree _ Hsim).
  assert (Hlens : List.length (textureSets (sky w1)) = List.length (textureSets (sky w2))).
  { pose proof (f_equal (@List.length string) (sl_textureSets (sim_sky Hsim))) as Hmap.
    rewrite !length_map in Hmap. exact Hmap. }
  match goal with
  | |- wp2 (match ?o with _ => _ end) _ _ _ _ => destruct o as [i|]
  end; wp2_steps.
  2: match goal with
     | |- wp2 (if ?b then _ else _) _ _ _ _ => destruct b
     end; wp2_steps; sky_simpl; rewrite !length_app, Hlens; cbn [Datatypes.length].
  all: match goal with
       | |- wp2 (match makeAnimatedLandObject ?i ?a ?t with _ => _ end) _ _ _ _ =>
           destruct (makeAnimatedLandObject i a t) as [obj|]; [|exact I]
       end; wp2_steps; sim_close Hsim.
Qed.

Lemma makeMoon_agree (tm1 tm2 : TextureManager) (currentDay : Z) (exeData : ExeData)
    (type : MoonType) (w1 w2 : World R) :
  sim w1 w2 ->
  wp2 (makeMoon tm1 currentDay exeData type) (makeMoon tm2 currentDay exeData type)
      (fun m1 w1' m2 w2' => m1 = m2 /\ sim w1' w2') w1 w2.
Proof.
  intros Hsim. unfold makeMoon. wp2_steps. same_results.
  rewrite (lookup_agree _ Hsim).
  assert (Hlen : List.length (textures (sky w1)) = List.length (textures (sky w2))).
  { pose proof (f_equal (@List.length string) (sl_textures (sim_sky Hsim))) as Hmap.
    rewrite !length_map in Hmap. exact Hmap. }
  match goal with
  | |- wp2 (match ?o with _ => _ end) _ _ _ _ => destruct o as [i|]
  end; wp2_steps; sky_simpl; rewrite ?length_app, ?Hlen; cbn [Datatypes.length];
    (split; [reflexivity | sim_close Hsim]).
Qed.

Lemma makeSubStars_agree (n : nat) :
  forall (acc : list SubStar) (w1 w2 : World R),
    sim w1 w2 ->
    wp2 (makeSubStars n acc) (makeSubStars n acc)
        (fun l1 w1' l2 w2' => l1 = l2 /\ sim w1' w2') w1 w2.
Proof.
  induction n as [|n IH]; intros acc w1 w2 Hsim; cbn [makeSubStars].
  - wp2_steps. split; [reflexivity | exact Hsim].
  - pose proof (sim_random Hsim) as Hr. do 2 wp2_step. rewrite Hr. wp2_steps.
    apply IH. clear Hr. sim_close Hsim.
Qed.

(** The redraw loop gives the same type whatever the two iteration bounds. *)
Lemma drawLargeStarType_agree (fuel1 : nat) :
  forall (fuel2 : nat) (planets : list bool) (w1 w2 : World R),
    sim w1 w2 ->
    wp2 (drawLargeStarType fuel1 planets) (drawLargeStarType fuel2 planets)
        (fun v1 w1' v2 w2' => v1 = v2 /\ sim w1' w2') w1 w2.
Proof.
  induction fuel1 as [|fuel1 IH]; intros [|fuel2] planets w1 w2 Hsim;
    cbn [drawLargeStarType]; pose proof (sim_random Hsim) as Hr;
    do 2 wp2_step; rewrite Hr; wp2_steps.
  all: match goal with
       | |- wp2 (if ?b then _ else _) _ _ _ _ => destruct b
       end; wp2_steps; same_results.
  all: match goal with
       | |- wp2 (if ?b then _ else _) _ _ _ _ => destruct b
       | |- _ => idtac
       end; wp2_steps.
  all: try (split; [reflexivity|]; clear Hr; sim_close Hsim).
  all: apply IH; clear Hr; sim_close Hsim.
Qed.

Lemma generateStar_agree (fuel1 fuel2 : nat) (planets : list bool) (w1 w2 : World R) :
  sim w1 w2 ->
  wp2 (generateStar fuel1 planets) (generateStar fuel2 planets)
      (fun sp1 w1' sp2 w2' => sp1 = sp2 /\ sim w1' w2') w1 w2.
Proof.
  intros Hsim. unfold generateStar, getRndCoord.
  pose proof (sim_random Hsim) as Hr. do 3 wp2_step. rewrite Hr. wp2_steps.
  match goal with
  | |- wp2 (if ?b then _ else _) _ _ _ _ => destruct b
  end; wp2_steps.
  - match goal with
    | |- wp2 (makeSubStars _ _) _ _ ?v1 ?v2 =>
        assert (Hsim' : sim v1 v2) by (clear Hr; sim_close Hsim);
        eapply wp2_mono; [apply makeSubStars_agree; exact Hsim'|]
    end.
    intros l1 w1' l2 w2' [<- Hsim'']. wp2_steps. split; [reflexivity | exact Hsim''].
  - match goal with
    | |- wp2 (drawLargeStarType _ _) _ _ ?v1 ?v2 =>
        assert (Hsim' : sim v1 v2) by (clear Hr; sim_close Hsim);
        eapply wp2_mono; [apply drawLargeStarType_agree; exact Hsim'|]
    end.
    intros v1 w1' v2 w2' [<- Hsim'']. wp2_steps.
    match goal with
    | |- wp2 (if ?b then _ else _) _ _ _ _ => destruct b
    end; wp2_steps; same_results; (split; [reflexivity | exact Hsim'']).
Qed.

Lemma generateStars_agree (fuel1 fuel2 n : nat) :
  forall (planets : list bool) (stars : list Star) (w1 w2 : World R),
    sim w1 w2 ->
    wp2 (generateStars fuel1 n planets stars) (generateStars fuel2 n planets stars)
        (fun l1 w1' l2 w2' => l1 = l2 /\ sim w1' w2') w1 w2.
Proof.
  induction n as [|n IH]; intros planets stars w1 w2 Hsim; cbn [generateStars].
  - wp2_steps. split; [reflexivity | exact Hsim].
  - wp2_step. eapply wp2_mono; [apply generateStar_agree; exact Hsim|].
    intros sp1 w1' sp2 w2' [<- Hsim']. apply IH. exact Hsim'.
Qed.

Lemma convertStar_agree (tm1 tm2 : TextureManager) (palette1 palette2 : list Z)
    (exeData : ExeData) (star : Star) (w1 w2 : World R) :
  (strict = true -> palette1 = palette2) ->
  sim w1 w2 ->
  wp2 (convertStar P tm1 palette1 exeData star) (convertStar P tm2 palette2 exeData star)
      (fun _ w1' _ w2' => sim w1' w2') w1 w2.
Proof.
  intros Hpal Hsim. unfold convertStar. destruct (star_type star =? -1).
  - apply wp2_for_each; [|exact Hsim].
    intros sub v1 v2 Hv. wp2_steps.
    destruct strict; [rewrite (Hpal eq_refl) in *; same_results|]; sim_close Hv.
  - wp2_steps.
    match goal with
    | |- wp2 (match ?o with _ => _ end) _ _ _ _ => destruct o as [name|]; [|exact I]
    end.
    wp2_steps. rewrite (lookup_agree _ Hsim).
    eapply wp2_mono; [apply fixEntryIndexIfMissing_agree; exact Hsim|].
    intros i1 w1' i2 w2' [<- Hsim']. wp2_steps. sim_close Hsim'.
Qed.

Variable Sorter : StdSort.

Lemma addSpaceObjects_agree (assets1 assets2 : Assets) (currentDay starCount : Z)
    (exeData : ExeData) (fuel1 fuel2 : nat) (w1 w2 : World R) :
  (strict = true -> colFile assets1 = colFile assets2) ->
  sim w1 w2 ->
  wp2 (addSpaceObjects Sorter P assets1 currentDay starCount exeData fuel1)
      (addSpaceObjects Sorter P assets2 currentDay starCount exeData fuel2)
      (fun _ w1' _ w2' => sim w1' w2') w1 w2.
Proof.
  intros Hcol Hsim. unfold addSpaceObjects. wp2_step.
  eapply wp2_mono; [apply makeMoon_agree; exact Hsim|].
  intros m1 v1 m1' v1' [<- Hv1]. wp2_steps.
  match goal with
  | |- wp2 (makeMoon _ _ _ _) _ _ ?u1 ?u2 =>
      assert (Hu : sim u1 u2) by sim_close Hv1;
      eapply wp2_mono; [apply makeMoon_agree; exact Hu|]
  end.
  intros m2 v2 m2' v2' [<- Hv2]. wp2_steps.
  match goal with
  | |- wp2 (generateStars _ _ _ _) _ _ ?u1 ?u2 =>
      assert (Hu' : sim u1 u2) by sim_close Hv2;
      eapply wp2_mono; [apply generateStars_agree; exact Hu'|]
  end.
  intros stars v3 stars' v3' [<- Hv3]. wp2_steps.
  destruct (colFile assets1) as [palette1|]; [|exact I].
  destruct (colFile assets2) as [palette2|];
    [|apply wp2_right; intros ? ? ?; discriminate].
  assert (Hpal : strict = true -> palette1 = palette2)
    by (intros Hs; specialize (Hcol Hs); congruence).
  wp2_steps.
  match goal with
  | |- wp2 (for_each _ _) _ _ ?u1 ?u2 =>
      assert (Hu'' : sim u1 u2) by sim_close Hv3;
      eapply wp2_mono;
        [apply wp2_for_each; [intros; apply convertStar_agree; assumption | exact Hu'']|]
  end.
  intros [] v4 [] v4' Hv4. wp2_steps. rewrite (lookup_agree _ Hv4).
  eapply wp2_mono; [apply fixEntryIndexIfMissing_agree; exact Hv4|].
  intros i1 v5 i2 v5' [<- Hv5]. wp2_steps. sim_close Hv5.
Qed.

Lemma init_body_agree (assets1 assets2 : Assets) (locationDef : LocationDefinition)
    (provinceDef : ProvinceDefinition) (weatherType : WeatherType)
    (currentDay starCount : Z) (exeData : ExeData) (fuel1 fuel2 : nat)
    (w1 w2 : World R) :
  (strict = true -> colFile assets1 = colFile assets2) ->
  sim w1 w2 ->
  wp2 (init_body Sorter P assets1 locationDef provinceDef weatherType currentDay
         starCount exeData fuel1)
      (init_body Sorter P assets2 locationDef provinceDef weatherType currentDay
         starCount exeData fuel2)
      (fun _ w1' _ w2' => sim w1' w2') w1 w2.
Proof.
  intros Hcol Hsim. unfold init_body. destruct locationDef as [cityDef| |]; try exact I.
  wp2_step.
  match goal with
  | |- wp2 (match ?o with _ => _ end) _ _ _ _ => destruct o as [traits|]; [|exact I]
  end.
  wp2_steps. same_results.
  match goal with
  | |- wp2 (placeStaticObjects _ _ _ _ _ _ _) _ _ ?u1 ?u2 =>
      assert (Hu : sim u1 u2) by sim_close Hsim;
      eapply wp2_mono; [apply placeStaticObjects_agree; exact Hu|]
  end.
  intros [] v1 [] v1' Hv1. wp2_step.
  eapply wp2_mono; [apply addClouds_agree; exact Hv1|].
  intros [] v2 [] v2' Hv2. wp2_step.
  assert (Hanim : wp2 (if hasAnimatedDistantLand provinceDef
                       then addAnimatedLand P (textureManager assets1) cityDef exeData
                       else ret tt)
                      (if hasAnimatedDistantLand provinceDef
                       then addAnimatedLand P (textureManager assets2) cityDef exeData
                       else ret tt)
                      (fun _ u1 _ u2 => sim u1 u2) v2 v2').
  { destruct (hasAnimatedDistantLand provinceDef).
    - apply addAnimatedLand_agree. exact Hv2.
    - exact Hv2. }
  eapply wp2_mono; [exact Hanim|]. clear Hanim.
  intros [] v3 [] v3' Hv3. cbv beta.
  destruct (WeatherType_eqb weatherType Clear).
  - apply addSpaceObjects_agree; [exact Hcol | exact Hv3].
  - exact Hv3.
Qed.

End RelationalEffects.

(** Two runs of [init] that differ in what the disk delivers and in their
    iteration bounds. *)
Lemma init_agree (R : ArenaRandom) (Sorter : StdSort) (P : Platform) (strict : bool)
    (assets1 assets2 : Assets) (locationDef : LocationDefinition)
    (provinceDef : ProvinceDefinition) (weatherType : WeatherType)
    (currentDay starCount : Z) (exeData : ExeData) (fuel1 fuel2 : nat)
    (this1 this2 sky1 sky2 : DistantSky) (g1 g2 : Ghost) :
  (strict = true -> colFile assets1 = colFile assets2) ->
  same_layout strict this1 this2 ->
  init R Sorter P assets1 locationDef provinceDef weatherType currentDay starCount exeData
    fuel1 this1 = Done (sky1, g1) ->
  init R Sorter P assets2 locationDef provinceDef weatherType currentDay starCount exeData
    fuel2 this2 = Done (sky2, g2) ->
  same_layout strict sky1 sky2 /\ g1 = g2.
Proof.
  intros Hcol Hlayout Hrun1 Hrun2. unfold init in Hrun1, Hrun2.
  match type of Hrun1 with
  | match ?m1 ?w1 with _ => _ end = _ =>
      match type of Hrun2 with
      | match ?m2 ?w2 with _ => _ end = _ =>
          assert (Hsim : sim strict w1 w2)
            by (split; [exact Hlayout | reflexivity | reflexivity]);
          pose proof (@init_body_agree R strict P Sorter assets1 assets2 locationDef
                        provinceDef weatherType currentDay starCount exeData fuel1 fuel2
                        w1 w2 Hcol Hsim) as Hwp;
          unfold wp2 in Hwp;
          destruct (m1 w1) as [[[] w1']| |]; try discriminate;
          destruct (m2 w2) as [[[] w2']| |]; try discriminate
      end
  end.
  injection Hrun1 as <- <-. injection Hrun2 as <- <-.
  destruct Hwp as [Hsky _ Hg]. split; assumption.
Qed.

(** ** Sample runs *)

Module Runs.

Definition sky_of (o : outcome (DistantSky * Ghost)) : DistantSky :=
  match o with Done (s, _) => s | _ => empty_sky end.

Definition ghost_of (o : outcome (DistantSky * Ghost)) : Ghost :=
  match o with Done (_, g) => g | _ => empty_ghost end.

(** Runs on the sample city: clear weather, day 0, forty stars. *)
Definition sky_a : DistantSky :=
  Eval vm_compute in
    sky_of (init Sample.random Sample.stable Sample.platform Sample.assets_a Sample.city
              Sample.province Clear 0 40 Sample.exeData 8 empty_sky).

Definition ghost_a : Ghost :=
  Eval vm_compute in
    ghost_of (init Sample.random Sample.stable Sample.platform Sample.assets_a
                Sample.city Sample.province Clear 0 40 Sample.exeData 8 empty_sky).

Definition sky_b : DistantSky :=
  Eval vm_compute in
    sky_of (init Sample.random Sample.stable Sample.platform Sample.assets_b Sample.city
              Sample.province Clear 0 40 Sample.exeData 9 empty_sky).

Definition ghost_b : Ghost :=
  Eval vm_compute in
    ghost_of (init Sample.random Sample.stable Sample.platform Sample.assets_b
                Sample.city Sample.province Clear 0 40 Sample.exeData 9 empty_sky).

Definition sky_r : DistantSky :=
  Eval vm_compute in
    sky_of (init Sample.random Sample.reversing Sample.platform Sample.assets_a
              Sample.city Sample.province Clear 0 40 Sample.exeData 8 empty_sky).

Definition ghost_r : Ghost :=
  Eval vm_compute in
    ghost_of (init Sample.random Sample.reversing Sample.platform Sample.assets_a
                Sample.city Sample.province Clear 0 40 Sample.exeData 8 empty_sky).

Lemma run_a :
  init Sample.random Sample.stable Sample.platform Sample.assets_a Sample.city
    Sample.province Clear 0 40 Sample.exeData 8 empty_sky = Done (sky_a, ghost_a).
Proof. vm_compute. reflexivity. Qed.

Lemma run_b :
  init Sample.random Sample.stable Sample.platform Sample.assets_b Sample.city
    Sample.province Clear 0 40 Sample.exeData 9 empty_sky = Done (sky_b, ghost_b).
Proof. vm_compute. reflexivity. Qed.

Lemma run_r :
  init Sample.random Sample.reversing Sample.platform Sample.assets_a Sample.city
    Sample.province Clear 0 40 Sample.exeData 8 empty_sky = Done (sky_r, ghost_r).
Proof. vm_compute. reflexivity. Qed.

End Runs.

(** ** Properties of the generator *)

(** C1.  Determinism of [init]: two runs on the same aggregate with the same
    location, province, weather, day, star count, legacy data and seed give
    the same land, air, animated-land and moon objects, the same stars with
    the same texture indices and directions, the same sun index, the same
    identifiers in both stores and the same ghost record, whatever images
    and palette the disk delivers and whatever the iteration bounds; with
    the same palette the stars agree in their colours too. *)
Theorem C1_init_deterministic (R : ArenaRandom) (Sorter : StdSort) (P : Platform)
    (assets1 assets2 : Assets) (locationDef : LocationDefinition)
    (provinceDef : ProvinceDefinition) (weatherType : WeatherType)
    (currentDay starCount : Z) (exeData : ExeData) (fuel1 fuel2 : nat)
    (this sky1 sky2 : DistantSky) (g1 g2 : Ghost) :
  init R Sorter P assets1 locationDef provinceDef weatherType currentDay starCount exeData
    fuel1 this = Done (sky1, g1) ->
  init R Sorter P assets2 locationDef provinceDef weatherType currentDay starCount exeData
    fuel2 this = Done (sky2, g2) ->
  (landObjects sky1 = landObjects sky2 /\
   airObjects sky1 = airObjects sky2 /\
   animLandObjects sky1 = animLandObjects sky2 /\
   moonObjects sky1 = moonObjects sky2 /\
   map star_layout (starObjects sky1) = map star_layout (starObjects sky2) /\
   sunEntryIndex sky1 = sunEntryIndex sky2 /\
   map filename (textures sky1) = map filename (textures sky2) /\
   map set_filename (textureSets sky1) = map set_filename (textureSets sky2)) /\
  g1 = g2 /\
  (colFile assets1 = colFile assets2 -> starObjects sky1 = starObjects sky2).
Proof.
  intros Hrun1 Hrun2.
  destruct (@init_agree R Sorter P false assets1 assets2 _ _ _ _ _ _ _ _ _ _ _ _ _ _
              ltac:(discriminate) (same_layout_refl false this) Hrun1 Hrun2)
    as [[Hl Han Ha Hm Hs Hsun Ht Hts] Hg].
  repeat split; try assumption.
  intros Hcol.
  destruct (@init_agree R Sorter P true assets1 assets2 _ _ _ _ _ _ _ _ _ _ _ _ _ _
              (fun _ => Hcol) (same_layout_refl true this) Hrun1 Hrun2)
    as [[_ _ _ _ Hs' _ _ _] _].
  exact Hs'.
Qed.

Lemma C1_witness :
  (landObjects Runs.sky_a = landObjects Runs.sky_b /\
   airObjects Runs.sky_a = airObjects Runs.sky_b /\
   animLandObjects Runs.sky_a = animLandObjects Runs.sky_b /\
   moonObjects Runs.sky_a = moonObjects Runs.sky_b /\
   map star_layout (starObjects Runs.sky_a) = map star_layout (starObjects Runs.sky_b) /\
   sunEntryIndex Runs.sky_a = sunEntryIndex Runs.sky_b /\
   map filename (textures Runs.sky_a) = map filename (textures Runs.sky_b) /\
   map set_filename (textureSets Runs.sky_a) = map set_filename (textureSets Runs.sky_b)) /\
  Runs.ghost_a = Runs.ghost_b /\
  (colFile Sample.assets_a = colFile Sample.assets_b ->
   starObjects Runs.sky_a = starObjects Runs.sky_b).
Proof.
  exact (@C1_init_deterministic Sample.random Sample.stable Sample.platform
           Sample.assets_a Sample.assets_b Sample.city Sample.province Clear 0 40
           Sample.exeData 8%nat 9%nat empty_sky Runs.sky_a Runs.sky_b Runs.ghost_a
           Runs.ghost_b
           Runs.run_a Runs.run_b).
Defined.

(** ** Angles *)

(** What holds of the angle made from the unit [u]: it is above -pi/2, at
    most the angle of unit 0, and not negative exactly up to unit 384. *)
Definition angle_in_band (u : Z) : bool :=
  let a := arenaAngleToRadians u in
  PrimFloat.ltb (- Constants.HalfPi)%float a &&
  PrimFloat.leb a (arenaAngleToRadians 0) &&
  Bool.eqb (PrimFloat.leb 0%float a) (u <=? 384).

Definition angle_units : list Z := map Z.of_nat (seq 0 512).

Lemma angle_units_band : forallb angle_in_band angle_units = true.
Proof. vm_compute. reflexivity. Qed.

Lemma angle_in_band_all (u : Z) : 0 <= u < UNIQUE_ANGLES -> angle_in_band u = true.
Proof.
  intros Hu. unfold UNIQUE_ANGLES in Hu.
  pose proof (proj1 (forallb_forall angle_in_band angle_units) angle_units_band) as Hall.
  apply Hall. unfold angle_units.
  replace u with (Z.of_nat (Z.to_nat u)) by lia.
  apply in_map, in_seq. lia.
Qed.

(** The angles of the land and air objects of an aggregate. *)
Definition static_angles (s : DistantSky) : list float :=
  map land_angleRadians (landObjects s) ++ map air_angleRadians (airObjects s).

Lemma static_angles_arena (s : DistantSky) :
  angles_ok s -> forall a, In a (static_angles s) -> arena_angle a.
Proof.
  intros [Hland Hair] a Hin. unfold static_angles in Hin.
  apply in_app_or in Hin. destruct Hin as [Hin|Hin];
    apply in_map_iff in Hin; destruct Hin as [o [<- Ho]].
  - exact (proj1 (Forall_forall _ _) Hland o Ho).
  - exact (proj1 (Forall_forall _ _) Hair o Ho).
Qed.

(** The sentence as the specification has it: every angle of a land or air
    object after [init] is in [[0, 2 pi)]. *)
Definition angles_normalised : Prop :=
  forall (R : ArenaRandom) (Sorter : StdSort) (P : Platform) (assets : Assets)
         (locationDef : LocationDefinition) (provinceDef : ProvinceDefinition)
         (weatherType : WeatherType) (currentDay starCount : Z) (exeData : ExeData)
         (fuel : nat) (sky' : DistantSky) (g' : Ghost),
    init R Sorter P assets locationDef provinceDef weatherType currentDay starCount
      exeData fuel empty_sky = Done (sky', g') ->
    forall a, In a (static_angles sky') ->
      PrimFloat.leb 0%float a = true /\ PrimFloat.ltb a Constants.TwoPi = true.

(** C2, counterexample. The conversion gives a negative angle for every
    unit above 384 (for 511 it is below -1.5), and the run on the sample
    city stores such an angle in a land object, so the angles after [init]
    are not all in [[0, 2 pi)]. *)
Lemma C2_counterexample :
  PrimFloat.ltb (arenaAngleToRadians 511) (-1.5)%float = true /\
  ~ angles_normalised.
Proof.
  split; [vm_compute; reflexivity|].
  intros Hall.
  assert (Hneg : existsb (fun a => negb (PrimFloat.leb 0%float a))
                    (static_angles Runs.sky_a) = true)
    by (vm_compute; reflexivity).
  apply existsb_exists in Hneg. destruct Hneg as [a [Hin Hlt]].
  apply negb_true_iff in Hlt.
  destruct (Hall _ _ _ _ _ _ _ _ _ _ _ _ _ Runs.run_a a Hin) as [Hge _].
  congruence.
Qed.

(** C2, as the code has it. Every angle that a land or air object holds
    after [init], run on a reachable aggregate, is
    [(2 pi - 2 pi u / 512) - pi / 2] for a unit [u] in [[0, 512)]; it is not
    brought into [[0, 2 pi)]: it lies above -pi/2 and at most at the angle
    of unit 0 (3 pi / 2), and it is negative exactly for the units above
    384. *)
Theorem C2_angles_from_units (R : ArenaRandom) (Sorter : StdSort) (P : Platform)
    (assets : Assets) (locationDef : LocationDefinition)
    (provinceDef : ProvinceDefinition) (weatherType : WeatherType)
    (currentDay starCount : Z) (exeData : ExeData) (fuel : nat)
    (this sky' : DistantSky) (g' : Ghost) :
  reachable R Sorter P this ->
  init R Sorter P assets locationDef provinceDef weatherType currentDay starCount
    exeData fuel this = Done (sky', g') ->
  forall a, In a (static_angles sky') ->
    exists u, 0 <= u < 512 /\
      a = ((Constants.TwoPi -
            Constants.TwoPi * (Cpp.to_double u / Cpp.to_double 512)) -
           Constants.HalfPi)%float /\
      PrimFloat.ltb (- Constants.HalfPi)%float a = true /\
      PrimFloat.leb a (arenaAngleToRadians 0) = true /\
      PrimFloat.leb 0%float a = (u <=? 384).
Proof.
  intros Hreach Hrun a Hin.
  destruct (@init_effect R Sorter P _ _ _ _ _ _ _ _ _ _ _
              (reachable_ok Hreach) Hrun) as [cityDef [_ Heff]].
  destruct (static_angles_arena (sky_angles (re_ok Heff)) a Hin) as [u [Hu ->]].
  exists u. split; [exact Hu|]. split; [reflexivity|].
  pose proof (angle_in_band_all Hu) as Hband. unfold angle_in_band in Hband.
  apply andb_prop in Hband. destruct Hband as [Hband Hsign].
  apply andb_prop in Hband. destruct Hband as [Hlow Hhigh].
  apply Bool.eqb_prop in Hsign. auto.
Qed.

(** The angle of the first land object of the sample run. *)
Definition first_angle : float := nth 0 (static_angles Runs.sky_a) 0%float.

Lemma C2_witness :
  exists u, 0 <= u < 512 /\
    first_angle = ((Constants.TwoPi -
                    Constants.TwoPi * (Cpp.to_double u / Cpp.to_double 512)) -
                   Constants.HalfPi)%float /\
    PrimFloat.ltb (- Constants.HalfPi)%float first_angle = true /\
    PrimFloat.leb first_angle (arenaAngleToRadians 0) = true /\
    PrimFloat.leb 0%float first_angle = (u <=? 384).
Proof.
  apply (@C2_angles_from_units Sample.random Sample.stable Sample.platform
           Sample.assets_a Sample.city Sample.province Clear 0 40 Sample.exeData 8%nat
           empty_sky Runs.sky_a Runs.ghost_a
           (reach_fresh Sample.random Sample.stable Sample.platform) Runs.run_a).
  left. reflexivity.
Defined.

(** ** The order of the stars *)

Definition type_le (a b : Star) : Prop := star_type a <= star_type b.

(** The stars of type [t], in the order of the list. *)
Definition of_type (t : Z) (l : list Star) : list Star :=
  filter (fun s => star_type s =? t) l.

(** Stars of equal type are in the sorted list in the order of their
    generation. *)
Definition keeps_generation_order (generated sorted : list Star) : Prop :=
  forall t, of_type t sorted = of_type t generated.

(** The sentence as the specification has it: the sort of [init] keeps the
    stars of equal type in the order of their generation. *)
Definition sort_keeps_ties : Prop :=
  forall (R : ArenaRandom) (Sorter : StdSort) (P : Platform) (assets : Assets)
         (locationDef : LocationDefinition) (provinceDef : ProvinceDefinition)
         (weatherType : WeatherType) (currentDay starCount : Z) (exeData : ExeData)
         (fuel : nat) (sky' : DistantSky) (g' : Ghost),
    init R Sorter P assets locationDef provinceDef weatherType currentDay starCount
      exeData fuel empty_sky = Done (sky', g') ->
    keeps_generation_order (g_generated g') (g_sorted g').

Lemma sorted_split (l : list Star) :
  StronglySorted type_le l -> Forall star_shape l ->
  exists cs ls, l = cs ++ ls /\
    Forall (fun s => star_type s = NO_STAR_TYPE) cs /\
    Forall (fun s => 0 <= star_type s < 8) ls.
Proof.
  induction l as [|x l IH]; intros Hsorted Hshape.
  - exists [], []. repeat split; constructor.
  - inversion Hsorted as [|? ? Hrest Hx]; subst.
    inversion Hshape as [|? ? [Hkind _] Hshapes]; subst.
    destruct Hkind as [Hnone|Hlarge].
    + destruct (IH Hrest Hshapes) as [cs [ls [-> [Hcs Hls]]]].
      exists (x :: cs), ls. split; [reflexivity|]. split; [constructor|]; assumption.
    + exists [], (x :: l). split; [reflexivity|]. split; [constructor|].
      constructor; [exact Hlarge|].
      rewrite Forall_forall in *. intros y Hy.
      specialize (Hx y Hy). destruct (Hshapes y Hy) as [[Hnone|Hbig] _].
      * unfold type_le, NO_STAR_TYPE in *. lia.
      * exact Hbig.
Qed.

(** C3, counterexample. With a sort that meets the contract of [std::sort]
    and puts equivalent elements in the reverse of their order, the
    constellations of the sample run are not in the order of their
    generation after the sort. *)
Lemma C3_counterexample :
  of_type NO_STAR_TYPE (g_sorted Runs.ghost_r) <>
  of_type NO_STAR_TYPE (g_generated Runs.ghost_r) /\
  ~ sort_keeps_ties.
Proof.
  assert (Hdiff : of_type NO_STAR_TYPE (g_sorted Runs.ghost_r) <>
                  of_type NO_STAR_TYPE (g_generated Runs.ghost_r)).
  { intros Heq.
    apply (f_equal (fun l => match l with s :: _ => star_x s | [] => 0 end)) in Heq.
    vm_compute in Heq. discriminate Heq. }
  split; [exact Hdiff|].
  intros Hall. apply Hdiff.
  exact (Hall _ _ _ _ _ _ _ _ _ _ _ _ _ Runs.run_r NO_STAR_TYPE).
Qed.

(** C3, as the code has it. After [init], run on a reachable aggregate, the
    sorted star list is what [std::sort] makes of the generated one with
    the comparison of the types: a rearrangement of the generated stars,
    ascending by type, made of the constellations (type -1) followed by
    the large stars (types 0 to 7). The order among stars of equal type is
    the one the sort chooses; [std::sort] does not promise to keep it. *)
Theorem C3_stars_sorted_by_type (R : ArenaRandom) (Sorter : StdSort) (P : Platform)
    (assets : Assets) (locationDef : LocationDefinition)
    (provinceDef : ProvinceDefinition) (weatherType : WeatherType)
    (currentDay starCount : Z) (exeData : ExeData) (fuel : nat)
    (this sky' : DistantSky) (g' : Ghost) :
  reachable R Sorter P this ->
  init R Sorter P assets locationDef provinceDef weatherType currentDay starCount
    exeData fuel this = Done (sky', g') ->
  g_sorted g' = std_sort Sorter star_less (g_generated g') /\
  Permutation (g_generated g') (g_sorted g') /\
  StronglySorted type_le (g_sorted g') /\
  exists cs ls, g_sorted g' = cs ++ ls /\
    Forall (fun s => star_type s = NO_STAR_TYPE) cs /\
    Forall (fun s => 0 <= star_type s < 8) ls.
Proof.
  intros Hreach Hrun.
  destruct (@init_effect R Sorter P _ _ _ _ _ _ _ _ _ _ _
              (reachable_ok Hreach) Hrun) as [cityDef [_ Heff]].
  pose proof (re_stars Heff) as Hstars.
  assert (Hfacts : g_sorted g' = std_sort Sorter star_less (g_generated g') /\
                   Forall star_shape (g_generated g')).
  { destruct (WeatherType_eqb weatherType Clear).
    - destruct Hstars as [_ [[planets Hgood] Hsorted]].
      split; [exact Hsorted | exact (sg_shape Hgood)].
    - destruct Hstars as [Hgen Hsorted]. cbn in Hgen, Hsorted.
      rewrite Hgen, Hsorted. split; [|constructor].
      pose proof (std_sort_perm Sorter star_less []) as Hperm.
      apply Permutation_nil in Hperm. symmetry. exact Hperm. }
  destruct Hfacts as [Hsorted Hshape].
  assert (Hperm : Permutation (g_generated g') (g_sorted g'))
    by (rewrite Hsorted; apply std_sort_perm).
  assert (Hasc : StronglySorted type_le (g_sorted g')).
  { rewrite Hsorted.
    pose proof (std_sort_sorted Sorter star_less_strict_weak (g_generated g')) as Hs.
    revert Hs. generalize (std_sort Sorter star_less (g_generated g')).
    induction 1 as [|x l _ IH Hx]; constructor; [exact IH|].
    revert Hx. apply Forall_impl. intros y Hy.
    unfold star_less in Hy. apply Z.ltb_ge in Hy. exact Hy. }
  split; [exact Hsorted|]. split; [exact Hperm|]. split; [exact Hasc|].
  apply sorted_split; [exact Hasc|].
  eapply Permutation_Forall; eassumption.
Qed.

Lemma C3_witness :
  g_sorted Runs.ghost_r = std_sort Sample.reversing star_less (g_generated Runs.ghost_r) /\
  Permutation (g_generated Runs.ghost_r) (g_sorted Runs.ghost_r) /\
  StronglySorted type_le (g_sorted Runs.ghost_r) /\
  exists cs ls, g_sorted Runs.ghost_r = cs ++ ls /\
    Forall (fun s => star_type s = NO_STAR_TYPE) cs /\
    Forall (fun s => 0 <= star_type s < 8) ls.
Proof.
  exact (@C3_stars_sorted_by_type Sample.random Sample.reversing Sample.platform
           Sample.assets_a Sample.city Sample.province Clear 0 40 Sample.exeData 8%nat
           empty_sky Runs.sky_r Runs.ghost_r
           (reach_fresh Sample.random Sample.reversing Sample.platform) Runs.run_r).
Defined.

(** ** The scenario: a city in clear weather on day 0 *)

(** The city of the sample location. *)
Definition sample_city : CityDefinition :=
  {| climateType := Temperate; distantSkySeed := 2020; citySeed := 6553700 |}.






(** ** The clouds *)

(** The world in which the clouds are placed: the one before the block
    with the sequence source reseeded and the seed noted. *)
Definition reseeded (R : ArenaRandom) (currentDay : Z) (w : World R) : World R :=
  let cloudSeed := Cpp.to_uint32 (rng_getSeed R (random w) + Cpp.rem currentDay 32) in
  {| sky := sky w;
     random := rng_srand R cloudSeed (random w);
     ghost := {| g_requests := g_requests (ghost w);
                 g_loads := g_loads (ghost w);
                 g_seeds := cloudSeed :: g_seeds (ghost w);
                 g_generated := g_generated (ghost w);
                 g_sorted := g_sorted (ghost w) |} |}.

(** Modelled from the spec: [ArenaRandom::next()] ([Math/Random.h]) is not
    among the translated sources, and the specification leaves its bit
    algorithm out of scope.  This one multiplies a 32-bit state by 7143469
    and returns bits 16 to 31 of the product, which is the new state. *)
Definition running_next (state : Z) : Z * Z :=
  let v := Cpp.to_uint32 (state * 7143469) in
  (Z.land (Z.shiftr v 16) 65535, v).

Lemma running_next_range (state : Z) : 0 <= fst (running_next state) < 65536.
Proof.
  unfold running_next. cbn [fst]. change 65535 with (Z.ones 16).
  rewrite Z.land_ones by lia. apply Z.mod_pos_bound. reflexivity.
Qed.

Lemma running_getSeed_range (state : Z) : 0 <= Cpp.to_uint32 state < 4294967296.
Proof. unfold Cpp.to_uint32. apply Z.mod_pos_bound. reflexivity. Qed.

(** Modelled from the spec: [ArenaRandom] ([Math/Random.h]) is not among the
    translated sources.  Section 6 of the specification names its third
    operation [currentSeed()], and section 4.1 says that the reseed for the
    clouds depends on the number of draws already consumed: what the source
    reports is its running state, which every draw changes.  This source
    keeps one 32-bit state, which [seed(value)] sets, [next()] advances and
    [currentSeed()] returns. *)
Definition running : ArenaRandom :=
  {| rng := Z; rng_make := Cpp.to_uint32; rng_next := running_next;
     rng_getSeed := Cpp.to_uint32; rng_srand := fun seed _ => Cpp.to_uint32 seed;
     rng_next_range := running_next_range;
     rng_getSeed_range := running_getSeed_range |}.

(** The sample city in clear weather on day 0, generated from that source. *)
Definition sky_running : DistantSky :=
  Eval vm_compute in
    Runs.sky_of (init running Sample.stable Sample.platform Sample.assets_a Sample.city
                   Sample.province Clear 0 40 Sample.exeData 8 empty_sky).

Definition ghost_running : Ghost :=
  Eval vm_compute in
    Runs.ghost_of (init running Sample.stable Sample.platform Sample.assets_a Sample.city
                     Sample.province Clear 0 40 Sample.exeData 8 empty_sky).

Lemma run_running :
  init running Sample.stable Sample.platform Sample.assets_a Sample.city
    Sample.province Clear 0 40 Sample.exeData 8 empty_sky =
  Done (sky_running, ghost_running).
Proof. vm_compute. reflexivity. Qed.


Section CloudBlock.

Variable R : ArenaRandom.
Variable Sorter : StdSort.
Variable P : Platform.

(** The world that the placement of the mountains leaves: the start of
    [init], up to the first call of [placeStaticObjects]. *)
Definition after_mountains (tm : TextureManager) (cityDef : CityDefinition)
    (exeData : ExeData) (this : DistantSky) : outcome (World R) :=
  match findMountainTraits (climateType cityDef) MountainTraits with
  | Some traits =>
      match checked_nth (distantMountainFilenames exeData) (filenameIndex traits) with
      | Done baseFilename =>
          let drawn := rng_next R (rng_make R (distantSkySeed cityDef)) in
          match placeStaticObjects tm (Cpp.rem (fst drawn) 4 + 2) baseFilename
                  (position traits) (variation traits) (maxDigits traits) false
                  {| sky := this; random := snd drawn; ghost := empty_ghost |} with
          | Done (_, w) => Done w
          | Abort f => Abort f
          | Starved => Starved
          end
      | Abort f => Abort f
      | Starved => Starved
      end
  | None => Abort AssertionFailed
  end.

Lemma init_body_clouds (assets : Assets) (cityDef : CityDefinition)
    (provinceDef : ProvinceDefinition) (currentDay starCount : Z) (exeData : ExeData)
    (fuel : nat) (this : DistantSky) (r : rng R) :
  sky_ok this empty_ghost ->
  wp (init_body Sorter P assets (CityLocation cityDef) provinceDef Clear
        currentDay starCount exeData fuel)
     (fun _ w' =>
        exists w1 w2,
          after_mountains (textureManager assets) cityDef exeData this = Done w1 /\
          random w1 = random_after_mountains R (distantSkySeed cityDef) /\
          placeStaticObjects (textureManager assets) 7 (cloudFilename exeData) 5 17 2
            true (reseeded currentDay w1) = Done (tt, w2) /\
          airObjects (sky w') = airObjects (sky w2))
     {| sky := this; random := r; ghost := empty_ghost |}.
Proof.
  intros Hok. unfold init_body, after_mountains.
  wp_step.
  destruct (findMountainTraits (climateType cityDef) MountainTraits) as [traits|];
    [|exact I].
  wp_steps.
  match goal with H : checked_nth _ _ = Done _ |- _ => rewrite H end.
  cbv zeta. apply wp_intro. intros [] w1 Hrun. rewrite Hrun.
  match type of Hrun with
  | placeStaticObjects _ _ _ _ _ _ _ ?w0 = _ =>
      pose proof (@wp_done R _ _ _ _ _ _
                    (@placeStaticObjects_effect R _ _ _ _ _ _ _ w0 Hok) Hrun)
        as Hstep1
  end.
  pose proof (ss_ok Hstep1) as Hok1.
  assert (Hr1 : random w1 = random_after_mountains R (distantSkySeed cityDef)).
  { rewrite (ss_random Hstep1). unfold random_after_mountains, mountainCount.
    cbn [rng_skip draws_per_object random]. reflexivity. }
  wp_step. unfold addClouds. cbn [WeatherType_eqb]. wp_steps.
  match goal with
  | |- wp ?m ?Q _ => change (wp m Q (reseeded currentDay w1))
  end.
  apply wp_intro. intros [] w2 Hrun2.
  assert (Hok2 : sky_ok (sky w2) (ghost w2)).
  { refine (ss_ok (@wp_done R _ _ _ _ _ _
                    (@placeStaticObjects_effect R _ _ _ _ _ _ _ _ _) Hrun2)).
    apply (sky_ok_ghost (ghost (reseeded currentDay w1)) Hok1); reflexivity. }
  wp_step.
  assert (Hanim : wp (if hasAnimatedDistantLand provinceDef
                      then addAnimatedLand P (textureManager assets) cityDef exeData
                      else ret tt)
                     (fun _ w3 => quiet_step w2 w3) w2).
  { destruct (hasAnimatedDistantLand provinceDef).
    - eapply wp_mono; [apply addAnimatedLand_effect; exact Hok2|].
      intros [] w3 [Hq _]. exact Hq.
    - wp_steps. apply quiet_step_refl. exact Hok2. }
  eapply wp_mono; [exact Hanim|]. clear Hanim.
  intros [] w3 Hstep3. cbv beta.
  eapply wp_mono; [apply addSpaceObjects_effect; exact (qs_ok Hstep3)|].
  intros [] w4 Hstep4. exists w1, w2.
  split; [reflexivity|]. split; [exact Hr1|]. split; [exact Hrun2|].
  rewrite (sp_air Hstep4), (qs_air Hstep3). reflexivity.
Qed.

End CloudBlock.

(** The sentence as the specification has it: in clear weather [init]
    reseeds the sequence source with the seed it began with plus
    [currentDay % 32]. *)
Definition clouds_from_original_seed : Prop :=
  forall (R : ArenaRandom) (Sorter : StdSort) (P : Platform) (assets : Assets)
         (cityDef : CityDefinition) (provinceDef : ProvinceDefinition)
         (currentDay starCount : Z) (exeData : ExeData) (fuel : nat)
         (sky' : DistantSky) (g' : Ghost),
    init R Sorter P assets (CityLocation cityDef) provinceDef Clear currentDay
      starCount exeData fuel empty_sky = Done (sky', g') ->
    In (Cpp.to_uint32 (distantSkySeed cityDef + Cpp.rem currentDay 32)) (g_seeds g').

(** C5, counterexample. With a sequence source that reports its running
    state, the run on the sample city (seed 2020, clear weather, day 0)
    sets two seeds: 4108842100 for the clouds, which is the state three
    mountains and their seven draws leave, and that of the stars; the seed
    the run began with plus [0 % 32], 2020, is never set. *)
Lemma C5_counterexample :
  g_seeds ghost_running = [305419897; 4108842100] /\
  rng_getSeed running (random_after_mountains running 2020) = 4108842100 /\
  Cpp.to_uint32 (distantSkySeed sample_city + Cpp.rem 0 32) = 2020 /\
  ~ clouds_from_original_seed.
Proof.
  split; [reflexivity|]. split; [vm_compute; reflexivity|].
  split; [reflexivity|].
  intros Hall.
  pose proof (Hall running Sample.stable Sample.platform Sample.assets_a sample_city
                Sample.province 0 40 Sample.exeData 8%nat sky_running ghost_running
                run_running) as Hin.
  vm_compute in Hin. destruct Hin as [Hin|[Hin|[]]]; discriminate Hin.
Qed.

(** C5, as the code has it. Clouds are placed in clear weather only: in
    any other weather [init] leaves the air objects as they were and sets no
    seed.  In clear weather the seeds set are that of the clouds and then
    that of the stars, and the air objects [init] leaves are those of the
    placement of seven clouds run from the world the mountains left, with
    the sequence source reseeded just before.  The seed of the clouds is
    what [getSeed()] returns at that moment, after one draw for the number of
    mountains and two for each of them, plus [currentDay % 32], in 32-bit
    unsigned arithmetic. *)
Theorem C5_clouds_reseeded_when_clear (R : ArenaRandom) (Sorter : StdSort)
    (P : Platform) (assets : Assets) (cityDef : CityDefinition)
    (provinceDef : ProvinceDefinition) (weatherType : WeatherType)
    (currentDay starCount : Z) (exeData : ExeData) (fuel : nat)
    (this sky' : DistantSky) (g' : Ghost) :
  reachable R Sorter P this ->
  init R Sorter P assets (CityLocation cityDef) provinceDef weatherType currentDay
    starCount exeData fuel this = Done (sky', g') ->
  (weatherType <> Clear -> airObjects sky' = airObjects this /\ g_seeds g' = []) /\
  (weatherType = Clear ->
   exists (w1 w2 : World R) (clouds : list AirObject),
     after_mountains R (textureManager assets) cityDef exeData this = Done w1 /\
     random w1 = random_after_mountains R (distantSkySeed cityDef) /\
     random (reseeded currentDay w1) =
       rng_srand R (cloudSeed R (distantSkySeed cityDef) currentDay) (random w1) /\
     placeStaticObjects (textureManager assets) 7 (cloudFilename exeData) 5 17 2 true
       (reseeded currentDay w1) = Done (tt, w2) /\
     airObjects sky' = airObjects (sky w2) /\
     airObjects sky' = airObjects this ++ clouds /\
     List.length clouds = 7%nat /\
     g_seeds g' = [305419897; cloudSeed R (distantSkySeed cityDef) currentDay]).
Proof.
  intros Hreach Hrun.
  destruct (@init_effect R Sorter P _ _ _ _ _ _ _ _ _ _ _
              (reachable_ok Hreach) Hrun)
    as [city' [Hcity [_ _ _ [a [Ha Hk]] _ _ Hseeds _]]].
  injection Hcity as <-.
  split.
  - intros Hweather.
    assert (Hne : WeatherType_eqb weatherType Clear = false)
      by (destruct weatherType; [contradiction Hweather| | |]; reflexivity).
    rewrite Hne in *. destruct a; [|discriminate]. rewrite app_nil_r in Ha.
    split; [exact Ha | exact Hseeds].
  - intros ->. cbn [WeatherType_eqb] in *. unfold init in Hrun.
    match type of Hrun with
    | match ?m ?w0 with _ => _ end = _ =>
        pose proof (@init_body_clouds R Sorter P assets cityDef provinceDef currentDay
                      starCount exeData fuel this (random w0) (reachable_ok Hreach))
          as Hwp;
        unfold wp in Hwp; cbn [random] in Hwp;
        destruct (m w0) as [[[] w']| |]; try discriminate
    end.
    injection Hrun as <- <-.
    destruct Hwp as [w1 [w2 [Hm [Hr1 [Hrun2 Hair]]]]].
    exists w1, w2, a.
    split; [exact Hm|]. split; [exact Hr1|].
    split; [unfold reseeded, cloudSeed; cbn [random]; rewrite Hr1; reflexivity|].
    split; [exact Hrun2|]. split; [exact Hair|].
    split; [exact Ha|]. split; [exact Hk | exact Hseeds].
Qed.

Lemma C5_witness :
  (Clear <> Clear ->
   airObjects sky_running = airObjects empty_sky /\ g_seeds ghost_running = []) /\
  (Clear = Clear ->
   exists (w1 w2 : World running) (clouds : list AirObject),
     after_mountains running (textureManager Sample.assets_a) sample_city
       Sample.exeData empty_sky = Done w1 /\
     random w1 = random_after_mountains running (distantSkySeed sample_city) /\
     random (reseeded 0 w1) =
       rng_srand running (cloudSeed running (distantSkySeed sample_city) 0)
         (random w1) /\
     placeStaticObjects (textureManager Sample.assets_a) 7
       (cloudFilename Sample.exeData) 5 17 2 true (reseeded 0 w1) = Done (tt, w2) /\
     airObjects sky_running = airObjects (sky w2) /\
     airObjects sky_running = airObjects empty_sky ++ clouds /\
     List.length clouds = 7%nat /\
     g_seeds ghost_running =
       [305419897; cloudSeed running (distantSkySeed sample_city) 0]).
Proof.
  exact (@C5_clouds_reseeded_when_clear running Sample.stable Sample.platform
           Sample.assets_a sample_city Sample.province Clear 0 40 Sample.exeData
           8%nat empty_sky sky_running ghost_running
           (reach_fresh running Sample.stable Sample.platform) run_running).
Defined.

(** ** The texture stores *)

Lemma request_unique (s : DistantSky) (g : Ghost) (store : Store) (name : string)
    (i j : Z) :
  store_ok s g ->
  In (store, name, i) (g_requests g) -> In (store, name, j) (g_requests g) -> i = j.
Proof.
  intros Hok Hi Hj.
  destruct (ok_requests Hok _ _ _ Hi) as [Hi0 Hni].
  destruct (ok_requests Hok _ _ _ Hj) as [Hj0 Hnj].
  assert (Hlt : (Z.to_nat i < List.length (names store s))%nat)
    by (apply nth_error_Some; congruence).
  pose proof (proj1 (NoDup_nth_error (names store s)) (ok_names Hok store)
                (Z.to_nat i) (Z.to_nat j) Hlt ltac:(congruence)) as Heq.
  lia.
Qed.

(** *** The trace of the stores *)

Definition Store_eqb (a b : Store) : bool := if Store_eq_dec a b then true else false.

(** The loader invocations for a store, oldest first. *)
Definition loads_of (store : Store) (loads : list (Store * string)) : list string :=
  map snd (filter (fun l => Store_eqb (fst l) store) (rev loads)).

(** The indices handed out for a store, oldest first. *)
Definition requests_of (store : Store) (requests : list (Store * string * Z)) : list Z :=
  map snd (filter (fun r => Store_eqb (fst (fst r)) store) (rev requests)).

Lemma loads_of_cons (store st : Store) (name : string) (l : list (Store * string)) :
  loads_of store ((st, name) :: l) =
  loads_of store l ++ (if Store_eqb st store then [name] else []).
Proof.
  unfold loads_of. cbn [rev]. rewrite filter_app, map_app. cbn [filter fst].
  destruct (Store_eqb st store); reflexivity.
Qed.

Lemma requests_of_cons (store st : Store) (name : string) (i : Z)
    (l : list (Store * string * Z)) :
  requests_of store ((st, name, i) :: l) =
  requests_of store l ++ (if Store_eqb st store then [i] else []).
Proof.
  unfold requests_of. cbn [rev]. rewrite filter_app, map_app. cbn [filter fst].
  destruct (Store_eqb st store); reflexivity.
Qed.

(** The texture indices that the large stars of a list hold. *)
Definition large_indices (l : list StarObject) : list Z :=
  flat_map (fun o => match o with LargeStar i _ => [i] | SmallStar _ _ => [] end) l.

Lemma large_indices_app (l1 l2 : list StarObject) :
  large_indices (l1 ++ l2) = large_indices l1 ++ large_indices l2.
Proof. unfold large_indices. apply flat_map_app. Qed.

(** What a step appends: objects, entries of the two stores, and the
    indices it was handed by them, oldest first; [new_sun] is the sun index
    it sets, if it sets one. *)
Record Log : Type := {
  new_land : list LandObject;
  new_air : list AirObject;
  new_anim : list (AnimatedLandObject float);
  new_moon : list MoonObject;
  new_star : list StarObject;
  new_sun : option Z;
  new_textures : list TextureEntry;
  new_sets : list TextureSetEntry;
  texture_requests : list Z;
  set_requests : list Z
}.

Definition no_log : Log :=
  {| new_land := []; new_air := []; new_anim := []; new_moon := []; new_star := [];
     new_sun := None; new_textures := []; new_sets := [];
     texture_requests := []; set_requests := [] |}.

Definition log_app (a b : Log) : Log :=
  {| new_land := new_land a ++ new_land b;
     new_air := new_air a ++ new_air b;
     new_anim := new_anim a ++ new_anim b;
     new_moon := new_moon a ++ new_moon b;
     new_star := new_star a ++ new_star b;
     new_sun := match new_sun b with Some i => Some i | None => new_sun a end;
     new_textures := new_textures a ++ new_textures b;
     new_sets := new_sets a ++ new_sets b;
     texture_requests := texture_requests a ++ texture_requests b;
     set_requests := set_requests a ++ set_requests b |}.

(** The step from the aggregate [s] with ghost record [g] to [s'] with
    [g'] appended what [L] lists, and nothing else; every entry appended to
    a store was loaded once, in that order, and nothing else was loaded. *)
Record appended (s : DistantSky) (g : Ghost) (s' : DistantSky) (g' : Ghost) (L : Log)
  : Prop := {
  lg_land : landObjects s' = landObjects s ++ new_land L;
  lg_air : airObjects s' = airObjects s ++ new_air L;
  lg_anim : animLandObjects s' = animLandObjects s ++ new_anim L;
  lg_moon : moonObjects s' = moonObjects s ++ new_moon L;
  lg_star : starObjects s' = starObjects s ++ new_star L;
  lg_sun : sunEntryIndex s' =
           match new_sun L with Some i => Some i | None => sunEntryIndex s end;
  lg_textures : textures s' = textures s ++ new_textures L;
  lg_sets : textureSets s' = textureSets s ++ new_sets L;
  lg_loads : loads_of TextureStore (g_loads g') =
             loads_of TextureStore (g_loads g) ++ map filename (new_textures L);
  lg_set_loads : loads_of TextureSetStore (g_loads g') =
                 loads_of TextureSetStore (g_loads g) ++
                 map set_filename (new_sets L);
  lg_requests : requests_of TextureStore (g_requests g') =
                requests_of TextureStore (g_requests g) ++ texture_requests L;
  lg_set_requests : requests_of TextureSetStore (g_requests g') =
                    requests_of TextureSetStore (g_requests g) ++ set_requests L
}.

Section Trace.

Variable R : ArenaRandom.
Variable Sorter : StdSort.
Variable P : Platform.

Definition logged (w w' : World R) (L : Log) : Prop :=
  appended (sky w) (ghost w) (sky w') (ghost w') L.

Lemma logged_refl (w : World R) : logged w w no_log.
Proof. split; cbn [no_log new_land new_air new_anim new_moon new_star new_sun new_textures
                   new_sets texture_requests set_requests map];
  rewrite ?app_nil_r; reflexivity. Qed.

Lemma logged_trans (w1 w2 w3 : World R) (L1 L2 : Log) :
  logged w1 w2 L1 -> logged w2 w3 L2 -> logged w1 w3 (log_app L1 L2).
Proof.
  intros [a1 a2 a3 a4 a5 a6 a7 a8 a9 a10 a11 a12] [b1 b2 b3 b4 b5 b6 b7 b8 b9 b10 b11 b12].
  split; cbn [log_app new_land new_air new_anim new_moon new_star new_sun new_textures
              new_sets texture_requests set_requests];
    rewrite ?map_app, ?app_assoc; try congruence.
  rewrite b6, a6. destruct (new_sun L2); reflexivity.
Qed.

(** Closes a [logged] goal between explicit worlds. *)
Ltac log_close :=
  split;
  cbn [new_land new_air new_anim new_moon new_star new_sun new_textures new_sets
       texture_requests set_requests map];
  sky_simpl; rewrite ?loads_of_cons, ?requests_of_cons;
  cbn [Store_eqb Store_eq_dec Store_rec Store_rect sumbool_rec sumbool_rect];
  rewrite ?app_nil_r; reflexivity.

(** The log of one request to the texture store. *)
Definition request_log (i : Z) (added : list TextureEntry) : Log :=
  {| new_land := []; new_air := []; new_anim := []; new_moon := []; new_star := [];
     new_sun := None; new_textures := added; new_sets := [];
     texture_requests := [i]; set_requests := [] |}.

Lemma fixEntryIndexIfMissing_log (tm : TextureManager) (name : string)
    (entryIndex : option Z) (w : World R) :
  wp (fixEntryIndexIfMissing tm name entryIndex)
     (fun i w' => exists added, logged w w' (request_log i added)) w.
Proof.
  unfold fixEntryIndexIfMissing, request_log. destruct entryIndex as [i|]; wp_steps.
  - exists []. log_close.
  - eexists [_]. log_close.
Qed.

(** The logs of the blocks of [init]. *)
Definition land_log (lands : list LandObject) (added : list TextureEntry) : Log :=
  {| new_land := lands; new_air := []; new_anim := []; new_moon := []; new_star := [];
     new_sun := None; new_textures := added; new_sets := [];
     texture_requests := map land_entryIndex lands; set_requests := [] |}.

Definition air_log (airs : list AirObject) (added : list TextureEntry) : Log :=
  {| new_land := []; new_air := airs; new_anim := []; new_moon := []; new_star := [];
     new_sun := None; new_textures := added; new_sets := [];
     texture_requests := map air_entryIndex airs; set_requests := [] |}.

Definition anim_log (anims : list (AnimatedLandObject float))
    (added : list TextureSetEntry) : Log :=
  {| new_land := []; new_air := []; new_anim := anims; new_moon := []; new_star := [];
     new_sun := None; new_textures := []; new_sets := added;
     texture_requests := []; set_requests := map (@setEntryIndex float) anims |}.

Definition star_log (stars : list StarObject) (added : list TextureEntry) : Log :=
  {| new_land := []; new_air := []; new_anim := []; new_moon := []; new_star := stars;
     new_sun := None; new_textures := added; new_sets := [];
     texture_requests := large_indices stars; set_requests := [] |}.

Definition space_log (moons : list MoonObject) (stars : list StarObject) (sun : Z)
    (added : list TextureEntry) : Log :=
  {| new_land := []; new_air := []; new_anim := []; new_moon := moons;
     new_star := stars; new_sun := Some sun; new_textures := added; new_sets := [];
     texture_requests := map moon_entryIndex moons ++ large_indices stars ++ [sun];
     set_requests := [] |}.

(** The log of a run of [init]: the indices handed out by the texture
    store are, in this order, those of the mountains, the clouds, the moons,
    the large stars and the sun; those handed out by the store of the sets
    are those of the animated land. *)
Definition run_log (lands : list LandObject) (airs : list AirObject)
    (anims : list (AnimatedLandObject float)) (moons : list MoonObject)
    (stars : list StarObject) (sun : option Z)
    (addedT : list TextureEntry) (addedS : list TextureSetEntry) : Log :=
  {| new_land := lands; new_air := airs; new_anim := anims; new_moon := moons;
     new_star := stars; new_sun := sun; new_textures := addedT; new_sets := addedS;
     texture_requests :=
       map land_entryIndex lands ++ map air_entryIndex airs ++
       map moon_entryIndex moons ++ large_indices stars ++
       match sun with Some i => [i] | None => [] end;
     set_requests := map (@setEntryIndex float) anims |}.

(** Extends a [logged] fact by the steps made on explicit worlds. *)
Ltac log_more H :=
  let h1 := fresh in let h2 := fresh in let h3 := fresh in let h4 := fresh in
  let h5 := fresh in let h6 := fresh in let h7 := fresh in let h8 := fresh in
  let h9 := fresh in let h10 := fresh in let h11 := fresh in let h12 := fresh in
  destruct H as [h1 h2 h3 h4 h5 h6 h7 h8 h9 h10 h11 h12];
  unfold log_app, no_log, request_log, land_log, air_log, anim_log, star_log,
    space_log, run_log in *;
  cbn [new_land new_air new_anim new_moon new_star new_sun new_textures new_sets
       texture_requests set_requests map] in *;
  sky_simpl;
  split;
  cbn [new_land new_air new_anim new_moon new_star new_sun new_textures new_sets
       texture_requests set_requests map];
  sky_simpl; rewrite ?loads_of_cons, ?requests_of_cons;
  cbn [Store_eqb Store_eq_dec Store_rec Store_rect sumbool_rec sumbool_rect];
  rewrite ?h1, ?h2, ?h3, ?h4, ?h5, ?h6, ?h7, ?h8, ?h9, ?h10, ?h11, ?h12;
  rewrite ?map_app, ?large_indices_app;
  cbn [map large_indices flat_map app];
  rewrite ?app_nil_r, <- ?app_assoc; cbn [app]; try reflexivity;
  try (cbn [map large_indices flat_map app]; rewrite ?app_nil_r; reflexivity).

Lemma placeStaticObject_log (tm : TextureManager) (baseFilename : string)
    (pos var maxDigits : Z) (airborne : bool) (w : World R) :
  wp (placeStaticObject tm baseFilename pos var maxDigits airborne)
     (fun _ w' =>
        exists added,
          if airborne then exists o, logged w w' (air_log [o] added)
          else exists o, logged w w' (land_log [o] added)) w.
Proof.
  unfold placeStaticObject. wp_steps.
  destruct airborne; wp_steps; cbn [negb]; wp_steps.
  all: eapply wp_mono; [apply fixEntryIndexIfMissing_log|].
  all: intros i w' [added Hlog]; wp_steps; exists added; eexists; log_more Hlog.
Qed.

Lemma placeStaticObjects_log (tm : TextureManager) (count : Z) (baseFilename : string)
    (pos var maxDigits : Z) (airborne : bool) (w : World R) :
  wp (placeStaticObjects tm count baseFilename pos var maxDigits airborne)
     (fun _ w' =>
        exists added,
          if airborne then exists airs, logged w w' (air_log airs added)
          else exists lands, logged w w' (land_log lands added)) w.
Proof.
  unfold placeStaticObjects.
  apply (wp_repeat (fun _ w' =>
           exists added,
             if airborne then exists airs, logged w w' (air_log airs added)
             else exists lands, logged w w' (land_log lands added))).
  - intros i w' _ [added Hstep].
    eapply wp_mono; [apply placeStaticObject_log|].
    intros [] w'' [added' Hone]. exists (added ++ added').
    destruct airborne.
    + destruct Hstep as [airs Hstep]. destruct Hone as [o Hone]. exists (airs ++ [o]).
      pose proof (logged_trans Hstep Hone) as Hboth. log_more Hboth.
    + destruct Hstep as [lands Hstep]. destruct Hone as [o Hone]. exists (lands ++ [o]).
      pose proof (logged_trans Hstep Hone) as Hboth. log_more Hboth.
  - exists []. destruct airborne; exists []; apply logged_refl.
Qed.

Lemma addClouds_log (tm : TextureManager) (weatherType : WeatherType)
    (currentDay : Z) (exeData : ExeData) (w : World R) :
  wp (addClouds tm weatherType currentDay exeData)
     (fun _ w' => exists airs added,
        logged w w' (air_log airs added) /\
        (weatherType <> Clear -> airs = [] /\ added = [])) w.
Proof.
  unfold addClouds. destruct (WeatherType_eqb weatherType Clear) eqn:Hclear; wp_steps.
  - eapply wp_mono; [apply placeStaticObjects_log|].
    intros [] w' [added [airs Hlog]]. exists airs, added.
    split; [log_more Hlog|]. intros Hne.
    destruct weatherType; [contradiction Hne; reflexivity | | |]; discriminate Hclear.
  - exists [], []. split; [apply logged_refl | intros _; split; reflexivity].
Qed.

Lemma addAnimatedLand_log (tm : TextureManager) (cityDef : CityDefinition)
    (exeData : ExeData) (w : World R) :
  wp (addAnimatedLand P tm cityDef exeData)
     (fun _ w' => exists a added, logged w w' (anim_log [a] added)) w.
Proof.
  unfold addAnimatedLand. wp_steps.
  match goal with
  | |- context [getTextureSetEntryIndex ?s ?nm] =>
      destruct (getTextureSetEntryIndex s nm) as [i|]
  end.
  - wp_steps. unfold makeAnimatedLandObject.
    destruct (clock_positive (DEFAULT_FRAME_TIME P)); [|exact I].
    wp_steps. eexists. exists []. unfold anim_log. log_close.
  - match goal with
    | |- wp (if ?b then _ else _) _ _ => destruct b
    end; wp_steps; unfold makeAnimatedLandObject;
      (destruct (clock_positive (DEFAULT_FRAME_TIME P)); [|exact I]);
      wp_steps; eexists; eexists [_]; unfold anim_log; log_close.
Qed.

Lemma makeMoon_log (tm : TextureManager) (currentDay : Z) (exeData : ExeData)
    (type : MoonType) (w : World R) :
  wp (makeMoon tm currentDay exeData type)
     (fun m w' => exists added, logged w w' (request_log (moon_entryIndex m) added)) w.
Proof.
  unfold makeMoon, request_log. wp_steps.
  match goal with
  | |- context [getTextureEntryIndex ?s ?nm] => destruct (getTextureEntryIndex s nm)
  end; wp_steps.
  - exists []. log_close.
  - eexists [_]. log_close.
Qed.

Lemma convertStar_log (tm : TextureManager) (palette : list Z) (exeData : ExeData)
    (star : Star) (w : World R) :
  wp (convertStar P tm palette exeData star)
     (fun _ w' => exists stars added, logged w w' (star_log stars added)) w.
Proof.
  unfold convertStar.
  destruct (star_type star =? -1).
  - pose proof (@wp_for_each R SubStar
                  (fun _ w' => exists stars added, logged w w' (star_log stars added)))
      as Hloop.
    eapply wp_mono; [apply (Hloop _ (subList star) [])|].
    + intros pre sub w' _ [stars [added Hstep]]. do 2 wp_step. wp_steps.
      eexists (stars ++ [_]), added. log_more Hstep.
    + exists [], []. apply logged_refl.
    + intros [] w' H. exact H.
  - wp_steps.
    match goal with
    | |- wp (match ?o with _ => _ end) _ _ => destruct o as [name|]; [|exact I]
    end.
    wp_steps.
    eapply wp_mono; [apply fixEntryIndexIfMissing_log|].
    intros i w' [added Hstep]. wp_steps. eexists [_], added. log_more Hstep.
Qed.

(** The log of the two moons. *)
Definition moon_log (moons : list MoonObject) (added : list TextureEntry) : Log :=
  {| new_land := []; new_air := []; new_anim := []; new_moon := moons; new_star := [];
     new_sun := None; new_textures := added; new_sets := [];
     texture_requests := map moon_entryIndex moons; set_requests := [] |}.

Lemma addSpaceObjects_log (assets : Assets) (currentDay starCount : Z)
    (exeData : ExeData) (fuel : nat) (w : World R) :
  wp (addSpaceObjects Sorter P assets currentDay starCount exeData fuel)
     (fun _ w' => exists m1 m2 stars sun added,
        logged w w' (space_log [m1; m2] stars sun added)) w.
Proof.
  unfold addSpaceObjects. wp_steps.
  eapply wp_mono; [apply makeMoon_log|].
  intros m1 w1 [added1 Hstep1]. wp_steps.
  match goal with
  | |- wp (makeMoon _ _ _ _) _ ?wc =>
      assert (Hmoon1 : logged w wc (moon_log [m1] added1))
        by (unfold moon_log; log_more Hstep1)
  end.
  eapply wp_mono; [apply makeMoon_log|].
  intros m2 w2 [added2 Hstep2]. wp_steps.
  pose proof (logged_trans Hmoon1 Hstep2) as Hboth. clear Hmoon1 Hstep2.
  eapply wp_mono; [apply generateStars_effect; exact stars_good_start|].
  intros generated w3 [[Hs3 Hg3] _]. wp_steps.
  destruct (colFile assets) as [palette|]; [|exact I]. wp_steps.
  match goal with
  | |- wp (for_each ?l ?body) _ ?wc =>
      assert (Hmoons : logged w wc (moon_log [m1; m2] (added1 ++ added2)));
        [|pose proof (@wp_for_each R Star
                        (fun _ w' => exists stars added,
                           logged w w'
                             (log_app (moon_log [m1; m2] (added1 ++ added2))
                                (star_log stars added))) body l []) as Hloop]
  end.
  { sky_simpl. rewrite Hs3, Hg3. unfold moon_log in *. log_more Hboth. }
  eapply wp_mono; [apply Hloop|].
  - intros pre star w' _ [stars [added Hstep]].
    eapply wp_mono; [apply convertStar_log|].
    intros [] w'' [stars' [added' Hone]]. exists (stars ++ stars'), (added ++ added').
    pose proof (logged_trans Hstep Hone) as Hall. unfold moon_log in *. log_more Hall.
  - exists [], []. unfold moon_log in *. log_more Hmoons.
  - intros [] w5 [stars [added Hstep5]]. wp_steps.
    eapply wp_mono; [apply fixEntryIndexIfMissing_log|].
    intros sun w6 [added6 Hstep6]. wp_steps.
    exists m1, m2, stars, sun, ((added1 ++ added2) ++ added ++ added6).
    pose proof (logged_trans Hstep5 Hstep6) as Hall. unfold moon_log in *.
    log_more Hall.
Qed.

Lemma init_body_log (assets : Assets) (locationDef : LocationDefinition)
    (provinceDef : ProvinceDefinition) (weatherType : WeatherType)
    (currentDay starCount : Z) (exeData : ExeData) (fuel : nat) (w : World R) :
  wp (init_body Sorter P assets locationDef provinceDef weatherType
        currentDay starCount exeData fuel)
     (fun _ w' => exists lands airs anims moons stars sun addedT addedS,
        logged w w' (run_log lands airs anims moons stars sun addedT addedS) /\
        (sun = None <-> weatherType <> Clear)) w.
Proof.
  unfold init_body. destruct locationDef as [cityDef| |]; try exact I.
  wp_step.
  match goal with
  | |- wp (match ?o with _ => _ end) _ _ => destruct o as [traits|]; [|exact I]
  end.
  wp_steps.
  eapply wp_mono; [apply placeStaticObjects_log|].
  intros [] w1 [added1 [lands Hstep1]]. wp_step.
  eapply wp_mono; [apply addClouds_log|].
  intros [] w2 [airs [added2 [Hstep2 _]]]. wp_step.
  pose proof (logged_trans Hstep1 Hstep2) as H12. clear Hstep1 Hstep2.
  assert (Hanim : wp (if hasAnimatedDistantLand provinceDef
                      then addAnimatedLand P (textureManager assets) cityDef exeData
                      else ret tt)
                     (fun _ w3 => exists anims addedS,
                        logged w2 w3 (anim_log anims addedS)) w2).
  { destruct (hasAnimatedDistantLand provinceDef).
    - eapply wp_mono; [apply addAnimatedLand_log|].
      intros [] w3 [obj [added Hlog]]. exists [obj], added. exact Hlog.
    - wp_steps. exists [], []. apply logged_refl. }
  eapply wp_mono; [exact Hanim|]. clear Hanim.
  intros [] w3 [anims [addedS Hstep3]]. cbv beta.
  pose proof (logged_trans H12 Hstep3) as H123. clear H12 Hstep3.
  destruct (WeatherType_eqb weatherType Clear) eqn:Hclear.
  - eapply wp_mono; [apply addSpaceObjects_log|].
    intros [] w4 [m1 [m2 [stars [sun [added4 Hstep4]]]]].
    exists lands, airs, anims, [m1; m2], stars, (Some sun),
           ((added1 ++ added2) ++ added4), addedS.
    split.
    + pose proof (logged_trans H123 Hstep4) as Hall. log_more Hall.
    + split; [discriminate|]. intros Hne. contradiction Hne.
      destruct weatherType; [reflexivity| | |]; discriminate Hclear.
  - wp_steps.
    exists lands, airs, anims, [], [], None, (added1 ++ added2), addedS.
    split; [log_more H123|].
    split; [|reflexivity]. intros _ Heq. rewrite Heq in Hclear. discriminate Hclear.
Qed.

End Trace.

(** What a run of [init] appends to a fresh record. *)
Lemma init_log (R : ArenaRandom) (Sorter : StdSort) (P : Platform)
    (assets : Assets) (locationDef : LocationDefinition)
    (provinceDef : ProvinceDefinition) (weatherType : WeatherType)
    (currentDay starCount : Z) (exeData : ExeData) (fuel : nat)
    (this sky' : DistantSky) (g' : Ghost) :
  init R Sorter P assets locationDef provinceDef weatherType currentDay starCount
    exeData fuel this = Done (sky', g') ->
  exists lands airs anims moons stars sun addedT addedS,
    appended this empty_ghost sky' g'
      (run_log lands airs anims moons stars sun addedT addedS) /\
    (sun = None <-> weatherType <> Clear).
Proof.
  intros Hrun. unfold init in Hrun.
  match type of Hrun with
  | match ?m ?w0 with _ => _ end = _ =>
      pose proof (@init_body_log R Sorter P assets locationDef provinceDef weatherType
                    currentDay starCount exeData fuel w0) as Hwp;
      unfold wp in Hwp; destruct (m w0) as [[[] w']| |]; try discriminate
  end.
  injection Hrun as <- <-. exact Hwp.
Qed.

Lemma in_loads_of (store : Store) (name : string) (loads : list (Store * string)) :
  In name (loads_of store loads) <-> In (store, name) loads.
Proof.
  unfold loads_of. rewrite in_map_iff. split.
  - intros [[st n] [Hn Hin]]. cbn [snd] in Hn. subst n.
    apply filter_In in Hin. destruct Hin as [Hin Hst]. cbn [fst] in Hst.
    unfold Store_eqb in Hst. destruct (Store_eq_dec st store); [|discriminate].
    subst st. apply in_rev. exact Hin.
  - intros Hin. exists (store, name). split; [reflexivity|].
    apply filter_In. split; [apply in_rev in Hin; exact Hin|].
    cbn [fst]. unfold Store_eqb. destruct (Store_eq_dec store store); congruence.
Qed.

(** After a run on a fresh record the loader was invoked for the entries
    appended, and for no identifier that a store held before. *)
Lemma appended_not_loaded (this sky' : DistantSky) (g' : Ghost) (L : Log) (name : string) :
  appended this empty_ghost sky' g' L ->
  NoDup (names TextureStore sky') ->
  In name (names TextureStore this) ->
  ~ In (TextureStore, name) (g_loads g').
Proof.
  intros Happ Hnodup Hin Hload.
  apply in_loads_of in Hload. rewrite (lg_loads Happ) in Hload. cbn [app] in Hload.
  unfold names in *. rewrite (lg_textures Happ), map_app in Hnodup.
  revert Hnodup Hin Hload. generalize (map filename (textures this)).
  intros l. induction l as [|x l IH]; intros Hnodup Hin Hload; [contradiction Hin|].
  cbn [app] in Hnodup. inversion Hnodup as [|? ? Hx Hrest]; subst.
  destruct Hin as [->|Hin].
  - apply Hx. apply in_or_app. right. exact Hload.
  - exact (IH Hrest Hin Hload).
Qed.

(** The sample legacy data with the image of the sun also named as the
    animated land of the middle distance. *)
Definition exeData_twin : ExeData :=
  {| distantMountainFilenames := distantMountainFilenames Sample.exeData;
     cloudFilename := cloudFilename Sample.exeData;
     animDistantMountainFilenames :=
       ["volcano1.dfa"%string; "sun.img"%string; "volcano3.img"%string];
     moonFilenames := moonFilenames Sample.exeData;
     starFilename := starFilename Sample.exeData;
     sunFilename := "sun.img"%string |}.

(** The sample city generated from them, in clear weather with no stars. *)
Definition sky_twin : DistantSky :=
  Eval vm_compute in
    Runs.sky_of (init Sample.random Sample.stable Sample.platform Sample.assets_a
                   Sample.city Sample.province Clear 0 0 exeData_twin 0 empty_sky).

Definition ghost_twin : Ghost :=
  Eval vm_compute in
    Runs.ghost_of (init Sample.random Sample.stable Sample.platform Sample.assets_a
                     Sample.city Sample.province Clear 0 0 exeData_twin 0 empty_sky).

Lemma run_twin :
  init Sample.random Sample.stable Sample.platform Sample.assets_a Sample.city
    Sample.province Clear 0 0 exeData_twin 0 empty_sky = Done (sky_twin, ghost_twin).
Proof. vm_compute. reflexivity. Qed.

(** The sentence as the specification has it: an identifier is always
    answered with the same index, the loader is invoked at most once for an
    identifier, and no two identifiers are given the same index. *)
Definition dedup_by_identifier : Prop :=
  forall (R : ArenaRandom) (Sorter : StdSort) (P : Platform) (assets : Assets)
         (locationDef : LocationDefinition) (provinceDef : ProvinceDefinition)
         (weatherType : WeatherType) (currentDay starCount : Z) (exeData : ExeData)
         (fuel : nat) (sky' : DistantSky) (g' : Ghost),
    init R Sorter P assets locationDef provinceDef weatherType currentDay starCount
      exeData fuel empty_sky = Done (sky', g') ->
    (forall store name i j,
       In (store, name, i) (g_requests g') -> In (store, name, j) (g_requests g') ->
       i = j) /\
    NoDup (map snd (g_loads g')) /\
    (forall store1 store2 name1 name2 i,
       In (store1, name1, i) (g_requests g') -> In (store2, name2, i) (g_requests g') ->
       name1 = name2).

(** C6, counterexample. The two stores are searched, filled and numbered
    apart. In the run on the sample city with the image of the sun also
    named as animated land, [make8BitSurface] is invoked twice for
    [SUN.IMG], once for the store of the texture sets and once for that of
    the textures, and index 0 is given to [HILL03.IMG] in the store of the
    textures and to [SUN.IMG] in the store of the texture sets. *)
Lemma C6_counterexample :
  count_occ string_dec (map snd (g_loads ghost_twin)) "SUN.IMG"%string = 2%nat /\
  In (TextureSetStore, "SUN.IMG"%string) (g_loads ghost_twin) /\
  In (TextureStore, "SUN.IMG"%string) (g_loads ghost_twin) /\
  In (TextureStore, "HILL03.IMG"%string, 0) (g_requests ghost_twin) /\
  In (TextureSetStore, "SUN.IMG"%string, 0) (g_requests ghost_twin) /\
  ~ dedup_by_identifier.
Proof.
  assert (Htwice : count_occ string_dec (map snd (g_loads ghost_twin))
                     "SUN.IMG"%string = 2%nat) by (vm_compute; reflexivity).
  split; [exact Htwice|].
  split; [vm_compute; tauto|]. split; [vm_compute; tauto|].
  split; [vm_compute; tauto|]. split; [vm_compute; tauto|].
  intros Hall.
  destruct (Hall _ _ _ _ _ _ _ _ _ _ _ _ _ run_twin) as [_ [Honce _]].
  pose proof (proj1 (NoDup_count_occ string_dec _) Honce "SUN.IMG"%string) as Hle.
  rewrite Htwice in Hle. lia.
Qed.

(** C6, as the code has it. Within a run of [init] on a reachable
    aggregate, and within one store (the textures, or the texture sets):
    two requests for the same identifier are answered with the same index,
    which is the place of the identifier in the store when the run ends; two
    requests answered with the same index were for the same identifier; the
    store holds no identifier twice, and the loader is invoked at most once
    for an identifier of the store.  Both stores only grow at their end: each
    ends as what it was followed by the entries added, and the loader was
    invoked for exactly those, in that order.  The indices the run was
    handed are those its objects hold: the texture store answered, in this
    order, for the mountains, the clouds, the moons, the large stars and the
    sun that the run appended, and the store of the texture sets for the
    animated land. *)
Theorem C6_texture_index_dedup (R : ArenaRandom) (Sorter : StdSort) (P : Platform)
    (assets : Assets) (locationDef : LocationDefinition)
    (provinceDef : ProvinceDefinition) (weatherType : WeatherType)
    (currentDay starCount : Z) (exeData : ExeData) (fuel : nat)
    (this sky' : DistantSky) (g' : Ghost) :
  reachable R Sorter P this ->
  init R Sorter P assets locationDef provinceDef weatherType currentDay starCount
    exeData fuel this = Done (sky', g') ->
  (forall store name i j,
     In (store, name, i) (g_requests g') -> In (store, name, j) (g_requests g') ->
     i = j /\ 0 <= i /\ nth_error (names store sky') (Z.to_nat i) = Some name) /\
  (forall store name1 name2 i,
     In (store, name1, i) (g_requests g') -> In (store, name2, i) (g_requests g') ->
     name1 = name2) /\
  (forall store, NoDup (names store sky') /\ NoDup (loads_of store (g_loads g'))) /\
  exists lands airs anims moons stars sun addedT addedS,
    appended this empty_ghost sky' g'
      (run_log lands airs anims moons stars sun addedT addedS) /\
    (sun = None <-> weatherType <> Clear).
Proof.
  intros Hreach Hrun.
  destruct (@init_effect R Sorter P _ _ _ _ _ _ _ _ _ _ _
              (reachable_ok Hreach) Hrun) as [cityDef [_ Heff]].
  pose proof (sky_store (re_ok Heff)) as Hok.
  destruct (init_log _ _ _ _ _ _ _ _ _ _ _ _ Hrun)
    as [lands [airs [anims [moons [stars [sun [addedT [addedS [Happ Hsun]]]]]]]]].
  split; [|split; [|split]].
  - intros store name i j Hi Hj.
    split; [exact (@request_unique _ _ _ _ _ _ Hok Hi Hj) | exact (ok_requests Hok _ _ _ Hi)].
  - intros store name1 name2 i H1 H2.
    destruct (ok_requests Hok _ _ _ H1) as [_ Hn1].
    destruct (ok_requests Hok _ _ _ H2) as [_ Hn2]. congruence.
  - intros store. split; [exact (ok_names Hok store)|].
    pose proof (ok_names Hok store) as Hnames.
    destruct store; unfold names in Hnames.
    + rewrite (lg_loads Happ). rewrite (lg_textures Happ), map_app in Hnames.
      exact (NoDup_app_remove_l _ _ Hnames).
    + rewrite (lg_set_loads Happ). rewrite (lg_sets Happ), map_app in Hnames.
      exact (NoDup_app_remove_l _ _ Hnames).
  - exists lands, airs, anims, moons, stars, sun, addedT, addedS.
    split; [exact Happ | exact Hsun].
Qed.

Lemma C6_witness :
  (forall store name i j,
     In (store, name, i) (g_requests Runs.ghost_a) ->
     In (store, name, j) (g_requests Runs.ghost_a) ->
     i = j /\ 0 <= i /\ nth_error (names store Runs.sky_a) (Z.to_nat i) = Some name) /\
  (forall store name1 name2 i,
     In (store, name1, i) (g_requests Runs.ghost_a) ->
     In (store, name2, i) (g_requests Runs.ghost_a) ->
     name1 = name2) /\
  (forall store,
     NoDup (names store Runs.sky_a) /\ NoDup (loads_of store (g_loads Runs.ghost_a))) /\
  exists lands airs anims moons stars sun addedT addedS,
    appended empty_sky empty_ghost Runs.sky_a Runs.ghost_a
      (run_log lands airs anims moons stars sun addedT addedS) /\
    (sun = None <-> Clear <> Clear).
Proof.
  exact (@C6_texture_index_dedup Sample.random Sample.stable Sample.platform
           Sample.assets_a Sample.city Sample.province Clear 0 40 Sample.exeData
           8%nat empty_sky Runs.sky_a Runs.ghost_a
           (reach_fresh Sample.random Sample.stable Sample.platform) Runs.run_a).
Defined.

(** ** The planets *)

Lemma planet_types_unique (l : list Star) :
  NoDup (planet_types l) ->
  forall i j s1 s2,
    nth_error l i = Some s1 -> nth_error l j = Some s2 ->
    5 <= star_type s1 -> star_type s1 = star_type s2 -> i = j.
Proof.
  unfold planet_types.
  induction l as [|x l IH]; intros Hnd i j s1 s2 H1 H2 Hp Heq.
  - destruct i; discriminate.
  - assert (Hin : forall k s, nth_error l k = Some s -> 5 <= star_type s ->
                              In (star_type s) (filter (fun t => 5 <=? t) (map star_type l))).
    { intros k s Hk Hs. apply filter_In. split.
      - apply in_map. eapply nth_error_In. exact Hk.
      - apply Z.leb_le. exact Hs. }
    cbn [map filter] in Hnd.
    destruct i as [|i], j as [|j]; cbn [nth_error] in H1, H2.
    + reflexivity.
    + injection H1 as ->. exfalso.
      destruct (Z.leb_spec 5 (star_type s1)); [|lia].
      inversion Hnd as [|? ? Hnot _]; subst. apply Hnot.
      rewrite Heq. apply (Hin j s2 H2). lia.
    + injection H2 as ->. exfalso.
      destruct (Z.leb_spec 5 (star_type s2)); [|lia].
      inversion Hnd as [|? ? Hnot _]; subst. apply Hnot.
      rewrite <- Heq. apply (Hin i s1 H1). exact Hp.
    + f_equal. apply (IH ltac:(destruct (5 <=? star_type x);
                                [inversion Hnd; assumption | exact Hnd])
                         i j s1 s2 H1 H2 Hp Heq).
Qed.

Lemma planet_types_perm (l l' : list Star) :
  Permutation l l' -> Permutation (planet_types l) (planet_types l').
Proof.
  unfold planet_types.
  induction 1 as [|x l l' _ IH|x y l|l l' l'' _ IH1 _ IH2]; cbn [map filter].
  - constructor.
  - destruct (5 <=? star_type x); [constructor|]; exact IH.
  - destruct (5 <=? star_type x), (5 <=? star_type y);
      try apply Permutation_refl. constructor.
  - exact (Permutation_trans IH1 IH2).
Qed.

(** No two places of the list hold stars of the same planet type. *)
Definition unique_planets (l : list Star) : Prop :=
  forall i j s1 s2,
    nth_error l i = Some s1 -> nth_error l j = Some s2 ->
    5 <= star_type s1 < 8 -> star_type s1 = star_type s2 -> i = j.

(** C7. After [init], run on a reachable aggregate, no two stars of the
    generated list, nor of the sorted one, have the same type from 5 to 7.
    Types below 5 may repeat: in the sample run the stars generated eighth
    and twentieth both have type 2. *)
Theorem C7_planet_types_unique (R : ArenaRandom) (Sorter : StdSort) (P : Platform)
    (assets : Assets) (locationDef : LocationDefinition)
    (provinceDef : ProvinceDefinition) (weatherType : WeatherType)
    (currentDay starCount : Z) (exeData : ExeData) (fuel : nat)
    (this sky' : DistantSky) (g' : Ghost) :
  reachable R Sorter P this ->
  init R Sorter P assets locationDef provinceDef weatherType currentDay starCount
    exeData fuel this = Done (sky', g') ->
  unique_planets (g_generated g') /\
  unique_planets (g_sorted g') /\
  (exists s1 s2,
     nth_error (g_generated Runs.ghost_a) 7 = Some s1 /\
     nth_error (g_generated Runs.ghost_a) 19 = Some s2 /\
     star_type s1 = 2 /\ star_type s2 = 2).
Proof.
  intros Hreach Hrun.
  destruct (@init_effect R Sorter P _ _ _ _ _ _ _ _ _ _ _
              (reachable_ok Hreach) Hrun) as [cityDef [_ Heff]].
  pose proof (re_stars Heff) as Hstars.
  assert (Hfacts : NoDup (planet_types (g_generated g')) /\
                   Permutation (g_generated g') (g_sorted g')).
  { destruct (WeatherType_eqb weatherType Clear).
    - destruct Hstars as [_ [[planets Hgood] ->]].
      split; [exact (sg_nodup Hgood) | apply std_sort_perm].
    - destruct Hstars as [-> ->]. split; constructor. }
  destruct Hfacts as [Hnd Hperm].
  split; [|split].
  - intros i j s1 s2 H1 H2 Hp Heq.
    exact (@planet_types_unique _ Hnd i j s1 s2 H1 H2 (proj1 Hp) Heq).
  - intros i j s1 s2 H1 H2 Hp Heq.
    refine (@planet_types_unique _ _ i j s1 s2 H1 H2 (proj1 Hp) Heq).
    exact (Permutation_NoDup (planet_types_perm Hperm) Hnd).
  - eexists. eexists. split; [reflexivity|]. split; [reflexivity|].
    split; reflexivity.
Qed.

Lemma C7_witness :
  unique_planets (g_generated Runs.ghost_a) /\
  unique_planets (g_sorted Runs.ghost_a) /\
  (exists s1 s2,
     nth_error (g_generated Runs.ghost_a) 7 = Some s1 /\
     nth_error (g_generated Runs.ghost_a) 19 = Some s2 /\
     star_type s1 = 2 /\ star_type s2 = 2).
Proof.
  exact (@C7_planet_types_unique Sample.random Sample.stable Sample.platform
           Sample.assets_a Sample.city Sample.province Clear 0 40 Sample.exeData 8%nat
           empty_sky Runs.sky_a Runs.ghost_a
           (reach_fresh Sample.random Sample.stable Sample.platform) Runs.run_a).
Defined.

(** ** The frame clock *)

(** The object of the scenario: frame time 1.0, clock and frame at 0. *)
Definition three_frame_object : AnimatedLandObject float :=
  {| setEntryIndex := 0; anim_angleRadians := 0%float; targetFrameTime := 1%float;
     currentFrameTime := 0%float; index := 0 |}.

(** C8. With a frame time of 1.0, the frame and the clock at 0 and three
    frames, [update(2.5)] leaves the clock at 0.5 and the frame at 2,
    whatever the iteration bound from 2 on. In general a call that returns
    has added [dt] to the clock and then, some [k] times, subtracted the
    frame time and advanced the frame: the clock was at or above the frame
    time before each of these passes and is not after the last, the frame
    is [(index + k) mod n] for a frame that was in range, and nothing else
    changed. With no frames the object is left as it is. *)
Theorem C8_update_advances_frames :
  (forall fuel : nat, (2 <= fuel)%nat ->
     update fuel 2.5%float 3 three_frame_object =
     Some {| setEntryIndex := 0; anim_angleRadians := 0%float; targetFrameTime := 1%float;
             currentFrameTime := 0.5%float; index := 2 |}) /\
  (forall (T : Type) (clock : FrameClock T) (fuel : nat) (dt : T) (n : Z)
          (obj obj' : AnimatedLandObject T),
     0 < n -> 0 <= index obj < n ->
     update fuel dt n obj = Some obj' ->
     exists k : nat,
       (k <= fuel)%nat /\
       currentFrameTime obj' =
         Nat.iter k (fun c => clock_sub c (targetFrameTime obj))
                  (clock_add (currentFrameTime obj) dt) /\
       index obj' = (index obj + Z.of_nat k) mod n /\
       (forall j : nat, (j < k)%nat ->
          clock_geb (Nat.iter j (fun c => clock_sub c (targetFrameTime obj))
                              (clock_add (currentFrameTime obj) dt))
                    (targetFrameTime obj) = true) /\
       clock_geb (currentFrameTime obj') (targetFrameTime obj) = false /\
       targetFrameTime obj' = targetFrameTime obj /\
       setEntryIndex obj' = setEntryIndex obj /\
       anim_angleRadians obj' = anim_angleRadians obj) /\
  (forall (T : Type) (clock : FrameClock T) (fuel : nat) (dt : T) (n : Z)
          (obj : AnimatedLandObject T),
     n <= 0 -> update fuel dt n obj = Some obj).
Proof.
  split; [|split].
  - intros fuel Hf. replace fuel with (2 + (fuel - 2))%nat by lia.
    unfold update. simpl (0 <? 3).  cbv iota.
    apply frame_loop_more_fuel. vm_compute. reflexivity.
  - intros T clock fuel dt n obj obj' Hn Hi H. unfold update in H.
    destruct (Z.ltb_spec 0 n) as [_|]; [|lia].
    destruct (frame_loop_passes _ _ _ H) as [k [Hk [Heq [Hbefore Hafter]]]].
    exists k. subst obj'. split; [exact Hk|].
    rewrite advance_frame_time, advance_frame_target, advance_frame_index by exact Hi.
    repeat split.
    + intros j Hj. specialize (Hbefore j Hj).
      rewrite advance_frame_time in Hbefore. exact Hbefore.
    + rewrite advance_frame_time in Hafter. exact Hafter.
    + apply (advance_frame_fixed n k (accumulate dt obj)).
    + apply (advance_frame_fixed n k (accumulate dt obj)).
  - intros T clock fuel dt n obj Hn. unfold update.
    destruct (Z.ltb_spec 0 n); [lia | reflexivity].
Qed.

Lemma C8_witness :
  exists k : nat,
    (k <= 4)%nat /\
    0.5%float = Nat.iter k (fun c => clock_sub c 1%float) (clock_add 0%float 2.5%float) /\
    2 = (0 + Z.of_nat k) mod 3.
Proof.
  destruct C8_update_advances_frames as [_ [general _]].
  destruct (general float binary64_clock 4%nat 2.5%float 3 three_frame_object
              {| setEntryIndex := 0; anim_angleRadians := 0%float;
                 targetFrameTime := 1%float; currentFrameTime := 0.5%float; index := 2 |}
              ltac:(lia) ltac:(simpl; lia) ltac:(vm_compute; reflexivity))
    as [k [Hk [Ht [Hi _]]]].
  exists k. repeat split; assumption.
Defined.

(** The sample aggregate after a tick of an eighth of a second. *)
Definition sky_t : DistantSky :=
  Eval vm_compute in
    match tick 8 0.125%float Runs.sky_a with Done s => s | _ => empty_sky end.

Lemma run_t : tick 8 0.125%float Runs.sky_a = Done sky_t.
Proof. vm_compute. reflexivity. Qed.

(** C9. On an aggregate that [init] and [tick] can have produced, any
    number of calls of [tick(0)] return and leave the frame of every
    animated land object as it was, whatever the iteration bound. *)
Theorem C9_tick_zero_keeps_frames (R : ArenaRandom) (Sorter : StdSort) (P : Platform)
    (s : DistantSky) (n fuel : nat) :
  reachable R Sorter P s ->
  exists s', tick_times n fuel 0%float s = Done s' /\
             map (@index float) (animLandObjects s') =
             map (@index float) (animLandObjects s).
Proof.
  intros Hreach. apply tick_times_zero. exact (sky_anims (reachable_ok Hreach)).
Qed.

Lemma C9_witness :
  exists s', tick_times 3 0 0%float sky_t = Done s' /\
             map (@index float) (animLandObjects s') =
             map (@index float) (animLandObjects sky_t).
Proof.
  exact (@C9_tick_zero_keeps_frames Sample.random Sample.stable Sample.platform
           sky_t 3%nat 0%nat
           (@reach_tick Sample.random Sample.stable Sample.platform 8%nat
              0.125%float Runs.sky_a sky_t
              (@reach_init Sample.random Sample.stable Sample.platform
                 Sample.assets_a Sample.city Sample.province Clear 0 40
                 Sample.exeData 8%nat empty_sky Runs.sky_a Runs.ghost_a
                 (reach_fresh Sample.random Sample.stable Sample.platform)
                 Runs.run_a)
              run_t)).
Defined.

(** An object with a frame time of 1.0, clock and frame at 0. *)
Definition unit_frame_object : AnimatedLandObject float :=
  {| setEntryIndex := 0; anim_angleRadians := 0%float; targetFrameTime := 1%float;
     currentFrameTime := 0%float; index := 0 |}.

(** 2^54 seconds. *)
Definition huge_dt : float := 0x1p+54%float.

Lemma huge_dt_absorbs :
  advance_frame 1 (accumulate huge_dt unit_frame_object) = accumulate huge_dt unit_frame_object.
Proof. vm_compute. reflexivity. Qed.

Lemma huge_dt_loops (fuel : nat) :
  frame_loop fuel 1 (accumulate huge_dt unit_frame_object) = None.
Proof.
  induction fuel as [|fuel IH]; [reflexivity|].
  cbn [frame_loop].
  replace (clock_geb (currentFrameTime (accumulate huge_dt unit_frame_object))
                     (targetFrameTime (accumulate huge_dt unit_frame_object))) with true
    by (vm_compute; reflexivity).
  rewrite huge_dt_absorbs. exact IH.
Qed.

(** C10, counterexample. With [dt = 2^54], finite and positive, and a
    frame time of 1.0, the subtraction of the loop rounds back to the clock
    it started from: the first pass does not lower the clock, and no
    iteration bound lets [update] return. *)
Lemma C10_counterexample :
  PrimFloat.is_finite huge_dt = true /\
  PrimFloat.leb 0 huge_dt = true /\
  PrimFloat.ltb 0 (targetFrameTime unit_frame_object) = true /\
  (huge_dt - 1 = huge_dt)%float /\
  ~ (exists (fuel : nat) (obj' : AnimatedLandObject float),
       update fuel huge_dt 1 unit_frame_object = Some obj').
Proof.
  repeat split; try (vm_compute; reflexivity).
  intros [fuel [obj' H]]. unfold update in H. simpl (0 <? 1) in H. cbv iota in H.
  rewrite huge_dt_loops in H. discriminate.
Qed.

Section ExactClock.

Local Open Scope Q_scope.

Lemma exact_loop_ends (n : Z) (k : nat) :
forall obj : AnimatedLandObject Q,
  0 < targetFrameTime obj ->
  0 <= currentFrameTime obj ->
  currentFrameTime obj < inject_Z (Z.of_nat k + 1) * targetFrameTime obj ->
  exists obj',
    frame_loop k n obj = Some obj' /\
    0 <= currentFrameTime obj' /\ currentFrameTime obj' < targetFrameTime obj' /\
    targetFrameTime obj' = targetFrameTime obj.
Proof.
induction k as [|k IH]; intros obj Ht Hc Hlt.
- exists obj. cbn [frame_loop]. cbn [clock_geb exact_clock].
  change (inject_Z (Z.of_nat 0 + 1)) with 1 in Hlt.
  destruct (Qle_bool (targetFrameTime obj) (currentFrameTime obj)) eqn:E.
  + apply Qle_bool_iff in E. lra.
  + repeat split; try assumption; try reflexivity. lra.
- cbn [frame_loop]. cbn [clock_geb exact_clock].
  destruct (Qle_bool (targetFrameTime obj) (currentFrameTime obj)) eqn:E.
  + apply Qle_bool_iff in E.
    destruct (IH (advance_frame n obj)) as [obj' [Hrun [H0 [H1 H2]]]].
    * exact Ht.
    * cbn [advance_frame currentFrameTime clock_sub exact_clock]. lra.
    * cbn [advance_frame currentFrameTime targetFrameTime clock_sub exact_clock].
      rewrite Nat2Z.inj_succ in Hlt. unfold Z.succ in Hlt.
      rewrite (inject_Z_plus (Z.of_nat k + 1) 1) in Hlt.
      change (inject_Z 1) with 1 in Hlt. lra.
    * exists obj'. repeat split; assumption.
  + exists obj. repeat split; try assumption; try reflexivity.
    destruct (Qlt_le_dec (currentFrameTime obj) (targetFrameTime obj)) as [|Hle];
      [assumption|].
    apply Qle_bool_iff in Hle. congruence.
Qed.

(** In exact arithmetic [update] returns for every [dt >= 0], and with a
  frame leaves the clock in [[0, targetFrameTime)]. *)
Lemma exact_update_ends (dt : Q) (n : Z) (obj : AnimatedLandObject Q) :
0 <= dt -> 0 < targetFrameTime obj -> 0 <= currentFrameTime obj ->
exists (fuel : nat) (obj' : AnimatedLandObject Q),
  update fuel dt n obj = Some obj' /\
  ((0 < n)%Z -> 0 <= currentFrameTime obj' /\ currentFrameTime obj' < targetFrameTime obj').
Proof.
intros Hdt Ht Hc. unfold update.
destruct (Z.ltb_spec 0 n) as [Hn|Hn].
- set (start := accumulate dt obj).
  assert (Hs : 0 <= currentFrameTime start)
    by (cbn [start accumulate currentFrameTime clock_add exact_clock]; lra).
  set (q := Qfloor (currentFrameTime start / targetFrameTime obj)).
  assert (Hq : (0 <= q)%Z).
  { change 0%Z with (Qfloor 0). apply Qfloor_resp_le.
    apply Qle_shift_div_l; [exact Ht | lra]. }
  destruct (@exact_loop_ends n (Z.to_nat q) start) as [obj' [Hrun [H0 [H1 _]]]].
  + exact Ht.
  + exact Hs.
  + rewrite Z2Nat.id by exact Hq.
    pose proof (Qlt_floor (currentFrameTime start / targetFrameTime obj)) as Hf.
    fold q in Hf. apply (Qmult_lt_compat_r _ _ _ Ht) in Hf.
    assert (Hcancel : currentFrameTime start / targetFrameTime obj * targetFrameTime obj
                      == currentFrameTime start) by (field; lra).
    rewrite Hcancel in Hf. exact Hf.
  + exists (Z.to_nat q), obj'. split; [exact Hrun | intros _; split; assumption].
- exists O, obj. split; [reflexivity | intros; lia].
Qed.

End ExactClock.

(** ** The rank of a binary64 number *)

(** The place of a positive finite binary64 number among the others: the
    comparison orders them by exponent and then by mantissa. *)
Definition sf_rank (f : spec_float) : nat :=
  match f with
  | S754_finite false m e => Z.to_nat ((e + 1074) * 2 ^ 53 + Z.pos m)
  | _ => O
  end.

Lemma digits2_pos_bound (m : positive) : Z.pos m < 2 ^ Z.pos (digits2_pos m).
Proof.
  induction m as [m IH|m IH|]; cbn [digits2_pos].
  - rewrite Pos2Z.inj_succ, Z.pow_succ_r by lia. lia.
  - rewrite Pos2Z.inj_succ, Z.pow_succ_r by lia. lia.
  - reflexivity.
Qed.

Lemma valid_finite_bounds (s : bool) (m : positive) (e : Z) :
  valid_binary (S754_finite s m e) = true -> -1074 <= e /\ Z.pos m < 2 ^ 53.
Proof.
  unfold valid_binary, SpecFloat.valid_binary, bounded, canonical_mantissa, fexp, emin.
  change prec with 53. change emax with 1024.
  intros H. apply andb_prop in H. destruct H as [H _]. apply Z.eqb_eq in H.
  pose proof (digits2_pos_bound m) as Hd.
  assert (Hle : Z.pos (digits2_pos m) <= 53) by lia.
  split; [lia|].
  eapply Z.lt_le_trans; [exact Hd|]. apply Z.pow_le_mono_r; lia.
Qed.

Lemma sf_rank_lt (m1 m2 : positive) (e1 e2 : Z) :
  valid_binary (S754_finite false m1 e1) = true ->
  valid_binary (S754_finite false m2 e2) = true ->
  SFltb (S754_finite false m1 e1) (S754_finite false m2 e2) = true ->
  (sf_rank (S754_finite false m1 e1) < sf_rank (S754_finite false m2 e2))%nat.
Proof.
  intros H1 H2 Hlt.
  destruct (@valid_finite_bounds _ _ _ H1) as [He1 Hm1].
  destruct (@valid_finite_bounds _ _ _ H2) as [He2 Hm2].
  unfold SFltb, SFcompare in Hlt. cbn [sf_rank].
  apply Z2Nat.inj_lt; [nia | nia |].
  destruct (Z.compare_spec e1 e2) as [->|Hlt'|Hgt]; try discriminate.
  - fold (Pos.compare m1 m2) in Hlt.
    destruct (Pos.compare_spec m1 m2); try discriminate. lia.
  - nia.
Qed.

Definition rank (c : float) : nat := sf_rank (Prim2SF c).

(** ** Rounding in binary64 *)

Lemma digits2_pos_low (m : positive) : 2 ^ (Z.pos (digits2_pos m) - 1) <= Z.pos m.
Proof.
  induction m as [m IH|m IH|]; cbn [digits2_pos].
  - rewrite Pos2Z.inj_succ. replace (Z.succ (Z.pos (digits2_pos m)) - 1)
      with (Z.succ (Z.pos (digits2_pos m) - 1)) by lia.
    rewrite Z.pow_succ_r by lia. lia.
  - rewrite Pos2Z.inj_succ. replace (Z.succ (Z.pos (digits2_pos m)) - 1)
      with (Z.succ (Z.pos (digits2_pos m) - 1)) by lia.
    rewrite Z.pow_succ_r by lia. lia.
  - reflexivity.
Qed.

Lemma digits2_pos_unique (m : positive) (d : Z) :
  2 ^ (d - 1) <= Z.pos m < 2 ^ d -> Z.pos (digits2_pos m) = d.
Proof.
  intros [Hlow Hhigh].
  pose proof (digits2_pos_low m) as Hl. pose proof (digits2_pos_bound m) as Hh.
  destruct (Z.lt_trichotomy (Z.pos (digits2_pos m)) d) as [Hlt|[Heq|Hgt]];
    [|exact Heq|].
  - assert (2 ^ Z.pos (digits2_pos m) <= 2 ^ (d - 1)) by (apply Z.pow_le_mono_r; lia).
    lia.
  - assert (2 ^ d <= 2 ^ (Z.pos (digits2_pos m) - 1)) by (apply Z.pow_le_mono_r; lia).
    lia.
Qed.

Lemma iter_xO (m d : positive) : Z.pos (Pos.iter xO m d) = Z.pos m * 2 ^ Z.pos d.
Proof.
  induction d as [|d IH] using Pos.peano_ind.
  - cbn [Pos.iter]. rewrite Pos2Z.inj_xO. change (2 ^ 1) with 2. lia.
  - rewrite Pos.iter_succ, Pos2Z.inj_xO, IH, Pos2Z.inj_succ, Z.pow_succ_r by lia. lia.
Qed.

Lemma shl_align_down (mx : positive) (ex ex' : Z) :
  ex' <= ex ->
  snd (shl_align mx ex ex') = ex' /\
  Z.pos (fst (shl_align mx ex ex')) = Z.pos mx * 2 ^ (ex - ex').
Proof.
  intros H. unfold shl_align.
  destruct (ex' - ex) as [|d|d] eqn:Hd; cbn [fst snd].
  - replace (ex - ex') with 0 by lia. split; lia.
  - lia.
  - replace (ex - ex') with (Z.pos d) by lia. split; [reflexivity | apply iter_xO].
Qed.

Lemma iter_pos_nat {A : Type} (f : A -> A) (p : positive) :
  forall x, SpecFloat.iter_pos f p x = Nat.iter (Pos.to_nat p) f x.
Proof.
  induction p as [p IH|p IH|]; intros x; cbn [SpecFloat.iter_pos].
  - rewrite !IH, Pos2Nat.inj_xI.
    rewrite <- (Nat.iter_succ_r (Pos.to_nat p) A f x), <- Nat.iter_add.
    f_equal. lia.
  - rewrite !IH, Pos2Nat.inj_xO, <- Nat.iter_add. f_equal. lia.
  - reflexivity.
Qed.

Lemma shr_1_spec (r : shr_record) :
  0 <= shr_m r ->
  shr_m (shr_1 r) = shr_m r / 2 /\
  shr_r (shr_1 r) = Z.odd (shr_m r) /\
  shr_s (shr_1 r) = shr_r r || shr_s r.
Proof.
  destruct r as [m r s]. cbn [shr_m shr_r shr_s]. intros Hm.
  destruct m as [|[p|p|]|p]; cbn [shr_1 shr_m shr_r shr_s]; try lia.
  - repeat split.
  - split; [|split; reflexivity]. rewrite Pos2Z.inj_xI.
    apply (Z.div_unique _ _ _ 1); lia.
  - split; [|split; reflexivity]. rewrite Pos2Z.inj_xO.
    apply (Z.div_unique _ _ _ 0); lia.
  - repeat split.
Qed.

(** What [n] shifts to the right leave of [m]: the quotient, a round bit
    that is set only above the half, and no bit at all of an exact
    quotient. *)
Lemma shr_iter (m : Z) (n : nat) :
  0 <= m ->
  let r := Nat.iter n shr_1 {| shr_m := m; shr_r := false; shr_s := false |} in
  shr_m r = m / 2 ^ Z.of_nat n /\
  (shr_r r = true -> 2 ^ Z.of_nat n <= 2 * (m mod 2 ^ Z.of_nat n)) /\
  (m mod 2 ^ Z.of_nat n = 0 -> shr_r r = false /\ shr_s r = false).
Proof.
  intros Hm. induction n as [|n IH].
  - cbn [Nat.iter nat_rect shr_m shr_r shr_s Z.of_nat]. change (2 ^ 0) with 1.
    rewrite Z.div_1_r. repeat split; discriminate.
  - cbv zeta in *. rewrite Nat.iter_succ.
    set (r := Nat.iter n shr_1 {| shr_m := m; shr_r := false; shr_s := false |}) in *.
    destruct IH as [Hq [Hr Hz]].
    assert (Hpos : 0 < 2 ^ Z.of_nat n) by (apply Z.pow_pos_nonneg; lia).
    assert (Hq0 : 0 <= shr_m r) by (rewrite Hq; apply Z.div_pos; lia).
    destruct (shr_1_spec r Hq0) as [H1 [H2 H3]].
    rewrite Nat2Z.inj_succ, Z.pow_succ_r by lia.
    replace (2 * 2 ^ Z.of_nat n) with (2 ^ Z.of_nat n * 2) by lia.
    assert (Hsplit : m mod (2 ^ Z.of_nat n * 2) =
                     m mod 2 ^ Z.of_nat n + 2 ^ Z.of_nat n * ((m / 2 ^ Z.of_nat n) mod 2))
      by (apply Z.rem_mul_r; lia).
    pose proof (Z.mod_pos_bound m (2 ^ Z.of_nat n) Hpos) as Hb.
    pose proof (Zmod_odd (m / 2 ^ Z.of_nat n)) as Hodd.
    split; [|split].
    + rewrite H1, Hq. rewrite Z.div_div by lia. reflexivity.
    + rewrite H2, Hq. intros Ho. rewrite Ho in Hodd. rewrite Hsplit, Hodd. lia.
    + intros H0. rewrite Hsplit in H0.
      destruct (Z.odd (m / 2 ^ Z.of_nat n)) eqn:Ho; rewrite Hodd in H0; [lia|].
      assert (Hm0 : m mod 2 ^ Z.of_nat n = 0) by lia.
      destruct (Hz Hm0) as [Hr0 Hs0].
      rewrite H2, H3, Hq, Ho, Hr0, Hs0. split; reflexivity.
Qed.

Lemma fexp64 (e : Z) : fexp prec emax e = Z.max (e - 53) (-1074).
Proof. reflexivity. Qed.

(** Rounding a mantissa that is already in its place changes nothing. *)
Lemma binary_round_aux_exact (m : positive) (e : Z) :
  fexp prec emax (Z.pos (digits2_pos m) + e) = e -> e <= 971 ->
  binary_round_aux prec emax false (Z.pos m) e loc_Exact = S754_finite false m e.
Proof.
  intros Hc He. unfold binary_round_aux, shr_fexp.
  cbn [Zdigits2 shr_record_of_loc]. rewrite Hc, Z.sub_diag.
  cbn [shr shr_m loc_of_shr_record round_nearest_even Zdigits2 shr_record_of_loc].
  rewrite Hc, Z.sub_diag. cbn [shr shr_m].
  change (emax - prec) with 971.
  destruct (Z.leb_spec e 971); [reflexivity | lia].
Qed.

(** The second shift of the rounding: none below [2^53], one place at
    [2^53]. *)
Lemma round_second_shift (mr : positive) (e' : Z) :
  -1074 <= e' -> 2 ^ 52 <= Z.pos mr <= 2 ^ 53 ->
  (Z.pos mr < 2 ^ 53 /\
   shr_fexp prec emax (Z.pos mr) e' loc_Exact =
     ({| shr_m := Z.pos mr; shr_r := false; shr_s := false |}, e')) \/
  (Z.pos mr = 2 ^ 53 /\
   shr_fexp prec emax (Z.pos mr) e' loc_Exact =
     ({| shr_m := 2 ^ 52; shr_r := false; shr_s := false |}, e' + 1)).
Proof.
  intros He [Hlow Hhigh]. unfold shr_fexp. cbn [Zdigits2 shr_record_of_loc].
  destruct (Z.eq_dec (Z.pos mr) (2 ^ 53)) as [Heq|Hne].
  - right. split; [exact Heq|].
    assert (Hm : mr = 9007199254740992%positive) by (apply Pos2Z.inj; exact Heq).
    subst mr. cbn [digits2_pos Pos.succ]. rewrite fexp64.
    replace (Z.max (54 + e' - 53) (-1074) - e') with 1 by lia.
    reflexivity.
  - left. split; [lia|].
    rewrite (@digits2_pos_unique mr 53) by (change (2 ^ (53 - 1)) with (2 ^ 52); lia).
    rewrite fexp64. replace (Z.max (53 + e' - 53) (-1074) - e') with 0 by lia.
    reflexivity.
Qed.

(** Rounding a mantissa of [s + 53] digits: [s] digits are shifted out,
    and the quotient is kept or raised by one; it is raised only from the
    half on, and an exact quotient is kept. A quotient raised to [2^53]
    moves to the next exponent. *)
Lemma binary_round_aux_shift (m : positive) (e : Z) (s : positive) :
  -1074 <= e ->
  Z.pos (digits2_pos m) = Z.pos s + 53 ->
  let q := Z.pos m / 2 ^ Z.pos s in
  let r := Z.pos m mod 2 ^ Z.pos s in
  exists (m2 : positive) (e2 : Z),
    binary_round_aux prec emax false (Z.pos m) e loc_Exact =
      (if e2 <=? 971 then S754_finite false m2 e2 else S754_infinity false) /\
    ((e2 = e + Z.pos s /\ Z.pos m2 < 2 ^ 53 /\
      (Z.pos m2 = q \/ (Z.pos m2 = q + 1 /\ 2 ^ Z.pos s <= 2 * r)) /\
      (r = 0 -> Z.pos m2 = q)) \/
     (e2 = e + Z.pos s + 1 /\ Z.pos m2 = 2 ^ 52 /\ q = 2 ^ 53 - 1 /\
      2 ^ Z.pos s <= 2 * r)).
Proof.
  intros He Hd q r.
  assert (Hpow : 0 < 2 ^ Z.pos s) by (apply Z.pow_pos_nonneg; lia).
  pose proof (digits2_pos_low m) as Hlow. pose proof (digits2_pos_bound m) as Hhigh.
  rewrite Hd in Hlow, Hhigh.
  replace (Z.pos s + 53 - 1) with (52 + Z.pos s) in Hlow by lia.
  replace (Z.pos s + 53) with (53 + Z.pos s) in Hhigh by lia.
  rewrite Z.pow_add_r in Hlow, Hhigh by lia.
  assert (Hq : 2 ^ 52 <= q < 2 ^ 53).
  { unfold q. split.
    - apply Z.div_le_lower_bound; lia.
    - apply Z.div_lt_upper_bound; lia. }
  unfold binary_round_aux, shr_fexp at 1.
  cbn [Zdigits2 shr_record_of_loc]. rewrite Hd, fexp64.
  replace (Z.max (Z.pos s + 53 + e - 53) (-1074) - e) with (Z.pos s) by lia.
  cbn [shr]. rewrite iter_pos_nat.
  pose proof (@shr_iter (Z.pos m) (Pos.to_nat s) ltac:(lia)) as Hshr.
  cbv zeta in Hshr. rewrite positive_nat_Z in Hshr. fold q r in Hshr.
  destruct (Nat.iter (Pos.to_nat s) shr_1
              {| shr_m := Z.pos m; shr_r := false; shr_s := false |})
    as [qm rr ss].
  cbn [shr_m shr_r shr_s] in Hshr. destruct Hshr as [Hqm [Hrr Hzero]]. subst qm.
  cbn [shr_m].
  set (mr := round_nearest_even q
               (loc_of_shr_record {| shr_m := q; shr_r := rr; shr_s := ss |})).
  assert (Hmr : (mr = q \/ (mr = q + 1 /\ rr = true)) /\ (r = 0 -> mr = q)).
  { unfold mr. destruct rr, ss; cbn [loc_of_shr_record round_nearest_even].
    - split; [right; split; [lia | reflexivity]|]. intros H0.
      destruct (Hzero H0); discriminate.
    - destruct (Z.even q).
      + split; [left; reflexivity | reflexivity].
      + split; [right; split; [lia | reflexivity]|]. intros H0.
        destruct (Hzero H0); discriminate.
    - split; [left; reflexivity | reflexivity].
    - split; [left; reflexivity | reflexivity]. }
  destruct Hmr as [Hcases Hexact].
  assert (Hrange : 2 ^ 52 <= mr <= 2 ^ 53) by (destruct Hcases as [->|[-> _]]; lia).
  destruct mr as [|pm|pm] eqn:Hpm; [lia| |lia].
  destruct (@round_second_shift pm (e + Z.pos s) ltac:(lia) Hrange)
    as [[Hlt ->]|[Heq ->]]; cbn [shr_m].
  - exists pm, (e + Z.pos s). change (emax - prec) with 971.
    split; [reflexivity|]. left. split; [reflexivity|]. split; [exact Hlt|].
    split; [|exact Hexact].
    destruct Hcases as [H|[H Hr]]; [left; exact H | right; split; [exact H|]].
    apply Hrr. exact Hr.
  - exists 4503599627370496%positive, (e + Z.pos s + 1). change (emax - prec) with 971.
    split; [reflexivity|]. right. split; [reflexivity|]. split; [reflexivity|].
    destruct Hcases as [H|[H Hr]]; [lia|]. split; [lia | apply Hrr; exact Hr].
Qed.

Lemma valid_canonical (s : bool) (m : positive) (e : Z) :
  valid_binary (S754_finite s m e) = true ->
  Z.max (Z.pos (digits2_pos m) + e - 53) (-1074) = e /\ e <= 971.
Proof.
  unfold valid_binary, SpecFloat.valid_binary, bounded, canonical_mantissa.
  rewrite fexp64. change (emax - prec) with 971.
  intros H. apply andb_prop in H. destruct H as [H1 H2].
  apply Z.eqb_eq in H1. apply Z.leb_le in H2. split; assumption.
Qed.

Lemma SFleb_finite (m1 m2 : positive) (e1 e2 : Z) :
  SFleb (S754_finite false m1 e1) (S754_finite false m2 e2) = true ->
  e1 < e2 \/ (e1 = e2 /\ Z.pos m1 <= Z.pos m2).
Proof.
  unfold SFleb, SFcompare.
  destruct (Z.compare_spec e1 e2) as [->|Hlt|Hgt]; intros H.
  - right. split; [reflexivity|]. fold (Pos.compare m1 m2) in H.
    destruct (Pos.compare_spec m1 m2); try discriminate; lia.
  - left. exact Hlt.
  - discriminate.
Qed.

Lemma SFltb_finite (m1 m2 : positive) (e1 e2 : Z) :
  e1 < e2 \/ (e1 = e2 /\ Z.pos m1 < Z.pos m2) ->
  SFltb (S754_finite false m1 e1) (S754_finite false m2 e2) = true.
Proof.
  unfold SFltb, SFcompare. intros [Hlt|[-> Hm]].
  - apply Z.compare_lt_iff in Hlt. rewrite Hlt. reflexivity.
  - rewrite Z.compare_refl. fold (Pos.compare m1 m2).
    assert (Hc : (m1 ?= m2)%positive = Lt) by (apply Pos.compare_lt_iff; lia).
    rewrite Hc. reflexivity.
Qed.

Lemma shl_align_up (mx : positive) (ex ex' : Z) :
  ex <= ex' -> shl_align mx ex ex' = (mx, ex).
Proof.
  intros H. unfold shl_align. destruct (ex' - ex) eqn:Hd; try reflexivity. lia.
Qed.

Lemma digits2_pos_shift (m mz : positive) (j : Z) :
  0 <= j -> Z.pos mz = Z.pos m * 2 ^ j ->
  Z.pos (digits2_pos mz) = Z.pos (digits2_pos m) + j.
Proof.
  intros Hj Hmz. apply digits2_pos_unique. rewrite Hmz.
  pose proof (digits2_pos_low m) as Hl. pose proof (digits2_pos_bound m) as Hh.
  assert (Hp : 0 < 2 ^ j) by (apply Z.pow_pos_nonneg; lia).
  replace (Z.pos (digits2_pos m) + j - 1) with (Z.pos (digits2_pos m) - 1 + j) by lia.
  rewrite !Z.pow_add_r by lia. split.
  - apply Z.mul_le_mono_nonneg_r; lia.
  - apply Z.mul_lt_mono_pos_r; lia.
Qed.

(** The subtraction of the loop in binary64. For positive numbers
    [t <= c], with the leading binary digit of [c] at most 52 places above
    that of [t], the rounded difference is zero or a positive number below
    [c]: the subtraction is not absorbed. *)
Lemma SF64sub_lowers (mc mt : positive) (ec et : Z) :
  valid_binary (S754_finite false mc ec) = true ->
  valid_binary (S754_finite false mt et) = true ->
  SFleb (S754_finite false mt et) (S754_finite false mc ec) = true ->
  ec + Z.pos (digits2_pos mc) <= et + Z.pos (digits2_pos mt) + 52 ->
  SF64sub (S754_finite false mc ec) (S754_finite false mt et) = S754_zero false \/
  exists (mz : positive) (ez : Z),
    SF64sub (S754_finite false mc ec) (S754_finite false mt et) =
      S754_finite false mz ez /\
    (ez < ec \/ (ez = ec /\ Z.pos mz < Z.pos mc)).
Proof.
  intros Vc Vt Hle Hreach.
  destruct (@valid_canonical _ _ _ Vc) as [Hcc Hec].
  destruct (@valid_canonical _ _ _ Vt) as [Hct Het].
  pose proof (digits2_pos_low mc) as Hlc. pose proof (digits2_pos_bound mc) as Hhc.
  pose proof (digits2_pos_low mt) as Hlt. pose proof (digits2_pos_bound mt) as Hht.
  set (dc := Z.pos (digits2_pos mc)) in *. set (dt := Z.pos (digits2_pos mt)) in *.
  assert (Hdc : 1 <= dc <= 53) by (unfold dc; lia).
  assert (Hdt : 1 <= dt <= 53) by (unfold dt; lia).
  assert (Hk : et <= ec) by (destruct (@SFleb_finite _ _ _ _ Hle) as [H|[H _]]; lia).
  unfold SF64sub, SFsub. rewrite Z.min_r by exact Hk. cbn [cond_Zopp].
  destruct (@shl_align_down mc ec et Hk) as [_ Hmc'].
  destruct (@shl_align_down mt et et (Z.le_refl et)) as [_ Hmt'].
  rewrite Z.sub_diag in Hmt'. change (2 ^ 0) with 1 in Hmt'. rewrite Z.mul_1_r in Hmt'.
  rewrite Hmt'.
  set (k := ec - et) in *.
  assert (Hkv : k = ec - et) by reflexivity. clearbody k.
  assert (HK : 0 < 2 ^ k) by (apply Z.pow_pos_nonneg; lia).
  (* the frame time is not below the last place of the clock *)
  assert (Hmt : k = 0 \/ 2 ^ k <= Z.pos mt).
  { destruct (Z.eq_dec k 0) as [H0|Hn]; [left; exact H0 | right].
    assert (dc = 53) by lia.
    eapply Z.le_trans; [|exact Hlt]. apply Z.pow_le_mono_r; lia. }
  assert (Hnonneg : Z.pos mt <= Z.pos mc * 2 ^ k).
  { destruct (@SFleb_finite _ _ _ _ Hle) as [Hlt'|[Heq Hm]].
    - assert (Hnormal : dc = 53) by lia.
      assert (Hfull : 2 ^ 52 <= Z.pos mc).
      { eapply Z.le_trans; [|exact Hlc]. apply Z.pow_le_mono_r; lia. }
      assert (Hsmall : Z.pos mt < 2 ^ 53).
      { eapply Z.lt_le_trans; [exact Hht|]. apply Z.pow_le_mono_r; lia. }
      assert (Htwo : 2 ^ 1 <= 2 ^ k) by (apply Z.pow_le_mono_r; lia).
      change (2 ^ 1) with 2 in Htwo. change (2 ^ 52) with 4503599627370496 in Hfull.
      change (2 ^ 53) with 9007199254740992 in Hsmall. nia.
    - replace k with 0 by lia. change (2 ^ 0) with 1. lia. }
  destruct (Z.pos (fst (shl_align mc ec et)) - Z.pos mt) as [|M|M] eqn:HM;
    [left; reflexivity | right | lia].
  cbn [binary_normalize]. unfold binary_round.
  assert (HMv : Z.pos M = Z.pos mc * 2 ^ k - Z.pos mt) by lia.
  pose proof (digits2_pos_low M) as HlM. pose proof (digits2_pos_bound M) as HhM.
  set (dM := Z.pos (digits2_pos M)) in *.
  assert (HdM : 1 <= dM <= dc + k).
  { split; [unfold dM; lia|].
    assert (Hlt2 : 2 ^ (dM - 1) < 2 ^ (dc + k)).
    { eapply Z.le_lt_trans; [exact HlM|]. rewrite Z.pow_add_r by lia. nia. }
    apply Z.pow_lt_mono_r_iff in Hlt2; lia. }
  rewrite fexp64.
  destruct (Z.le_gt_cases (Z.max (dM + et - 53) (-1074)) et) as [Hleft|Hright].
  - (* the difference fits: it is exact *)
    destruct (@shl_align_down M et _ Hleft) as [He' Hm'].
    destruct (shl_align M et (Z.max (dM + et - 53) (-1074))) as [mz ez].
    cbn [fst snd] in He', Hm'. subst ez.
    assert (Hdz : Z.pos (digits2_pos mz) = dM + (et - Z.max (dM + et - 53) (-1074)))
      by (apply digits2_pos_shift; [lia | exact Hm']).
    rewrite binary_round_aux_exact by (rewrite ?fexp64, ?Hdz; lia).
    exists mz, (Z.max (dM + et - 53) (-1074)). split; [reflexivity|].
    destruct (Z.eq_dec (Z.max (dM + et - 53) (-1074)) ec) as [Heq|Hne]; [right | left; lia].
    split; [exact Heq|].
    assert (k = 0) by lia.
    replace (et - Z.max (dM + et - 53) (-1074)) with 0 in Hm' by lia.
    replace k with 0 in HMv by lia. change (2 ^ 0) with 1 in *. lia.
  - (* the difference is rounded *)
    rewrite shl_align_up by lia.
    assert (Hs : 0 < dM + et - 53 - et) by lia.
    destruct (dM + et - 53 - et) as [|s|s] eqn:Hsv; [lia| |lia].
    assert (HS : 0 < 2 ^ Z.pos s) by (apply Z.pow_pos_nonneg; lia).
    assert (Hnormal : dc = 53) by lia.
    assert (Hge : 2 ^ k <= Z.pos mt) by (destruct Hmt as [H0|H]; [lia | exact H]).
    assert (Hmc : 2 ^ 52 <= Z.pos mc < 2 ^ 53).
    { rewrite Hnormal in Hlc, Hhc. split; [exact Hlc | exact Hhc]. }
    destruct (@binary_round_aux_shift M et s ltac:(lia) ltac:(fold dM; lia))
      as [m2 [e2 [Hround Hcases]]].
    cbv zeta in Hcases.
    change (2 ^ 52) with 4503599627370496 in *.
    change (2 ^ 53) with 9007199254740992 in *.
    pose proof (Z.div_mod (Z.pos M) (2 ^ Z.pos s) ltac:(lia)) as Hdiv.
    pose proof (Z.mod_pos_bound (Z.pos M) (2 ^ Z.pos s) HS) as Hrem.
    set (q := Z.pos M / 2 ^ Z.pos s) in *. set (r := Z.pos M mod 2 ^ Z.pos s) in *.
    rewrite Hround.
    destruct (Z.eq_dec (Z.pos s) k) as [Hsk|Hsk].
    + (* the result has the exponent of the clock *)
      rewrite <- Hsk in *.
      assert (Hq : q <= Z.pos mc - 1) by nia.
      destruct Hcases as [[He2 [Hm2 [Hval Hexact]]]|[He2 [Hm2 [Hq2 _]]]]; [|lia].
      assert (Hfin : (e2 <=? 971) = true) by (apply Z.leb_le; lia).
      rewrite Hfin. exists m2, e2. split; [reflexivity|]. right. split; [lia|].
      destruct Hval as [Hv|[Hv _]]; [lia|].
      destruct (Z.eq_dec q (Z.pos mc - 1)) as [Hlast|Hnot]; [|lia].
      assert (Hr0 : r = 0) by nia.
      specialize (Hexact Hr0). lia.
    + assert (Hlow : Z.pos s < k) by lia.
      destruct Hcases as [[He2 [Hm2 _]]|[He2 [Hm2 [Hq2 Hhalf]]]].
      * assert (Hfin : (e2 <=? 971) = true) by (apply Z.leb_le; lia).
        rewrite Hfin. exists m2, e2. split; [reflexivity|]. left. lia.
      * destruct (Z.eq_dec (Z.pos s + 1) k) as [Hnext|Hfar].
        -- assert (Hfin : (e2 <=? 971) = true) by (apply Z.leb_le; lia).
           rewrite Hfin. exists m2, e2. split; [reflexivity|]. right. split; [lia|].
           rewrite Hm2.
           destruct (Z.eq_dec (Z.pos mc) 4503599627370496) as [Hpow|Hmore]; [|lia].
           exfalso.
           assert (Hk2 : 2 ^ k = 2 * 2 ^ Z.pos s).
           { rewrite <- Hnext, Z.pow_add_r by lia. change (2 ^ 1) with 2. lia. }
           rewrite Hpow, Hk2 in HMv. rewrite Hk2 in Hge. nia.
        -- assert (Hfin : (e2 <=? 971) = true) by (apply Z.leb_le; lia).
           rewrite Hfin. exists m2, e2. split; [reflexivity|]. left. lia.
Qed.

(** ** Clocks within reach of the frame time *)

(** The binary exponent of a finite number other than zero, as [frexp]
    gives it: [e] with [2^(e-1) <= |x| < 2^e].  For zero, the infinities
    and NaN it is set to -1074, below the exponent of every such number. *)
Definition binade (x : float) : Z :=
  match Prim2SF x with
  | S754_finite _ m e => e + Z.pos (digits2_pos m)
  | _ => -1074
  end.

(** [start] is zero, or finite with a binary exponent at most 52 above that
    of [target]. *)
Definition within_reach (target start : float) : bool :=
  match Prim2SF start with
  | S754_zero _ => true
  | S754_finite _ m e => e + Z.pos (digits2_pos m) <=? binade target + 52
  | _ => false
  end.

(** A clock that is not negative and within reach. *)
Definition clock_ok (target c : float) : Prop :=
  (exists s, Prim2SF c = S754_zero s) \/
  exists m e, Prim2SF c = S754_finite false m e /\
              e + Z.pos (digits2_pos m) <= binade target + 52.

Lemma clock_ok_nonneg (target c : float) :
  clock_ok target c -> PrimFloat.leb 0%float c = true.
Proof.
  rewrite leb_spec. change (Prim2SF 0%float) with (S754_zero false).
  intros [[s ->]|[m [e [-> _]]]]; reflexivity.
Qed.

Lemma binary_round_aux_sign (m e : Z) (l : location) :
  match binary_round_aux prec emax false m e l with
  | S754_finite true _ _ => False
  | _ => True
  end.
Proof.
  unfold binary_round_aux.
  destruct (shr_fexp prec emax m e l) as [mrs' e'].
  destruct (shr_fexp prec emax _ e' loc_Exact) as [mrs'' e''].
  destruct (shr_m mrs''); [exact I | | exact I].
  destruct (e'' <=? emax - prec); exact I.
Qed.

(** The sum of two numbers that are not negative is no negative number. *)
Lemma SF64add_sign (x y : spec_float) :
  SFleb (S754_zero false) x = true -> SFleb (S754_zero false) y = true ->
  match SF64add x y with
  | S754_finite true _ _ => False
  | _ => True
  end.
Proof.
  destruct x as [sx|sx| |sx mx ex], y as [sy|sy| |sy my ey];
    try destruct sx; try destruct sy; cbn; intros Hx Hy;
    try discriminate; try exact I.
  unfold binary_round.
  destruct (shl_align _ _ _) as [mz ez]. apply binary_round_aux_sign.
Qed.

Lemma start_clock_ok (target c dt : float) :
  PrimFloat.leb 0%float c = true -> PrimFloat.leb 0%float dt = true ->
  within_reach target (c + dt)%float = true ->
  clock_ok target (c + dt)%float.
Proof.
  rewrite !leb_spec. change (Prim2SF 0%float) with (S754_zero false).
  intros Hc Hdt. pose proof (SF64add_sign _ _ Hc Hdt) as Hsign.
  rewrite <- add_spec in Hsign. unfold within_reach, clock_ok.
  destruct (Prim2SF (c + dt)%float) as [s|s| |s m e]; try discriminate.
  - intros _. left. exists s. reflexivity.
  - destruct s; [destruct Hsign|]. intros H. apply Z.leb_le in H.
    right. exists m, e. split; [reflexivity | exact H].
Qed.

Lemma digits2_pos_mono (a b : positive) :
  Z.pos a <= Z.pos b -> Z.pos (digits2_pos a) <= Z.pos (digits2_pos b).
Proof.
  intros H. pose proof (digits2_pos_low a) as Hl. pose proof (digits2_pos_bound b) as Hh.
  assert (Hlt : 2 ^ (Z.pos (digits2_pos a) - 1) < 2 ^ Z.pos (digits2_pos b)) by lia.
  apply Z.pow_lt_mono_r_iff in Hlt; lia.
Qed.

(** One pass of the loop on a clock within reach: the clock goes down to a
    clock within reach. *)
Lemma pass_lowers (target c : float) :
  PrimFloat.ltb 0%float target = true -> PrimFloat.leb target c = true ->
  clock_ok target c ->
  clock_ok target (c - target)%float /\
  PrimFloat.ltb (c - target)%float c = true /\
  (rank (c - target)%float < rank c)%nat.
Proof.
  rewrite ltb_spec, leb_spec. change (Prim2SF 0%float) with (S754_zero false).
  intros Ht Hge Hok. unfold clock_ok, rank, binade in *. rewrite ltb_spec.
  pose proof (Prim2SF_valid target) as Vt. pose proof (Prim2SF_valid c) as Vc.
  pose proof (Prim2SF_valid (c - target)%float) as Vz.
  rewrite sub_spec in *.
  destruct (Prim2SF target) as [st|[|]| |[|] mt et]; try discriminate.
  - destruct Hok as [[s Hc]|[m [e [Hc _]]]]; rewrite Hc in Hge; discriminate.
  - destruct Hok as [[s Hc]|[mc [ec [Hc Hreach]]]]; rewrite Hc in *; [discriminate|].
    destruct (@SF64sub_lowers mc mt ec et Vc Vt Hge ltac:(lia)) as [Hz|[mz [ez [Hz Hlex]]]];
      rewrite Hz in *.
    + split; [left; exists false; reflexivity|]. split; [reflexivity|].
      cbn [sf_rank]. destruct (@valid_finite_bounds _ _ _ Vc). lia.
    + assert (Htop : ez + Z.pos (digits2_pos mz) <= ec + Z.pos (digits2_pos mc)).
      { destruct (@valid_canonical _ _ _ Vc) as [Hcc _].
        destruct (@valid_canonical _ _ _ Vz) as [Hcz _].
        pose proof (digits2_pos_bound mz). pose proof (digits2_pos_low mz).
        destruct Hlex as [Hlt|[-> Hm]].
        - assert (Z.pos (digits2_pos mz) <= 53).
          { destruct (@valid_finite_bounds _ _ _ Vz) as [_ Hb].
            assert (Hlt2 : 2 ^ (Z.pos (digits2_pos mz) - 1) < 2 ^ 53) by lia.
            apply Z.pow_lt_mono_r_iff in Hlt2; lia. }
          lia.
        - pose proof (@digits2_pos_mono mz mc ltac:(lia)). lia. }
      split; [right; exists mz, ez; split; [reflexivity | lia]|].
      split; [apply SFltb_finite; exact Hlex|].
      apply sf_rank_lt; [exact Vz | exact Vc | apply SFltb_finite; exact Hlex].
Qed.

(** Leaving the loop: a clock that is not negative and not at or above the
    frame time is below it. *)
Lemma below_target (target c : float) :
  PrimFloat.ltb 0%float target = true -> PrimFloat.leb target c = false ->
  clock_ok target c -> PrimFloat.ltb c target = true.
Proof.
  rewrite !ltb_spec, leb_spec. change (Prim2SF 0%float) with (S754_zero false).
  intros Ht Hge Hok. unfold clock_ok in Hok.
  destruct (Prim2SF target) as [st|[|]| |[|] mt et]; try discriminate;
    destruct Hok as [[s Hc]|[mc [ec [Hc _]]]]; rewrite Hc in *; try reflexivity.
  unfold SFleb, SFltb, SFcompare in *.
  destruct (Z.compare_spec et ec) as [->|Hlt|Hgt]; [|discriminate|].
  - rewrite Z.compare_refl. fold (Pos.compare mt mc) in Hge. fold (Pos.compare mc mt).
    destruct (Pos.compare_spec mt mc) as [Heq|Hlt|Hgt]; try discriminate.
    apply Pos.compare_lt_iff in Hgt. rewrite Hgt. reflexivity.
  - apply Z.compare_lt_iff in Hgt. rewrite Hgt. reflexivity.
Qed.

(** From a clock within reach the loop ends: the clocks it passes through
    go down, and there are finitely many binary64 numbers below one. *)
Lemma reach_loop_ends (n : Z) (k : nat) :
  forall obj : AnimatedLandObject float,
    PrimFloat.ltb 0%float (targetFrameTime obj) = true ->
    clock_ok (targetFrameTime obj) (currentFrameTime obj) ->
    (rank (currentFrameTime obj) < k)%nat ->
    exists (fuel : nat) (obj' : AnimatedLandObject float),
      frame_loop fuel n obj = Some obj' /\
      targetFrameTime obj' = targetFrameTime obj /\
      PrimFloat.leb 0%float (currentFrameTime obj') = true /\
      PrimFloat.ltb (currentFrameTime obj') (targetFrameTime obj') = true.
Proof.
  induction k as [|k IH]; intros obj Ht Hok Hrank; [lia|].
  destruct (PrimFloat.leb (targetFrameTime obj) (currentFrameTime obj)) eqn:Hge.
  - destruct (pass_lowers Ht Hge Hok) as [Hok' [_ Hdown]].
    destruct (IH (advance_frame n obj)) as [fuel [obj' [Hrun [Htarget Hend]]]].
    + exact Ht.
    + exact Hok'.
    + cbn [advance_frame currentFrameTime clock_sub binary64_clock]. lia.
    + exists (S fuel), obj'. cbn [frame_loop clock_geb binary64_clock].
      rewrite Hge. split; [exact Hrun|]. split; [exact Htarget | exact Hend].
  - exists O, obj. cbn [frame_loop clock_geb binary64_clock]. rewrite Hge.
    split; [reflexivity|]. split; [reflexivity|].
    split; [exact (clock_ok_nonneg Hok) | exact (below_target Ht Hge Hok)].
Qed.

(** C10, as the code has it. For every [dt >= 0] and every object whose
    frame time is positive and whose clock is not negative (the constructor
    sets it to 0, and every such update leaves it so), with the sum
    [currentFrameTime + dt] finite and its binary exponent at most 52
    above that of the frame time, [update(dt)] returns after finitely many
    passes of its loop, under every iteration bound from some bound on; it
    leaves the frame time as it was and a clock that is not negative, and
    with at least one frame a clock in [[0, targetFrameTime)]. *)
Theorem C10_update_terminates (dt : float) (n : Z) (obj : AnimatedLandObject float) :
  PrimFloat.ltb 0%float (targetFrameTime obj) = true ->
  PrimFloat.leb 0%float (currentFrameTime obj) = true ->
  PrimFloat.leb 0%float dt = true ->
  within_reach (targetFrameTime obj) (currentFrameTime obj + dt)%float = true ->
  exists (fuel : nat) (obj' : AnimatedLandObject float),
    (forall extra : nat, update (fuel + extra) dt n obj = Some obj') /\
    targetFrameTime obj' = targetFrameTime obj /\
    PrimFloat.leb 0%float (currentFrameTime obj') = true /\
    (0 < n ->
     PrimFloat.ltb (currentFrameTime obj') (targetFrameTime obj') = true).
Proof.
  intros Ht Hc Hdt Hreach. unfold update.
  destruct (Z.ltb_spec 0 n) as [Hn|Hn].
  - assert (Hok : clock_ok (targetFrameTime (accumulate dt obj))
                     (currentFrameTime (accumulate dt obj)))
      by exact (@start_clock_ok _ _ _ Hc Hdt Hreach).
    destruct (@reach_loop_ends n (S (rank (currentFrameTime (accumulate dt obj))))
                (accumulate dt obj) Ht Hok (Nat.lt_succ_diag_r _))
      as [fuel [obj' [Hrun [Htarget [Hlow Hhigh]]]]].
    exists fuel, obj'.
    split; [|split; [exact Htarget | split; [exact Hlow | intros _; exact Hhigh]]].
    intros extra. apply frame_loop_more_fuel. exact Hrun.
  - exists O, obj. split; [reflexivity|]. split; [reflexivity|].
    split; [exact Hc | intros; lia].
Qed.

Lemma C10_witness :
  exists (fuel : nat) (obj' : AnimatedLandObject float),
    (forall extra : nat, update (fuel + extra) 2.5%float 3 three_frame_object = Some obj') /\
    targetFrameTime obj' = targetFrameTime three_frame_object /\
    PrimFloat.leb 0%float (currentFrameTime obj') = true /\
    (0 < 3 ->
     PrimFloat.ltb (currentFrameTime obj') (targetFrameTime obj') = true).
Proof.
  exact (@C10_update_terminates 2.5%float 3 three_frame_object
           eq_refl eq_refl eq_refl eq_refl).
Defined.

(** An object whose clock an [update(-1.0)] has left at -1.0. *)
Definition late_object : AnimatedLandObject float :=
  {| setEntryIndex := 0; anim_angleRadians := 0%float; targetFrameTime := 1%float;
     currentFrameTime := (-1)%float; index := 0 |}.

(** A negative [dt] leaves a negative clock, and a clock that is negative
    stays so under [update(0.0)]: the clock has to start at 0 or above. *)
Lemma negative_clock_stays :
  update O (-1)%float 1 unit_frame_object = Some late_object /\
  (forall fuel, update fuel 0%float 1 late_object = Some late_object) /\
  PrimFloat.leb 0%float (currentFrameTime late_object) = false.
Proof.
  split; [vm_compute; reflexivity|]. split; [|vm_compute; reflexivity].
  intros [|fuel]; vm_compute; reflexivity.
Qed.

(** [2^53 + 4] seconds: a binary exponent 53 above that of 1.0. *)
Definition far_dt : float := 0x1.0000000000002p+53%float.

Lemma far_dt_loops (fuel : nat) :
  frame_loop fuel 1 (accumulate far_dt unit_frame_object) = None.
Proof.
  induction fuel as [|fuel IH]; [reflexivity|].
  cbn [frame_loop].
  replace (clock_geb (currentFrameTime (accumulate far_dt unit_frame_object))
                     (targetFrameTime (accumulate far_dt unit_frame_object))) with true
    by (vm_compute; reflexivity).
  replace (advance_frame 1 (accumulate far_dt unit_frame_object))
    with (accumulate far_dt unit_frame_object) by (vm_compute; reflexivity).
  exact IH.
Qed.

(** The reach cannot be widened by one binary place: a clock of
    [2^53 + 4], 53 places above a frame time of 1.0, absorbs the
    subtraction, and [update] does not return.  The greatest number below
    [2^52] is within reach of 1.0, and [2^54] is not. *)
Lemma reach_is_sharp :
  binade far_dt = binade 1%float + 53 /\
  within_reach 1%float far_dt = false /\
  (far_dt - 1 = far_dt)%float /\
  (forall fuel, update fuel far_dt 1 unit_frame_object = None) /\
  within_reach 1%float 0x1.fffffffffffffp+51%float = true /\
  within_reach 1%float huge_dt = false.
Proof.
  repeat split; try (vm_compute; reflexivity).
  intros fuel. unfold update. simpl (0 <? 1). cbv iota. apply far_dt_loops.
Qed.

(** * Further properties of the aggregate *)

(** ** The accessors of the aggregate *)

(** [getLandObjectCount] and its siblings. *)
Definition getLandObjectCount (s : DistantSky) : Z := Z.of_nat (List.length (landObjects s)).
Definition getAnimatedLandObjectCount (s : DistantSky) : Z :=
  Z.of_nat (List.length (animLandObjects s)).
Definition getAirObjectCount (s : DistantSky) : Z := Z.of_nat (List.length (airObjects s)).
Definition getMoonObjectCount (s : DistantSky) : Z := Z.of_nat (List.length (moonObjects s)).
Definition getStarObjectCount (s : DistantSky) : Z := Z.of_nat (List.length (starObjects s)).

Definition hasSun (s : DistantSky) : bool :=
  match sunEntryIndex s with Some _ => true | None => false end.

(** [getLandObject] and its siblings: [DebugAssertIndex], then the element. *)
Definition getLandObject (s : DistantSky) (i : Z) : outcome LandObject :=
  checked_nth (landObjects s) i.
Definition getAnimatedLandObject (s : DistantSky) (i : Z)
  : outcome (AnimatedLandObject float) :=
  checked_nth (animLandObjects s) i.
Definition getAirObject (s : DistantSky) (i : Z) : outcome AirObject :=
  checked_nth (airObjects s) i.
Definition getMoonObject (s : DistantSky) (i : Z) : outcome MoonObject :=
  checked_nth (moonObjects s) i.
Definition getStarObject (s : DistantSky) (i : Z) : outcome StarObject :=
  checked_nth (starObjects s) i.

(** [getSunEntryIndex]: [DebugAssert(has_value())], then the value. *)
Definition getSunEntryIndex (s : DistantSky) : outcome Z :=
  match sunEntryIndex s with Some i => Done i | None => Abort AssertionFailed end.

(** [getTexture]: the view of the image of an entry. *)
Definition getTexture (s : DistantSky) (i : Z) : outcome Buffer2D :=
  match checked_nth (textures s) i with
  | Done entry => Done (texture entry)
  | Abort f => Abort f
  | Starved => Starved
  end.

(** Modelled from the spec: [getTextureSetElement] guards the set with
    [DebugAssertIndex] and reads the element with [Buffer::get]
    ([components/utilities/Buffer.h], not among the translated sources);
    section 4.6 has every accessor fail on an index outside its range. *)
Definition getTextureSetElement (s : DistantSky) (i elementIndex : Z) : outcome Buffer2D :=
  match checked_nth (textureSets s) i with
  | Done entry => checked_nth (set_textures entry) elementIndex
  | Abort f => Abort f
  | Starved => Starved
  end.

(** [StarObject::getSmallStar] and [getLargeStar]: the payload of the
    union, behind a [DebugAssert] on the tag. *)
Definition getSmallStar (o : StarObject) : outcome Z :=
  match o with SmallStar color _ => Done color | LargeStar _ _ => Abort AssertionFailed end.

Definition getLargeStar (o : StarObject) : outcome Z :=
  match o with LargeStar i _ => Done i | SmallStar _ _ => Abort AssertionFailed end.

(** [AnimatedLandObject::setIndex]. *)
Definition setIndex (i : Z) (a : AnimatedLandObject float) : AnimatedLandObject float :=
  {| setEntryIndex := setEntryIndex a; anim_angleRadians := anim_angleRadians a;
     targetFrameTime := targetFrameTime a; currentFrameTime := currentFrameTime a;
     index := i |}.

(** ** Indices that address the stores *)

Definition in_textures (s : DistantSky) (i : Z) : Prop :=
  0 <= i < Z.of_nat (List.length (textures s)).

Definition in_textureSets (s : DistantSky) (i : Z) : Prop :=
  0 <= i < Z.of_nat (List.length (textureSets s)).

(** A cloud height: [yPos / 64] for a [yPos] from 0 to 63. *)
Definition unit_height (h : float) : Prop :=
  exists yPos : Z, 0 <= yPos < 64 /\ h = (Cpp.to_double yPos / Cpp.to_double 64)%float.

Definition star_ref (s : DistantSky) (o : StarObject) : Prop :=
  match o with
  | SmallStar _ _ => True
  | LargeStar i _ => in_textures s i
  end.

(** The number of frames of the texture set an animated object refers to
    (0 when there is no such set). *)
Definition frames_of (s : DistantSky) (a : AnimatedLandObject float) : Z :=
  match nth_error (textureSets s) (Z.to_nat (setEntryIndex a)) with
  | Some entry => Z.of_nat (List.length (set_textures entry))
  | None => 0
  end.

(** An animated object refers to a texture set, has a positive frame time,
    and shows the first frame or a frame that its set has. *)
Record anim_sound (s : DistantSky) (a : AnimatedLandObject float) : Prop := {
  as_set : in_textureSets s (setEntryIndex a);
  as_time : clock_positive (targetFrameTime a) = true;
  as_frame : 0 <= index a < Z.max 1 (frames_of s a)
}.

(** Every index that an object or the sun holds addresses an entry of its
    store, every cloud has a height of the grid, and the animated objects
    are sound. *)
Record refs_ok (s : DistantSky) : Prop := {
  ro_land : Forall (fun o => in_textures s (land_entryIndex o)) (landObjects s);
  ro_anim : Forall (anim_sound s) (animLandObjects s);
  ro_air : Forall (fun o => in_textures s (air_entryIndex o) /\
                            unit_height (air_height o)) (airObjects s);
  ro_moon : Forall (fun o => in_textures s (moon_entryIndex o)) (moonObjects s);
  ro_star : Forall (star_ref s) (starObjects s);
  ro_sun : forall i, sunEntryIndex s = Some i -> in_textures s i
}.

(** Every collection of [s'] starts with that of [s], and a sun entry is
    not taken away. *)
Record grows (s s' : DistantSky) : Prop := {
  gr_land : exists l, landObjects s' = landObjects s ++ l;
  gr_anim : exists l, animLandObjects s' = animLandObjects s ++ l;
  gr_air : exists l, airObjects s' = airObjects s ++ l;
  gr_moon : exists l, moonObjects s' = moonObjects s ++ l;
  gr_star : exists l, starObjects s' = starObjects s ++ l;
  gr_textures : exists l, textures s' = textures s ++ l;
  gr_textureSets : exists l, textureSets s' = textureSets s ++ l;
  gr_sun : sunEntryIndex s' = sunEntryIndex s \/ exists i, sunEntryIndex s' = Some i
}.

Lemma prefix_refl {A : Type} (l : list A) : exists added, l = l ++ added.
Proof. exists []. symmetry. apply app_nil_r. Qed.

Lemma prefix_trans {A : Type} (l1 l2 l3 : list A) :
  (exists a, l2 = l1 ++ a) -> (exists b, l3 = l2 ++ b) -> exists c, l3 = l1 ++ c.
Proof. intros [a ->] [b ->]. exists (a ++ b). symmetry. apply app_assoc. Qed.

Lemma grows_refl (s : DistantSky) : grows s s.
Proof. split; try apply prefix_refl. left. reflexivity. Qed.

Lemma grows_trans (s1 s2 s3 : DistantSky) : grows s1 s2 -> grows s2 s3 -> grows s1 s3.
Proof.
  intros [Hl Hn Ha Hm Hs Ht Hts Hsun] [Hl' Hn' Ha' Hm' Hs' Ht' Hts' Hsun'].
  split; try (eapply prefix_trans; eassumption).
  destruct Hsun' as [->|Hset]; [exact Hsun | right; exact Hset].
Qed.

(** An animated object stays sound when the sets grow at their end. *)
Lemma anim_sound_grow (s s' : DistantSky) (a : AnimatedLandObject float) :
  (exists l, textureSets s' = textureSets s ++ l) -> anim_sound s a -> anim_sound s' a.
Proof.
  intros [l El] [Hset Htime Hframe]. unfold in_textureSets in Hset.
  assert (Hsame : frames_of s' a = frames_of s a).
  { unfold frames_of. rewrite El, nth_error_app1 by lia. reflexivity. }
  split; [|exact Htime|rewrite Hsame; exact Hframe].
  unfold in_textureSets. rewrite El, length_app. lia.
Qed.

(** Objects appended with indices in range, and stores that grow, keep
    the indices in range. *)
Lemma refs_ok_push (s s' : DistantSky) :
  refs_ok s ->
  (exists l, textures s' = textures s ++ l) ->
  (exists l, textureSets s' = textureSets s ++ l) ->
  (exists l, landObjects s' = landObjects s ++ l /\
             Forall (fun o => in_textures s' (land_entryIndex o)) l) ->
  (exists l, animLandObjects s' = animLandObjects s ++ l /\
             Forall (anim_sound s') l) ->
  (exists l, airObjects s' = airObjects s ++ l /\
             Forall (fun o => in_textures s' (air_entryIndex o) /\
                              unit_height (air_height o)) l) ->
  (exists l, moonObjects s' = moonObjects s ++ l /\
             Forall (fun o => in_textures s' (moon_entryIndex o)) l) ->
  (exists l, starObjects s' = starObjects s ++ l /\ Forall (star_ref s') l) ->
  (sunEntryIndex s' = sunEntryIndex s \/
   exists i, sunEntryIndex s' = Some i /\ in_textures s' i) ->
  refs_ok s'.
Proof.
  intros [Hl Hn Ha Hm Hs Hsun] [t Et] [ts Ets] [l [El Fl]] [n [En Fn]] [a [Ea Fa]]
         [m [Em Fm]] [st [Es Fs]] Esun.
  assert (Hin : forall i, in_textures s i -> in_textures s' i)
    by (unfold in_textures; rewrite Et, length_app; lia).
  split.
  - rewrite El. apply Forall_app. split; [|exact Fl]. revert Hl.
    apply Forall_impl. intros o. apply Hin.
  - rewrite En. apply Forall_app. split; [|exact Fn]. revert Hn.
    apply Forall_impl. intros o. apply anim_sound_grow. exists ts. exact Ets.
  - rewrite Ea. apply Forall_app. split; [|exact Fa]. revert Ha.
    apply Forall_impl. intros o [Hi Hh]. split; auto.
  - rewrite Em. apply Forall_app. split; [|exact Fm]. revert Hm.
    apply Forall_impl. intros o. apply Hin.
  - rewrite Es. apply Forall_app. split; [|exact Fs]. revert Hs.
    apply Forall_impl. intros [c d|i d]; cbn; auto.
  - intros i Hi. destruct Esun as [E|[j [E Hj]]].
    + apply Hin. apply Hsun. congruence.
    + congruence.
Qed.

Ltac same_list := exists []; split; [symmetry; apply app_nil_r | constructor].
Ltac one_more := eexists; split; [reflexivity | constructor; [|constructor]].
Ltac grows_close :=
  split; sky_simpl;
  first [ apply prefix_refl | eexists; reflexivity | left; reflexivity
        | right; eexists; reflexivity ].

(** A step that keeps the indices in range and only appends. *)
Definition ref_step (s s' : DistantSky) : Prop := refs_ok s' /\ grows s s'.

Lemma ref_step_refl (s : DistantSky) : refs_ok s -> ref_step s s.
Proof. intros H. split; [exact H | apply grows_refl]. Qed.

Lemma ref_step_trans (s1 s2 s3 : DistantSky) :
  ref_step s1 s2 -> ref_step s2 s3 -> ref_step s1 s3.
Proof. intros [_ H1] [Hok H2]. split; [exact Hok | exact (grows_trans H1 H2)]. Qed.

Section Refs.
Variable R : ArenaRandom.
Variable Sorter : StdSort.
Variable P : Platform.

Lemma fixEntryIndexIfMissing_refs (tm : TextureManager) (name : string) (w : World R) :
refs_ok (sky w) ->
wp (fixEntryIndexIfMissing tm name (getTextureEntryIndex (sky w) name))
   (fun i w' => ref_step (sky w) (sky w') /\ in_textures (sky w') i) w.
Proof.
intros Hok. unfold fixEntryIndexIfMissing, getTextureEntryIndex.
destruct (find_index name (map filename (textures (sky w)))) as [i|] eqn:Hfind.
- wp_steps. sky_simpl. split; [apply ref_step_refl; exact Hok|].
  pose proof (find_index_bound _ _ Hfind) as Hb. rewrite length_map in Hb. exact Hb.
- wp_steps. sky_simpl. split; [split|].
  + eapply refs_ok_push; [exact Hok | | | | | | | |]; sky_simpl;
      try same_list; [eexists; reflexivity | apply prefix_refl | left; reflexivity].
  + grows_close.
  + unfold in_textures. sky_simpl. rewrite length_app. cbn. lia.
Qed.

Lemma placeStaticObject_refs (tm : TextureManager) (baseFilename : string)
  (pos var maxDigits : Z) (airborne : bool) (w : World R) :
refs_ok (sky w) ->
wp (placeStaticObject tm baseFilename pos var maxDigits airborne)
   (fun _ w' => ref_step (sky w) (sky w')) w.
Proof.
intros Hok. unfold placeStaticObject. wp_steps.
destruct airborne; cbn [negb]; wp_steps.
- match goal with
  | |- wp (fixEntryIndexIfMissing _ ?nm _) _ ?w1 =>
      eapply wp_mono; [apply (@fixEntryIndexIfMissing_refs tm nm w1); exact Hok|]
  end.
  intros i w' [Hstep Hi]. wp_steps. sky_simpl.
  eapply ref_step_trans; [exact Hstep|]. split; [|grows_close].
  eapply refs_ok_push; [exact (proj1 Hstep) | | | | | | | |]; sky_simpl;
    try apply prefix_refl; try same_list; [|left; reflexivity].
  one_more. split; [exact Hi|]. eexists. split; [|reflexivity].
  apply rem_draw_range; [apply rng_next_range | reflexivity].
- match goal with
  | |- wp (fixEntryIndexIfMissing _ ?nm _) _ ?w1 =>
      eapply wp_mono; [apply (@fixEntryIndexIfMissing_refs tm nm w1); exact Hok|]
  end.
  intros i w' [Hstep Hi]. wp_steps. sky_simpl.
  eapply ref_step_trans; [exact Hstep|]. split; [|grows_close].
  eapply refs_ok_push; [exact (proj1 Hstep) | | | | | | | |]; sky_simpl;
    try apply prefix_refl; try same_list; [|left; reflexivity].
  one_more. exact Hi.
Qed.

Lemma placeStaticObjects_refs (tm : TextureManager) (count : Z) (baseFilename : string)
  (pos var maxDigits : Z) (airborne : bool) (w : World R) :
refs_ok (sky w) ->
wp (placeStaticObjects tm count baseFilename pos var maxDigits airborne)
   (fun _ w' => ref_step (sky w) (sky w')) w.
Proof.
intros Hok. unfold placeStaticObjects.
apply (wp_repeat (fun _ w' => ref_step (sky w) (sky w'))).
- intros i w' _ Hstep.
  eapply wp_mono; [apply placeStaticObject_refs; exact (proj1 Hstep)|].
  intros [] w'' Hone. exact (ref_step_trans Hstep Hone).
- apply ref_step_refl. exact Hok.
Qed.

Lemma addClouds_refs (tm : TextureManager) (weatherType : WeatherType)
  (currentDay : Z) (exeData : ExeData) (w : World R) :
refs_ok (sky w) ->
wp (addClouds tm weatherType currentDay exeData)
   (fun _ w' => ref_step (sky w) (sky w')) w.
Proof.
intros Hok. unfold addClouds.
destruct (WeatherType_eqb weatherType Clear).
- wp_steps.
  match goal with
  | |- wp _ _ ?w1 =>
      eapply wp_mono; [apply (@placeStaticObjects_refs _ _ _ _ _ _ _ w1); exact Hok|]
  end.
  intros [] w' Hstep. exact Hstep.
- wp_steps. apply ref_step_refl. exact Hok.
Qed.

Lemma addAnimatedLand_refs (tm : TextureManager) (cityDef : CityDefinition)
  (exeData : ExeData) (w : World R) :
refs_ok (sky w) ->
wp (addAnimatedLand P tm cityDef exeData)
   (fun _ w' => ref_step (sky w) (sky w')) w.
Proof.
intros Hok. unfold addAnimatedLand. wp_steps.
unfold getTextureSetEntryIndex.
match goal with
| |- context [find_index ?nm (map set_filename (textureSets (sky w)))] =>
    destruct (find_index nm (map set_filename (textureSets (sky w)))) as [i|] eqn:Hfind
end.
- wp_steps. unfold makeAnimatedLandObject.
  destruct (clock_positive (DEFAULT_FRAME_TIME P)) eqn:Hpos; [|exact I].
  wp_steps. sky_simpl. split; [|grows_close].
  eapply refs_ok_push; [exact Hok | | | | | | | |]; sky_simpl;
    try apply prefix_refl; try same_list; [|left; reflexivity].
  one_more. split; cbn [setEntryIndex targetFrameTime index]; [|exact Hpos|lia].
  unfold in_textureSets. sky_simpl.
  apply find_index_bound in Hfind. rewrite length_map in Hfind. exact Hfind.
- match goal with
  | |- wp (if ?b then _ else _) _ _ => destruct b
  end; wp_steps; unfold makeAnimatedLandObject;
    (destruct (clock_positive (DEFAULT_FRAME_TIME P)) eqn:Hpos; [|exact I]);
    wp_steps; sky_simpl; (split; [|grows_close]);
    (eapply refs_ok_push; [exact Hok | | | | | | | |]; sky_simpl;
     try apply prefix_refl; try same_list;
     [eexists; reflexivity | | left; reflexivity]);
    one_more; (split; cbn [setEntryIndex targetFrameTime index]; [|exact Hpos|lia]);
    unfold in_textureSets; sky_simpl; rewrite length_app; cbn; lia.
Qed.

Lemma makeMoon_refs (tm : TextureManager) (currentDay : Z) (exeData : ExeData)
  (type : MoonType) (w : World R) :
refs_ok (sky w) ->
wp (makeMoon tm currentDay exeData type)
   (fun m w' => ref_step (sky w) (sky w') /\ in_textures (sky w') (moon_entryIndex m)) w.
Proof.
intros Hok. unfold makeMoon. wp_steps.
unfold getTextureEntryIndex.
match goal with
| |- context [find_index ?nm (map filename (textures (sky w)))] =>
    destruct (find_index nm (map filename (textures (sky w)))) as [i|] eqn:Hfind
end; wp_steps; sky_simpl.
- split; [apply ref_step_refl; exact Hok|]. cbn [moon_entryIndex].
  apply find_index_bound in Hfind. rewrite length_map in Hfind. exact Hfind.
- split; [split|].
  + eapply refs_ok_push; [exact Hok | | | | | | | |]; sky_simpl;
      try same_list; [eexists; reflexivity | apply prefix_refl | left; reflexivity].
  + grows_close.
  + cbn [moon_entryIndex]. unfold in_textures. sky_simpl. rewrite length_app. cbn. lia.
Qed.

Lemma convertStar_refs (tm : TextureManager) (palette : list Z) (exeData : ExeData)
  (star : Star) (w : World R) :
refs_ok (sky w) ->
wp (convertStar P tm palette exeData star) (fun _ w' => ref_step (sky w) (sky w')) w.
Proof.
intros Hok. unfold convertStar.
destruct (star_type star =? -1).
- pose proof (@wp_for_each R SubStar (fun _ w' => ref_step (sky w) (sky w'))) as Hloop.
  eapply wp_mono; [apply (Hloop _ (subList star) [])|].
  + intros pre sub w' _ Hstep. do 2 wp_step. wp_steps. sky_simpl.
    eapply ref_step_trans; [exact Hstep|]. split; [|grows_close].
    eapply refs_ok_push; [exact (proj1 Hstep) | | | | | | | |]; sky_simpl;
      try apply prefix_refl; try same_list; [|left; reflexivity].
    one_more. exact I.
  + apply ref_step_refl. exact Hok.
  + intros [] w' H. exact H.
- wp_steps.
  match goal with
  | |- wp (match ?o with _ => _ end) _ _ => destruct o as [name|]; [|exact I]
  end.
  wp_steps.
  eapply wp_mono; [apply fixEntryIndexIfMissing_refs; exact Hok|].
  intros i w' [Hstep Hi]. wp_steps. sky_simpl.
  eapply ref_step_trans; [exact Hstep|]. split; [|grows_close].
  eapply refs_ok_push; [exact (proj1 Hstep) | | | | | | | |]; sky_simpl;
    try apply prefix_refl; try same_list; [|left; reflexivity].
  one_more. exact Hi.
Qed.

Lemma addSpaceObjects_refs (assets : Assets) (currentDay starCount : Z)
  (exeData : ExeData) (fuel : nat) (w : World R) :
refs_ok (sky w) ->
wp (addSpaceObjects Sorter P assets currentDay starCount exeData fuel)
   (fun _ w' => ref_step (sky w) (sky w') /\ exists i, sunEntryIndex (sky w') = Some i) w.
Proof.
intros Hok. unfold addSpaceObjects. wp_steps.
eapply wp_mono; [apply makeMoon_refs; exact Hok|].
intros m1 w1 [Hstep1 Hm1]. wp_steps.
match goal with
| |- wp (makeMoon _ _ _ _) _ ?w1' =>
    assert (Hstep1' : ref_step (sky w) (sky w1'))
end.
{ sky_simpl. eapply ref_step_trans; [exact Hstep1|]. split; [|grows_close].
  eapply refs_ok_push; [exact (proj1 Hstep1) | | | | | | | |]; sky_simpl;
    try apply prefix_refl; try same_list; [|left; reflexivity].
  one_more. exact Hm1. }
eapply wp_mono; [apply makeMoon_refs; exact (proj1 Hstep1')|].
intros m2 w2 [Hstep2 Hm2]. sky_simpl. wp_steps.
eapply wp_mono; [apply generateStars_effect; exact stars_good_start|].
intros stars w3 [[Hs3 Hg3] _]. sky_simpl. wp_steps.
destruct (colFile assets) as [palette|]; [|exact I]. wp_steps.
match goal with
| |- wp (for_each _ _) _ ?w4 =>
    assert (Hstep4 : ref_step (sky w) (sky w4))
end.
{ sky_simpl. rewrite Hs3. sky_simpl.
  eapply ref_step_trans; [exact Hstep1'|].
  eapply ref_step_trans; [exact Hstep2|]. split; [|grows_close].
  eapply refs_ok_push; [exact (proj1 Hstep2) | | | | | | | |]; sky_simpl;
    try apply prefix_refl; try same_list; [|left; reflexivity].
  one_more. exact Hm2. }
match goal with
| |- wp (for_each ?l ?body) _ ?w4 =>
    pose proof (@wp_for_each R Star (fun _ w' => ref_step (sky w) (sky w')) body l [])
      as Hloop
end.
eapply wp_mono; [apply Hloop|].
- intros pre star w' _ Hstep.
  eapply wp_mono; [apply convertStar_refs; exact (proj1 Hstep)|].
  intros [] w'' Hone. exact (ref_step_trans Hstep Hone).
- exact Hstep4.
- intros [] w5 Hstep5. wp_steps.
  eapply wp_mono; [apply fixEntryIndexIfMissing_refs; exact (proj1 Hstep5)|].
  intros i w6 [Hstep6 Hi]. wp_steps. sky_simpl.
  split; [|eexists; reflexivity].
  eapply ref_step_trans; [exact Hstep5|].
  eapply ref_step_trans; [exact Hstep6|]. split; [|grows_close].
  eapply refs_ok_push; [exact (proj1 Hstep6) | | | | | | | |]; sky_simpl;
    try apply prefix_refl; try same_list.
  right. eexists. split; [reflexivity | exact Hi].
Qed.

Lemma init_body_refs (assets : Assets) (locationDef : LocationDefinition)
  (provinceDef : ProvinceDefinition) (weatherType : WeatherType)
  (currentDay starCount : Z) (exeData : ExeData) (fuel : nat) (w : World R) :
refs_ok (sky w) ->
wp (init_body Sorter P assets locationDef provinceDef weatherType
      currentDay starCount exeData fuel)
   (fun _ w' => ref_step (sky w) (sky w') /\
                (weatherType = Clear -> exists i, sunEntryIndex (sky w') = Some i)) w.
Proof.
intros Hok. unfold init_body.
destruct locationDef as [cityDef| |]; try exact I.
wp_step.
match goal with
| |- wp (match ?o with _ => _ end) _ _ => destruct o as [traits|]; [|exact I]
end.
wp_steps.
match goal with
| |- wp (placeStaticObjects _ _ _ _ _ _ _) _ ?w1 =>
    eapply wp_mono;
      [apply (@placeStaticObjects_refs _ _ _ _ _ _ _ w1); exact Hok|]
end.
intros [] w1 Hstep1. sky_simpl. wp_step.
eapply wp_mono; [apply addClouds_refs; exact (proj1 Hstep1)|].
intros [] w2 Hstep2. wp_step.
assert (Hanim : wp (if hasAnimatedDistantLand provinceDef
                    then addAnimatedLand P (textureManager assets) cityDef exeData
                    else ret tt)
                   (fun _ w3 => ref_step (sky w2) (sky w3)) w2).
{ destruct (hasAnimatedDistantLand provinceDef).
  - apply addAnimatedLand_refs. exact (proj1 Hstep2).
  - wp_steps. apply ref_step_refl. exact (proj1 Hstep2). }
eapply wp_mono; [exact Hanim|]. clear Hanim.
intros [] w3 Hstep3. cbv beta.
pose proof (ref_step_trans Hstep1 (ref_step_trans Hstep2 Hstep3)) as Hstep.
destruct weatherType; cbn [WeatherType_eqb].
- eapply wp_mono; [apply addSpaceObjects_refs; exact (proj1 Hstep3)|].
  intros [] w4 [Hstep4 Hsun]. split; [|intros _; exact Hsun].
  exact (ref_step_trans Hstep Hstep4).
- wp_steps. split; [exact Hstep | discriminate].
- wp_steps. split; [exact Hstep | discriminate].
- wp_steps. split; [exact Hstep | discriminate].
Qed.
End Refs.

Lemma empty_sky_refs : refs_ok empty_sky.
Proof.
  split; [constructor|constructor|constructor|constructor|constructor|].
  intros j Hj. discriminate Hj.
Qed.

Lemma init_refs (R : ArenaRandom) (Sorter : StdSort) (P : Platform) (assets : Assets)
    (locationDef : LocationDefinition) (provinceDef : ProvinceDefinition)
    (weatherType : WeatherType) (currentDay starCount : Z) (exeData : ExeData)
    (fuel : nat) (this sky' : DistantSky) (g' : Ghost) :
  refs_ok this ->
  init R Sorter P assets locationDef provinceDef weatherType currentDay starCount
    exeData fuel this = Done (sky', g') ->
  ref_step this sky' /\ (weatherType = Clear -> exists i, sunEntryIndex sky' = Some i).
Proof.
  intros Hok Hrun. unfold init in Hrun.
  match type of Hrun with
  | match ?m ?w0 with _ => _ end = _ =>
      pose proof (@init_body_refs R Sorter P assets locationDef provinceDef weatherType
                    currentDay starCount exeData fuel w0 Hok) as Hwp;
      unfold wp in Hwp; destruct (m w0) as [[[] w']| |]; try discriminate
  end.
  injection Hrun as <- <-. exact Hwp.
Qed.

(** [update] keeps an animated object sound. *)
Lemma update_in_sound (fuel : nat) (dt : float) (s : DistantSky)
    (a a' : AnimatedLandObject float) :
  update_in fuel dt s a = Done a' -> anim_sound s a -> anim_sound s a'.
Proof.
  unfold update_in, getTextureSetCount, checked_nth. intros H [Hset Htime Hframe].
  unfold in_textureSets in Hset. unfold frames_of in Hframe.
  destruct (Z.ltb_spec (setEntryIndex a) 0); [lia|].
  destruct (nth_error (textureSets s) (Z.to_nat (setEntryIndex a))) as [entry|] eqn:Hnth;
    [|discriminate].
  set (n := Z.of_nat (List.length (set_textures entry))) in *.
  unfold update in H. destruct (Z.ltb_spec 0 n) as [Hn|Hn].
  - destruct (frame_loop fuel n (accumulate dt a)) as [r|] eqn:Hloop; [|discriminate].
    injection H as <-.
    destruct (frame_loop_passes _ _ _ Hloop) as [k [_ [-> _]]].
    destruct (advance_frame_fixed n k (accumulate dt a)) as [Eset _].
    split.
    + unfold in_textureSets. rewrite Eset. exact Hset.
    + rewrite advance_frame_target. exact Htime.
    + unfold frames_of. rewrite Eset. cbn [accumulate setEntryIndex]. rewrite Hnth.
      fold n. rewrite advance_frame_index by (cbn [accumulate index]; lia).
      pose proof (Z.mod_pos_bound (index (accumulate dt a) + Z.of_nat k) n Hn). lia.
  - injection H as <-. split; [exact Hset | exact Htime |].
    unfold frames_of. rewrite Hnth. exact Hframe.
Qed.

Lemma update_all_sound (fuel : nat) (dt : float) (s : DistantSky) :
  forall anims anims',
    update_all fuel dt s anims = Done anims' ->
    Forall (anim_sound s) anims -> Forall (anim_sound s) anims'.
Proof.
  induction anims as [|a rest IH]; intros anims' H Hall; simpl in H.
  - injection H as <-. constructor.
  - inversion Hall as [|? ? Ha Hrest]; subst.
    destruct (update_in fuel dt s a) as [a'| |] eqn:Ha'; try discriminate.
    destruct (update_all fuel dt s rest) as [rest'| |]; try discriminate.
    injection H as <-. constructor; [eapply update_in_sound; eassumption | auto].
Qed.

Lemma tick_refs (fuel : nat) (dt : float) (s s' : DistantSky) :
  tick fuel dt s = Done s' -> refs_ok s -> refs_ok s'.
Proof.
  unfold tick. intros H [Hl Hn Ha Hm Hs Hsun].
  destruct (update_all fuel dt s (animLandObjects s)) as [anims| |] eqn:Hall;
    try discriminate.
  injection H as <-. split; cbn; try assumption.
  assert (Hsound : Forall (anim_sound s) anims)
    by (eapply update_all_sound; eassumption).
  revert Hsound. apply Forall_impl. intros a [Hset Htime Hframe].
  split; assumption.
Qed.

Lemma reachable_refs (R : ArenaRandom) (Sorter : StdSort) (P : Platform) (s : DistantSky) :
  reachable R Sorter P s -> refs_ok s.
Proof.
  induction 1 as [| assets loc prov weather day count exe fuel this sky' g _ IH Hrun
                  | fuel dt s s' _ IH Hrun].
  - exact empty_sky_refs.
  - exact (proj1 (proj1 (@init_refs _ _ _ _ _ _ _ _ _ _ _ _ _ _ IH Hrun))).
  - eapply tick_refs; eassumption.
Qed.

(** ** Lookups and accessors *)

(** [find_index] gives the first place of the name. *)
Lemma find_index_first (name : string) (names : list string) (i : Z) :
  find_index name names = Some i <->
  0 <= i /\ nth_error names (Z.to_nat i) = Some name /\
  forall j, (j < Z.to_nat i)%nat -> nth_error names j <> Some name.
Proof.
  revert i. induction names as [|n rest IH]; intros i; cbn [find_index].
  - split; [discriminate|]. intros [_ [H _]]. destruct (Z.to_nat i); discriminate.
  - destruct (String.eqb_spec n name) as [->|Hne].
    + split.
      * intros H. injection H as <-. split; [lia|]. split; [reflexivity|].
        intros j Hj. cbn in Hj. lia.
      * intros [Hi [Hnth Hfirst]]. f_equal.
        destruct (Z.to_nat i) as [|k] eqn:Hk; [lia|].
        exfalso. apply (Hfirst O); [lia | reflexivity].
    + destruct (find_index name rest) as [j|] eqn:Hfind.
      * split.
        -- intros H. injection H as <-.
           destruct (proj1 (IH j) eq_refl) as [Hj [Hnth Hfirst]].
           replace (Z.to_nat (j + 1)) with (S (Z.to_nat j)) by lia.
           split; [lia|]. split; [exact Hnth|].
           intros [|k] Hk; cbn [nth_error]; [congruence | apply Hfirst; lia].
        -- intros [Hi [Hnth Hfirst]].
           destruct (Z.to_nat i) as [|k] eqn:Hk; [cbn in Hnth; congruence|].
           cbn [nth_error] in Hnth.
           assert (Hrest : Some j = Some (Z.of_nat k)).
           { apply IH. rewrite Nat2Z.id. split; [lia|]. split; [exact Hnth|].
             intros m Hm. apply (Hfirst (S m)). lia. }
           injection Hrest as ->. f_equal. lia.
      * split; [discriminate|]. intros [Hi [Hnth Hfirst]].
        destruct (Z.to_nat i) as [|k] eqn:Hk; [cbn in Hnth; congruence|].
        cbn [nth_error] in Hnth. exfalso.
        apply (find_index_None _ _ Hfind). eapply nth_error_In. exact Hnth.
Qed.

Lemma find_index_absent (name : string) (names : list string) :
  find_index name names = None <-> ~ In name names.
Proof.
  split; [apply find_index_None|]. intros Hnot.
  destruct (find_index name names) as [i|] eqn:Hfind; [|reflexivity].
  exfalso. apply Hnot. destruct (find_index_Some _ _ Hfind) as [_ Hnth].
  eapply nth_error_In. exact Hnth.
Qed.

Lemma checked_nth_Done {A : Type} (l : list A) (i : Z) (a : A) :
  checked_nth l i = Done a <-> 0 <= i /\ nth_error l (Z.to_nat i) = Some a.
Proof.
  unfold checked_nth. destruct (Z.ltb_spec i 0).
  - split; [discriminate | lia].
  - destruct (nth_error l (Z.to_nat i)) as [b|].
    + split; [intros H'; injection H' as ->; auto | intros [_ H']; congruence].
    + split; [discriminate | intros [_ H']; discriminate].
Qed.

(** [DebugAssertIndex] passes exactly on the indices from 0 to the size. *)
Lemma checked_nth_range {A : Type} (l : list A) (i : Z) :
  (0 <= i < Z.of_nat (List.length l) -> exists a, checked_nth l i = Done a) /\
  (~ 0 <= i < Z.of_nat (List.length l) -> checked_nth l i = Abort AssertionFailed).
Proof.
  unfold checked_nth. split; intros Hi.
  - destruct (Z.ltb_spec i 0); [lia|].
    destruct (nth_error l (Z.to_nat i)) as [a|] eqn:Hnth; [eauto|].
    apply nth_error_None in Hnth. lia.
  - destruct (Z.ltb_spec i 0); [reflexivity|].
    destruct (nth_error l (Z.to_nat i)) as [a|] eqn:Hnth; [|reflexivity].
    exfalso. apply Hi. split; [lia|].
    assert (Z.to_nat i < List.length l)%nat by (apply nth_error_Some; congruence). lia.
Qed.

(** X1. A lookup by file name answers with the first entry of the store
    that has the name, and that entry is the one [getTexture] then reads;
    it answers with nothing exactly when no entry has the name. The same
    holds of the texture sets. *)
Theorem X1_lookup_first_match (s : DistantSky) (name : string) :
  (forall i,
     getTextureEntryIndex s name = Some i <->
     0 <= i /\
     (exists e, nth_error (textures s) (Z.to_nat i) = Some e /\ filename e = name /\
                getTexture s i = Done (texture e)) /\
     (forall j e, (j < Z.to_nat i)%nat -> nth_error (textures s) j = Some e ->
                  filename e <> name)) /\
  (getTextureEntryIndex s name = None <->
   forall e, In e (textures s) -> filename e <> name) /\
  (forall i,
     getTextureSetEntryIndex s name = Some i <->
     0 <= i /\
     (exists e, nth_error (textureSets s) (Z.to_nat i) = Some e /\
                set_filename e = name /\
                getTextureSetCount s i = Done (Z.of_nat (List.length (set_textures e)))) /\
     (forall j e, (j < Z.to_nat i)%nat -> nth_error (textureSets s) j = Some e ->
                  set_filename e <> name)) /\
  (getTextureSetEntryIndex s name = None <->
   forall e, In e (textureSets s) -> set_filename e <> name).
Proof.
  unfold getTextureEntryIndex, getTextureSetEntryIndex, getTexture, getTextureSetCount.
  split; [|split; [|split]].
  - intros i. rewrite find_index_first. split.
    + intros [Hi [Hnth Hfirst]]. split; [exact Hi|].
      rewrite nth_error_map in Hnth.
      destruct (nth_error (textures s) (Z.to_nat i)) as [e|] eqn:He; [|discriminate].
      injection Hnth as Hname. split.
      * exists e. split; [reflexivity|]. split; [exact Hname|].
        rewrite (proj2 (checked_nth_Done (textures s) i e) (conj Hi He)). reflexivity.
      * intros j e' Hj He' Hsame. apply (Hfirst j Hj).
        rewrite nth_error_map, He'. cbn. congruence.
    + intros [Hi [[e [He [Hname _]]] Hfirst]]. split; [exact Hi|]. split.
      * rewrite nth_error_map, He. cbn. congruence.
      * intros j Hj Hnth. rewrite nth_error_map in Hnth.
        destruct (nth_error (textures s) j) as [e'|] eqn:He'; [|discriminate].
        injection Hnth as Hsame. exact (Hfirst j e' Hj He' Hsame).
  - rewrite find_index_absent. split.
    + intros Hnot e He Hname. apply Hnot. rewrite <- Hname. apply in_map. exact He.
    + intros Hall Hin. apply in_map_iff in Hin. destruct Hin as [e [Hname He]].
      exact (Hall e He Hname).
  - intros i. rewrite find_index_first. split.
    + intros [Hi [Hnth Hfirst]]. split; [exact Hi|].
      rewrite nth_error_map in Hnth.
      destruct (nth_error (textureSets s) (Z.to_nat i)) as [e|] eqn:He; [|discriminate].
      injection Hnth as Hname. split.
      * exists e. split; [reflexivity|]. split; [exact Hname|].
        rewrite (proj2 (checked_nth_Done (textureSets s) i e) (conj Hi He)). reflexivity.
      * intros j e' Hj He' Hsame. apply (Hfirst j Hj).
        rewrite nth_error_map, He'. cbn. congruence.
    + intros [Hi [[e [He [Hname _]]] Hfirst]]. split; [exact Hi|]. split.
      * rewrite nth_error_map, He. cbn. congruence.
      * intros j Hj Hnth. rewrite nth_error_map in Hnth.
        destruct (nth_error (textureSets s) j) as [e'|] eqn:He'; [|discriminate].
        injection Hnth as Hsame. exact (Hfirst j e' Hj He' Hsame).
  - rewrite find_index_absent. split.
    + intros Hnot e He Hname. apply Hnot. rewrite <- Hname. apply in_map. exact He.
    + intros Hall Hin. apply in_map_iff in Hin. destruct Hin as [e [Hname He]].
      exact (Hall e He Hname).
Qed.

Lemma checked_nth_iff {A : Type} (l : list A) (i : Z) :
  (0 <= i < Z.of_nat (List.length l) <-> exists a, checked_nth l i = Done a) /\
  (~ 0 <= i < Z.of_nat (List.length l) <-> checked_nth l i = Abort AssertionFailed).
Proof.
  destruct (checked_nth_range l i) as [Hin Hout].
  assert (Hdec : 0 <= i < Z.of_nat (List.length l) \/
                 ~ 0 <= i < Z.of_nat (List.length l)) by lia.
  split; split; auto.
  - intros [a Ha]. destruct Hdec as [Hi|Hi]; [exact Hi|].
    rewrite (Hout Hi) in Ha. discriminate.
  - intros Ha Hi. destruct (Hin Hi) as [a Ha']. congruence.
Qed.

(** X2. Every indexed accessor of the aggregate returns the element
    exactly for an index from 0 to the count of its collection, and fails
    its assertion for any other index; the sun index is returned exactly
    when [hasSun] holds. *)
Theorem X2_accessors_check_bounds (s : DistantSky) (i : Z) :
  ((0 <= i < getLandObjectCount s <-> exists o, getLandObject s i = Done o) /\
   (~ 0 <= i < getLandObjectCount s <-> getLandObject s i = Abort AssertionFailed)) /\
  ((0 <= i < getAnimatedLandObjectCount s <->
    exists o, getAnimatedLandObject s i = Done o) /\
   (~ 0 <= i < getAnimatedLandObjectCount s <->
    getAnimatedLandObject s i = Abort AssertionFailed)) /\
  ((0 <= i < getAirObjectCount s <-> exists o, getAirObject s i = Done o) /\
   (~ 0 <= i < getAirObjectCount s <-> getAirObject s i = Abort AssertionFailed)) /\
  ((0 <= i < getMoonObjectCount s <-> exists o, getMoonObject s i = Done o) /\
   (~ 0 <= i < getMoonObjectCount s <-> getMoonObject s i = Abort AssertionFailed)) /\
  ((0 <= i < getStarObjectCount s <-> exists o, getStarObject s i = Done o) /\
   (~ 0 <= i < getStarObjectCount s <-> getStarObject s i = Abort AssertionFailed)) /\
  ((0 <= i < Z.of_nat (List.length (textures s)) <->
    exists img, getTexture s i = Done img) /\
   (~ 0 <= i < Z.of_nat (List.length (textures s)) <->
    getTexture s i = Abort AssertionFailed)) /\
  ((0 <= i < Z.of_nat (List.length (textureSets s)) <->
    exists n, getTextureSetCount s i = Done n) /\
   (~ 0 <= i < Z.of_nat (List.length (textureSets s)) <->
    getTextureSetCount s i = Abort AssertionFailed)) /\
  ((hasSun s = true <-> exists j, getSunEntryIndex s = Done j) /\
   (hasSun s = false <-> getSunEntryIndex s = Abort AssertionFailed)).
Proof.
  unfold getLandObjectCount, getAnimatedLandObjectCount, getAirObjectCount,
    getMoonObjectCount, getStarObjectCount, getLandObject, getAnimatedLandObject,
    getAirObject, getMoonObject, getStarObject.
  repeat (split; [apply checked_nth_iff|]).
  split; [|split].
  - unfold getTexture.
    destruct (checked_nth_iff (textures s) i) as [[Hin Hin'] [Hout Hout']].
    split; split.
    + intros Hi. destruct (Hin Hi) as [e ->]. eauto.
    + intros [img Himg]. apply Hin'.
      destruct (checked_nth (textures s) i) as [e| |]; [eauto | discriminate | discriminate].
    + intros Hi. rewrite (Hout Hi). reflexivity.
    + intros Ha. apply Hout'.
      destruct (checked_nth (textures s) i) as [e|f|]; [discriminate | injection Ha as ->; reflexivity | discriminate].
  - unfold getTextureSetCount.
    destruct (checked_nth_iff (textureSets s) i) as [[Hin Hin'] [Hout Hout']].
    split; split.
    + intros Hi. destruct (Hin Hi) as [e ->]. eauto.
    + intros [img Himg]. apply Hin'.
      destruct (checked_nth (textureSets s) i) as [e| |]; [eauto | discriminate | discriminate].
    + intros Hi. rewrite (Hout Hi). reflexivity.
    + intros Ha. apply Hout'.
      destruct (checked_nth (textureSets s) i) as [e|f|]; [discriminate | injection Ha as ->; reflexivity | discriminate].
  - unfold hasSun, getSunEntryIndex. destruct (sunEntryIndex s) as [j|].
    + split; split; try discriminate; eauto.
    + split; split; try discriminate; try reflexivity. intros [j Hj]. discriminate.
Qed.

(** ** What a reachable aggregate guarantees *)

Lemma getTexture_in (s : DistantSky) (i : Z) :
  in_textures s i -> exists img, getTexture s i = Done img.
Proof.
  intros Hi. unfold getTexture.
  destruct (proj1 (checked_nth_range (textures s) i) Hi) as [e ->]. eauto.
Qed.

(** The sample aggregate is reachable. *)
Lemma sky_a_reachable : reachable Sample.random Sample.stable Sample.platform Runs.sky_a.
Proof.
  exact (@reach_init Sample.random Sample.stable Sample.platform
           Sample.assets_a Sample.city Sample.province Clear 0 40
           Sample.exeData 8%nat empty_sky Runs.sky_a Runs.ghost_a
           (reach_fresh Sample.random Sample.stable Sample.platform) Runs.run_a).
Qed.

Lemma sky_t_reachable : reachable Sample.random Sample.stable Sample.platform sky_t.
Proof.
  exact (@reach_tick Sample.random Sample.stable Sample.platform 8%nat
           0.125%float Runs.sky_a sky_t sky_a_reachable run_t).
Qed.

(** X3. In an aggregate that [init] and [tick] can have produced, every
    texture index held by a land, air or moon object, by a large star or by
    the sun addresses an entry that [getTexture] returns, and every
    animated object refers to a texture set whose frame count can be read
    and, when the set has a frame, shows a frame that
    [getTextureSetElement] returns. *)
Theorem X3_indices_address_stores (R : ArenaRandom) (Sorter : StdSort) (P : Platform)
    (s : DistantSky) :
  reachable R Sorter P s ->
  (forall i o, getLandObject s i = Done o ->
     exists img, getTexture s (land_entryIndex o) = Done img) /\
  (forall i o, getAirObject s i = Done o ->
     exists img, getTexture s (air_entryIndex o) = Done img) /\
  (forall i o, getMoonObject s i = Done o ->
     exists img, getTexture s (moon_entryIndex o) = Done img) /\
  (forall i o j, getStarObject s i = Done o -> getLargeStar o = Done j ->
     exists img, getTexture s j = Done img) /\
  (forall j, getSunEntryIndex s = Done j -> exists img, getTexture s j = Done img) /\
  (forall i a, getAnimatedLandObject s i = Done a ->
     exists n, getTextureSetCount s (setEntryIndex a) = Done n /\
               (0 < n -> exists img,
                  getTextureSetElement s (setEntryIndex a) (index a) = Done img)).
Proof.
  intros Hreach. destruct (reachable_refs Hreach) as [Hl Hn Ha Hm Hs Hsun].
  rewrite Forall_forall in Hl, Hn, Ha, Hm, Hs.
  assert (Hmember : forall (A : Type) (l : list A) i (o : A),
            checked_nth l i = Done o -> In o l).
  { intros A l i o H. apply checked_nth_Done in H. destruct H as [_ H].
    eapply nth_error_In. exact H. }
  split; [|split; [|split; [|split; [|split]]]].
  - intros i o H. apply getTexture_in. apply Hl. exact (Hmember _ _ _ _ H).
  - intros i o H. apply getTexture_in. apply Ha. exact (Hmember _ _ _ _ H).
  - intros i o H. apply getTexture_in. apply Hm. exact (Hmember _ _ _ _ H).
  - intros i o j H Hlarge. apply getTexture_in.
    pose proof (Hs o (Hmember _ _ _ _ H)) as Href.
    destruct o as [c d|k d]; [discriminate|]. injection Hlarge as <-. exact Href.
  - intros j H. apply getTexture_in. apply Hsun. unfold getSunEntryIndex in H.
    destruct (sunEntryIndex s); [injection H as ->; reflexivity | discriminate].
  - intros i a H. destruct (Hn a (Hmember _ _ _ _ H)) as [Hset _ Hframe].
    unfold getTextureSetCount, getTextureSetElement.
    destruct (proj1 (checked_nth_range (textureSets s) (setEntryIndex a)) Hset)
      as [entry Hentry].
    rewrite Hentry. eexists. split; [reflexivity|]. intros Hpos.
    apply checked_nth_Done in Hentry. destruct Hentry as [_ Hentry].
    unfold frames_of in Hframe. rewrite Hentry in Hframe.
    apply (proj1 (checked_nth_range (set_textures entry) (index a))). lia.
Qed.

Lemma X3_witness :
  (forall i o, getLandObject sky_t i = Done o ->
     exists img, getTexture sky_t (land_entryIndex o) = Done img) /\
  (forall i o, getAirObject sky_t i = Done o ->
     exists img, getTexture sky_t (air_entryIndex o) = Done img) /\
  (forall i o, getMoonObject sky_t i = Done o ->
     exists img, getTexture sky_t (moon_entryIndex o) = Done img) /\
  (forall i o j, getStarObject sky_t i = Done o -> getLargeStar o = Done j ->
     exists img, getTexture sky_t j = Done img) /\
  (forall j, getSunEntryIndex sky_t = Done j -> exists img, getTexture sky_t j = Done img) /\
  (forall i a, getAnimatedLandObject sky_t i = Done a ->
     exists n, getTextureSetCount sky_t (setEntryIndex a) = Done n /\
               (0 < n -> exists img,
                  getTextureSetElement sky_t (setEntryIndex a) (index a) = Done img)).
Proof.
  exact (@X3_indices_address_stores Sample.random Sample.stable Sample.platform sky_t
           sky_t_reachable).
Defined.

(** The sample aggregate initialised a second time, on day 3. *)
Definition sky_again : DistantSky :=
  Eval vm_compute in
    Runs.sky_of (init Sample.random Sample.stable Sample.platform Sample.assets_a
                   Sample.city Sample.province Clear 3 40 Sample.exeData 8 Runs.sky_a).

Definition ghost_again : Ghost :=
  Eval vm_compute in
    Runs.ghost_of (init Sample.random Sample.stable Sample.platform Sample.assets_a
                     Sample.city Sample.province Clear 3 40 Sample.exeData 8 Runs.sky_a).

Lemma run_again :
  init Sample.random Sample.stable Sample.platform Sample.assets_a Sample.city
    Sample.province Clear 3 40 Sample.exeData 8 Runs.sky_a = Done (sky_again, ghost_again).
Proof. vm_compute. reflexivity. Qed.

Lemma checked_nth_prefix {A : Type} (l added : list A) (i : Z) (a : A) :
  checked_nth l i = Done a -> checked_nth (l ++ added) i = Done a.
Proof.
  rewrite !checked_nth_Done. intros [Hi Hnth]. split; [exact Hi|].
  rewrite nth_error_app1; [exact Hnth|]. apply nth_error_Some. congruence.
Qed.

(** X4. [init] only appends: run on an aggregate that [init] and [tick]
    can have produced, it leaves every object, texture and texture set
    that was there under the index it had, and a sun that was there stays;
    in clear weather it adds seven air objects and two moons to those
    already there, in other weather none. *)
Theorem X4_init_only_appends (R : ArenaRandom) (Sorter : StdSort) (P : Platform)
    (assets : Assets) (locationDef : LocationDefinition)
    (provinceDef : ProvinceDefinition) (weatherType : WeatherType)
    (currentDay starCount : Z) (exeData : ExeData) (fuel : nat)
    (this sky' : DistantSky) (g' : Ghost) :
  reachable R Sorter P this ->
  init R Sorter P assets locationDef provinceDef weatherType currentDay starCount
    exeData fuel this = Done (sky', g') ->
  (forall i o, getLandObject this i = Done o -> getLandObject sky' i = Done o) /\
  (forall i o, getAnimatedLandObject this i = Done o ->
               getAnimatedLandObject sky' i = Done o) /\
  (forall i o, getAirObject this i = Done o -> getAirObject sky' i = Done o) /\
  (forall i o, getMoonObject this i = Done o -> getMoonObject sky' i = Done o) /\
  (forall i o, getStarObject this i = Done o -> getStarObject sky' i = Done o) /\
  (forall i img, getTexture this i = Done img -> getTexture sky' i = Done img) /\
  (forall i n, getTextureSetCount this i = Done n -> getTextureSetCount sky' i = Done n) /\
  (hasSun this = true -> hasSun sky' = true) /\
  getAirObjectCount sky' =
    getAirObjectCount this + (if WeatherType_eqb weatherType Clear then 7 else 0) /\
  getMoonObjectCount sky' =
    getMoonObjectCount this + (if WeatherType_eqb weatherType Clear then 2 else 0).
Proof.
  intros Hreach Hrun.
  destruct (@init_refs _ _ _ _ _ _ _ _ _ _ _ _ _ _ (reachable_refs Hreach) Hrun)
    as [[_ [[l El] [n En] [a Ea] [m Em] [st Es] [t Et] [ts Ets] Hsun]] _].
  destruct (@init_effect R Sorter P _ _ _ _ _ _ _ _ _ _ _
              (reachable_ok Hreach) Hrun)
    as [cityDef [_ [_ _ _ [a' [Ea' Ka]] Hmoon _ _ _]]].
  unfold getLandObject, getAnimatedLandObject, getAirObject, getMoonObject,
    getStarObject, getTexture, getTextureSetCount, hasSun, getAirObjectCount,
    getMoonObjectCount.
  rewrite El, En, Es, Et, Ets.
  repeat match goal with |- _ /\ _ => split end.
  - intros i o. apply checked_nth_prefix.
  - intros i o. apply checked_nth_prefix.
  - intros i o. rewrite Ea. apply checked_nth_prefix.
  - intros i o. rewrite Em. apply checked_nth_prefix.
  - intros i o. apply checked_nth_prefix.
  - intros i img H.
    destruct (checked_nth (textures this) i) as [e| |] eqn:He; try discriminate.
    rewrite (checked_nth_prefix _ t _ He). exact H.
  - intros i k H.
    destruct (checked_nth (textureSets this) i) as [e| |] eqn:He; try discriminate.
    rewrite (checked_nth_prefix _ ts _ He). exact H.
  - destruct Hsun as [->|[j ->]]; [auto | reflexivity].
  - rewrite Ea', length_app, Ka. destruct (WeatherType_eqb weatherType Clear); lia.
  - destruct (WeatherType_eqb weatherType Clear).
    + destruct Hmoon as [m1 [m2 [-> _]]]. rewrite length_app. cbn. lia.
    + rewrite Hmoon. lia.
Qed.

Lemma X4_witness :
  (forall i o, getLandObject Runs.sky_a i = Done o -> getLandObject sky_again i = Done o) /\
  (forall i o, getAnimatedLandObject Runs.sky_a i = Done o ->
               getAnimatedLandObject sky_again i = Done o) /\
  (forall i o, getAirObject Runs.sky_a i = Done o -> getAirObject sky_again i = Done o) /\
  (forall i o, getMoonObject Runs.sky_a i = Done o -> getMoonObject sky_again i = Done o) /\
  (forall i o, getStarObject Runs.sky_a i = Done o -> getStarObject sky_again i = Done o) /\
  (forall i img, getTexture Runs.sky_a i = Done img -> getTexture sky_again i = Done img) /\
  (forall i n, getTextureSetCount Runs.sky_a i = Done n ->
               getTextureSetCount sky_again i = Done n) /\
  (hasSun Runs.sky_a = true -> hasSun sky_again = true) /\
  getAirObjectCount sky_again =
    getAirObjectCount Runs.sky_a + (if WeatherType_eqb Clear Clear then 7 else 0) /\
  getMoonObjectCount sky_again =
    getMoonObjectCount Runs.sky_a + (if WeatherType_eqb Clear Clear then 2 else 0).
Proof.
  exact (@X4_init_only_appends Sample.random Sample.stable Sample.platform
           Sample.assets_a Sample.city Sample.province Clear 3 40 Sample.exeData 8%nat
           Runs.sky_a sky_again ghost_again sky_a_reachable run_again).
Defined.

(** ** What [tick] leaves alone *)

Lemma update_in_keeps (fuel : nat) (dt : float) (s : DistantSky)
    (a a' : AnimatedLandObject float) :
  update_in fuel dt s a = Done a' ->
  setEntryIndex a' = setEntryIndex a /\
  anim_angleRadians a' = anim_angleRadians a /\
  targetFrameTime a' = targetFrameTime a.
Proof.
  unfold update_in, update. intros H.
  destruct (getTextureSetCount s (setEntryIndex a)) as [n| |]; try discriminate.
  destruct (0 <? n).
  - destruct (frame_loop fuel n (accumulate dt a)) as [r|] eqn:Hloop; [|discriminate].
    injection H as <-.
    destruct (frame_loop_passes _ _ _ Hloop) as [k [_ [-> _]]].
    destruct (advance_frame_fixed n k (accumulate dt a)) as [Eset Eangle].
    rewrite Eset, Eangle, advance_frame_target. repeat split.
  - injection H as <-. repeat split.
Qed.

Lemma update_all_keeps (fuel : nat) (dt : float) (s : DistantSky) :
  forall anims anims',
    update_all fuel dt s anims = Done anims' ->
    Forall2 (fun a a' => setEntryIndex a' = setEntryIndex a /\
                         anim_angleRadians a' = anim_angleRadians a /\
                         targetFrameTime a' = targetFrameTime a) anims anims'.
Proof.
  induction anims as [|a rest IH]; intros anims' H; simpl in H.
  - injection H as <-. constructor.
  - destruct (update_in fuel dt s a) as [a'| |] eqn:Ha'; try discriminate.
    destruct (update_all fuel dt s rest) as [rest'| |]; try discriminate.
    injection H as <-. constructor; [eapply update_in_keeps; eassumption | auto].
Qed.

(** X5. A [tick] that returns changes nothing but the clock and the frame
    of the animated land objects: the other collections, the sun and both
    stores are as before, and the animated objects are as many, each with
    the texture set, the angle and the frame time it had. *)
Theorem X5_tick_changes_clocks_only (fuel : nat) (dt : float) (s s' : DistantSky) :
  tick fuel dt s = Done s' ->
  landObjects s' = landObjects s /\ airObjects s' = airObjects s /\
  moonObjects s' = moonObjects s /\ starObjects s' = starObjects s /\
  sunEntryIndex s' = sunEntryIndex s /\
  textures s' = textures s /\ textureSets s' = textureSets s /\
  getAnimatedLandObjectCount s' = getAnimatedLandObjectCount s /\
  Forall2 (fun a a' => setEntryIndex a' = setEntryIndex a /\
                       anim_angleRadians a' = anim_angleRadians a /\
                       targetFrameTime a' = targetFrameTime a)
          (animLandObjects s) (animLandObjects s').
Proof.
  unfold tick. intros H.
  destruct (update_all fuel dt s (animLandObjects s)) as [anims| |] eqn:Hall;
    try discriminate.
  injection H as <-. cbn. repeat split.
  - unfold getAnimatedLandObjectCount. cbn. f_equal. symmetry.
    eapply Forall2_length. eapply update_all_keeps. exact Hall.
  - eapply update_all_keeps. exact Hall.
Qed.

Lemma X5_witness :
  landObjects sky_t = landObjects Runs.sky_a /\ airObjects sky_t = airObjects Runs.sky_a /\
  moonObjects sky_t = moonObjects Runs.sky_a /\
  starObjects sky_t = starObjects Runs.sky_a /\
  sunEntryIndex sky_t = sunEntryIndex Runs.sky_a /\
  textures sky_t = textures Runs.sky_a /\ textureSets sky_t = textureSets Runs.sky_a /\
  getAnimatedLandObjectCount sky_t = getAnimatedLandObjectCount Runs.sky_a /\
  Forall2 (fun a a' => setEntryIndex a' = setEntryIndex a /\
                       anim_angleRadians a' = anim_angleRadians a /\
                       targetFrameTime a' = targetFrameTime a)
          (animLandObjects Runs.sky_a) (animLandObjects sky_t).
Proof.
  exact (@X5_tick_changes_clocks_only 8%nat 0.125%float Runs.sky_a sky_t run_t).
Defined.

Lemma update_all_no_fault (fuel : nat) (dt : float) (s : DistantSky) :
  forall anims,
    Forall (anim_sound s) anims ->
    update_all fuel dt s anims = Starved \/
    exists anims', update_all fuel dt s anims = Done anims'.
Proof.
  induction anims as [|a rest IH]; intros Hall; cbn [update_all].
  - right. eexists. reflexivity.
  - inversion Hall as [|? ? [Hset _ _] Hrest]; subst.
    unfold update_in, getTextureSetCount.
    destruct (proj1 (checked_nth_range (textureSets s) (setEntryIndex a)) Hset)
      as [entry ->].
    destruct (update fuel dt _ a) as [a'|]; [|left; reflexivity].
    destruct (IH Hrest) as [->|[rest' ->]]; [left; reflexivity|].
    right. eexists. reflexivity.
Qed.

(** X6. On an aggregate that [init] and [tick] can have produced, [tick]
    fails no assertion, whatever [dt]: every animated object refers to a
    texture set that is there. It returns, unless the loop of an [update]
    outlasts the iteration bound. *)
Theorem X6_tick_fails_no_assertion (R : ArenaRandom) (Sorter : StdSort) (P : Platform)
    (s : DistantSky) (fuel : nat) (dt : float) :
  reachable R Sorter P s ->
  tick fuel dt s = Starved \/
  exists s', tick fuel dt s = Done s' /\ reachable R Sorter P s'.
Proof.
  intros Hreach. unfold tick.
  destruct (@update_all_no_fault fuel dt s _ (ro_anim (reachable_refs Hreach)))
    as [Hst|[anims Hdone]].
  - left. rewrite Hst. reflexivity.
  - right. eexists. split.
    + rewrite Hdone. reflexivity.
    + eapply reach_tick; [exact Hreach|]. unfold tick. rewrite Hdone. reflexivity.
Qed.

Lemma X6_witness :
  tick 8 (-1)%float sky_t = Starved \/
  exists s', tick 8 (-1)%float sky_t = Done s' /\
             reachable Sample.random Sample.stable Sample.platform s'.
Proof.
  exact (@X6_tick_fails_no_assertion Sample.random Sample.stable Sample.platform sky_t
           8%nat (-1)%float sky_t_reachable).
Defined.

(** ** Cloud heights *)

Definition height_in_unit (yPos : Z) : bool :=
  let h := (Cpp.to_double yPos / Cpp.to_double 64)%float in
  PrimFloat.leb 0%float h && PrimFloat.ltb h 1%float.

Lemma heights_in_unit : forallb height_in_unit (map Z.of_nat (seq 0 64)) = true.
Proof. vm_compute. reflexivity. Qed.

Lemma height_in_unit_all (yPos : Z) : 0 <= yPos < 64 -> height_in_unit yPos = true.
Proof.
  intros Hy.
  pose proof (proj1 (forallb_forall height_in_unit _) heights_in_unit) as Hall.
  apply Hall. replace yPos with (Z.of_nat (Z.to_nat yPos)) by lia.
  apply in_map, in_seq. lia.
Qed.

(** X7. In an aggregate that [init] and [tick] can have produced, the
    height of every air object is [yPos / 64] for a [yPos] from 0 to 63,
    hence at least 0 and below 1. *)
Theorem X7_cloud_heights (R : ArenaRandom) (Sorter : StdSort) (P : Platform)
    (s : DistantSky) (i : Z) (o : AirObject) :
  reachable R Sorter P s -> getAirObject s i = Done o ->
  exists yPos, 0 <= yPos < 64 /\
    air_height o = (Cpp.to_double yPos / Cpp.to_double 64)%float /\
    PrimFloat.leb 0%float (air_height o) = true /\
    PrimFloat.ltb (air_height o) 1%float = true.
Proof.
  intros Hreach Hget. apply checked_nth_Done in Hget. destruct Hget as [_ Hnth].
  pose proof (ro_air (reachable_refs Hreach)) as Hair. rewrite Forall_forall in Hair.
  destruct (Hair o (nth_error_In _ _ Hnth)) as [_ [yPos [Hy Hh]]].
  exists yPos. split; [exact Hy|]. split; [exact Hh|].
  pose proof (height_in_unit_all Hy) as Hunit. unfold height_in_unit in Hunit.
  apply andb_prop in Hunit. rewrite Hh. exact Hunit.
Qed.

(** The first cloud of the sample run. *)
Definition first_cloud : AirObject :=
  Eval vm_compute in
    match getAirObject Runs.sky_a 0 with
    | Done o => o
    | _ => {| air_entryIndex := 0; air_angleRadians := 0%float; air_height := 0%float |}
    end.

Lemma X7_witness :
  exists yPos, 0 <= yPos < 64 /\
    air_height first_cloud = (Cpp.to_double yPos / Cpp.to_double 64)%float /\
    PrimFloat.leb 0%float (air_height first_cloud) = true /\
    PrimFloat.ltb (air_height first_cloud) 1%float = true.
Proof.
  apply (@X7_cloud_heights Sample.random Sample.stable Sample.platform Runs.sky_a 0
           first_cloud sky_a_reachable).
  vm_compute. reflexivity.
Defined.

(** ** The calendar *)

Lemma rem_32_period (d : Z) : 0 <= d -> Cpp.rem (d + 32) 32 = Cpp.rem d 32.
Proof.
  intros Hd. unfold Cpp.rem. rewrite !Z.rem_mod_nonneg by lia.
  replace (d + 32) with (d + 1 * 32) by lia. apply Z.mod_add. lia.
Qed.

Lemma moonPhaseIndex_period (d : Z) (type : MoonType) :
  0 <= d -> moonPhaseIndex (d + 32) type = moonPhaseIndex d type.
Proof.
  intros Hd. destruct type; cbn [moonPhaseIndex].
  - apply rem_32_period. exact Hd.
  - replace (d + 32 + 14) with (d + 14 + 32) by lia. apply rem_32_period. lia.
Qed.

(** X8. The sky repeats every 32 days: for a day count that is not
    negative (and with [currentDay + 32 + 14] within [int]), [init] on day
    [currentDay + 32] does exactly what it does on day [currentDay], on any
    aggregate and with any inputs. *)
Theorem X8_sky_repeats_every_32_days (R : ArenaRandom) (Sorter : StdSort)
    (P : Platform) (assets : Assets) (locationDef : LocationDefinition)
    (provinceDef : ProvinceDefinition) (weatherType : WeatherType)
    (currentDay starCount : Z) (exeData : ExeData) (fuel : nat) (this : DistantSky) :
  0 <= currentDay -> currentDay + 32 + 14 < 2147483648 ->
  init R Sorter P assets locationDef provinceDef weatherType (currentDay + 32) starCount
    exeData fuel this =
  init R Sorter P assets locationDef provinceDef weatherType currentDay starCount
    exeData fuel this.
Proof.
  intros Hd _. unfold init, init_body, addClouds, addSpaceObjects, makeMoon.
  rewrite (rem_32_period Hd), !(moonPhaseIndex_period _ Hd). reflexivity.
Qed.

Lemma X8_witness :
  init Sample.random Sample.stable Sample.platform Sample.assets_a Sample.city
    Sample.province Clear (0 + 32) 40 Sample.exeData 8 empty_sky =
  init Sample.random Sample.stable Sample.platform Sample.assets_a Sample.city
    Sample.province Clear 0 40 Sample.exeData 8 empty_sky.
Proof.
  apply (@X8_sky_repeats_every_32_days Sample.random Sample.stable Sample.platform
           Sample.assets_a Sample.city Sample.province Clear 0 40 Sample.exeData 8%nat
           empty_sky); lia.
Defined.

(** ** The mountains *)

Section Mountains.

Variable R : ArenaRandom.
Variable Sorter : StdSort.
Variable P : Platform.

(** The land objects that the placement of the mountains alone leaves: the
  start of [init], up to the first call of [placeStaticObjects]. *)
Definition mountains (tm : TextureManager) (cityDef : CityDefinition)
  (exeData : ExeData) (this : DistantSky) : outcome (list LandObject) :=
match findMountainTraits (climateType cityDef) MountainTraits with
| Some traits =>
    match checked_nth (distantMountainFilenames exeData) (filenameIndex traits) with
    | Done baseFilename =>
        let drawn := rng_next R (rng_make R (distantSkySeed cityDef)) in
        match placeStaticObjects tm (Cpp.rem (fst drawn) 4 + 2) baseFilename
                (position traits) (variation traits) (maxDigits traits) false
                {| sky := this; random := snd drawn; ghost := empty_ghost |} with
        | Done (_, w) => Done (landObjects (sky w))
        | Abort f => Abort f
        | Starved => Starved
        end
    | Abort f => Abort f
    | Starved => Starved
    end
| None => Abort AssertionFailed
end.

Lemma init_body_mountains (assets : Assets) (cityDef : CityDefinition)
  (provinceDef : ProvinceDefinition) (weatherType : WeatherType)
  (currentDay starCount : Z) (exeData : ExeData) (fuel : nat)
  (this : DistantSky) (r : rng R) :
sky_ok this empty_ghost ->
wp (init_body Sorter P assets (CityLocation cityDef) provinceDef weatherType
      currentDay starCount exeData fuel)
   (fun _ w' => mountains (textureManager assets) cityDef exeData this =
                Done (landObjects (sky w')))
   {| sky := this; random := r; ghost := empty_ghost |}.
Proof.
intros Hok. unfold init_body, mountains.
wp_step.
destruct (findMountainTraits (climateType cityDef) MountainTraits) as [traits|];
  [|exact I].
wp_steps.
match goal with H : checked_nth _ _ = Done _ |- _ => rewrite H end.
cbv zeta. apply wp_intro. intros [] w1 Hrun. rewrite Hrun.
match type of Hrun with
| placeStaticObjects _ _ _ _ _ _ _ ?w0 = _ =>
    pose proof (@wp_done R _ _ _ _ _ _
                  (@placeStaticObjects_effect R _ _ _ _ _ _ _ w0 Hok) Hrun)
      as Hstep1
end.
pose proof (ss_ok Hstep1) as Hok1. wp_step.
eapply wp_mono; [apply addClouds_effect; exact Hok1|].
intros [] w2 Hstep2. wp_step.
assert (Hanim : wp (if hasAnimatedDistantLand provinceDef
                    then addAnimatedLand P (textureManager assets) cityDef exeData
                    else ret tt)
                   (fun _ w3 => quiet_step w2 w3) w2).
{ destruct (hasAnimatedDistantLand provinceDef).
  - eapply wp_mono; [apply addAnimatedLand_effect; exact (cs_ok Hstep2)|].
    intros [] w3 [Hq _]. exact Hq.
  - wp_steps. apply quiet_step_refl. exact (cs_ok Hstep2). }
eapply wp_mono; [exact Hanim|]. clear Hanim.
intros [] w3 Hstep3. cbv beta.
destruct (WeatherType_eqb weatherType Clear).
- eapply wp_mono; [apply addSpaceObjects_effect; exact (qs_ok Hstep3)|].
  intros [] w4 Hstep4. f_equal.
  rewrite (sp_land Hstep4), (qs_land Hstep3), (cs_land Hstep2). reflexivity.
- wp_steps. f_equal. rewrite (qs_land Hstep3), (cs_land Hstep2). reflexivity.
Qed.

End Mountains.

(** The sample city in the rain on day 5, in a province without animated
    land, with no stars asked for. *)
Definition sky_rain : DistantSky :=
  Eval vm_compute in
    Runs.sky_of (init Sample.random Sample.stable Sample.platform Sample.assets_a
                   Sample.city {| hasAnimatedDistantLand := false |} Rain 5 0
                   Sample.exeData 0 empty_sky).

Definition ghost_rain : Ghost :=
  Eval vm_compute in
    Runs.ghost_of (init Sample.random Sample.stable Sample.platform Sample.assets_a
                     Sample.city {| hasAnimatedDistantLand := false |} Rain 5 0
                     Sample.exeData 0 empty_sky).

Lemma run_rain :
  init Sample.random Sample.stable Sample.platform Sample.assets_a Sample.city
    {| hasAnimatedDistantLand := false |} Rain 5 0 Sample.exeData 0 empty_sky =
  Done (sky_rain, ghost_rain).
Proof. vm_compute. reflexivity. Qed.

(** X9. The mountains of a city do not depend on the weather, the day, the
    province, the star count or the iteration bound: they are what the
    placement at the start of [init] makes of the city's seed and climate,
    the legacy data and the loader, so two runs of [init] on the same
    reachable aggregate that differ in the rest leave the same land
    objects. *)
Theorem X9_mountains_ignore_weather (R : ArenaRandom) (Sorter : StdSort) (P : Platform)
    (assets : Assets) (locationDef : LocationDefinition)
    (provinceDef1 provinceDef2 : ProvinceDefinition)
    (weatherType1 weatherType2 : WeatherType)
    (currentDay1 currentDay2 starCount1 starCount2 : Z) (exeData : ExeData)
    (fuel1 fuel2 : nat) (this sky1 sky2 : DistantSky) (g1 g2 : Ghost) :
  reachable R Sorter P this ->
  init R Sorter P assets locationDef provinceDef1 weatherType1 currentDay1 starCount1
    exeData fuel1 this = Done (sky1, g1) ->
  init R Sorter P assets locationDef provinceDef2 weatherType2 currentDay2 starCount2
    exeData fuel2 this = Done (sky2, g2) ->
  landObjects sky1 = landObjects sky2 /\
  exists cityDef,
    locationDef = CityLocation cityDef /\
    mountains R (textureManager assets) cityDef exeData this = Done (landObjects sky1).
Proof.
  intros Hreach Hrun1 Hrun2. pose proof (reachable_ok Hreach) as Hok.
  unfold init in Hrun1, Hrun2.
  destruct locationDef as [cityDef| |]; [|discriminate|discriminate].
  assert (Hland : forall prov weather day count fuel sky' g',
            match init_body Sorter P assets (CityLocation cityDef) prov weather day count
                    exeData fuel
                    {| sky := this; random := rng_make R (distantSkySeed cityDef);
                       ghost := empty_ghost |} with
            | Done (_, w) => Done (sky w, ghost w)
            | Abort f => Abort f
            | Starved => Starved
            end = Done (sky', g') ->
            mountains R (textureManager assets) cityDef exeData this =
            Done (landObjects sky')).
  { intros prov weather day count fuel sky' g' Hrun.
    pose proof (@init_body_mountains R Sorter P assets cityDef prov weather day count
                  exeData fuel this (rng_make R (distantSkySeed cityDef)) Hok) as Hwp.
    unfold wp in Hwp.
    destruct (init_body Sorter P assets (CityLocation cityDef) prov weather day count
                exeData fuel _) as [[[] w']| |]; try discriminate.
    injection Hrun as <- <-. exact Hwp. }
  pose proof (Hland _ _ _ _ _ _ _ Hrun1) as H1.
  pose proof (Hland _ _ _ _ _ _ _ Hrun2) as H2.
  split; [congruence|]. exists cityDef. split; [reflexivity | exact H1].
Qed.

Lemma X9_witness :
  landObjects Runs.sky_a = landObjects sky_rain /\
  exists cityDef,
    Sample.city = CityLocation cityDef /\
    mountains Sample.random (textureManager Sample.assets_a) cityDef Sample.exeData
      empty_sky = Done (landObjects Runs.sky_a).
Proof.
  exact (@X9_mountains_ignore_weather Sample.random Sample.stable Sample.platform
           Sample.assets_a Sample.city Sample.province
           {| hasAnimatedDistantLand := false |} Clear Rain 0 5 40 0 Sample.exeData
           8%nat 0%nat empty_sky Runs.sky_a sky_rain Runs.ghost_a ghost_rain
           (reach_fresh Sample.random Sample.stable Sample.platform)
           Runs.run_a run_rain).
Defined.

(** ** The stars *)

Section StarSource.

Variable R : ArenaRandom.

(** Two worlds whose sequence sources are in the same state. *)
Definition same_source (w1 w2 : World R) : Prop := random w1 = random w2.

Ltac source_close := unfold same_source in *; cbn [random]; congruence.

Lemma makeSubStars_source (n : nat) :
forall (acc : list SubStar) (w1 w2 : World R),
  same_source w1 w2 ->
  wp2 (makeSubStars n acc) (makeSubStars n acc)
      (fun l1 w1' l2 w2' => l1 = l2 /\ same_source w1' w2') w1 w2.
Proof.
induction n as [|n IH]; intros acc w1 w2 Hsim; cbn [makeSubStars].
- wp2_steps. split; [reflexivity | exact Hsim].
- pose proof Hsim as Hr. unfold same_source in Hr.
  do 2 wp2_step. rewrite Hr. wp2_steps. apply IH. source_close.
Qed.

Lemma drawLargeStarType_source (fuel1 : nat) :
forall (fuel2 : nat) (planets : list bool) (w1 w2 : World R),
  same_source w1 w2 ->
  wp2 (drawLargeStarType fuel1 planets) (drawLargeStarType fuel2 planets)
      (fun v1 w1' v2 w2' => v1 = v2 /\ same_source w1' w2') w1 w2.
Proof.
induction fuel1 as [|fuel1 IH]; intros [|fuel2] planets w1 w2 Hsim;
  cbn [drawLargeStarType]; pose proof Hsim as Hr; unfold same_source in Hr;
  do 2 wp2_step; rewrite Hr; wp2_steps.
all: match goal with
     | |- wp2 (if ?b then _ else _) _ _ _ _ => destruct b
     end; wp2_steps; same_results.
all: match goal with
     | |- wp2 (if ?b then _ else _) _ _ _ _ => destruct b
     | |- _ => idtac
     end; wp2_steps.
all: try (split; [reflexivity|]; source_close).
all: apply IH; source_close.
Qed.

Lemma generateStar_source (fuel1 fuel2 : nat) (planets : list bool) (w1 w2 : World R) :
same_source w1 w2 ->
wp2 (generateStar fuel1 planets) (generateStar fuel2 planets)
    (fun sp1 w1' sp2 w2' => sp1 = sp2 /\ same_source w1' w2') w1 w2.
Proof.
intros Hsim. unfold generateStar, getRndCoord.
pose proof Hsim as Hr. unfold same_source in Hr. do 3 wp2_step. rewrite Hr. wp2_steps.
match goal with
| |- wp2 (if ?b then _ else _) _ _ _ _ => destruct b
end; wp2_steps.
- match goal with
  | |- wp2 (makeSubStars _ _) _ _ ?v1 ?v2 =>
      assert (Hsim' : same_source v1 v2) by source_close;
      eapply wp2_mono; [apply makeSubStars_source; exact Hsim'|]
  end.
  intros l1 w1' l2 w2' [<- Hsim'']. wp2_steps. split; [reflexivity | exact Hsim''].
- match goal with
  | |- wp2 (drawLargeStarType _ _) _ _ ?v1 ?v2 =>
      assert (Hsim' : same_source v1 v2) by source_close;
      eapply wp2_mono; [apply drawLargeStarType_source; exact Hsim'|]
  end.
  intros v1 w1' v2 w2' [<- Hsim''].
  match goal with
  | |- wp2 (bind (if ?b then _ else _) _) _ _ _ _ => destruct b
  end; wp2_steps; same_results; (split; [reflexivity | exact Hsim'']).
Qed.

Lemma generateStars_source (fuel1 fuel2 n : nat) :
forall (planets : list bool) (stars : list Star) (w1 w2 : World R),
  same_source w1 w2 ->
  wp2 (generateStars fuel1 n planets stars) (generateStars fuel2 n planets stars)
      (fun l1 w1' l2 w2' => l1 = l2 /\ same_source w1' w2') w1 w2.
Proof.
induction n as [|n IH]; intros planets stars w1 w2 Hsim; cbn [generateStars].
- wp2_steps. split; [reflexivity | exact Hsim].
- wp2_step. eapply wp2_mono; [apply generateStar_source; exact Hsim|].
  intros sp1 w1' sp2 w2' [<- Hsim']. apply IH. exact Hsim'.
Qed.

End StarSource.

(** [StarObject::getDirection]. *)
Definition getDirection (o : StarObject) : Double3 :=
  match o with SmallStar _ d => d | LargeStar _ d => d end.

Section StarObjects.

Variable R : ArenaRandom.
Variable Sorter : StdSort.
Variable P : Platform.

(** The direction of a star of the intermediate list. *)
Definition star_direction (star : Star) : Double3 :=
normalized P {| d3_x := Cpp.to_double (star_x star);
                d3_y := Cpp.to_double (star_y star);
                d3_z := Cpp.to_double (star_z star) |}.

(** The directions of the star objects that a star is converted to: one
  for each sub-star of a constellation, one for a large star. *)
Definition star_directions (star : Star) : list Double3 :=
if star_type star =? -1
then map (subDirection P (star_direction star)) (subList star)
else [star_direction star].

(** What the star lists of the ghost record and the star objects are
  after a step that started in [w]. *)
Definition stars_kept (w w' : World R) : Prop :=
starObjects (sky w') = starObjects (sky w) /\
g_generated (ghost w') = g_generated (ghost w) /\
g_sorted (ghost w') = g_sorted (ghost w).

Lemma fixEntryIndexIfMissing_stars (tm : TextureManager) (name : string)
  (entryIndex : option Z) (w : World R) :
wp (fixEntryIndexIfMissing tm name entryIndex) (fun _ w' => stars_kept w w') w.
Proof.
unfold fixEntryIndexIfMissing, stars_kept.
destruct entryIndex; wp_steps; sky_simpl; repeat split.
Qed.

Lemma makeMoon_stars (tm : TextureManager) (currentDay : Z) (exeData : ExeData)
  (type : MoonType) (w : World R) :
wp (makeMoon tm currentDay exeData type) (fun _ w' => stars_kept w w') w.
Proof.
unfold makeMoon, stars_kept. wp_steps.
match goal with
| |- context [getTextureEntryIndex ?s ?nm] => destruct (getTextureEntryIndex s nm)
end; wp_steps; sky_simpl; repeat split.
Qed.

Lemma convertStar_directions (tm : TextureManager) (palette : list Z)
  (exeData : ExeData) (star : Star) (w : World R) :
wp (convertStar P tm palette exeData star)
   (fun _ w' =>
      map getDirection (starObjects (sky w')) =
      map getDirection (starObjects (sky w)) ++ star_directions star /\
      g_generated (ghost w') = g_generated (ghost w) /\
      g_sorted (ghost w') = g_sorted (ghost w)) w.
Proof.
unfold convertStar, star_directions. fold (star_direction star).
destruct (star_type star =? -1).
- pose proof (@wp_for_each R SubStar
                (fun pre w' =>
                   map getDirection (starObjects (sky w')) =
                   map getDirection (starObjects (sky w)) ++
                   map (subDirection P (star_direction star)) pre /\
                   g_generated (ghost w') = g_generated (ghost w) /\
                   g_sorted (ghost w') = g_sorted (ghost w))) as Hloop.
  eapply wp_mono; [apply (Hloop _ (subList star) [])|].
  + intros pre sub w' _ [Hdir [Hgen Hsorted]]. do 2 wp_step. wp_steps. sky_simpl.
    split; [|split; assumption].
    rewrite !map_app, Hdir, <- app_assoc. reflexivity.
  + rewrite app_nil_r. repeat split.
  + intros [] w' H. exact H.
- wp_steps.
  match goal with
  | |- wp (match ?o with _ => _ end) _ _ => destruct o as [name|]; [|exact I]
  end.
  wp_steps.
  eapply wp_mono; [apply fixEntryIndexIfMissing_stars|].
  intros i w' [Hst [Hgen Hsorted]]. wp_steps. sky_simpl.
  split; [|split; assumption]. rewrite map_app, Hst. reflexivity.
Qed.

(** What the block of the space objects does with the stars: they are
  generated on the source just reseeded with the constant, sorted, and
  converted in that order. *)
Definition stars_made (fuel : nat) (starCount : Z) (w w' : World R) : Prop :=
exists (source : World R) (rest : World R),
  (exists r, random source = rng_srand R 305419897 r) /\
  generateStars fuel (Z.to_nat starCount) [false; false; false] [] source =
    Done (g_generated (ghost w'), rest) /\
  g_sorted (ghost w') = std_sort Sorter star_less (g_generated (ghost w')) /\
  map getDirection (starObjects (sky w')) =
    map getDirection (starObjects (sky w)) ++
    flat_map star_directions (g_sorted (ghost w')).

Lemma addSpaceObjects_stars (assets : Assets) (currentDay starCount : Z)
  (exeData : ExeData) (fuel : nat) (w : World R) :
wp (addSpaceObjects Sorter P assets currentDay starCount exeData fuel)
   (fun _ w' => stars_made fuel starCount w w') w.
Proof.
unfold addSpaceObjects. wp_steps.
eapply wp_mono; [apply makeMoon_stars|].
intros m1 w1 [Hst1 _]. wp_steps.
eapply wp_mono; [apply makeMoon_stars|].
intros m2 w2 [Hst2 _]. sky_simpl. wp_steps.
apply wp_intro. intros stars w3 Hrun.
match type of Hrun with
| generateStars _ _ _ _ ?w0 = _ =>
    pose proof (@wp_done R _ _ _ _ _ _
                  (@generateStars_effect R fuel (Z.to_nat starCount) _ _ w0
                     stars_good_start) Hrun) as [[Hs3 Hg3] _]
end.
sky_simpl. wp_steps.
destruct (colFile assets) as [palette|]; [|exact I]. wp_steps.
match goal with
| |- wp (for_each ?l ?body) _ ?w4 =>
    pose proof (@wp_for_each R Star
                  (fun pre w' =>
                     map getDirection (starObjects (sky w')) =
                     map getDirection (starObjects (sky w4)) ++
                     flat_map star_directions pre /\
                     g_generated (ghost w') = g_generated (ghost w4) /\
                     g_sorted (ghost w') = g_sorted (ghost w4)) body l [])
      as Hloop
end.
eapply wp_mono; [apply Hloop|].
- intros pre star w' _ [Hdir [Hgen Hsorted]].
  eapply wp_mono; [apply convertStar_directions|].
  intros [] w'' [Hdir' [Hgen' Hsorted']].
  split; [|split; congruence].
  rewrite Hdir', Hdir, flat_map_app, <- app_assoc. cbn [flat_map].
  rewrite app_nil_r. reflexivity.
- rewrite app_nil_r. repeat split.
- intros [] w5 [Hdir [Hgen Hsorted]]. wp_steps.
  eapply wp_mono; [apply fixEntryIndexIfMissing_stars|].
  intros i w6 [Hst6 [Hgen6 Hsorted6]]. wp_steps. unfold stars_made. sky_simpl.
  match type of Hrun with
  | generateStars _ _ _ _ ?w0 = _ => exists w0, w3
  end.
  split; [|split; [|split]].
  + eexists. reflexivity.
  + rewrite Hgen6, Hgen. exact Hrun.
  + rewrite Hsorted6, Hsorted, Hgen6, Hgen. reflexivity.
  + rewrite Hst6, Hdir, Hsorted6, Hsorted, Hs3. sky_simpl.
    rewrite Hst2. sky_simpl. rewrite Hst1. reflexivity.
Qed.

End StarObjects.

Section StarField.

Variable R : ArenaRandom.
Variable Sorter : StdSort.
Variable P : Platform.

Lemma init_body_stars (assets : Assets) (cityDef : CityDefinition)
  (provinceDef : ProvinceDefinition) (currentDay starCount : Z) (exeData : ExeData)
  (fuel : nat) (w : World R) :
sky_ok (sky w) (ghost w) ->
wp (init_body Sorter P assets (CityLocation cityDef) provinceDef Clear
      currentDay starCount exeData fuel)
   (fun _ w' => stars_made Sorter P fuel starCount w w') w.
Proof.
intros Hok. unfold init_body.
wp_step.
match goal with
| |- wp (match ?o with _ => _ end) _ _ => destruct o as [traits|]; [|exact I]
end.
wp_steps.
match goal with
| |- wp (placeStaticObjects _ _ _ _ _ _ _) _ ?w1 =>
    eapply wp_mono;
      [apply (@placeStaticObjects_effect R _ _ _ _ _ _ _ w1); exact Hok|]
end.
intros [] w1 Hstep1. sky_simpl. wp_step.
eapply wp_mono; [apply addClouds_effect; exact (ss_ok Hstep1)|].
intros [] w2 Hstep2. wp_step.
assert (Hanim : wp (if hasAnimatedDistantLand provinceDef
                    then addAnimatedLand P (textureManager assets) cityDef exeData
                    else ret tt)
                   (fun _ w3 => starObjects (sky w3) = starObjects (sky w2)) w2).
{ destruct (hasAnimatedDistantLand provinceDef).
  - eapply wp_mono; [apply addAnimatedLand_effect; exact (cs_ok Hstep2)|].
    intros [] w3 [_ Hst]. exact Hst.
  - wp_steps. reflexivity. }
eapply wp_mono; [exact Hanim|]. clear Hanim.
intros [] w3 Hst3. cbv beta. cbn [WeatherType_eqb].
eapply wp_mono; [apply addSpaceObjects_stars|].
intros [] w4 [source [rest [Hsource [Hrun [Hsorted Hdir]]]]].
exists source, rest. split; [exact Hsource|]. split; [exact Hrun|].
split; [exact Hsorted|].
rewrite Hdir, Hst3, (cs_star Hstep2). pose proof (ss_star Hstep1) as Hst1.
sky_simpl. rewrite Hst1. reflexivity.
Qed.

End StarField.

(** The sequence source starts afresh when it is reseeded: the state after
    [srand(seed)] does not depend on the state before. *)
Definition reseeds_afresh (R : ArenaRandom) : Prop :=
  forall seed s1 s2, rng_srand R seed s1 = rng_srand R seed s2.

Lemma sample_reseeds_afresh : reseeds_afresh Sample.random.
Proof. intros seed s1 s2. reflexivity. Qed.

(** A desert city on day 9, initialised in clear weather on the rainy
    sample aggregate, with the other loader. *)
Definition desert_city : LocationDefinition :=
  CityLocation {| climateType := Desert; distantSkySeed := 99; citySeed := 5 |}.

Definition sky_desert : DistantSky :=
  Eval vm_compute in
    Runs.sky_of (init Sample.random Sample.stable Sample.platform Sample.assets_b
                   desert_city {| hasAnimatedDistantLand := false |} Clear 9 40
                   Sample.exeData 9 sky_rain).

Definition ghost_desert : Ghost :=
  Eval vm_compute in
    Runs.ghost_of (init Sample.random Sample.stable Sample.platform Sample.assets_b
                     desert_city {| hasAnimatedDistantLand := false |} Clear 9 40
                     Sample.exeData 9 sky_rain).

Lemma run_desert :
  init Sample.random Sample.stable Sample.platform Sample.assets_b desert_city
    {| hasAnimatedDistantLand := false |} Clear 9 40 Sample.exeData 9 sky_rain =
  Done (sky_desert, ghost_desert).
Proof. vm_compute. reflexivity. Qed.

Lemma sky_rain_reachable :
  reachable Sample.random Sample.stable Sample.platform sky_rain.
Proof.
  exact (@reach_init Sample.random Sample.stable Sample.platform
           Sample.assets_a Sample.city {| hasAnimatedDistantLand := false |} Rain 5 0
           Sample.exeData 0%nat empty_sky sky_rain ghost_rain
           (reach_fresh Sample.random Sample.stable Sample.platform) run_rain).
Qed.

(** X10. The stars are the same everywhere: with a sequence source that
    starts afresh when reseeded, two runs of [init] in clear weather with
    the same star count generate the same star list, sort it the same, and
    append star objects with the same directions in the same order,
    whatever the cities, provinces, days, legacy data, loaders, iteration
    bounds and aggregates (reachable ones) they run on. *)
Theorem X10_stars_are_universal (R : ArenaRandom) (Sorter : StdSort) (P : Platform)
    (assets1 assets2 : Assets) (locationDef1 locationDef2 : LocationDefinition)
    (provinceDef1 provinceDef2 : ProvinceDefinition) (currentDay1 currentDay2 : Z)
    (starCount : Z) (exeData1 exeData2 : ExeData) (fuel1 fuel2 : nat)
    (this1 this2 sky1 sky2 : DistantSky) (g1 g2 : Ghost) :
  reseeds_afresh R ->
  reachable R Sorter P this1 -> reachable R Sorter P this2 ->
  init R Sorter P assets1 locationDef1 provinceDef1 Clear currentDay1 starCount
    exeData1 fuel1 this1 = Done (sky1, g1) ->
  init R Sorter P assets2 locationDef2 provinceDef2 Clear currentDay2 starCount
    exeData2 fuel2 this2 = Done (sky2, g2) ->
  g_generated g1 = g_generated g2 /\ g_sorted g1 = g_sorted g2 /\
  exists new1 new2,
    starObjects sky1 = starObjects this1 ++ new1 /\
    starObjects sky2 = starObjects this2 ++ new2 /\
    map getDirection new1 = map getDirection new2.
Proof.
  intros Hfresh Hreach1 Hreach2 Hrun1 Hrun2.
  assert (Hmade : forall assets loc prov day exe fuel this sky' g',
            reachable R Sorter P this ->
            init R Sorter P assets loc prov Clear day starCount exe fuel this =
              Done (sky', g') ->
            exists (source rest : World R) new,
              (exists r, random source = rng_srand R 305419897 r) /\
              generateStars fuel (Z.to_nat starCount) [false; false; false] [] source =
                Done (g_generated g', rest) /\
              g_sorted g' = std_sort Sorter star_less (g_generated g') /\
              starObjects sky' = starObjects this ++ new /\
              map getDirection new = flat_map (star_directions P) (g_sorted g')).
  { intros assets loc prov day exe fuel this sky' g' Hreach Hrun.
    destruct (@init_refs _ _ _ _ _ _ _ _ _ _ _ _ _ _ (reachable_refs Hreach) Hrun)
      as [[_ Hgrows] _].
    destruct (gr_star Hgrows) as [new Hnew].
    unfold init in Hrun. destruct loc as [cityDef| |]; [|discriminate|discriminate].
    match type of Hrun with
    | match ?m ?w0 with _ => _ end = _ =>
        pose proof (@init_body_stars R Sorter P assets cityDef prov day starCount exe
                      fuel w0 (reachable_ok Hreach)) as Hwp;
        unfold wp in Hwp; destruct (m w0) as [[[] w']| |]; try discriminate
    end.
    injection Hrun as <- <-.
    destruct Hwp as [source [rest [Hsource [Hgen [Hsorted Hdir]]]]].
    exists source, rest, new. split; [exact Hsource|]. split; [exact Hgen|].
    split; [exact Hsorted|]. split; [exact Hnew|].
    cbn [sky] in Hdir. rewrite Hnew, map_app in Hdir.
    apply app_inv_head in Hdir. exact Hdir. }
  destruct (Hmade _ _ _ _ _ _ _ _ _ Hreach1 Hrun1)
    as [s1 [r1 [new1 [[q1 Hq1] [Hgen1 [Hsorted1 [Hnew1 Hdir1]]]]]]].
  destruct (Hmade _ _ _ _ _ _ _ _ _ Hreach2 Hrun2)
    as [s2 [r2 [new2 [[q2 Hq2] [Hgen2 [Hsorted2 [Hnew2 Hdir2]]]]]]].
  assert (Hsame : same_source s1 s2).
  { unfold same_source. rewrite Hq1, Hq2. apply Hfresh. }
  destruct (@wp2_done R _ _ _ _ _ _ _ _ _ _
              (@generateStars_source R fuel1 fuel2 (Z.to_nat starCount)
                 [false; false; false] [] s1 s2 Hsame) Hgen1 Hgen2)
    as [Hgen _].
  assert (Hsorted : g_sorted g1 = g_sorted g2) by congruence.
  split; [exact Hgen|]. split; [exact Hsorted|].
  exists new1, new2. split; [exact Hnew1|]. split; [exact Hnew2|]. congruence.
Qed.

Lemma X10_witness :
  g_generated Runs.ghost_a = g_generated ghost_desert /\
  g_sorted Runs.ghost_a = g_sorted ghost_desert /\
  exists new1 new2,
    starObjects Runs.sky_a = starObjects empty_sky ++ new1 /\
    starObjects sky_desert = starObjects sky_rain ++ new2 /\
    map getDirection new1 = map getDirection new2.
Proof.
  exact (@X10_stars_are_universal Sample.random Sample.stable Sample.platform
           Sample.assets_a Sample.assets_b Sample.city desert_city Sample.province
           {| hasAnimatedDistantLand := false |} 0 9 40 Sample.exeData Sample.exeData
           8%nat 9%nat empty_sky sky_rain Runs.sky_a sky_desert Runs.ghost_a
           ghost_desert sample_reseeds_afresh
           (reach_fresh Sample.random Sample.stable Sample.platform)
           sky_rain_reachable Runs.run_a run_desert).
Defined.

(** ** Inputs that [init] refuses *)

(** Steps over a block whatever it does. *)
Ltac skip_block :=
  lazymatch goal with
  | |- wp (bind _ _) _ _ => apply wp_bind
  | |- _ => idtac
  end;
  apply wp_intro; intros ? ? _; cbv beta.

Lemma init_body_needs_palette (R : ArenaRandom) (Sorter : StdSort) (P : Platform)
    (assets : Assets) (locationDef : LocationDefinition)
    (provinceDef : ProvinceDefinition) (currentDay starCount : Z) (exeData : ExeData)
    (fuel : nat) (w : World R) :
  colFile assets = None ->
  wp (init_body Sorter P assets locationDef provinceDef Clear currentDay starCount
        exeData fuel) (fun _ _ => False) w.
Proof.
  intros Hcol. unfold init_body. destruct locationDef as [cityDef| |]; try exact I.
  wp_step.
  match goal with
  | |- wp (match ?o with _ => _ end) _ _ => destruct o as [traits|]; [|exact I]
  end.
  wp_steps. skip_block. skip_block. skip_block.
  cbn [WeatherType_eqb]. unfold addSpaceObjects.
  skip_block. wp_steps. skip_block. wp_steps. skip_block. wp_steps.
  rewrite Hcol. exact I.
Qed.

(** X11. What [init] refuses: a location that is not a city fails the
    assertion at its start; so does a city when the legacy data has no
    mountain file names; in clear weather a palette that cannot be read
    lets no run return, although it is only read after the mountains, the
    clouds and the moons are made. In other weather the palette is not
    read at all: the result is the same whatever it is. *)
Theorem X11_init_refusals (R : ArenaRandom) (Sorter : StdSort) (P : Platform)
    (assets : Assets) (locationDef : LocationDefinition)
    (provinceDef : ProvinceDefinition) (weatherType : WeatherType)
    (currentDay starCount : Z) (exeData : ExeData) (fuel : nat) (this : DistantSky) :
  ((forall cityDef, locationDef <> CityLocation cityDef) ->
   init R Sorter P assets locationDef provinceDef weatherType currentDay starCount
     exeData fuel this = Abort AssertionFailed) /\
  ((exists cityDef, locationDef = CityLocation cityDef) ->
   distantMountainFilenames exeData = [] ->
   init R Sorter P assets locationDef provinceDef weatherType currentDay starCount
     exeData fuel this = Abort AssertionFailed) /\
  (weatherType = Clear -> colFile assets = None ->
   forall result,
     init R Sorter P assets locationDef provinceDef weatherType currentDay starCount
       exeData fuel this <> Done result) /\
  (weatherType <> Clear ->
   forall palette,
     init R Sorter P
       {| textureManager := textureManager assets; colFile := palette |}
       locationDef provinceDef weatherType currentDay starCount exeData fuel this =
     init R Sorter P assets locationDef provinceDef weatherType currentDay starCount
       exeData fuel this).
Proof.
  split; [|split; [|split]].
  - intros Hnot. unfold init, init_body.
    destruct locationDef as [cityDef| |]; [|reflexivity|reflexivity].
    destruct (Hnot cityDef eq_refl).
  - intros [cityDef ->] Hnone. unfold init, init_body. rewrite Hnone.
    unfold bind at 1.
    destruct (climateType cityDef); cbn [findMountainTraits ClimateType_eqb MountainTraits];
      reflexivity.
  - intros -> Hcol result Hrun. unfold init in Hrun.
    match type of Hrun with
    | match ?m ?w0 with _ => _ end = _ =>
        pose proof (@init_body_needs_palette R Sorter P assets locationDef provinceDef
                      currentDay starCount exeData fuel w0 Hcol) as Hwp;
        unfold wp in Hwp; destruct (m w0) as [[[] w']| |]; [exact Hwp | |];
        discriminate
    end.
  - intros Hweather palette. unfold init, init_body.
    destruct weatherType; [destruct (Hweather eq_refl)| | |]; reflexivity.
Qed.

(** ** File names *)

Lemma set_at_get (i : nat) (c : ascii) :
  forall s s', Cpp.set_at i c s = Some s' ->
    String.length s' = String.length s /\ (i < String.length s)%nat /\
    forall j, String.get j s' = if (j =? i)%nat then Some c else String.get j s.
Proof.
  induction i as [|i IH]; intros [|a rest] s' H; cbn [Cpp.set_at] in H; try discriminate.
  - injection H as <-. cbn. split; [reflexivity|]. split; [lia|].
    intros [|j]; reflexivity.
  - destruct (Cpp.set_at i c rest) as [rest'|] eqn:Hrest; [|discriminate].
    injection H as <-. destruct (IH _ _ Hrest) as [Hlen [Hi Hget]].
    cbn. split; [congruence|]. split; [lia|].
    intros [|j]; [reflexivity|]. cbn. apply Hget.
Qed.

Lemma set_at_None (i : nat) (c : ascii) :
  forall s, Cpp.set_at i c s = None <-> (String.length s <= i)%nat.
Proof.
  induction i as [|i IH]; intros [|a rest]; cbn [Cpp.set_at String.length].
  - split; [lia | reflexivity].
  - split; [discriminate | lia].
  - split; [lia | reflexivity].
  - specialize (IH rest). destruct (Cpp.set_at i c rest).
    + split; [discriminate|]. intros Hle.
      assert (Hno : Some s = None) by (apply IH; lia). discriminate Hno.
    + split; [intros _; assert (String.length rest <= i)%nat by (apply IH; reflexivity); lia
             | reflexivity].
Qed.

(** The loop that writes the digits overwrites the characters from
    [start] on and keeps the others. *)
Lemma writeDigits_get (digits : string) :
  forall (start : Z) (name name' : string),
    0 <= start ->
    writeDigits start digits name = Some name' ->
    String.length name' = String.length name /\
    start + Z.of_nat (String.length digits) <=
      Z.max start (Z.of_nat (String.length name)) /\
    forall j, String.get j name' =
      if (start <=? Z.of_nat j) && (Z.of_nat j <? start + Z.of_nat (String.length digits))
      then String.get (Z.to_nat (Z.of_nat j - start)) digits
      else String.get j name.
Proof.
  induction digits as [|d rest IH]; intros start name name' H0 H; cbn [writeDigits] in H.
  - injection H as <-. cbn [String.length]. split; [reflexivity|]. split; [lia|].
    intros j. cbn [Z.of_nat].
    destruct (Z.leb_spec start (Z.of_nat j)), (Z.ltb_spec (Z.of_nat j) (start + 0));
      try reflexivity; lia.
  - destruct (Z.ltb_spec start 0); [lia|].
    destruct (Cpp.set_at (Z.to_nat start) d name) as [name1|] eqn:Hset; [|discriminate].
    destruct (set_at_get _ _ _ Hset) as [Hlen1 [Hin Hget1]].
    destruct (IH (start + 1) name1 name' ltac:(lia) H) as [Hlen [Hfit Hget]].
    cbn [String.length]. split; [congruence|]. split; [lia|].
    intros j. rewrite Hget, Hget1.
    destruct (Z.leb_spec (start + 1) (Z.of_nat j)),
             (Z.ltb_spec (Z.of_nat j) (start + 1 + Z.of_nat (String.length rest)));
      cbn [andb].
    + destruct (Z.leb_spec start (Z.of_nat j)); [|lia].
      destruct (Z.ltb_spec (Z.of_nat j) (start + Z.of_nat (S (String.length rest))));
        [|lia].
      cbn [andb].
      replace (Z.to_nat (Z.of_nat j - start))
        with (S (Z.to_nat (Z.of_nat j - (start + 1)))) by lia.
      reflexivity.
    + destruct (Nat.eqb_spec j (Z.to_nat start)); [lia|].
      destruct (Z.ltb_spec (Z.of_nat j) (start + Z.of_nat (S (String.length rest))));
        [lia|].
      rewrite andb_false_r. reflexivity.
    + destruct (Nat.eqb_spec j (Z.to_nat start)) as [->|Hne].
      * destruct (Z.leb_spec start (Z.of_nat (Z.to_nat start))); [|lia].
        destruct (Z.ltb_spec (Z.of_nat (Z.to_nat start))
                    (start + Z.of_nat (S (String.length rest)))); [|lia].
        cbn [andb]. replace (Z.of_nat (Z.to_nat start) - start) with 0 by lia.
        reflexivity.
      * destruct (Z.leb_spec start (Z.of_nat j)); [lia|]. reflexivity.
    + lia.
Qed.

Lemma writeDigits_None (digits : string) :
  forall (start : Z) (name : string),
    writeDigits start digits name = None <->
    digits <> EmptyString /\
    (start < 0 \/ Z.of_nat (String.length name) < start + Z.of_nat (String.length digits)).
Proof.
  induction digits as [|d rest IH]; intros start name; cbn [writeDigits].
  - split; [discriminate | intros [H _]; destruct (H eq_refl)].
  - destruct (Z.ltb_spec start 0).
    + split; [intros _; split; [discriminate | left; assumption] | reflexivity].
    + cbn [String.length].
      destruct (Cpp.set_at (Z.to_nat start) d name) as [name1|] eqn:Hset.
      * destruct (set_at_get _ _ _ Hset) as [Hlen1 [Hin _]].
        rewrite IH, Hlen1. split.
        -- intros [_ [Hneg|Hbig]]; [lia|]. split; [discriminate | right; lia].
        -- intros [_ [Hneg|Hbig]]; [lia|].
           destruct rest as [|d' rest']; [cbn in Hbig; lia|].
           split; [discriminate | right; lia].
      * apply set_at_None in Hset.
        split; [intros _; split; [discriminate | right; lia] | reflexivity].
Qed.

Lemma toUppercase_get (s : string) :
  String.length (Cpp.toUppercase s) = String.length s /\
  forall j, String.get j (Cpp.toUppercase s) = option_map Cpp.upper_ascii (String.get j s).
Proof.
  induction s as [|a rest [IHlen IHget]]; cbn.
  - split; [reflexivity | intros j; reflexivity].
  - split; [congruence|]. intros [|j]; [reflexivity | apply IHget].
Qed.

(** X12. The file name of a static object is the template in upper case
    with the variant digits written right-aligned into the field of
    [maxDigits] characters at [pos]: the name keeps the length of the
    template, every character of the field's right part is a digit of the
    variant, every other one is the template's. No name is made exactly
    when there are digits and the field starts before the template or ends
    after it ([std::out_of_range]). The variant is never 0: a remainder of
    0 stands for [var]. *)
Theorem X12_static_file_names (baseFilename digits : string) (pos maxDigits : Z) :
  let start := pos + (maxDigits - Z.of_nat (String.length digits)) in
  (forall name,
     staticFilename baseFilename pos maxDigits digits = Some name ->
     String.length name = String.length baseFilename /\
     forall j, String.get j name =
       option_map Cpp.upper_ascii
         (if (start <=? Z.of_nat j) && (Z.of_nat j <? pos + maxDigits)
          then String.get (Z.to_nat (Z.of_nat j - start)) digits
          else String.get j baseFilename)) /\
  (staticFilename baseFilename pos maxDigits digits = None <->
   digits <> EmptyString /\
   (start < 0 \/ Z.of_nat (String.length baseFilename) < pos + maxDigits)) /\
  (forall var drawn, 0 < var -> 0 <= drawn ->
     exists k, 1 <= k <= var /\ variantDigits var drawn = Cpp.to_string k /\
               (k = drawn mod var \/ (drawn mod var = 0 /\ k = var))).
Proof.
  cbv zeta. unfold staticFilename.
  set (start := pos + (maxDigits - Z.of_nat (String.length digits))).
  split; [|split].
  - intros name H.
    destruct (writeDigits start digits baseFilename) as [written|] eqn:Hw; [|discriminate].
    injection H as <-. destruct (toUppercase_get written) as [Hlen Hget].
    destruct digits as [|d rest].
    + cbn [writeDigits] in Hw. injection Hw as <-. split; [exact Hlen|].
      intros j. rewrite Hget. f_equal. cbn [String.length Z.of_nat] in start.
      destruct (Z.leb_spec start (Z.of_nat j)), (Z.ltb_spec (Z.of_nat j) (pos + maxDigits));
        try reflexivity. unfold start in *. lia.
    + assert (H0 : 0 <= start).
      { destruct (Z.ltb_spec start 0) as [Hneg|]; [|assumption].
        assert (Hnone : writeDigits start (String d rest) baseFilename = None)
          by (apply writeDigits_None; split; [discriminate | left; exact Hneg]).
        congruence. }
      destruct (writeDigits_get _ _ H0 Hw) as [Hlen' [_ Hget']].
      split; [congruence|]. intros j. rewrite Hget, Hget'.
      replace (start + Z.of_nat (String.length (String d rest))) with (pos + maxDigits)
        by (unfold start; lia).
      reflexivity.
  - destruct (writeDigits start digits baseFilename) as [written|] eqn:Hw.
    + split; [discriminate|]. intros Hbad.
      assert (Hnone : writeDigits start digits baseFilename = None).
      { apply writeDigits_None. destruct Hbad as [Hne Hbad]. split; [exact Hne|].
        destruct Hbad as [Hneg|Hbig]; [left; exact Hneg | right; unfold start; lia]. }
      congruence.
    + split; [|reflexivity]. intros _. apply writeDigits_None in Hw.
      destruct Hw as [Hne Hbad]. split; [exact Hne|].
      destruct Hbad as [Hneg|Hbig]; [left; exact Hneg | right; unfold start in Hbig; lia].
  - intros var drawn Hvar Hdrawn. unfold variantDigits.
    pose proof (rem_draw_range Hdrawn Hvar) as Hr.
    assert (Hmod : Cpp.rem drawn var = drawn mod var)
      by (unfold Cpp.rem; apply Z.rem_mod_nonneg; lia).
    destruct (Z.eqb_spec (Cpp.rem drawn var) 0) as [Hz|Hnz].
    + exists var. split; [lia|]. split; [reflexivity|]. right. split; [congruence | reflexivity].
    + exists (Cpp.rem drawn var). split; [lia|]. split; [reflexivity|]. left. exact Hmod.
Qed.

(** ** The ranges of the generated stars *)

(** What the casts and masks of the star loop leave of the numbers drawn:
    offsets of a sub-star that fit the seven bits left by the shift, and a
    colour among the ten palette entries from 64. *)
Definition sub_bounds (sub : SubStar) : Prop :=
  -64 <= sub_dx sub <= 63 /\ -64 <= sub_dy sub <= 63 /\ 64 <= sub_color sub <= 73.

(** A star has coordinates of twelve bits and a sign; it is a
    constellation of two to five sub-stars, or a large star of a type from
    0 to 7 without sub-stars. *)
Definition star_bounds (s : Star) : Prop :=
  (-4095 <= star_x s <= 4095 /\ -4095 <= star_y s <= 4095 /\
   -4095 <= star_z s <= 4095) /\
  ((star_type s = NO_STAR_TYPE /\ (2 <= List.length (subList s) <= 5)%nat /\
    Forall sub_bounds (subList s)) \/
   (0 <= star_type s <= 7 /\ subList s = [])).

(** The number of star objects that a star is converted to. *)
Definition objects_of (s : Star) : nat :=
  if star_type s =? -1 then List.length (subList s) else 1%nat.

Lemma rndCoord_range (drawn : Z) : -4095 <= rndCoord drawn <= 4095.
Proof.
  unfold rndCoord. cbv zeta.
  assert (Hd : 0 <= Z.land (2048 + drawn) 4095 < 4096).
  { change 4095 with (Z.ones 12). rewrite Z.land_ones by lia.
    change (2 ^ 12) with 4096. apply Z.mod_pos_bound. lia. }
  assert (Hcast : Cpp.to_int16 (Z.land (2048 + drawn) 4095) = Z.land (2048 + drawn) 4095).
  { unfold Cpp.to_int16. cbv zeta. rewrite Z.mod_small by lia.
    destruct (Z.ltb_spec (Z.land (2048 + drawn) 4095) 32768); [reflexivity | lia]. }
  rewrite Hcast.
  destruct (Z.land (Z.land (2048 + drawn) 4095) 2 =? 0); lia.
Qed.

Lemma sub_offset_range (v : Z) :
  -64 <= Cpp.to_int8 (Z.shiftr (Cpp.to_int16 v) 9) <= 63.
Proof.
  assert (H16 : -32768 <= Cpp.to_int16 v <= 32767).
  { unfold Cpp.to_int16. cbv zeta. pose proof (Z.mod_pos_bound v 65536 eq_refl).
    destruct (Z.ltb_spec (v mod 65536) 32768); lia. }
  rewrite Z.shiftr_div_pow2 by lia. change (2 ^ 9) with 512.
  set (q := Cpp.to_int16 v / 512).
  assert (Hq : -64 <= q <= 63).
  { unfold q. split.
    - apply Z.div_le_lower_bound; lia.
    - apply Z.lt_succ_r. apply Z.div_lt_upper_bound; lia. }
  unfold Cpp.to_int8. cbv zeta.
  destruct (Z.ltb_spec q 0) as [Hneg|Hpos].
  - assert (Hm : q mod 256 = q + 256).
    { symmetry. apply (Z.mod_unique q 256 (-1)); lia. }
    rewrite Hm. destruct (Z.ltb_spec (q + 256) 128); lia.
  - rewrite Z.mod_small by lia. destruct (Z.ltb_spec q 128); lia.
Qed.

Lemma length_star_directions (P : Platform) (s : Star) :
  List.length (star_directions P s) = objects_of s.
Proof.
  unfold star_directions, objects_of.
  destruct (star_type s =? -1); [apply length_map | reflexivity].
Qed.

Lemma length_flat_directions (P : Platform) (l : list Star) :
  List.length (flat_map (star_directions P) l) = list_sum (map objects_of l).
Proof.
  induction l as [|s l IH]; [reflexivity|].
  unfold list_sum in *. cbn [flat_map map fold_right].
  rewrite length_app, length_star_directions, IH. reflexivity.
Qed.

Lemma objects_of_sum_perm (l l' : list Star) :
  Permutation l l' -> list_sum (map objects_of l) = list_sum (map objects_of l').
Proof.
  induction 1 as [|x l l' _ IH|x y l|l l' l'' _ IH1 _ IH2];
    unfold list_sum in *; cbn [map fold_right]; [reflexivity | lia | lia | congruence].
Qed.

Lemma objects_of_bounds (l : list Star) :
  Forall star_bounds l ->
  (List.length l <= list_sum (map objects_of l) <= 5 * List.length l)%nat.
Proof.
  induction 1 as [|s l [_ Hs] _ IH]; unfold list_sum in *;
    cbn [map fold_right List.length]; [lia|].
  assert (Hone : (1 <= objects_of s <= 5)%nat).
  { unfold objects_of. destruct Hs as [[Ht [Hn _]]|[Ht _]].
    - rewrite Ht. cbn. lia.
    - destruct (Z.eqb_spec (star_type s) (-1)); lia. }
  lia.
Qed.

Section StarBounds.

Variable R : ArenaRandom.

Lemma makeSubStars_bounds (n : nat) :
forall (acc : list SubStar) (w : World R),
  Forall sub_bounds acc ->
  wp (makeSubStars n acc)
     (fun subs _ => Forall sub_bounds subs /\
                    List.length subs = (List.length acc + n)%nat) w.
Proof.
induction n as [|n IH]; intros acc w Hacc; cbn [makeSubStars]; wp_steps.
- split; [exact Hacc | lia].
- eapply wp_mono.
  + apply IH. apply Forall_app. split; [exact Hacc|]. constructor; [|constructor].
    unfold sub_bounds. cbn [sub_dx sub_dy sub_color].
    split; [apply sub_offset_range|]. split; [apply sub_offset_range|].
    unfold Cpp.to_uint8.
    match goal with
    | |- context [Cpp.rem ?v 10] =>
        pose proof (@rem_draw_range v 10 (proj1 (rng_next_range R _)) eq_refl) as Hr
    end.
    rewrite Z.mod_small by lia. lia.
  + intros subs w' [Hsubs Hlen]. split; [exact Hsubs|].
    rewrite Hlen, length_app. cbn [List.length]. lia.
Qed.

Lemma generateStar_bounds (fuel : nat) (planets : list bool) (w : World R) :
wp (generateStar fuel planets) (fun sp _ => star_bounds (fst sp)) w.
Proof.
unfold generateStar, getRndCoord. wp_steps.
match goal with
| |- wp (if ?b then _ else _) _ _ => destruct b
end; wp_steps.
- match goal with
  | |- context [Cpp.rem ?v 4] =>
      pose proof (@rem_draw_range v 4 (proj1 (rng_next_range R _)) eq_refl) as Hr
  end.
  eapply wp_mono; [apply makeSubStars_bounds; constructor|].
  intros subs w' [Hsubs Hlen]. wp_steps. cbn [fst].
  split; [repeat split; apply rndCoord_range|].
  left. cbn [star_type subList]. split; [reflexivity|]. split; [|exact Hsubs].
  rewrite Hlen. cbn [List.length]. lia.
- eapply wp_mono; [apply drawLargeStarType_effect|].
  intros value w' [_ [Hv _]]. wp_steps.
  destruct (5 <=? value); wp_steps; cbn [fst].
  all: (split; [repeat split; apply rndCoord_range|]).
  all: right; cbn [star_type subList]; split; [lia | reflexivity].
Qed.

Lemma generateStars_bounds (fuel n : nat) :
forall (planets : list bool) (l : list Star) (w : World R),
  Forall star_bounds l ->
  wp (generateStars fuel n planets l)
     (fun stars _ => Forall star_bounds stars /\
                     List.length stars = (List.length l + n)%nat) w.
Proof.
induction n as [|n IH]; intros planets l w Hl; cbn [generateStars]; wp_steps.
- split; [exact Hl | lia].
- eapply wp_mono; [apply generateStar_bounds|].
  intros [star planets'] w' Hstar. cbn [fst snd] in *.
  eapply wp_mono.
  + apply IH. apply Forall_app. split; [exact Hl|]. constructor; [exact Hstar|constructor].
  + intros stars w'' [Hstars Hlen]. split; [exact Hstars|].
    rewrite Hlen, length_app. cbn [List.length]. lia.
Qed.

End StarBounds.

(** X13. The ranges of the stars. After [init] in clear weather, run on a
    reachable aggregate, as many stars are generated as were asked for
    (none for a negative count); each has coordinates from -4095 to 4095
    and is a constellation of two to five sub-stars, with offsets from -64
    to 63 and colours from 64 to 73, or a large star of a type from 0 to 7.
    One star object is appended for each sub-star and one for each large
    star: at least as many as stars and at most five times as many. *)
Theorem X13_star_ranges (R : ArenaRandom) (Sorter : StdSort) (P : Platform)
    (assets : Assets) (locationDef : LocationDefinition)
    (provinceDef : ProvinceDefinition) (currentDay starCount : Z)
    (exeData : ExeData) (fuel : nat) (this sky' : DistantSky) (g' : Ghost) :
  reachable R Sorter P this ->
  init R Sorter P assets locationDef provinceDef Clear currentDay starCount
    exeData fuel this = Done (sky', g') ->
  Z.of_nat (List.length (g_generated g')) = Z.max 0 starCount /\
  Forall star_bounds (g_generated g') /\
  Forall star_bounds (g_sorted g') /\
  getStarObjectCount sky' =
    getStarObjectCount this + Z.of_nat (list_sum (map objects_of (g_generated g'))) /\
  Z.max 0 starCount <= getStarObjectCount sky' - getStarObjectCount this
    <= 5 * Z.max 0 starCount.
Proof.
  intros Hreach Hrun.
  destruct (@init_refs _ _ _ _ _ _ _ _ _ _ _ _ _ _ (reachable_refs Hreach) Hrun)
    as [[_ Hgrows] _].
  destruct (gr_star Hgrows) as [new Hnew].
  unfold init in Hrun. destruct locationDef as [cityDef| |]; [|discriminate|discriminate].
  match type of Hrun with
  | match ?m ?w0 with _ => _ end = _ =>
      pose proof (@init_body_stars R Sorter P assets cityDef provinceDef currentDay
                    starCount exeData fuel w0 (reachable_ok Hreach)) as Hwp;
      unfold wp in Hwp; destruct (m w0) as [[[] w']| |]; try discriminate
  end.
  injection Hrun as <- <-.
  destruct Hwp as [source [rest [_ [Hgen [Hsorted Hdir]]]]].
  cbn [sky] in Hdir. rewrite Hnew, map_app in Hdir. apply app_inv_head in Hdir.
  destruct (@wp_done R _ _ _ _ _ _
              (@generateStars_bounds R fuel (Z.to_nat starCount)
                 [false; false; false] [] source (Forall_nil _)) Hgen)
    as [Hbounds Hlen].
  cbn [List.length Nat.add] in Hlen.
  assert (Hperm : Permutation (g_generated (ghost w')) (g_sorted (ghost w')))
    by (rewrite Hsorted; apply std_sort_perm).
  assert (Hcount : List.length new = list_sum (map objects_of (g_generated (ghost w')))).
  { rewrite <- (length_map getDirection), Hdir, length_flat_directions.
    symmetry. apply objects_of_sum_perm. exact Hperm. }
  pose proof (objects_of_bounds Hbounds) as Hsum.
  split; [rewrite Hlen; lia|]. split; [exact Hbounds|].
  split; [exact (Permutation_Forall Hperm Hbounds)|].
  unfold getStarObjectCount. rewrite Hnew, length_app, Hcount. split; lia.
Qed.

Lemma X13_witness :
  Z.of_nat (List.length (g_generated Runs.ghost_a)) = Z.max 0 40 /\
  Forall star_bounds (g_generated Runs.ghost_a) /\
  Forall star_bounds (g_sorted Runs.ghost_a) /\
  getStarObjectCount Runs.sky_a =
    getStarObjectCount empty_sky +
    Z.of_nat (list_sum (map objects_of (g_generated Runs.ghost_a))) /\
  Z.max 0 40 <= getStarObjectCount Runs.sky_a - getStarObjectCount empty_sky
    <= 5 * Z.max 0 40.
Proof.
  exact (@X13_star_ranges Sample.random Sample.stable Sample.platform Sample.assets_a
           Sample.city Sample.province 0 40 Sample.exeData 8%nat empty_sky Runs.sky_a
           Runs.ghost_a (reach_fresh Sample.random Sample.stable Sample.platform)
           Runs.run_a).
Defined.

(** ** A frame set from outside *)

Lemma advance_frame_above (n : Z) (k : nat) (obj : AnimatedLandObject float) :
  0 < n -> n - 1 <= index obj ->
  index (Nat.iter (S k) (advance_frame n) obj) = Z.of_nat k mod n.
Proof.
  intros Hn Hi. rewrite Nat.iter_succ_r.
  rewrite advance_frame_index.
  - cbn [advance_frame index]. destruct (Z.ltb_spec (index obj) (n - 1)); [lia|].
    reflexivity.
  - cbn [advance_frame index]. destruct (Z.ltb_spec (index obj) (n - 1)); lia.
Qed.

Lemma advance_frame_below (n : Z) (k : nat) (obj : AnimatedLandObject float) :
  0 < n -> Z.of_nat k <= - index obj ->
  index (Nat.iter k (advance_frame n) obj) = index obj + Z.of_nat k.
Proof.
  intros Hn. induction k as [|k IH]; intros Hk.
  - cbn [Nat.iter nat_rect Z.of_nat]. lia.
  - rewrite Nat.iter_succ. cbn [advance_frame index]. rewrite IH by lia.
    destruct (Z.ltb_spec (index obj + Z.of_nat k) (n - 1)); lia.
Qed.

Lemma advance_frame_from_below (n : Z) (k : nat) (obj : AnimatedLandObject float) :
  0 < n -> index obj < 0 -> - index obj < Z.of_nat k ->
  index (Nat.iter k (advance_frame n) obj) = (index obj + Z.of_nat k) mod n.
Proof.
  intros Hn Hi Hk.
  set (m := Z.to_nat (- index obj)).
  replace k with ((k - m) + m)%nat by lia.
  rewrite Nat.iter_add.
  assert (Hm : index (Nat.iter m (advance_frame n) obj) = 0).
  { rewrite advance_frame_below by lia. lia. }
  rewrite advance_frame_index by lia. rewrite Hm. f_equal. lia.
Qed.

(** X14. [setIndex] stores any number, also one that is no frame of the
    texture set, and changes nothing else; [update] then checks nothing
    but repairs it. With [n > 0] frames and [k] passes of the loop, an
    index at or above [n] is left alone by a call that makes
    no pass and is [(k - 1) mod n] after [k > 0] passes, the first pass
    having reset it to 0; a negative index rises by one a pass until it
    reaches 0 and cycles from there. So after any pass an index that was
    not negative is a frame of the set. *)
Theorem X14_update_repairs_set_index (fuel : nat) (dt : float) (n i : Z)
    (obj obj' : AnimatedLandObject float) :
  0 < n ->
  update fuel dt n (setIndex i obj) = Some obj' ->
  setEntryIndex (setIndex i obj) = setEntryIndex obj /\
  anim_angleRadians (setIndex i obj) = anim_angleRadians obj /\
  targetFrameTime (setIndex i obj) = targetFrameTime obj /\
  currentFrameTime (setIndex i obj) = currentFrameTime obj /\
  exists k : nat,
    (k <= fuel)%nat /\
    currentFrameTime obj' =
      Nat.iter k (fun c => (c - targetFrameTime obj)%float)
               (currentFrameTime obj + dt)%float /\
    (n <= i -> index obj' = if (k =? 0)%nat then i else (Z.of_nat k - 1) mod n) /\
    (i < 0 -> index obj' = if Z.of_nat k <=? - i then i + Z.of_nat k
                           else (i + Z.of_nat k) mod n) /\
    (0 <= i -> (1 <= k)%nat -> 0 <= index obj' < n).
Proof.
  intros Hn H. repeat (split; [reflexivity|]).
  unfold update in H. destruct (Z.ltb_spec 0 n) as [_|]; [|lia].
  destruct (frame_loop_passes _ _ _ H) as [k [Hk [Heq _]]].
  exists k. subst obj'. split; [exact Hk|].
  split; [rewrite advance_frame_time; reflexivity|].
  assert (Hidx : index (accumulate dt (setIndex i obj)) = i) by reflexivity.
  split; [|split].
  - intros Hi. destruct k as [|k]; [exact Hidx|].
    rewrite advance_frame_above by (try rewrite Hidx; lia).
    cbn [Nat.eqb]. f_equal. lia.
  - intros Hi. destruct (Z.leb_spec (Z.of_nat k) (- i)).
    + rewrite advance_frame_below by (try rewrite Hidx; lia). rewrite Hidx. reflexivity.
    + rewrite advance_frame_from_below by (try rewrite Hidx; lia). rewrite Hidx.
      reflexivity.
  - intros Hi Hpos. destruct (Z.ltb_spec i (n - 1)).
    + rewrite advance_frame_index by (rewrite Hidx; lia).
      apply Z.mod_pos_bound. exact Hn.
    + destruct k as [|k]; [lia|].
      rewrite advance_frame_above by (try rewrite Hidx; lia).
      apply Z.mod_pos_bound. exact Hn.
Qed.

(** The object of the scenario with its frame set to 7, beyond its three
    frames. *)
Definition stray_frame_object : AnimatedLandObject float := setIndex 7 three_frame_object.

Lemma X14_witness :
  setEntryIndex stray_frame_object = setEntryIndex three_frame_object /\
  anim_angleRadians stray_frame_object = anim_angleRadians three_frame_object /\
  targetFrameTime stray_frame_object = targetFrameTime three_frame_object /\
  currentFrameTime stray_frame_object = currentFrameTime three_frame_object /\
  exists k : nat,
    (k <= 2)%nat /\
    currentFrameTime
      {| setEntryIndex := 0; anim_angleRadians := 0%float; targetFrameTime := 1%float;
         currentFrameTime := 0.5%float; index := 1 |} =
      Nat.iter k (fun c => (c - targetFrameTime three_frame_object)%float)
               (currentFrameTime three_frame_object + 2.5)%float /\
    (3 <= 7 ->
     index {| setEntryIndex := 0; anim_angleRadians := 0%float;
              targetFrameTime := 1%float; currentFrameTime := 0.5%float; index := 1 |} =
     if (k =? 0)%nat then 7 else (Z.of_nat k - 1) mod 3) /\
    (7 < 0 ->
     index {| setEntryIndex := 0; anim_angleRadians := 0%float;
              targetFrameTime := 1%float; currentFrameTime := 0.5%float; index := 1 |} =
     if Z.of_nat k <=? - 7 then 7 + Z.of_nat k else (7 + Z.of_nat k) mod 3) /\
    (0 <= 7 -> (1 <= k)%nat ->
     0 <= index {| setEntryIndex := 0; anim_angleRadians := 0%float;
                   targetFrameTime := 1%float; currentFrameTime := 0.5%float;
                   index := 1 |} < 3).
Proof.
  exact (@X14_update_repairs_set_index 2%nat 2.5%float 3 7 three_frame_object
           {| setEntryIndex := 0; anim_angleRadians := 0%float; targetFrameTime := 1%float;
              currentFrameTime := 0.5%float; index := 1 |}
           eq_refl eq_refl).
Defined.

(** ** The images of the moons *)

Lemma find_index_app (name : string) (l added : list string) (i : Z) :
  find_index name l = Some i -> find_index name (l ++ added) = Some i.
Proof.
  revert i. induction l as [|n l IH]; intros i H; [discriminate|].
  cbn [find_index app] in *. destruct (String.eqb n name); [exact H|].
  destruct (find_index name l) as [j|]; [|discriminate].
  rewrite (IH j eq_refl). exact H.
Qed.

Lemma getTextureEntryIndex_grow (s s' : DistantSky) (name : string) (i : Z) :
  (exists added, textures s' = textures s ++ added) ->
  getTextureEntryIndex s name = Some i -> getTextureEntryIndex s' name = Some i.
Proof.
  intros [added Hadd] H. unfold getTextureEntryIndex in *.
  rewrite Hadd, map_app. apply find_index_app. exact H.
Qed.

(** A moon of a type that has the entry that the lookup of its file name
    finds in [s], when it finds one. *)
Definition moon_reused (exeData : ExeData) (s : DistantSky) (type : MoonType)
    (m : MoonObject) : Prop :=
  forall raw i,
    checked_nth (moonFilenames exeData) (moonIndex type) = Done raw ->
    getTextureEntryIndex s (Cpp.toUppercase raw) = Some i ->
    moon_entryIndex m = i.

Section MoonImages.

Variable R : ArenaRandom.
Variable Sorter : StdSort.
Variable P : Platform.

(** A step that leaves the moons and only appends to the textures. *)
Definition moons_kept (w w' : World R) : Prop :=
moonObjects (sky w') = moonObjects (sky w) /\
exists added, textures (sky w') = textures (sky w) ++ added.

Ltac kept_same :=
unfold moons_kept; sky_simpl;
split; [reflexivity | exists []; symmetry; apply app_nil_r].

Lemma moons_kept_refl (w : World R) : moons_kept w w.
Proof. kept_same. Qed.

Lemma moons_kept_trans (w1 w2 w3 : World R) :
moons_kept w1 w2 -> moons_kept w2 w3 -> moons_kept w1 w3.
Proof.
intros [Hm1 [a1 Ha1]] [Hm2 [a2 Ha2]]. split; [congruence|].
exists (a1 ++ a2). rewrite Ha2, Ha1, app_assoc. reflexivity.
Qed.

Lemma fixEntryIndexIfMissing_moons (tm : TextureManager) (name : string)
  (entryIndex : option Z) (w : World R) :
wp (fixEntryIndexIfMissing tm name entryIndex) (fun _ w' => moons_kept w w') w.
Proof.
unfold fixEntryIndexIfMissing, moons_kept.
destruct entryIndex; wp_steps; sky_simpl.
- split; [reflexivity | exists []; symmetry; apply app_nil_r].
- split; [reflexivity | eexists; reflexivity].
Qed.

Lemma makeMoon_reuses (tm : TextureManager) (currentDay : Z) (exeData : ExeData)
  (type : MoonType) (w : World R) :
wp (makeMoon tm currentDay exeData type)
   (fun m w' => moons_kept w w' /\ moon_reused exeData (sky w) type m) w.
Proof.
unfold makeMoon, moon_reused. wp_steps.
match goal with
| |- context [getTextureEntryIndex ?s ?nm] =>
    destruct (getTextureEntryIndex s nm) as [i|] eqn:Hfind
end; wp_steps; sky_simpl.
- split; [kept_same|].
  intros raw j Hraw Hj. cbn [moon_entryIndex]. congruence.
- split; [split; [reflexivity | eexists; reflexivity]|].
  intros raw j Hraw Hj. congruence.
Qed.

Lemma convertStar_moons (tm : TextureManager) (palette : list Z) (exeData : ExeData)
  (star : Star) (w : World R) :
wp (convertStar P tm palette exeData star) (fun _ w' => moons_kept w w') w.
Proof.
unfold convertStar.
destruct (star_type star =? -1).
- pose proof (@wp_for_each R SubStar (fun _ w' => moons_kept w w')) as Hloop.
  eapply wp_mono; [apply (Hloop _ (subList star) [])|].
  + intros pre sub w' _ Hstep. do 2 wp_step. wp_steps. sky_simpl.
    eapply moons_kept_trans; [exact Hstep|]. kept_same.
  + apply moons_kept_refl.
  + intros [] w' H. exact H.
- wp_steps.
  match goal with
  | |- wp (match ?o with _ => _ end) _ _ => destruct o as [name|]; [|exact I]
  end.
  wp_steps.
  eapply wp_mono; [apply fixEntryIndexIfMissing_moons|].
  intros i w' Hstep. wp_steps. sky_simpl.
  eapply moons_kept_trans; [exact Hstep|]. kept_same.
Qed.

Lemma addSpaceObjects_moons (assets : Assets) (currentDay starCount : Z)
  (exeData : ExeData) (fuel : nat) (w : World R) :
wp (addSpaceObjects Sorter P assets currentDay starCount exeData fuel)
   (fun _ w' =>
      exists m1 m2,
        moonObjects (sky w') = moonObjects (sky w) ++ [m1; m2] /\
        moon_reused exeData (sky w) First m1 /\
        moon_reused exeData (sky w) Second m2) w.
Proof.
unfold addSpaceObjects. wp_steps.
eapply wp_mono; [apply makeMoon_reuses|].
intros m1 w1 [[Hmoon1 Hgrow1] Hm1]. wp_steps.
eapply wp_mono; [apply makeMoon_reuses|].
intros m2 w2 [[Hmoon2 Hgrow2] Hm2]. sky_simpl. wp_steps.
eapply wp_mono; [apply generateStars_effect; exact stars_good_start|].
intros stars w3 [[Hs3 Hg3] _]. sky_simpl. wp_steps.
destruct (colFile assets) as [palette|]; [|exact I]. wp_steps.
match goal with
| |- wp (for_each ?l ?body) _ ?w4 =>
    pose proof (@wp_for_each R Star (fun _ w' => moons_kept w4 w') body l []) as Hloop
end.
eapply wp_mono; [apply Hloop|].
- intros pre star w' _ Hstep.
  eapply wp_mono; [apply convertStar_moons|].
  intros [] w'' Hone. exact (moons_kept_trans Hstep Hone).
- apply moons_kept_refl.
- intros [] w5 [Hmoon5 _]. wp_steps.
  eapply wp_mono; [apply fixEntryIndexIfMissing_moons|].
  intros i w6 [Hmoon6 _]. wp_steps. sky_simpl.
  exists m1, m2. split; [|split; [exact Hm1|]].
  + rewrite Hmoon6, Hmoon5. sky_simpl. rewrite Hs3. sky_simpl.
    rewrite Hmoon2. sky_simpl. rewrite Hmoon1, <- app_assoc. reflexivity.
  + intros raw i2 Hraw Hi2. apply (Hm2 raw i2 Hraw).
    apply (@getTextureEntryIndex_grow (sky w)); [|exact Hi2].
    sky_simpl. exact Hgrow1.
Qed.

Lemma init_body_moons (assets : Assets) (cityDef : CityDefinition)
  (provinceDef : ProvinceDefinition) (currentDay starCount : Z) (exeData : ExeData)
  (fuel : nat) (w : World R) :
sky_ok (sky w) (ghost w) ->
wp (init_body Sorter P assets (CityLocation cityDef) provinceDef Clear
      currentDay starCount exeData fuel)
   (fun _ w' =>
      exists m1 m2,
        moonObjects (sky w') = moonObjects (sky w) ++ [m1; m2] /\
        moon_reused exeData (sky w) First m1 /\
        moon_reused exeData (sky w) Second m2) w.
Proof.
intros Hok. unfold init_body.
wp_step.
match goal with
| |- wp (match ?o with _ => _ end) _ _ => destruct o as [traits|]; [|exact I]
end.
wp_steps.
match goal with
| |- wp (placeStaticObjects _ _ _ _ _ _ _) _ ?w1 =>
    eapply wp_mono;
      [apply (@placeStaticObjects_effect R _ _ _ _ _ _ _ w1); exact Hok|]
end.
intros [] w1 Hstep1. sky_simpl. wp_step.
eapply wp_mono; [apply addClouds_effect; exact (ss_ok Hstep1)|].
intros [] w2 Hstep2. wp_step.
assert (Hanim : wp (if hasAnimatedDistantLand provinceDef
                    then addAnimatedLand P (textureManager assets) cityDef exeData
                    else ret tt)
                   (fun _ w3 => moons_kept w2 w3) w2).
{ destruct (hasAnimatedDistantLand provinceDef).
  - eapply wp_mono; [apply addAnimatedLand_effect; exact (cs_ok Hstep2)|].
    intros [] w3 [Hq _]. split; [exact (qs_moon Hq) | exact (sg_textures (qs_grow Hq))].
  - wp_steps. apply moons_kept_refl. }
eapply wp_mono; [exact Hanim|]. clear Hanim.
intros [] w3 [Hmoon3 Hgrow3]. cbv beta. cbn [WeatherType_eqb].
eapply wp_mono; [apply addSpaceObjects_moons|].
intros [] w4 [m1 [m2 [Hmoons [Hm1 Hm2]]]].
assert (Hgrow : exists added, textures (sky w3) = textures (sky w) ++ added).
{ destruct Hgrow3 as [a3 Ha3]. destruct (sg_textures (cs_grow Hstep2)) as [a2 Ha2].
  destruct (sg_textures (ss_grow Hstep1)) as [a1 Ha1]. sky_simpl.
  exists (a1 ++ a2 ++ a3). rewrite Ha3, Ha2, Ha1, <- !app_assoc. reflexivity. }
exists m1, m2. split; [|split].
- rewrite Hmoons, Hmoon3, (cs_moon Hstep2). pose proof (ss_moon Hstep1) as Hm.
  sky_simpl. rewrite Hm. reflexivity.
- intros raw i Hraw Hi. apply (Hm1 raw i Hraw).
  exact (@getTextureEntryIndex_grow _ _ _ _ Hgrow Hi).
- intros raw i Hraw Hi. apply (Hm2 raw i Hraw).
  exact (@getTextureEntryIndex_grow _ _ _ _ Hgrow Hi).
Qed.

End MoonImages.

(** X15. A moon keeps the image it was first given. When [init] runs in
    clear weather on a reachable aggregate whose textures already hold an
    entry for the file name of a moon, on a day for which [currentDay + 14]
    is an [int], the moon it appends for that type refers to that entry,
    the entry holds the image it held, and no phase of the new day is
    looked up, the loader not being invoked for the file of the moon: only
    the phase percentage follows the day. *)
Theorem X15_moon_image_is_kept (R : ArenaRandom) (Sorter : StdSort) (P : Platform)
    (assets : Assets) (locationDef : LocationDefinition)
    (provinceDef : ProvinceDefinition) (currentDay starCount : Z)
    (exeData : ExeData) (fuel : nat) (this sky' : DistantSky) (g' : Ghost)
    (type : MoonType) (raw : string) (i : Z) :
  reachable R Sorter P this ->
  init R Sorter P assets locationDef provinceDef Clear currentDay starCount
    exeData fuel this = Done (sky', g') ->
  -2147483648 <= currentDay -> currentDay + 14 < 2147483648 ->
  checked_nth (moonFilenames exeData) (moonIndex type) = Done raw ->
  getTextureEntryIndex this (Cpp.toUppercase raw) = Some i ->
  exists m img,
    getMoonObject sky' (getMoonObjectCount this + moonIndex type) = Done m /\
    moon_type m = type /\
    moon_entryIndex m = i /\
    getTexture this i = Done img /\ getTexture sky' i = Done img /\
    ~ In (TextureStore, Cpp.toUppercase raw) (g_loads g') /\
    phasePercent m =
      (Cpp.to_double (moonPhaseIndex currentDay type) / Cpp.to_double 32)%float.
Proof.
  intros Hreach Hrun _ _ Hraw Hi.
  destruct (@init_refs _ _ _ _ _ _ _ _ _ _ _ _ _ _ (reachable_refs Hreach) Hrun)
    as [[_ Hgrows] _].
  destruct (gr_textures Hgrows) as [added Hadded].
  destruct (@init_effect R Sorter P _ _ _ _ _ _ _ _ _ _ _ (reachable_ok Hreach) Hrun)
    as [cityDef [Hcity Heff]].
  assert (Hquiet : ~ In (TextureStore, Cpp.toUppercase raw) (g_loads g')).
  { destruct (init_log _ _ _ _ _ _ _ _ _ _ _ _ Hrun)
      as [lands [airs [anims [moons [stars [sun [addedT [addedS [Happ _]]]]]]]]].
    apply (@appended_not_loaded _ _ _ _ _ Happ (ok_names (sky_store (re_ok Heff)) TextureStore)).
    unfold getTextureEntryIndex in Hi. destruct (find_index_Some _ _ Hi) as [_ Hnth].
    exact (nth_error_In _ _ Hnth). }
  pose proof (re_moon Heff) as Hmoon. cbn [WeatherType_eqb] in Hmoon.
  destruct Hmoon as [a1 [a2 [Ha [[Hp1 Ht1] [Hp2 Ht2]]]]].
  subst locationDef. unfold init in Hrun.
  match type of Hrun with
  | match ?m ?w0 with _ => _ end = _ =>
      pose proof (@init_body_moons R Sorter P assets cityDef provinceDef currentDay
                    starCount exeData fuel w0 (reachable_ok Hreach)) as Hwp;
      unfold wp in Hwp; destruct (m w0) as [[[] w']| |]; try discriminate
  end.
  injection Hrun as <- <-.
  destruct Hwp as [m1 [m2 [Hmoons [Hm1 Hm2]]]]. cbn [sky] in *.
  assert (Hsame : a1 = m1 /\ a2 = m2).
  { rewrite Ha in Hmoons. apply app_inv_head in Hmoons.
    injection Hmoons as <- <-. split; reflexivity. }
  destruct Hsame as [<- <-].
  assert (Hin : exists img, getTexture this i = Done img).
  { apply getTexture_in. unfold in_textures.
    apply find_index_bound in Hi. rewrite length_map in Hi. exact Hi. }
  destruct Hin as [img Himg].
  assert (Himg' : getTexture (sky w') i = Done img).
  { unfold getTexture in *. rewrite Hadded.
    destruct (checked_nth (textures this) i) as [e| |] eqn:He; try discriminate.
    rewrite (checked_nth_prefix _ added _ He). exact Himg. }
  assert (Hnth : forall k m, nth_error [a1; a2] k = Some m ->
            getMoonObject (sky w') (getMoonObjectCount this + Z.of_nat k) = Done m).
  { intros k m Hk. unfold getMoonObject, getMoonObjectCount.
    apply checked_nth_Done. split; [lia|].
    rewrite Ha, nth_error_app2 by lia.
    replace (Z.to_nat (Z.of_nat (List.length (moonObjects this)) + Z.of_nat k) -
             List.length (moonObjects this))%nat with k by lia.
    exact Hk. }
  destruct type.
  - exists a1, img. split; [exact (Hnth 0%nat a1 eq_refl)|].
    split; [exact Ht1|]. split; [exact (Hm1 raw i Hraw Hi)|].
    split; [exact Himg|]. split; [exact Himg'|]. split; [exact Hquiet | exact Hp1].
  - exists a2, img. split; [exact (Hnth 1%nat a2 eq_refl)|].
    split; [exact Ht2|]. split; [exact (Hm2 raw i Hraw Hi)|].
    split; [exact Himg|]. split; [exact Himg'|]. split; [exact Hquiet | exact Hp2].
Qed.

(** The entry of the first moon in the sample aggregate. *)
Definition first_moon_entry : Z :=
  Eval vm_compute in
    match getTextureEntryIndex Runs.sky_a (Cpp.toUppercase "moon1.dfa") with
    | Some i => i
    | None => -1
    end.

Lemma first_moon_entry_found :
  getTextureEntryIndex Runs.sky_a (Cpp.toUppercase "moon1.dfa") = Some first_moon_entry.
Proof. vm_compute. reflexivity. Qed.

Lemma X15_witness :
  exists m img,
    getMoonObject sky_again (getMoonObjectCount Runs.sky_a + moonIndex First) = Done m /\
    moon_type m = First /\
    moon_entryIndex m = first_moon_entry /\
    getTexture Runs.sky_a first_moon_entry = Done img /\
    getTexture sky_again first_moon_entry = Done img /\
    ~ In (TextureStore, Cpp.toUppercase "moon1.dfa") (g_loads ghost_again) /\
    phasePercent m =
      (Cpp.to_double (moonPhaseIndex 3 First) / Cpp.to_double 32)%float.
Proof.
  exact (@X15_moon_image_is_kept Sample.random Sample.stable Sample.platform
           Sample.assets_a Sample.city Sample.province 3 40 Sample.exeData 8%nat
           Runs.sky_a sky_again ghost_again First "moon1.dfa" first_moon_entry
           sky_a_reachable run_again ltac:(lia) ltac:(lia) eq_refl
           first_moon_entry_found).
Defined.

(** ** The animated land *)

Section AnimatedLandBlock.

Variable R : ArenaRandom.
Variable Sorter : StdSort.
Variable P : Platform.

(** A step that touches neither the texture sets nor the animated land. *)
Definition sets_kept (w w' : World R) : Prop :=
textureSets (sky w') = textureSets (sky w) /\
animLandObjects (sky w') = animLandObjects (sky w).

Ltac sets_same := unfold sets_kept; sky_simpl; split; reflexivity.

Lemma sets_kept_refl (w : World R) : sets_kept w w.
Proof. sets_same. Qed.

Lemma sets_kept_trans (w1 w2 w3 : World R) :
sets_kept w1 w2 -> sets_kept w2 w3 -> sets_kept w1 w3.
Proof. intros [Hs1 Ha1] [Hs2 Ha2]. split; congruence. Qed.

Lemma fixEntryIndexIfMissing_sets (tm : TextureManager) (name : string)
  (entryIndex : option Z) (w : World R) :
wp (fixEntryIndexIfMissing tm name entryIndex) (fun _ w' => sets_kept w w') w.
Proof.
unfold fixEntryIndexIfMissing. destruct entryIndex; wp_steps; sets_same.
Qed.

Lemma placeStaticObject_sets (tm : TextureManager) (baseFilename : string)
  (pos var maxDigits : Z) (randomHeight : bool) (w : World R) :
wp (placeStaticObject tm baseFilename pos var maxDigits randomHeight)
   (fun _ w' => sets_kept w w') w.
Proof.
unfold placeStaticObject. wp_steps.
destruct randomHeight; wp_steps; cbn [negb]; wp_steps.
all: eapply wp_mono; [apply fixEntryIndexIfMissing_sets|].
all: intros i w' Hstep; wp_steps; sky_simpl.
all: eapply sets_kept_trans; [|eapply sets_kept_trans; [exact Hstep|]]; sets_same.
Qed.

Lemma placeStaticObjects_sets (tm : TextureManager) (count : Z) (baseFilename : string)
  (pos var maxDigits : Z) (randomHeight : bool) (w : World R) :
wp (placeStaticObjects tm count baseFilename pos var maxDigits randomHeight)
   (fun _ w' => sets_kept w w') w.
Proof.
unfold placeStaticObjects.
apply (wp_repeat (fun _ w' => sets_kept w w')).
- intros i w' _ Hstep.
  eapply wp_mono; [apply placeStaticObject_sets|].
  intros [] w'' Hone. exact (sets_kept_trans Hstep Hone).
- apply sets_kept_refl.
Qed.

Lemma addClouds_sets (tm : TextureManager) (weatherType : WeatherType)
  (currentDay : Z) (exeData : ExeData) (w : World R) :
wp (addClouds tm weatherType currentDay exeData) (fun _ w' => sets_kept w w') w.
Proof.
unfold addClouds. destruct (WeatherType_eqb weatherType Clear); wp_steps.
- eapply wp_mono; [apply placeStaticObjects_sets|].
  intros [] w' Hstep. eapply sets_kept_trans; [|exact Hstep]. sets_same.
- apply sets_kept_refl.
Qed.

Lemma makeMoon_sets (tm : TextureManager) (currentDay : Z) (exeData : ExeData)
  (type : MoonType) (w : World R) :
wp (makeMoon tm currentDay exeData type) (fun _ w' => sets_kept w w') w.
Proof.
unfold makeMoon. wp_steps.
match goal with
| |- context [getTextureEntryIndex ?s ?nm] => destruct (getTextureEntryIndex s nm)
end; wp_steps; sets_same.
Qed.

Lemma convertStar_sets (tm : TextureManager) (palette : list Z) (exeData : ExeData)
  (star : Star) (w : World R) :
wp (convertStar P tm palette exeData star) (fun _ w' => sets_kept w w') w.
Proof.
unfold convertStar.
destruct (star_type star =? -1).
- pose proof (@wp_for_each R SubStar (fun _ w' => sets_kept w w')) as Hloop.
  eapply wp_mono; [apply (Hloop _ (subList star) [])|].
  + intros pre sub w' _ Hstep. do 2 wp_step. wp_steps. sky_simpl.
    eapply sets_kept_trans; [exact Hstep|]. sets_same.
  + apply sets_kept_refl.
  + intros [] w' H. exact H.
- wp_steps.
  match goal with
  | |- wp (match ?o with _ => _ end) _ _ => destruct o as [name|]; [|exact I]
  end.
  wp_steps.
  eapply wp_mono; [apply fixEntryIndexIfMissing_sets|].
  intros i w' Hstep. wp_steps. sky_simpl.
  eapply sets_kept_trans; [exact Hstep|]. sets_same.
Qed.

Lemma addSpaceObjects_sets (assets : Assets) (currentDay starCount : Z)
  (exeData : ExeData) (fuel : nat) (w : World R) :
wp (addSpaceObjects Sorter P assets currentDay starCount exeData fuel)
   (fun _ w' => sets_kept w w') w.
Proof.
unfold addSpaceObjects. wp_steps.
eapply wp_mono; [apply makeMoon_sets|].
intros m1 w1 Hstep1. wp_steps.
eapply wp_mono; [apply makeMoon_sets|].
intros m2 w2 Hstep2. sky_simpl. wp_steps.
eapply wp_mono; [apply generateStars_effect; exact stars_good_start|].
intros stars w3 [[Hs3 Hg3] _]. sky_simpl. wp_steps.
destruct (colFile assets) as [palette|]; [|exact I]. wp_steps.
match goal with
| |- wp (for_each ?l ?body) _ ?w4 =>
    assert (Hstep4 : sets_kept w w4);
      [|pose proof (@wp_for_each R Star (fun _ w' => sets_kept w w') body l [])
          as Hloop]
end.
{ destruct Hstep1 as [Ht1 Ha1]. destruct Hstep2 as [Ht2 Ha2].
  unfold sets_kept. sky_simpl. rewrite Hs3. sky_simpl. split; congruence. }
eapply wp_mono; [apply Hloop|].
- intros pre star w' _ Hstep.
  eapply wp_mono; [apply convertStar_sets|].
  intros [] w'' Hone. exact (sets_kept_trans Hstep Hone).
- exact Hstep4.
- intros [] w5 Hstep5. wp_steps.
  eapply wp_mono; [apply fixEntryIndexIfMissing_sets|].
  intros i w6 Hstep6. wp_steps. sky_simpl.
  eapply sets_kept_trans; [exact Hstep5|].
  eapply sets_kept_trans; [exact Hstep6|]. sets_same.
Qed.

(** What the block of the animated land makes of the city, the legacy
  data and the loader, from the aggregate [s] to [s']. *)
Definition anim_land_made (tm : TextureManager) (cityDef : CityDefinition)
  (exeData : ExeData) (s s' : DistantSky) : Prop :=
let here := getLocalCityPoint P (citySeed cityDef) in
let dist := getDistance P here {| int2_x := 132; int2_y := 52 |} in
exists raw a,
  checked_nth (animDistantMountainFilenames exeData)
    (if dist <? 80 then 0 else if dist <? 150 then 1 else 2) = Done raw /\
  animLandObjects s' = animLandObjects s ++ [a] /\
  index a = 0 /\ currentFrameTime a = 0%float /\
  targetFrameTime a = DEFAULT_FRAME_TIME P /\
  PrimFloat.ltb 0%float (DEFAULT_FRAME_TIME P) = true /\
  anim_angleRadians a =
    atan2 P (Cpp.to_double (int2_y here - 52)) (Cpp.to_double (132 - int2_x here)) /\
  match getTextureSetEntryIndex s (Cpp.toUppercase raw) with
  | Some i => setEntryIndex a = i /\ textureSets s' = textureSets s
  | None =>
      setEntryIndex a = Z.of_nat (List.length (textureSets s)) /\
      textureSets s' =
        textureSets s ++
        [{| set_filename := Cpp.toUppercase raw;
            set_textures :=
              match Cpp.find ".DFA" (Cpp.toUppercase raw) with
              | Some _ => make8BitSurfaces tm (Cpp.toUppercase raw)
              | None => [make8BitSurface tm (Cpp.toUppercase raw)]
              end |}]
  end.

Lemma anim_land_made_like (tm : TextureManager) (cityDef : CityDefinition)
  (exeData : ExeData) (s s' t t' : DistantSky) :
textureSets t = textureSets s -> animLandObjects t = animLandObjects s ->
textureSets t' = textureSets s' -> animLandObjects t' = animLandObjects s' ->
anim_land_made tm cityDef exeData s s' -> anim_land_made tm cityDef exeData t t'.
Proof.
intros Hs Ha Hs' Ha'. unfold anim_land_made, getTextureSetEntryIndex. cbv zeta.
rewrite Hs, Ha, Hs', Ha'. intros H. exact H.
Qed.

Lemma addAnimatedLand_made (tm : TextureManager) (cityDef : CityDefinition)
  (exeData : ExeData) (w : World R) :
wp (addAnimatedLand P tm cityDef exeData)
   (fun _ w' => anim_land_made tm cityDef exeData (sky w) (sky w')) w.
Proof.
unfold addAnimatedLand, anim_land_made. cbv zeta. cbn [int2_x int2_y]. wp_steps.
match goal with
| H : checked_nth _ _ = Done ?raw |- _ => rename H into Hraw; set (name := raw) in *
end.
destruct (getTextureSetEntryIndex (sky w) (Cpp.toUppercase name)) as [i|] eqn:Hfind.
- wp_steps. unfold makeAnimatedLandObject.
  destruct (clock_positive (DEFAULT_FRAME_TIME P)) eqn:Hpos; [|exact I].
  wp_steps. sky_simpl. exists name. eexists.
  split; [exact Hraw|]. split; [reflexivity|].
  cbn [index currentFrameTime targetFrameTime anim_angleRadians setEntryIndex].
  repeat (split; [first [reflexivity | exact Hpos]|]). rewrite Hfind.
  split; reflexivity.
- destruct (Cpp.find ".DFA" (Cpp.toUppercase name)) eqn:Hdfa; wp_steps;
    unfold makeAnimatedLandObject;
    (destruct (clock_positive (DEFAULT_FRAME_TIME P)) eqn:Hpos; [|exact I]);
    wp_steps; sky_simpl; exists name; eexists;
    (split; [exact Hraw|]); (split; [reflexivity|]);
    cbn [index currentFrameTime targetFrameTime anim_angleRadians setEntryIndex];
    repeat (split; [first [reflexivity | exact Hpos]|]); rewrite Hfind;
    (split; [rewrite length_app; cbn [List.length]; lia|]);
    try rewrite Hdfa; reflexivity.
Qed.

Lemma init_body_animated (assets : Assets) (cityDef : CityDefinition)
  (provinceDef : ProvinceDefinition) (weatherType : WeatherType)
  (currentDay starCount : Z) (exeData : ExeData) (fuel : nat) (w : World R) :
wp (init_body Sorter P assets (CityLocation cityDef) provinceDef weatherType
      currentDay starCount exeData fuel)
   (fun _ w' =>
      if hasAnimatedDistantLand provinceDef
      then anim_land_made (textureManager assets) cityDef exeData (sky w) (sky w')
      else sets_kept w w') w.
Proof.
unfold init_body.
wp_step.
match goal with
| |- wp (match ?o with _ => _ end) _ _ => destruct o as [traits|]; [|exact I]
end.
wp_steps.
eapply wp_mono; [apply placeStaticObjects_sets|].
intros [] w1 [Hs1 Ha1]. sky_simpl. wp_step.
eapply wp_mono; [apply addClouds_sets|].
intros [] w2 [Hs2 Ha2]. wp_step.
destruct (hasAnimatedDistantLand provinceDef).
- eapply wp_mono; [apply addAnimatedLand_made|].
  intros [] w3 Hmade. cbv beta.
  assert (Hrest : wp (if WeatherType_eqb weatherType Clear
                      then addSpaceObjects Sorter P assets currentDay starCount
                             exeData fuel
                      else ret tt) (fun _ w4 => sets_kept w3 w4) w3).
  { destruct (WeatherType_eqb weatherType Clear);
      [apply addSpaceObjects_sets | wp_steps; apply sets_kept_refl]. }
  eapply wp_mono; [exact Hrest|].
  intros [] w4 [Hs4 Ha4].
  apply (anim_land_made_like (s := sky w2) (s' := sky w3)); try assumption;
    sky_simpl; congruence.
- wp_steps.
  assert (Hrest : wp (if WeatherType_eqb weatherType Clear
                      then addSpaceObjects Sorter P assets currentDay starCount
                             exeData fuel
                      else ret tt) (fun _ w4 => sets_kept w2 w4) w2).
  { destruct (WeatherType_eqb weatherType Clear);
      [apply addSpaceObjects_sets | wp_steps; apply sets_kept_refl]. }
  eapply wp_mono; [exact Hrest|].
  intros [] w4 [Hs4 Ha4]. split; congruence.
Qed.

End AnimatedLandBlock.

(** X16. The animated land. [init] touches the texture sets and the
    animated land objects only in the block of the animated land: in a
    province without it both are left as they were, in any weather. In a
    province with it, exactly one object is appended, with its frame and
    clock at 0, the default frame time (which is positive) and the angle
    [atan2(y - 52, 132 - x)] of the city's point [(x, y)]; its texture set
    is the one named by the legacy file name chosen by the distance to
    [(132, 52)] (below 80, below 150, beyond), in upper case: the set that
    is already there under that name, or else a new last set that holds
    all the loaded frames for a name with [.DFA] and one single image for
    any other name. *)
Theorem X16_animated_land (R : ArenaRandom) (Sorter : StdSort) (P : Platform)
    (assets : Assets) (locationDef : LocationDefinition)
    (provinceDef : ProvinceDefinition) (weatherType : WeatherType)
    (currentDay starCount : Z) (exeData : ExeData) (fuel : nat)
    (this sky' : DistantSky) (g' : Ghost) :
  init R Sorter P assets locationDef provinceDef weatherType currentDay starCount
    exeData fuel this = Done (sky', g') ->
  exists cityDef,
    locationDef = CityLocation cityDef /\
    (hasAnimatedDistantLand provinceDef = false ->
     animLandObjects sky' = animLandObjects this /\
     textureSets sky' = textureSets this) /\
    (hasAnimatedDistantLand provinceDef = true ->
     let here := getLocalCityPoint P (citySeed cityDef) in
     let dist := getDistance P here {| int2_x := 132; int2_y := 52 |} in
     exists raw a,
       checked_nth (animDistantMountainFilenames exeData)
         (if dist <? 80 then 0 else if dist <? 150 then 1 else 2) = Done raw /\
       animLandObjects sky' = animLandObjects this ++ [a] /\
       index a = 0 /\ currentFrameTime a = 0%float /\
       targetFrameTime a = DEFAULT_FRAME_TIME P /\
       PrimFloat.ltb 0%float (DEFAULT_FRAME_TIME P) = true /\
       anim_angleRadians a =
         atan2 P (Cpp.to_double (int2_y here - 52))
                 (Cpp.to_double (132 - int2_x here)) /\
       match getTextureSetEntryIndex this (Cpp.toUppercase raw) with
       | Some i => setEntryIndex a = i /\ textureSets sky' = textureSets this
       | None =>
           setEntryIndex a = Z.of_nat (List.length (textureSets this)) /\
           textureSets sky' =
             textureSets this ++
             [{| set_filename := Cpp.toUppercase raw;
                 set_textures :=
                   match Cpp.find ".DFA" (Cpp.toUppercase raw) with
                   | Some _ => make8BitSurfaces (textureManager assets)
                                 (Cpp.toUppercase raw)
                   | None => [make8BitSurface (textureManager assets)
                                (Cpp.toUppercase raw)]
                   end |}]
       end).
Proof.
  intros Hrun. unfold init in Hrun.
  destruct locationDef as [cityDef| |]; [|discriminate|discriminate].
  exists cityDef. split; [reflexivity|].
  match type of Hrun with
  | match ?m ?w0 with _ => _ end = _ =>
      pose proof (@init_body_animated R Sorter P assets cityDef provinceDef weatherType
                    currentDay starCount exeData fuel w0) as Hwp;
      unfold wp in Hwp; destruct (m w0) as [[[] w']| |]; try discriminate
  end.
  injection Hrun as <- <-. cbn [sky] in Hwp.
  split; intros Hanim; rewrite Hanim in Hwp.
  - destruct Hwp as [Hs Ha]. split; assumption.
  - exact Hwp.
Qed.

Lemma X16_witness :
  exists cityDef,
    Sample.city = CityLocation cityDef /\
    (hasAnimatedDistantLand Sample.province = false ->
     animLandObjects Runs.sky_a = animLandObjects empty_sky /\
     textureSets Runs.sky_a = textureSets empty_sky) /\
    (hasAnimatedDistantLand Sample.province = true ->
     let here := getLocalCityPoint Sample.platform (citySeed cityDef) in
     let dist := getDistance Sample.platform here {| int2_x := 132; int2_y := 52 |} in
     exists raw a,
       checked_nth (animDistantMountainFilenames Sample.exeData)
         (if dist <? 80 then 0 else if dist <? 150 then 1 else 2) = Done raw /\
       animLandObjects Runs.sky_a = animLandObjects empty_sky ++ [a] /\
       index a = 0 /\ currentFrameTime a = 0%float /\
       targetFrameTime a = DEFAULT_FRAME_TIME Sample.platform /\
       PrimFloat.ltb 0%float (DEFAULT_FRAME_TIME Sample.platform) = true /\
       anim_angleRadians a =
         atan2 Sample.platform (Cpp.to_double (int2_y here - 52))
                 (Cpp.to_double (132 - int2_x here)) /\
       match getTextureSetEntryIndex empty_sky (Cpp.toUppercase raw) with
       | Some i => setEntryIndex a = i /\ textureSets Runs.sky_a = textureSets empty_sky
       | None =>
           setEntryIndex a = Z.of_nat (List.length (textureSets empty_sky)) /\
           textureSets Runs.sky_a =
             textureSets empty_sky ++
             [{| set_filename := Cpp.toUppercase raw;
                 set_textures :=
                   match Cpp.find ".DFA" (Cpp.toUppercase raw) with
                   | Some _ => make8BitSurfaces (textureManager Sample.assets_a)
                                 (Cpp.toUppercase raw)
                   | None => [make8BitSurface (textureManager Sample.assets_a)
                                (Cpp.toUppercase raw)]
                   end |}]
       end).
Proof.
  exact (@X16_animated_land Sample.random Sample.stable Sample.platform Sample.assets_a
           Sample.city Sample.province Clear 0 40 Sample.exeData 8%nat empty_sky
           Runs.sky_a Runs.ghost_a Runs.run_a).
Defined.

(** ** The sun *)

(** The entry at [i] is the one of [name]; it was found by the lookup or
    is the image the loader has for the name. *)
Definition entry_of (tm : TextureManager) (s s' : DistantSky) (name : string) (i : Z)
  : Prop :=
  exists e,
    checked_nth (textures s') i = Done e /\ filename e = name /\
    (getTextureEntryIndex s name = None -> texture e = make8BitSurface tm name).

Section Sun.

Variable R : ArenaRandom.
Variable Sorter : StdSort.
Variable P : Platform.

Lemma fixEntryIndexIfMissing_named (tm : TextureManager) (name : string) (w : World R) :
wp (fixEntryIndexIfMissing tm name (getTextureEntryIndex (sky w) name))
   (fun i w' => entry_of tm (sky w) (sky w') name i) w.
Proof.
unfold fixEntryIndexIfMissing, entry_of.
destruct (getTextureEntryIndex (sky w) name) as [i|] eqn:Hfind; wp_steps; sky_simpl.
- unfold getTextureEntryIndex in Hfind.
  destruct (find_index_Some _ _ Hfind) as [Hi Hnth].
  rewrite nth_error_map in Hnth.
  destruct (nth_error (textures (sky w)) (Z.to_nat i)) as [e|] eqn:He; [|discriminate].
  exists e. split; [apply checked_nth_Done; split; assumption|].
  split; [injection Hnth as ->; reflexivity | discriminate].
- exists {| filename := name; texture := make8BitSurface tm name |}.
  split; [|split; [|intros _]]; [|reflexivity..].
  apply checked_nth_Done. split; [rewrite length_app; cbn [List.length]; lia|].
  rewrite length_app. cbn [List.length].
  replace (Z.to_nat (Z.of_nat (List.length (textures (sky w)) + 1) - 1))
    with (List.length (textures (sky w))) by lia.
  rewrite nth_error_app2, Nat.sub_diag by lia. reflexivity.
Qed.

Lemma init_body_sun (assets : Assets) (cityDef : CityDefinition)
  (provinceDef : ProvinceDefinition) (currentDay starCount : Z) (exeData : ExeData)
  (fuel : nat) (w : World R) :
wp (init_body Sorter P assets (CityLocation cityDef) provinceDef Clear
      currentDay starCount exeData fuel)
   (fun _ w' =>
      exists i e,
        sunEntryIndex (sky w') = Some i /\
        checked_nth (textures (sky w')) i = Done e /\
        filename e = Cpp.toUppercase (sunFilename exeData)) w.
Proof.
unfold init_body.
wp_step.
match goal with
| |- wp (match ?o with _ => _ end) _ _ => destruct o as [traits|]; [|exact I]
end.
wp_steps. skip_block. skip_block. skip_block.
cbn [WeatherType_eqb]. unfold addSpaceObjects.
skip_block. wp_steps. skip_block. wp_steps. skip_block. wp_steps.
destruct (colFile assets) as [palette|]; [|exact I]. wp_steps.
skip_block. wp_steps.
eapply wp_mono; [apply fixEntryIndexIfMissing_named|].
intros i wf [e [He [Hname _]]]. wp_steps. sky_simpl.
exists i, e. split; [reflexivity|]. split; assumption.
Qed.

End Sun.

(** X17. The sun. In clear weather [init] leaves the aggregate with a sun
    whose index addresses the texture entry named by the legacy sun file
    name in upper case, an entry that [getTexture] returns; an aggregate
    that already held an entry of that name keeps using it, at its old
    index. In any other weather the sun is left as it was: an aggregate
    first initialised without clear weather has none. *)
Theorem X17_sun_entry (R : ArenaRandom) (Sorter : StdSort) (P : Platform)
    (assets : Assets) (locationDef : LocationDefinition)
    (provinceDef : ProvinceDefinition) (weatherType : WeatherType)
    (currentDay starCount : Z) (exeData : ExeData) (fuel : nat)
    (this sky' : DistantSky) (g' : Ghost) :
  reachable R Sorter P this ->
  init R Sorter P assets locationDef provinceDef weatherType currentDay starCount
    exeData fuel this = Done (sky', g') ->
  (weatherType = Clear ->
   hasSun sky' = true /\
   exists i e,
     getSunEntryIndex sky' = Done i /\
     checked_nth (textures sky') i = Done e /\
     filename e = Cpp.toUppercase (sunFilename exeData) /\
     getTexture sky' i = Done (texture e) /\
     (forall j, getTextureEntryIndex this (Cpp.toUppercase (sunFilename exeData)) = Some j ->
                i = j)) /\
  (weatherType <> Clear ->
   sunEntryIndex sky' = sunEntryIndex this /\ hasSun sky' = hasSun this).
Proof.
  intros Hreach Hrun.
  destruct (@init_effect R Sorter P _ _ _ _ _ _ _ _ _ _ _ (reachable_ok Hreach) Hrun)
    as [cityDef [Hcity Heff]].
  split.
  - intros ->. subst locationDef. unfold init in Hrun.
    match type of Hrun with
    | match ?m ?w0 with _ => _ end = _ =>
        pose proof (@init_body_sun R Sorter P assets cityDef provinceDef currentDay
                      starCount exeData fuel w0) as Hwp;
        unfold wp in Hwp; destruct (m w0) as [[[] w']| |]; try discriminate
    end.
    injection Hrun as <- <-. destruct Hwp as [i [e [Hsun [He Hname]]]].
    unfold hasSun, getSunEntryIndex. rewrite Hsun. split; [reflexivity|].
    exists i, e. split; [reflexivity|]. split; [exact He|]. split; [exact Hname|].
    split; [unfold getTexture; rewrite He; reflexivity|].
    intros j Hj.
    destruct (sg_textures (re_grow Heff)) as [added Hadded].
    pose proof (ok_names (sky_store (re_ok Heff)) TextureStore) as Hnd.
    cbn [names] in Hnd.
    unfold getTextureEntryIndex in Hj. destruct (find_index_Some _ _ Hj) as [Hj0 Hjn].
    apply checked_nth_Done in He. destruct He as [Hi0 Hin].
    assert (Hj' : nth_error (map filename (textures (sky w'))) (Z.to_nat j) =
                  Some (Cpp.toUppercase (sunFilename exeData))).
    { rewrite Hadded, map_app, nth_error_app1; [exact Hjn|].
      apply nth_error_Some. congruence. }
    assert (Hi' : nth_error (map filename (textures (sky w'))) (Z.to_nat i) =
                  Some (Cpp.toUppercase (sunFilename exeData))).
    { rewrite nth_error_map, Hin. cbn [option_map]. rewrite Hname. reflexivity. }
    assert (Hlt : (Z.to_nat i < List.length (map filename (textures (sky w'))))%nat)
      by (apply nth_error_Some; congruence).
    pose proof (proj1 (NoDup_nth_error _) Hnd (Z.to_nat i) (Z.to_nat j) Hlt
                  ltac:(congruence)) as Heq.
    lia.
  - intros Hweather. pose proof (re_sun Heff) as Hsun.
    destruct weatherType; [destruct (Hweather eq_refl)| | |];
      cbn [WeatherType_eqb] in Hsun; unfold hasSun; rewrite Hsun; split; reflexivity.
Qed.

Lemma X17_witness :
  (Clear = Clear ->
   hasSun Runs.sky_a = true /\
   exists i e,
     getSunEntryIndex Runs.sky_a = Done i /\
     checked_nth (textures Runs.sky_a) i = Done e /\
     filename e = Cpp.toUppercase (sunFilename Sample.exeData) /\
     getTexture Runs.sky_a i = Done (texture e) /\
     (forall j,
        getTextureEntryIndex empty_sky (Cpp.toUppercase (sunFilename Sample.exeData)) =
          Some j -> i = j)) /\
  (Clear <> Clear ->
   sunEntryIndex Runs.sky_a = sunEntryIndex empty_sky /\
   hasSun Runs.sky_a = hasSun empty_sky).
Proof.
  exact (@X17_sun_entry Sample.random Sample.stable Sample.platform Sample.assets_a
           Sample.city Sample.province Clear 0 40 Sample.exeData 8%nat empty_sky
           Runs.sky_a Runs.ghost_a
           (reach_fresh Sample.random Sample.stable Sample.platform) Runs.run_a).
Defined.

(** ** The file names of the large stars *)




